(* ===== verification/_CoqProject ===== *)
-Q . S2P
Prelude.v
Text.v
Markdown.v
Models.v
Duration.v
Ratelimit.v
Secret.v
Config.v
Wire.v
Chrono.v
Elevate.v
Auth.v
Db.v
Connect.v
Startup.v
Rows.v
Store.v
Sessions.v
Keyset.v
Sample.v
Notify.v
Scheduler.v
View.v
Prune.v
Forms.v
Channels.v
Errors.v
Access.v
Templates.v
Web.v
Middleware.v
Assets.v
Account.v
Listing.v
Owner.v
Pages.v
Dashboard.v
Admin.v
Dto.v
Api.v
UserAdmin.v
Ping.v
Router.v
Perimeter.v
Links.v
Silence.v
Lifecycle.v
CrossSite.v
PingUrl.v
