(* ===== verification/Prelude.v ===== *)
(** * pingward: a verification development

    pingward is a dead-man's-switch monitor. Jobs request [/ping/<uuid>]; a scan loop
    finds the checks that were not pinged in time; outages and recoveries are delivered
    to notification channels; users manage checks through a web interface and a JSON API.
    This library models its Rust code ([src/src/**/*.rs]) as executable Rocq definitions
    and proves what makes each part correct.

    ** The parts, and where they are modelled

    Below everything:
    - [Prelude] (this file): results ([res]), panics ([exec]), checked machine integers,
      the shared automation. [Text]: Rust's [str] and the library functions on it.
      [Chrono]: what is relied on of the crates chrono, chrono_tz and cron. [Wire]:
      requests, e-mails and background tasks, the process's output.
    - [Db]: the tables of [migrations/] and the monad [M] of code that uses them.

    Without effects, one file per source file:
    - [Models]: [models.rs], the string-backed enumerations and the records.
      [Duration]: [duration.rs]. [Markdown]: [markdown.rs]. [View]: [view.rs].
    - [Config]: [config.rs], the configuration [Config::from_map] reads and the cascades
      of the two intervals. [Connect]: [db.rs]. [Startup]: [main.rs], [shutdown.rs].
    - [Secret]: [secret.rs] and [apikey.rs]. [Ratelimit]: [ratelimit.rs]. [Elevate]:
      [elevate.rs]. The last two are mutex-protected maps: one operation is one step on
      the map, taking the monotonic clock as an argument.
    - [Auth]: the pure half of [auth.rs] (session lifetime, trusted proxies, passwords).
      [Errors]: [error.rs]. [Assets]: [assets.rs].

    [store.rs], one [stmt] per SQL statement:
    - [Rows]: the row decoders and parameter records; [Store]: the methods on users, keys,
      projects, checks, channels, notifications, audit and settings; [Sessions]: the
      session methods and the extractors of [auth.rs]; [Keyset]: the pagination and the
      listings. [Sample]: a database for the witnesses.

    What happens by itself and by pings:
    - [Notify]: [notify.rs], the texts, the requests per kind of channel, retry and
      delivery. [Scheduler]: [scheduler.rs], deadlines, one scan, one reminder pass, the
      loop. [Prune]: [prune.rs]. [Ping]: [ping.rs], the ping endpoint and the state
      machine of a check.

    [web.rs] and its templates, by subject:
    - [Forms] and [Channels]: the validators. [Templates]: what Askama is handed.
      [Web]: cookies, sign-in, elevation, the CSRF guard. [Middleware]: the layers.
      [Access]: the resolvers of owners and administrators.
    - [Account]: flashes and the account page. [Listing]: labels, filters, orders and
      links. [Owner]: the handlers that write projects, checks, bindings and channels, on
      both surfaces. [Pages]: those that show them. [Dashboard], [Admin], [UserAdmin].

    [api/]: [Dto], the bodies and representations; [Api], the handlers.

    The whole: [Router] routes a request through the tables of every router, runs the
    extractors and the layers, and calls the handlers above: [Router.app] is [app()] of
    [lib.rs]. The last six files prove properties of it: [Perimeter], of requests of
    nobody known; [Links], of the addresses the pages print; [Silence], that no request but
    a ping announces anything or puts a check down; [Lifecycle], of the outages of a check
    over the loops, the deliveries and all requests, against an abstract machine of two
    states; [CrossSite], of requests a browser was made to send; [PingUrl], of the address
    a job requests.

    A definition has the name of the function or type it models; records have the fields
    of the structs under a short prefix ([c_status] for [Check::status]). The requests a
    router can dispatch to one surface are an inductive type ([OwnerRequest],
    [AdminRequest], [UserRequest], [ApiRequest] and so on), each with its handler, so that
    a property of a surface is one theorem over that type.

    ** State and effects

    Asynchronous code that touches the database, the clock, the network or the task
    spawner is a term of [M A = Env -> World -> exec A * World]. [World] holds the tables,
    how many statements, clock readings and UUIDs were consumed, the live-tail signals,
    the spawned tasks, what was sent, and the memory the handlers share ([Mem]: the two
    limiters and the elevations of [AppState]; one locked operation is one [on_mem], at
    one reading of the monotonic clock). [Env] is everything the process does not
    control: the clocks, the UUIDs, the answers of the network, and which statements fail.
    A statement ([stmt]) is atomic: it fails and changes nothing, or runs. So a theorem
    quantified over [Env] covers every pattern of database failures between statements,
    and [calm e] says that none fails. The awaits of one handler are its sequence of
    statements; theorems about several requests compose them in order. Requests that
    overlap are modelled where it matters most, by composing the parts of two of them in
    turn: two deletions ([concurrent_deletes_remove_every_admin]), two pings
    ([overlapping_pings_recover_twice]), a scan and another request
    ([scan_acts_on_snapshot]).

    A web handler takes what its extractors yield (the user, the path, the decoded form)
    and returns a [Response] or an [AppError]. Of a rendered template its fields are kept,
    as a [Page]; a [CookieJar] is what the request sent and what the handler changed.

    Tables are finite maps from their key to a row with the columns of the schema:
    timestamps and enumerations are TEXT and are decoded when read, as in the code, so a
    row that does not decode is an error path of the model too. [AUTOINCREMENT] counters,
    unique keys, foreign keys and cascades are those of the migrations. Comparisons that
    SQL makes on text are made on text.

    Instants are nanoseconds since the epoch; [i64], [u32] and [u64] are [Z] with the
    checked or saturating operation the code calls; [f64] is [SpecFloat]'s binary64; a
    Rust panic is [Panic] (out-of-range durations and instants of chrono, [unreachable!],
    [expect]).

    ** Parameters

    Third-party code is a class, its documented behaviour a class of laws:
    - [Chrono] and [ChronoLaws] (text of an instant, its order and inverse, the range of
      durations), [Cron] and [CronLaws], [PageText] and [PageTextLaws] (dates on pages);
    - [Crypto] and [CryptoLaws] (digests are 32 bytes; nothing else is assumed, and
      forgery is always stated as a collision), [Argon2], [IpText];
    - [NotifyDeps], [JsonText] and [JsonTextLaws] (JSON, mailboxes, messages, relays);
    - [FormUrl] (the form decoder the CSRF guard calls), [CookieParse] and
      [CookieParseLaws], [Extract] and [ExtractLaws] (what Axum and serde read out of a
      request), [ApiText] (the JSON text of bodies, the OpenAPI document);
    - [Embedded] (the bytes of the embedded files and the standard hasher), [AnyDriver]
      (sqlx), [HashOrder] (the order of a [HashSet], unspecified).
    [SampleChrono] and the sample instances of the other files are the concrete functions
    witnesses run on.

    ** Fuel and bounds

    - [run_scan_loop] and [run_prune_loop] run until the shutdown signal; their fuel is a
      number of passes and every theorem about them is for all fuels or needs one pass.
    - [retry_loop] recurses on the attempts left, [max(1, max_attempts)] as in the [for]
      of the source; [send_with_retry_exact] shows how many are made.
    - The walks over pages in [paging_complete] and [history_is_complete] take the number
      of rows plus one as fuel, and reach the end with it.
    - [inline_loop], [strip_links_loop] and [get_fields] take the length of the text,
      which every turn shortens. [show_Z] takes the binary length of the number as fuel;
      [digits_fuel_spec] shows that it suffices.

    ** What the theorems show

    - Alerting: the deliveries started for a check, over any sequence of passes of the
      loops and requests to the application, are those of a run of the two-state machine in
      which requests other than pings may end an outage silently, as pausing does, and
      only a ping that is not answered 200 may also begin one so ([alerts_refine_outages]);
      a missed deadline is announced by the next scan ([missed_deadline_announced]); what
      one scan, one reminder pass and one ping do under any failures ([scan_once_effect],
      [nag_once_effect], [ping_apply_effect]); a stored period beyond chrono's range stops
      the scan loop ([huge_period_kills_scan_loop], a finding).
    - Delivery: one log row per usable channel and nothing else changed
      ([deliver_event_records]), the retry schedule ([send_with_retry_exact]).
    - Who may do what: a request of nobody known changes nothing and learns nothing but
      the open pages ([strangers_kept_out]); one whose browser was made to send it, with
      its cookies but without its CSRF token, changes nothing of substance unless it is a
      ping ([forged_requests_refused]), and nor does any GET, HEAD or OPTIONS but a ping's
      ([safe_methods_only_look]), all three over the whole application; a signed-in user,
      or an API key of one who is no administrator, touches nothing of another user's and
      binds no check to a channel of another project ([owner_requests_confined],
      [api_requests_confined]); an administrator who does
      leaves an audit row first ([admin_requests_audited], [api_foreign_access_audited],
      [ping_url_shown_or_audited]); an administrator
      with a password needs elevation to give access ([granting_needs_elevation]); requests on users leave an enabled administrator when
      served in order ([some_admin_remains]), not when interleaved (a finding).
    - Sessions: a login opens a session only for a verified password
      ([login_submit_effect]); a session resolves only within its limits
      ([find_session_user_sound], [refreshed_expiry_limits]); pruning deletes exactly what
      no longer resolves ([prune_sessions_exact]); a changed password ends the others
      ([password_change_effect]).
    - Rate limiting and elevation: attempts per window are bounded whatever the history
      ([limiter_window_bound]); the elevation map is a refinement of the history of grants
      and revocations ([remaining_secs_history]).
    - Pages: the URL a check's page shows, with the suffix of any kind of ping, reaches that
      ping of that check ([ping_url_pings]); the dashboard shows every check once
      and its tallies count what it shows ([dashboard_shows_every_check]), pages partition a listing ([paging_complete]), a form
      saved as it opened changes nothing
      ([resaved_edit_form_changes_nothing]), a confirmation page posts back, through the
      route table, the request it asked about ([confirmation_repeats_request]), run
      durations pair starts and finishes ([run_durations_pairs]), the environment card
      does not depend on the secrets, of a well-formed database URL
      ([env_card_hides_secrets]), Markdown emits the whitelisted tags and
      inert text only ([render_is_document]).
    - Forms and settings: a validated check can be scheduled ([validate_check_scheduled]);
      the API writes what the forms write ([api_writes_as_forms]); what saving the
      settings changes and logs ([settings_save_effect]); the grammar of durations and
      their round trip ([parse_duration_grammar], [fmt_parse_duration]).

    The files prove more beside these: that handlers behind the layers see the session the
    browser holds ([handlers_see_their_session]), that the account page is confined to its
    user ([account_requests_confined]), that an issued key authenticates its owner
    ([issued_key_authenticates]); cookie and key formats, CIDR comparison, forwarded
    headers, the CSRF guard, retention, the SQL text, the shape of the configuration, the
    totality of the ping endpoint, and the end of the process.

    ** Not modelled

    The HTML of the templates; the text of JSON bodies and the OpenAPI document; the
    decoding done by Axum and serde; the connection pool; the keep-alive of event streams;
    the subscriber of the log and the binding of the socket. They are third-party code, or
    templates. [FromRef] projections of the state are left out, the definitions taking
    what they use. Log lines are left out of every function. *)
From Stdlib Require Export ZArith Lia.
From stdpp Require Export base tactics numbers list sorting gmap sets strings.

#[export] Set Default Goal Selector "!".

(** ** Results, panics and their notations *)

Declare Scope pw_scope.
Delimit Scope pw_scope with pw.

(** Rust's [Result<A, E>]. *)
Inductive res (E A : Type) : Type :=
| Ok (a : A)
| Err (e : E).
Arguments Ok {E A} a.
Arguments Err {E A} e.

(** The outcome of running Rust code: it returns, or it panics. *)
Inductive exec (A : Type) : Type :=
| Done (a : A)
| Panic.
Arguments Done {A} a.
Arguments Panic {A}.

Definition is_ok {E A} (r : res E A) : bool :=
  match r with Ok _ => true | Err _ => false end.

Definition exec_bind {A B} (m : exec A) (k : A -> exec B) : exec B :=
  match m with Done a => k a | Panic => Panic end.

Definition res_bind {E A B} (m : res E A) (k : A -> res E B) : res E B :=
  match m with Ok a => k a | Err e => Err e end.

(** [let*] sequences code that may panic, [let+] is Rust's [?] on a pure result. *)
Notation "'let*' x ':=' m 'in' k" := (exec_bind m (fun x => k))
  (at level 10, x pattern, m at level 200, k at level 200, only parsing) : pw_scope.
Notation "'let+' x ':=' m 'in' k" := (res_bind m (fun x => k))
  (at level 10, x pattern, m at level 200, k at level 200, only parsing) : pw_scope.

#[export] Instance res_eq_dec {E A} `{EqDecision E, EqDecision A} : EqDecision (res E A).
Proof. solve_decision. Defined.
#[export] Instance exec_eq_dec {A} `{EqDecision A} : EqDecision (exec A).
Proof. solve_decision. Defined.

Lemma exec_bind_done {A B} (m : exec A) (k : A -> exec B) b :
  exec_bind m k = Done b <-> exists a, m = Done a /\ k a = Done b.
Proof. destruct m; simpl; naive_solver. Qed.

Lemma res_bind_ok {E A B} (m : res E A) (k : A -> res E B) b :
  res_bind m k = Ok b <-> exists a, m = Ok a /\ k a = Ok b.
Proof. destruct m; simpl; naive_solver. Qed.

(** ** Machine integers *)

Definition i64_min : Z := - 2 ^ 63.
Definition i64_max : Z := 2 ^ 63 - 1.
Definition u32_max : Z := 2 ^ 32 - 1.
Definition u64_max : Z := 2 ^ 64 - 1.

Definition in_i64 (z : Z) : bool := (i64_min <=? z)%Z && (z <=? i64_max)%Z.

(** [i64::checked_add], [checked_mul], [checked_neg]: [None] on overflow. *)
Definition checked_i64 (z : Z) : option Z := if in_i64 z then Some z else None.
Definition checked_add (a b : Z) : option Z := checked_i64 (a + b).
Definition checked_mul (a b : Z) : option Z := checked_i64 (a * b).
Definition checked_neg (a : Z) : option Z := checked_i64 (- a).

(** [u32::saturating_sub] and [u32::saturating_mul]. *)
Definition saturating_sub (a b : Z) : Z := Z.max 0 (a - b).
Definition u32_saturating_mul (a b : Z) : Z := Z.min u32_max (a * b).

Lemma in_i64_spec z : in_i64 z = true <-> (i64_min <= z <= i64_max)%Z.
Proof. unfold in_i64. rewrite andb_true_iff, !Z.leb_le. done. Qed.

Lemma checked_i64_Some z v : checked_i64 z = Some v <-> v = z /\ (i64_min <= z <= i64_max)%Z.
Proof. unfold checked_i64. rewrite <- in_i64_spec. destruct (in_i64 z); naive_solver. Qed.

Lemma checked_i64_in z : (i64_min <= z <= i64_max)%Z -> checked_i64 z = Some z.
Proof. intros. by apply checked_i64_Some. Qed.

(** ** Automation *)

Create HintDb pw.
Create Rewrite HintDb pw.
#[export] Hint Resolve checked_i64_in : pw.

(** Split the boolean guards of the code into propositions on [Z]. *)
Ltac bool_to_prop :=
  repeat match goal with
  | H : _ && _ = true |- _ => apply andb_true_iff in H as [? ?]
  | H : _ || _ = false |- _ => apply orb_false_iff in H as [? ?]
  | H : negb _ = true |- _ => apply negb_true_iff in H
  | H : negb _ = false |- _ => apply negb_false_iff in H
  | H : (_ <=? _)%Z = true |- _ => apply Z.leb_le in H
  | H : (_ <=? _)%Z = false |- _ => apply Z.leb_gt in H
  | H : (_ <? _)%Z = true |- _ => apply Z.ltb_lt in H
  | H : (_ <? _)%Z = false |- _ => apply Z.ltb_ge in H
  | H : (_ =? _)%Z = true |- _ => apply Z.eqb_eq in H
  | H : (_ =? _)%Z = false |- _ => apply Z.eqb_neq in H
  | H : bool_decide _ = true |- _ => apply bool_decide_eq_true in H
  | H : bool_decide _ = false |- _ => apply bool_decide_eq_false in H
  end.

(** Case analysis on every [match]/[if] of the goal, keeping the equations. *)
Ltac split_matches :=
  repeat (case_match; simplify_eq/=; try done).

(** ** Shared list lemmas *)

Lemma fold_left_cons_acc {A B} (f : B -> A -> B) x xs b :
  fold_left f (x :: xs) b = fold_left f xs (f b x).
Proof. done. Qed.

Lemma forallb_Forall' {A} (p : A -> bool) l : forallb p l = true <-> Forall (fun x => p x = true) l.
Proof. rewrite forallb_forall, Forall_forall. setoid_rewrite list_elem_of_In. done. Qed.

Lemma list_filter_all {A} (p : A -> bool) (l : list A) :
  Forall (fun x => p x = true) l -> List.filter p l = l.
Proof. induction 1 as [|x l Hx _ IH]; simpl; [done|]. by rewrite Hx, IH. Qed.

Lemma map_id_on {A} (f : A -> A) (l : list A) : Forall (fun x => f x = x) l -> map f l = l.
Proof. induction 1 as [|x l Hx _ IH]; simpl; [done|]. by rewrite Hx, IH. Qed.

Lemma option_bind_Some {A B} (x : A) (k : A -> option B) : (Some x ≫= k) = k x.
Proof. done. Qed.
