(* ===== verification/Text.v ===== *)
(** * Text: Rust's [str] and the standard-library operations the code uses

    A [str] is the sequence of its Unicode scalar values, each a [Z]; what the code
    measures in characters is a length here, what it measures in bytes is [utf8_len].
    Literals are written with [lit], which decodes the UTF-8 bytes of a Rocq string.
    The file also models [str::parse] for the integer types and [Display] for integers,
    and the order of [str], which is the order of the TEXT columns of the database. *)
From S2P Require Import Prelude.
From Stdlib Require Ascii String.
#[local] Open Scope Z_scope.

Abbreviation char := Z (only parsing).
Abbreviation str := (list Z) (only parsing).

(** ** Literals *)

Definition byte_of_ascii (a : Ascii.ascii) : Z := Z.of_N (Ascii.N_of_ascii a).

Fixpoint bytes_of_string (s : String.string) : list Z :=
  match s with
  | String.EmptyString => []
  | String.String a s' => byte_of_ascii a :: bytes_of_string s'
  end.

(** Decoding of well-formed UTF-8, which source literals are. *)
Fixpoint utf8_scalars (bs : list Z) : str :=
  match bs with
  | b0 :: (b1 :: (b2 :: (b3 :: r4) as r3) as r2) as r1 =>
      if b0 <? 128 then b0 :: utf8_scalars r1
      else if b0 <? 224 then ((b0 - 192) * 64 + (b1 - 128)) :: utf8_scalars r2
      else if b0 <? 240 then
        ((b0 - 224) * 4096 + (b1 - 128) * 64 + (b2 - 128)) :: utf8_scalars r3
      else ((b0 - 240) * 262144 + (b1 - 128) * 4096 + (b2 - 128) * 64 + (b3 - 128))
             :: utf8_scalars r4
  | [b0; b1; b2] =>
      if b0 <? 128 then
        b0 :: (if b1 <? 128 then [b1; b2] else [(b1 - 192) * 64 + (b2 - 128)])
      else if b0 <? 224 then [(b0 - 192) * 64 + (b1 - 128); b2]
      else [(b0 - 224) * 4096 + (b1 - 128) * 64 + (b2 - 128)]
  | [b0; b1] => if b0 <? 128 then [b0; b1] else [(b0 - 192) * 64 + (b1 - 128)]
  | [b0] => [b0]
  | [] => []
  end.

Definition lit (s : String.string) : str := utf8_scalars (bytes_of_string s).
Arguments lit s%_string.

(** The character of a one-character literal. *)
Definition chr (s : String.string) : char := hd 0 (lit s).
(** A double quote. *)
Definition dquote : str := [34].
Arguments chr s%_string.

Example lit_ascii : lit "1h" = [49; 104].
Proof. reflexivity. Qed.
Example lit_utf8 : lit "a·—🔴…" = [97; 183; 8212; 128308; 8230].
Proof. reflexivity. Qed.

(** Bytes of the UTF-8 encoding, what [str::len] counts. *)
Definition utf8_width (c : char) : Z :=
  if c <? 128 then 1 else if c <? 2048 then 2 else if c <? 65536 then 3 else 4.
Definition utf8_len (s : str) : Z := fold_right (fun c n => utf8_width c + n) 0 s.

Lemma utf8_len_ge_length s : Z.of_nat (length s) <= utf8_len s.
Proof.
  induction s as [|c s IH]; simpl; [lia|].
  assert (1 <= utf8_width c) by (unfold utf8_width; repeat case_match; lia). lia.
Qed.

(** [str::as_bytes]: the UTF-8 encoding. *)
Definition utf8_encode (c : char) : list Z :=
  if c <? 128 then [c]
  else if c <? 2048 then [192 + c / 64; 128 + c mod 64]
  else if c <? 65536 then [224 + c / 4096; 128 + c / 64 mod 64; 128 + c mod 64]
  else [240 + c / 262144; 128 + c / 4096 mod 64; 128 + c / 64 mod 64; 128 + c mod 64].
Definition as_bytes (s : str) : list Z := flat_map utf8_encode s.

Lemma as_bytes_length s : Z.of_nat (length (as_bytes s)) = utf8_len s.
Proof.
  induction s as [|c s IH]; [done|]. unfold as_bytes in *; simpl.
  rewrite length_app, Nat2Z.inj_add, IH. unfold utf8_encode, utf8_width. repeat case_match; simpl; lia.
Qed.

Lemma as_bytes_app a b : as_bytes (a ++ b) = as_bytes a ++ as_bytes b.
Proof. apply flat_map_app. Qed.

(** [as_bytes] is the identity on ASCII text. *)
Definition is_ascii (c : char) : bool := (0 <=? c) && (c <? 128).
Lemma as_bytes_ascii s : forallb is_ascii s = true -> as_bytes s = s.
Proof.
  induction s as [|c s IH]; [done|]. unfold as_bytes in *; simpl. intros H; bool_to_prop.
  unfold is_ascii in *; bool_to_prop. rewrite IH by done. unfold utf8_encode.
  by rewrite (proj2 (Z.ltb_lt c 128)) by lia.
Qed.

(** [String::from_utf8_lossy]: every maximal prefix of an ill-formed sequence becomes one
    replacement character. [second_ok b0 b1]: [b1] may follow the lead byte [b0]. *)
Definition is_cont (b : Z) : bool := (128 <=? b) && (b <? 192).
Definition second_ok (b0 b1 : Z) : bool :=
  if b0 =? 224 then (160 <=? b1) && (b1 <? 192)
  else if b0 =? 237 then (128 <=? b1) && (b1 <? 160)
  else if b0 =? 240 then (144 <=? b1) && (b1 <? 192)
  else if b0 =? 244 then (128 <=? b1) && (b1 <? 144)
  else is_cont b1.
Definition replacement_char : char := 65533.
Fixpoint from_utf8_lossy (bs : list Z) : str :=
  match bs with
  | [] => []
  | b0 :: r1 =>
      if b0 <? 128 then b0 :: from_utf8_lossy r1
      else if (b0 <? 194) || (244 <? b0) then replacement_char :: from_utf8_lossy r1
      else match r1 with
           | [] => [replacement_char]
           | b1 :: r2 =>
               if negb (second_ok b0 b1) then replacement_char :: from_utf8_lossy r1
               else if b0 <? 224 then ((b0 - 192) * 64 + (b1 - 128)) :: from_utf8_lossy r2
               else match r2 with
                    | [] => [replacement_char]
                    | b2 :: r3 =>
                        if negb (is_cont b2) then replacement_char :: from_utf8_lossy r2
                        else if b0 <? 240 then
                          ((b0 - 224) * 4096 + (b1 - 128) * 64 + (b2 - 128)) :: from_utf8_lossy r3
                        else match r3 with
                             | [] => [replacement_char]
                             | b3 :: r4 =>
                                 if negb (is_cont b3) then replacement_char :: from_utf8_lossy r3
                                 else ((b0 - 240) * 262144 + (b1 - 128) * 4096 + (b2 - 128) * 64
                                       + (b3 - 128)) :: from_utf8_lossy r4
                             end
                    end
           end
  end.

(** A Unicode scalar value. *)
Definition is_scalar (c : char) : bool :=
  ((0 <=? c) && (c <? 55296)) || ((57344 <=? c) && (c <? 1114112)).

Ltac decide_bools :=
  repeat match goal with
  | |- context [?a <? ?b] =>
      first [ rewrite (proj2 (Z.ltb_lt a b)) by lia | rewrite (proj2 (Z.ltb_ge a b)) by lia ]
  | |- context [?a <=? ?b] =>
      first [ rewrite (proj2 (Z.leb_le a b)) by lia | rewrite (proj2 (Z.leb_gt a b)) by lia ]
  | |- context [?a =? ?b] =>
      first [ rewrite (proj2 (Z.eqb_neq a b)) by lia | rewrite (proj2 (Z.eqb_eq a b)) by lia ]
  end.

Lemma utf8_encode_decode c rest :
  is_scalar c = true -> from_utf8_lossy (utf8_encode c ++ rest) = c :: from_utf8_lossy rest.
Proof.
  intros Hc. assert (0 <= c < 55296 \/ 57344 <= c < 1114112) as Hr.
  { unfold is_scalar in Hc. apply orb_true_iff in Hc as [Hc|Hc]; bool_to_prop; lia. }
  clear Hc. unfold utf8_encode.
  destruct (Z.ltb_spec c 128); [|destruct (Z.ltb_spec c 2048); [|destruct (Z.ltb_spec c 65536)]];
    cbn [app from_utf8_lossy]; unfold second_ok, is_cont.
  - by decide_bools.
  - assert (32 <= c / 64 + 30 /\ c / 64 < 32 /\ 0 <= c mod 64 < 64 /\ c = c / 64 * 64 + c mod 64)
      as (? & ? & ? & ?) by (Z.to_euclidean_division_equations; lia).
    decide_bools. cbn [negb andb orb]. decide_bools. f_equal. lia.
  - assert (0 <= c / 4096 < 16 /\ 0 <= c / 64 mod 64 < 64 /\ 0 <= c mod 64 < 64 /\
      c = c / 4096 * 4096 + c / 64 mod 64 * 64 + c mod 64 /\
      (c / 4096 = 0 -> 32 <= c / 64 mod 64) /\ (c / 4096 = 13 -> c / 64 mod 64 < 32))
      as (? & ? & ? & ? & ? & ?) by (Z.to_euclidean_division_equations; lia).
    assert (c / 4096 = 0 \/ c / 4096 = 13 \/ (c / 4096 <> 0 /\ c / 4096 <> 13)) as [E|[E|[E1 E2]]] by lia;
      decide_bools; cbn [negb andb orb]; decide_bools; cbn [negb andb orb]; decide_bools; f_equal; lia.
  - assert (0 <= c / 262144 <= 4 /\ 0 <= c / 4096 mod 64 < 64 /\ 0 <= c / 64 mod 64 < 64 /\
      0 <= c mod 64 < 64 /\
      c = c / 262144 * 262144 + c / 4096 mod 64 * 4096 + c / 64 mod 64 * 64 + c mod 64 /\
      (c / 262144 = 0 -> 16 <= c / 4096 mod 64) /\ (c / 262144 = 4 -> c / 4096 mod 64 < 16))
      as (? & ? & ? & ? & ? & ? & ?) by (Z.to_euclidean_division_equations; lia).
    assert (c / 262144 = 0 \/ c / 262144 = 4 \/ (c / 262144 <> 0 /\ c / 262144 <> 4)) as [E|[E|[E1 E2]]] by lia;
      decide_bools; cbn [negb andb orb]; decide_bools; cbn [negb andb orb]; decide_bools; f_equal; lia.
Qed.

(** Text survives its own encoding. *)
Lemma from_utf8_lossy_as_bytes s :
  forallb is_scalar s = true -> from_utf8_lossy (as_bytes s) = s.
Proof.
  induction s as [|c s IH]; [done|]. unfold as_bytes in *; simpl. intros Hc; bool_to_prop.
  rewrite utf8_encode_decode by done. by rewrite IH.
Qed.

Lemma from_utf8_lossy_length bs : (length (from_utf8_lossy bs) <= length bs)%nat.
Proof.
  remember (length bs) as n eqn:Hn. revert bs Hn.
  induction n as [n IH] using lt_wf_ind. intros [|b0 r1] ->; [done|].
  assert (forall r, (length r <= length r1)%nat -> (length (from_utf8_lossy r) <= length r)%nat) as IH'.
  { intros r Hr. apply (IH (length r)); [simpl; lia|done]. }
  clear IH. cbn [from_utf8_lossy length].
  destruct (b0 <? 128); [pose proof (IH' r1 ltac:(lia)); simpl; lia|].
  destruct (_ || _); [pose proof (IH' r1 ltac:(lia)); simpl; lia|].
  destruct r1 as [|b1 r2]; [simpl; lia|].
  destruct (negb _); [pose proof (IH' (b1 :: r2) ltac:(lia)); cbn [length] in *; lia|].
  destruct (b0 <? 224); [pose proof (IH' r2 ltac:(simpl; lia)); simpl; lia|].
  destruct r2 as [|b2 r3]; [simpl; lia|].
  destruct (negb _); [pose proof (IH' (b2 :: r3) ltac:(simpl; lia)); cbn [length] in *; lia|].
  destruct (b0 <? 240); [pose proof (IH' r3 ltac:(simpl; lia)); simpl; lia|].
  destruct r3 as [|b3 r4]; [simpl; lia|].
  destruct (negb _); [pose proof (IH' (b3 :: r4) ltac:(simpl; lia)); cbn [length] in *; lia|].
  pose proof (IH' r4 ltac:(simpl; lia)); simpl; lia.
Qed.

(** [&s[..n]]: panics past the end or inside a character. *)
Fixpoint slice_to (n : Z) (s : str) : exec str :=
  if n =? 0 then Done []
  else if n <? 0 then Panic
  else match s with
       | [] => Panic
       | c :: s' => match slice_to (n - utf8_width c) s' with
                    | Done r => Done (c :: r)
                    | Panic => Panic
                    end
       end.

(** ** Character classes *)

Definition is_ascii_digit (c : char) : bool := (48 <=? c) && (c <=? 57).
Definition is_ascii_whitespace (c : char) : bool :=
  (c =? 32) || (c =? 9) || (c =? 10) || (c =? 12) || (c =? 13).
Definition is_ascii_upper (c : char) : bool := (65 <=? c) && (c <=? 90).
Definition to_ascii_lower (c : char) : char := if is_ascii_upper c then c + 32 else c.
Definition to_ascii_lowercase (s : str) : str := map to_ascii_lower s.
Definition eq_ignore_ascii_case (a b : str) : bool :=
  bool_decide (to_ascii_lowercase a = to_ascii_lowercase b).

(** [char::is_whitespace]: the Unicode [White_Space] property. *)
Definition is_whitespace (c : char) : bool :=
  ((9 <=? c) && (c <=? 13)) || (c =? 32) || (c =? 133) || (c =? 160) || (c =? 5760)
  || ((8192 <=? c) && (c <=? 8202)) || (c =? 8232) || (c =? 8233) || (c =? 8239)
  || (c =? 8287) || (c =? 12288).

(** [char::is_control]: the Unicode category [Cc]. *)
Definition is_control (c : char) : bool :=
  (c <=? 31) || ((127 <=? c) && (c <=? 159)).

(** ** Slicing *)

Definition is_empty {A} (l : list A) : bool := match l with [] => true | _ => false end.

Fixpoint drop_while {A} (p : A -> bool) (l : list A) : list A :=
  match l with
  | [] => []
  | x :: l' => if p x then drop_while p l' else l
  end.

Definition trim_start (s : str) : str := drop_while is_whitespace s.
Definition trim_end_matches (p : char -> bool) (s : str) : str := rev (drop_while p (rev s)).
Definition trim_end (s : str) : str := trim_end_matches is_whitespace s.
Definition trim (s : str) : str := trim_end (trim_start s).

Fixpoint strip_prefix (p s : str) : option str :=
  match p, s with
  | [], _ => Some s
  | c :: p', d :: s' => if c =? d then strip_prefix p' s' else None
  | _ :: _, [] => None
  end.
Definition starts_with (p s : str) : bool :=
  match strip_prefix p s with Some _ => true | None => false end.

(** [s.find(c)] for a character, as the text before and after its first occurrence. *)
Fixpoint split_once (c : char) (s : str) : option (str * str) :=
  match s with
  | [] => None
  | d :: s' => if d =? c then Some ([], s')
               else match split_once c s' with
                    | Some (a, b) => Some (d :: a, b)
                    | None => None
                    end
  end.

(** [s.rsplit_once(c)]: at the last occurrence. *)
Definition rsplit_once (c : char) (s : str) : option (str * str) :=
  match split_once c (rev s) with
  | Some (a, b) => Some (rev b, rev a)
  | None => None
  end.

(** [s.split(c)]: always at least one piece. *)
Fixpoint split_on (c : char) (s : str) : list str :=
  match s with
  | [] => [[]]
  | d :: s' =>
      if d =? c then [] :: split_on c s'
      else match split_on c s' with
           | [] => [[d]]
           | p :: ps => (d :: p) :: ps
           end
  end.

Fixpoint join (sep : str) (l : list str) : str :=
  match l with
  | [] => []
  | [s] => s
  | s :: l' => s ++ sep ++ join sep l'
  end.

(** ** Order of text, byte by byte

    The order of UTF-8 bytes is the order of scalar values. *)
Fixpoint str_ltb (a b : str) : bool :=
  match a, b with
  | [], [] => false
  | [], _ :: _ => true
  | _ :: _, [] => false
  | c :: a', d :: b' => if c =? d then str_ltb a' b' else c <? d
  end.
Definition str_leb (a b : str) : bool := negb (str_ltb b a).

Lemma str_ltb_irrefl a : str_ltb a a = false.
Proof. induction a as [|c a IH]; simpl; [done|]. by rewrite Z.eqb_refl. Qed.

Lemma str_ltb_trans a b c : str_ltb a b = true -> str_ltb b c = true -> str_ltb a c = true.
Proof.
  revert b c. induction a as [|x a IH]; intros [|y b] [|z c]; simpl; try done.
  destruct (Z.eqb_spec x y), (Z.eqb_spec y z), (Z.eqb_spec x z);
    intros; bool_to_prop; subst; try (apply Z.ltb_lt; lia); try lia; eauto.
Qed.

Lemma str_ltb_total a b : a = b \/ str_ltb a b = true \/ str_ltb b a = true.
Proof.
  revert b. induction a as [|x a IH]; intros [|y b]; simpl; auto.
  rewrite (Z.eqb_sym y x). destruct (Z.eqb_spec x y) as [->|Hne].
  - destruct (IH b) as [->|[?|?]]; auto.
  - destruct (Z.ltb_spec x y); [by auto|]. right; right. apply Z.ltb_lt. lia.
Qed.

(** ** Integers in text *)

Definition digit_val (c : char) : Z := c - 48.
Definition digits_val (s : str) : Z := fold_left (fun n c => n * 10 + digit_val c) s 0.

(** [str::parse] for an integer type with the bounds [lo..hi]: an optional sign, then at
    least one ASCII digit and nothing else; out of range is an error. *)
Definition parse_digits (s : str) : option Z :=
  if is_empty s then None
  else if forallb is_ascii_digit s then Some (digits_val s) else None.

Definition in_bounds (lo hi v : Z) : bool := (lo <=? v) && (v <=? hi).

Definition parse_signed (lo hi : Z) (s : str) : option Z :=
  match s with
  | c :: s' =>
      v ← (if c =? 45 then Z.opp <$> parse_digits s'
           else if c =? 43 then parse_digits s' else parse_digits s);
      if in_bounds lo hi v then Some v else None
  | [] => None
  end.
Definition parse_i64 : str -> option Z := parse_signed i64_min i64_max.

(** Unsigned types take a [+] but no [-]. *)
Definition parse_unsigned (hi : Z) (s : str) : option Z :=
  match s with
  | c :: s' =>
      v ← (if c =? 43 then parse_digits s' else parse_digits s);
      if in_bounds 0 hi v then Some v else None
  | [] => None
  end.

(** [Display] for integers. *)
Fixpoint digits_fuel (fuel : nat) (n : Z) (acc : str) : str :=
  match fuel with
  | O => acc
  | S fuel' =>
      if n <? 10 then (48 + n) :: acc
      else digits_fuel fuel' (n / 10) ((48 + n mod 10) :: acc)
  end.
Definition show_nonneg (n : Z) : str := digits_fuel (S (Z.to_nat (Z.log2 n))) n [].
Definition show_Z (n : Z) : str :=
  if n <? 0 then 45 :: show_nonneg (- n) else show_nonneg n.

Example show_Z_neg : show_Z (-120) = lit "-120".
Proof. reflexivity. Qed.
Example show_Z_zero : show_Z 0 = lit "0".
Proof. reflexivity. Qed.

(** ** Lemmas *)

Lemma digits_val_app a b :
  digits_val (a ++ b) = digits_val a * 10 ^ Z.of_nat (length b) + digits_val b.
Proof.
  unfold digits_val. rewrite fold_left_app.
  generalize (fold_left (fun n c => n * 10 + digit_val c) a 0) as n.
  induction b as [|c b IH] using rev_ind; intros n; [simpl; lia|].
  rewrite !fold_left_app; simpl. rewrite IH, length_app; simpl.
  replace (Z.of_nat (length b + 1)) with (Z.of_nat (length b) + 1) by lia.
  rewrite Z.pow_add_r by lia. lia.
Qed.

Lemma digits_val_cons c b :
  digits_val (c :: b) = digit_val c * 10 ^ Z.of_nat (length b) + digits_val b.
Proof. apply (digits_val_app [c]). Qed.

Lemma digits_val_nonneg s : forallb is_ascii_digit s = true -> 0 <= digits_val s.
Proof.
  induction s as [|c s IH]; [done|]. cbn [forallb]. intros H; bool_to_prop.
  rewrite digits_val_cons. unfold is_ascii_digit, digit_val in *. bool_to_prop.
  specialize (IH ltac:(done)). nia.
Qed.

Lemma log2_div10 n : 10 <= n -> Z.log2 (n / 10) + 1 <= Z.log2 n.
Proof.
  intros Hn. assert (0 < n / 10) by (apply Z.div_str_pos; lia).
  pose proof (Z.log2_double (n / 10) ltac:(lia)) as E. pose proof (Z.mul_div_le n 10).
  enough (Z.log2 (2 * (n / 10)) <= Z.log2 n) by lia.
  apply Z.log2_le_mono. lia.
Qed.

Lemma digits_fuel_spec fuel n acc :
  0 <= n -> Z.log2 n < Z.of_nat fuel ->
  exists ds, digits_fuel fuel n acc = ds ++ acc /\ ds <> [] /\
    forallb is_ascii_digit ds = true /\ digits_val ds = n.
Proof.
  revert n acc. induction fuel as [|fuel IH]; intros n acc Hn Hf.
  { pose proof (Z.log2_nonneg n). lia. }
  simpl. destruct (Z.ltb_spec n 10).
  - exists [48 + n]. split; [done|]. split; [done|].
    unfold digits_val, is_ascii_digit, digit_val; simpl. split; [|lia].
    rewrite !andb_true_iff, !Z.leb_le. lia.
  - pose proof (log2_div10 n ltac:(lia)).
    destruct (IH (n / 10) ((48 + n mod 10) :: acc)) as (ds & E & Hne & Hd & Hv).
    + apply Z.div_pos; lia.
    + lia.
    + pose proof (Z.mod_pos_bound n 10 ltac:(lia)).
      exists (ds ++ [48 + n mod 10]). rewrite <- (assoc_L (++)); simpl. split; [done|].
      split; [by destruct ds|]. rewrite forallb_app, Hd, digits_val_app, Hv; simpl.
      unfold is_ascii_digit, digits_val, digit_val; simpl.
      split; [rewrite !andb_true_iff, !Z.leb_le; lia|].
      pose proof (Z.div_mod n 10 ltac:(lia)). lia.
Qed.

(** What [Display] prints of a non-negative integer: digits, at least one, of that value. *)
Lemma show_nonneg_spec n :
  0 <= n -> show_nonneg n <> [] /\ forallb is_ascii_digit (show_nonneg n) = true /\
            digits_val (show_nonneg n) = n.
Proof.
  intros Hn. unfold show_nonneg.
  destruct (digits_fuel_spec (S (Z.to_nat (Z.log2 n))) n [] Hn) as (ds & E & ? & ? & ?).
  { pose proof (Z.log2_nonneg n). lia. }
  rewrite E, app_nil_r. done.
Qed.

Lemma parse_digits_show n : 0 <= n -> parse_digits (show_nonneg n) = Some n.
Proof.
  intros Hn. destruct (show_nonneg_spec n Hn) as (Hne & Hd & Hv).
  unfold parse_digits. rewrite Hd, Hv. by destruct (show_nonneg n).
Qed.

Lemma digit_head_not_sign s c s' :
  forallb is_ascii_digit s = true -> s = c :: s' -> (c =? 45) = false /\ (c =? 43) = false.
Proof.
  intros H ->; simpl in H; bool_to_prop. unfold is_ascii_digit in *; bool_to_prop.
  rewrite !Z.eqb_neq. lia.
Qed.

(** Integers survive [to_string] then [parse]. *)
Lemma parse_signed_show lo hi n :
  lo <= n <= hi -> parse_signed lo hi (show_Z n) = Some n.
Proof.
  intros Hn. assert (in_bounds lo hi n = true) as Hb.
  { unfold in_bounds. rewrite andb_true_iff, !Z.leb_le. lia. }
  unfold show_Z. destruct (Z.ltb_spec n 0).
  - unfold parse_signed; simpl. rewrite parse_digits_show by lia; simpl.
    by rewrite Z.opp_involutive, Hb.
  - destruct (show_nonneg_spec n ltac:(lia)) as (Hne & Hd & Hv).
    pose proof (parse_digits_show n ltac:(lia)) as Hp.
    destruct (show_nonneg n) as [|c s] eqn:E; [done|].
    destruct (digit_head_not_sign _ _ _ Hd eq_refl) as [E1 E2].
    unfold parse_signed. rewrite E1, E2, Hp; simpl. by rewrite Hb.
Qed.

Lemma parse_i64_show n : i64_min <= n <= i64_max -> parse_i64 (show_Z n) = Some n.
Proof. apply parse_signed_show. Qed.

Lemma parse_signed_bounds lo hi s v : parse_signed lo hi s = Some v -> lo <= v <= hi.
Proof.
  unfold parse_signed, in_bounds. intros H.
  destruct s as [|c s]; [done|]. apply bind_Some in H as (w & _ & H).
  case_match; simplify_eq. bool_to_prop. lia.
Qed.

(** A string of digits parses to its value exactly when the value fits. *)
Lemma parse_i64_digits s :
  s <> [] -> forallb is_ascii_digit s = true ->
  parse_i64 s = if digits_val s <=? i64_max then Some (digits_val s) else None.
Proof.
  intros Hne Hd. destruct s as [|c s]; [done|].
  destruct (digit_head_not_sign _ _ _ Hd eq_refl) as [E1 E2].
  unfold parse_i64, parse_signed, parse_digits. rewrite E1, E2, Hd; simpl.
  pose proof (digits_val_nonneg _ Hd). unfold in_bounds.
  replace (i64_min <=? digits_val (c :: s)) with true; [done|].
  symmetry. apply Z.leb_le. unfold i64_min. lia.
Qed.

(** ** Slicing lemmas *)

Lemma strip_prefix_Some p s r : strip_prefix p s = Some r <-> s = p ++ r.
Proof.
  revert s. induction p as [|c p IH]; intros s; simpl; [naive_solver|].
  destruct s as [|d s]; simpl; [naive_solver|].
  destruct (Z.eqb_spec c d); [rewrite IH; naive_solver|naive_solver].
Qed.

Lemma strip_prefix_app p r : strip_prefix p (p ++ r) = Some r.
Proof. by apply strip_prefix_Some. Qed.

Lemma starts_with_spec p s : starts_with p s = true <-> exists r, s = p ++ r.
Proof.
  unfold starts_with. destruct (strip_prefix p s) as [r|] eqn:E.
  - apply strip_prefix_Some in E. naive_solver.
  - split; [done|]. intros [r ->]. by rewrite strip_prefix_app in E.
Qed.

Lemma split_once_Some c s a b :
  split_once c s = Some (a, b) <-> s = a ++ c :: b /\ c ∉ a.
Proof.
  revert a b. induction s as [|d s IH]; intros a b; simpl.
  { split; [done|]. intros [H _]. by destruct a. }
  destruct (Z.eqb_spec d c) as [->|Hne].
  - split; [intros [= <- <-]; split; [done|set_solver]|].
    intros [H Hn]. destruct a as [|x a]; simplify_eq/=; [done|]. set_solver.
  - destruct (split_once c s) as [[x y]|] eqn:E.
    + pose proof (proj1 (IH x y) eq_refl) as [-> Hx].
      split; [intros [= <- <-]; split; [done|set_solver]|].
      intros [H Hn]. destruct a as [|z a]; simplify_eq/=.
      assert (Some (x, y) = Some (a, b)) as ?; [|naive_solver].
      apply IH. split; [done|set_solver].
    + split; [done|]. intros [H Hn]. destruct a as [|z a]; simplify_eq/=.
      assert (None = Some (a, b)) as ?; [|done].
      apply IH. split; [done|set_solver].
Qed.

Lemma rsplit_once_Some c s a b :
  rsplit_once c s = Some (a, b) <-> s = a ++ c :: b /\ c ∉ b.
Proof.
  unfold rsplit_once. destruct (split_once c (rev s)) as [[x y]|] eqn:E.
  - apply split_once_Some in E as [E Hx]. apply (f_equal (@rev Z)) in E.
    rewrite rev_involutive, rev_app_distr in E; simpl in E.
    rewrite <- (assoc_L (++)) in E; simpl in E. subst s. split.
    + intros [= <- <-]. split; [done|]. rewrite list_elem_of_In, <- in_rev, <- list_elem_of_In. done.
    + intros [H Hn].
      assert (split_once c (rev (rev y ++ c :: rev x)) = Some (rev b, rev a)) as H'.
      { rewrite H. apply split_once_Some. rewrite rev_app_distr; simpl.
        rewrite <- (assoc_L (++)); simpl. split; [done|].
        by rewrite list_elem_of_In, <- in_rev, <- list_elem_of_In. }
      assert (split_once c (rev (rev y ++ c :: rev x)) = Some (x, y)) as H''.
      { apply split_once_Some. rewrite rev_app_distr; simpl.
        rewrite !rev_involutive, <- (assoc_L (++)); simpl. done. }
      rewrite H' in H''. simplify_eq. by rewrite !rev_involutive.
  - split; [done|]. intros [-> Hn].
    assert (split_once c (rev (a ++ c :: b)) = Some (rev b, rev a)) as H'; [|congruence].
    apply split_once_Some. rewrite rev_app_distr; simpl. rewrite <- (assoc_L (++)); simpl.
    split; [done|]. by rewrite list_elem_of_In, <- in_rev, <- list_elem_of_In.
Qed.

Lemma split_on_nonempty c s : split_on c s <> [].
Proof. destruct s as [|d s]; simpl; [done|]. destruct (d =? c); [done|]. by destruct (split_on c s). Qed.

Lemma split_on_none c s : (c ∉ s) -> split_on c s = [s].
Proof.
  induction s as [|d s IH]; intros Hn; [done|]. apply not_elem_of_cons in Hn as [Hc Hn].
  simpl. destruct (Z.eqb_spec d c); [by subst|]. by rewrite (IH Hn).
Qed.

Lemma split_on_app c a b : split_on c (a ++ c :: b) = split_on c a ++ split_on c b.
Proof.
  induction a as [|d a IH]; simpl; [by rewrite Z.eqb_refl|].
  destruct (d =? c); [by rewrite IH|]. rewrite IH.
  destruct (split_on c a) as [|x l] eqn:E; [by apply split_on_nonempty in E|done].
Qed.

(** A text without blanks is its own [trim]. *)
Lemma drop_while_none {A} (p : A -> bool) l : forallb (fun x => negb (p x)) l = true -> drop_while p l = l.
Proof. destruct l as [|x l]; simpl; [done|]. intros [Hx _]%andb_true_iff. by destruct (p x). Qed.

Lemma trim_no_blanks s : forallb (fun c => negb (is_whitespace c)) s = true -> trim s = s.
Proof.
  intros Hs. unfold trim, trim_start, trim_end, trim_end_matches. rewrite (drop_while_none _ s Hs).
  rewrite drop_while_none; [apply rev_involutive|].
  apply forallb_forall. intros c Hc. rewrite forallb_forall in Hs. apply Hs. by apply in_rev.
Qed.

Lemma digit_not_blank c : is_ascii_digit c = true -> is_whitespace c = false.
Proof.
  intros Hc. unfold is_ascii_digit in Hc. bool_to_prop.
  destruct (is_whitespace c) eqn:E; [|done]. exfalso. revert E. unfold is_whitespace.
  rewrite !orb_true_iff, !andb_true_iff, !Z.leb_le, !Z.eqb_eq. lia.
Qed.

Lemma trim_show_Z n : 0 <= n -> trim (show_Z n) = show_Z n.
Proof.
  intros Hn. apply trim_no_blanks. unfold show_Z. destruct (n <? 0) eqn:E; [bool_to_prop; lia|].
  destruct (show_nonneg_spec n Hn) as (_ & Hd & _).
  apply forallb_forall. intros c Hc. rewrite forallb_forall in Hd. by rewrite (digit_not_blank c (Hd c Hc)).
Qed.

Lemma drop_while_suffix {A} (p : A -> bool) l : exists k, drop_while p l = drop k l.
Proof.
  induction l as [|x l [k IH]]; simpl; [by exists 0%nat|].
  destruct (p x); [by exists (S k)|by exists 0%nat].
Qed.

Lemma trim_end_matches_prefix p s : exists k, trim_end_matches p s = take k s.
Proof.
  unfold trim_end_matches. destruct (drop_while_suffix p (rev s)) as [k ->].
  exists (length s - k)%nat. rewrite skipn_rev, rev_involutive. done.
Qed.

Lemma drop_while_head {A} (p : A -> bool) l :
  match drop_while p l with [] => True | x :: _ => p x = false end.
Proof. induction l as [|x l IH]; simpl; [done|]. by destruct (p x) eqn:E. Qed.

Lemma drop_while_id {A} (p : A -> bool) l :
  match l with [] => True | x :: _ => p x = false end -> drop_while p l = l.
Proof. destruct l as [|x l]; simpl; [done|]. by intros ->. Qed.

Lemma trim_end_head p s :
  match s with [] => True | x :: _ => p x = false end ->
  match trim_end_matches p s with [] => True | x :: _ => p x = false end.
Proof.
  destruct (trim_end_matches_prefix p s) as [k ->]. destruct s, k; done.
Qed.

Lemma trim_trim s : trim (trim s) = trim s.
Proof.
  unfold trim at 1. unfold trim_start at 1. rewrite (drop_while_id _ (trim s)).
  - unfold trim, trim_end, trim_end_matches. rewrite rev_involutive.
    rewrite (drop_while_id _ (drop_while _ _)); [done|]. apply drop_while_head.
  - unfold trim, trim_end. apply trim_end_head, drop_while_head.
Qed.
