(* ===== verification/Markdown.v ===== *)
(** * Markdown: [src/markdown.rs], the escape-first markup of descriptions

    The byte offsets of the source fall on character boundaries; here they are counted
    in characters. The specification is a document type whose printing emits the
    whitelisted tags only; rendering always prints such a document, and its text is
    inert. *)
From S2P Require Import Prelude Text.
#[local] Open Scope Z_scope.

(** ** Text *)

(** [str::find]: the first position of a non-empty pattern. *)
Fixpoint find_str (p s : str) : option nat :=
  if starts_with p s then Some 0%nat
  else match s with [] => None | _ :: s' => S <$> find_str p s' end.
Fixpoint find_char (p : char -> bool) (s : str) : option nat :=
  match s with
  | [] => None
  | c :: s' => if p c then Some 0%nat else S <$> find_char p s'
  end.

(** [str::replace] of a non-empty pattern; [skip] characters belong to a match. *)
Fixpoint replace_from (p q : str) (skip : nat) (s : str) : str :=
  match s with
  | [] => []
  | c :: s' =>
      match skip with
      | S k => replace_from p q k s'
      | O => if starts_with p s then q ++ replace_from p q (pred (length p)) s'
             else c :: replace_from p q 0 s'
      end
  end.
Definition replace (p q s : str) : str := replace_from p q 0 s.

(** [str::lines]. *)
Definition strip_cr (line : str) : str :=
  match rev line with 13 :: r => rev r | _ => line end.
Definition lines (s : str) : list str :=
  match rev (split_on 10 s) with
  | [] => []
  | last :: init => rev (map strip_cr init) ++ (if is_empty last then [] else [last])
  end.

(** [str::split_whitespace]. *)
Fixpoint split_at (p : char -> bool) (s : str) : list str :=
  match s with
  | [] => [[]]
  | c :: s' =>
      if p c then [] :: split_at p s'
      else match split_at p s' with w :: ws => (c :: w) :: ws | [] => [[c]] end
  end.
Definition split_whitespace (s : str) : list str :=
  List.filter (fun w => negb (is_empty w)) (split_at is_whitespace s).

(** ** Rendering *)

Definition normalize_newlines (s : str) : str := replace [13] [10] (replace [13; 10] [10] s).

Definition escape_char (c : char) : str :=
  if c =? 38 then lit "&amp;"
  else if c =? 60 then lit "&lt;"
  else if c =? 62 then lit "&gt;"
  else if c =? 34 then lit "&quot;"
  else if c =? 39 then lit "&#39;"
  else [c].
Definition escape_html (s : str) : str := flat_map escape_char s.

Definition split_blocks_step (st : list (list str) * list str) (line : str)
  : list (list str) * list str :=
  let '(blocks, current) := st in
  if is_empty (trim line) then
    (if is_empty current then blocks else blocks ++ [current], [])
  else (blocks, current ++ [line]).
Definition split_blocks (s : str) : list (list str) :=
  let '(blocks, current) := fold_left split_blocks_step (split_on 10 s) ([], []) in
  if is_empty current then blocks else blocks ++ [current].

Definition is_list_block (block : list str) : bool :=
  forallb (fun line => starts_with (lit "- ") (trim_start line)) block.

Definition is_allowed_scheme (url : str) : bool :=
  starts_with (lit "http://") url || starts_with (lit "https://") url || starts_with (lit "mailto:") url.

Definition is_http (url : str) : bool :=
  starts_with (lit "http://") url || starts_with (lit "https://") url.

(** [format!("<tag>{content}</tag>")]. *)
Definition element (tag content : str) : str :=
  lit "<" ++ tag ++ lit ">" ++ content ++ lit "</" ++ tag ++ lit ">".
Definition anchor_element (url text : str) : str :=
  lit "<a href=" ++ dquote ++ url ++ dquote ++ lit " rel=" ++ dquote ++ lit "noopener noreferrer"
    ++ dquote ++ lit ">" ++ text ++ lit "</a>".

Definition match_code (rest : str) : option (nat * str) :=
  let after := drop 1 rest in
  p ← find_str (lit "`") after;
  Some ((1 + p + 1)%nat, element (lit "code") (take p after)).
Definition match_bold (rest : str) : option (nat * str) :=
  let after := drop 2 rest in
  p ← find_str (lit "**") after;
  Some ((2 + p + 2)%nat, element (lit "strong") (take p after)).
Definition match_italic (rest : str) : option (nat * str) :=
  let after := drop 1 rest in
  p ← find_str (lit "*") after;
  Some ((1 + p + 1)%nat, element (lit "em") (take p after)).

Definition match_link (rest : str) : option (nat * str) :=
  let after_bracket := drop 1 rest in
  close_idx ← find_str (lit "]") after_bracket;
  let link_text := take close_idx after_bracket in
  let after_close_bracket := drop (close_idx + 1) after_bracket in
  after_paren ← strip_prefix (lit "(") after_close_bracket;
  paren_close ← find_str (lit ")") after_paren;
  let url := take paren_close after_paren in
  let consumed := (1 + close_idx + 1 + 1 + paren_close + 1)%nat in
  if is_allowed_scheme url then Some (consumed, anchor_element url link_text)
  else Some (consumed, lit "[" ++ link_text ++ lit "](" ++ url ++ lit ")").

Definition is_trim_char (c : char) : bool := bool_decide (c ∈ lit ".,;:!?)").

Definition match_autolink (rest : str) : nat * str :=
  let end_ := default (length rest) (find_char is_whitespace rest) in
  let run := take end_ rest in
  let url := trim_end_matches is_trim_char run in
  let trailing := drop (length url) run in
  if is_http url then (end_, anchor_element url url ++ trailing) else (end_, run).

(** What one turn of the scan emits, and what it leaves. *)
Definition literal_char (rest : str) : str * str := (take 1 rest, drop 1 rest).
Definition emit_match (o : option (nat * str)) (rest : str) (otherwise : str * str) : str * str :=
  match o with
  | Some (consumed, rendered) => (rendered, drop consumed rest)
  | None => otherwise
  end.
Definition inline_step (rest : str) : str * str :=
  if starts_with (lit "`") rest then emit_match (match_code rest) rest (literal_char rest)
  else if starts_with (lit "**") rest then
    emit_match (match_bold rest) rest (lit "**", drop 2 rest)
  else if starts_with (lit "*") rest then emit_match (match_italic rest) rest (literal_char rest)
  else if starts_with (lit "[") rest then emit_match (match_link rest) rest (literal_char rest)
  else if is_http rest then emit_match (Some (match_autolink rest)) rest (literal_char rest)
  else literal_char rest.

(** The [while] loop: every turn consumes a character, so the length is enough fuel. *)
Fixpoint inline_loop (fuel : nat) (rest : str) : str :=
  match fuel with
  | O => []
  | S n => if is_empty rest then []
           else let '(out, rest') := inline_step rest in out ++ inline_loop n rest'
  end.
Definition render_inline (line : str) : str := inline_loop (length line) line.

Definition list_item (line : str) : str :=
  let trimmed := trim_start line in default trimmed (strip_prefix (lit "- ") trimmed).

Definition render_block (block : list str) : str :=
  if is_list_block block then
    element (lit "ul") (flat_map (fun line => element (lit "li") (render_inline (list_item line))) block)
  else element (lit "p") (join (lit "<br>") (map render_inline block)).

Definition render (src : str) : str :=
  flat_map render_block (split_blocks (escape_html (normalize_newlines src))).

(** ** Plain text *)

Definition delist (line : str) : str :=
  default line (strip_prefix (lit "- ") (trim_start line)).

(** The bracketed text and what follows its link, if a link it is. *)
Definition link_tail (after_close : str) : option str :=
  after_paren ← strip_prefix (lit "(") after_close;
  paren_close ← find_str (lit ")") after_paren;
  Some (drop (paren_close + 1) after_paren).

Fixpoint strip_links_loop (fuel : nat) (rest : str) : str :=
  match fuel with
  | O => []
  | S n =>
      match find_str (lit "[") rest with
      | None => rest
      | Some start =>
          let after_bracket := drop (start + 1) rest in
          take start rest ++
          match find_str (lit "]") after_bracket with
          | None => lit "[" ++ strip_links_loop n after_bracket
          | Some close_idx =>
              let text := take close_idx after_bracket in
              let after_close := drop (close_idx + 1) after_bracket in
              match link_tail after_close with
              | Some rest' => text ++ strip_links_loop n rest'
              | None => lit "[" ++ text ++ lit "]" ++ strip_links_loop n after_close
              end
          end
      end
  end.
Definition strip_links_to_text (s : str) : str := strip_links_loop (S (length s)) s.

Definition strip_markdown_markers (s : str) : str :=
  let delisted := join [10] (map delist (lines s)) in
  let no_code := replace (lit "`") [] delisted in
  let no_emphasis := replace (lit "*") [] no_code in
  strip_links_to_text no_emphasis.

Definition to_plain (src : str) : str :=
  join (lit " ") (split_whitespace (strip_markdown_markers (normalize_newlines src))).

Definition truncate_plain (src : str) (max_chars : nat) : str :=
  let plain := to_plain src in
  if (length plain <=? max_chars)%nat then plain else take max_chars plain ++ lit "…".

(** ** The documents rendering may print *)

Inductive Inline : Type :=
| Plain (s : str)
| Code (s : str)
| Strong (s : str)
| Em (s : str)
| Anchor (url text : str).

Inductive Block : Type :=
| Paragraph (lines : list (list Inline))
| Bullets (items : list (list Inline)).

Definition print_inline (i : Inline) : str :=
  match i with
  | Plain s => s
  | Code s => element (lit "code") s
  | Strong s => element (lit "strong") s
  | Em s => element (lit "em") s
  | Anchor url text => anchor_element url text
  end.
Definition print_line (l : list Inline) : str := flat_map print_inline l.
Definition print_block (b : Block) : str :=
  match b with
  | Paragraph ls => element (lit "p") (join (lit "<br>") (map print_line ls))
  | Bullets items => element (lit "ul") (flat_map (fun l => element (lit "li") (print_line l)) items)
  end.
Definition print_doc (d : list Block) : str := flat_map print_block d.

(** Text that can neither open a tag nor leave an attribute. *)
Definition special (c : char) : bool := bool_decide (c ∈ [60; 62; 34; 39]).
Definition inert (s : str) : Prop := Forall (fun c => special c = false) s.
#[export] Instance inert_dec s : Decision (inert s).
Proof. apply Forall_dec. intros c. apply _. Defined.
Ltac inert_lit := apply (bool_decide_eq_true_1 (inert _)); vm_compute; reflexivity.

Definition inert_inline (i : Inline) : Prop :=
  match i with
  | Plain s | Code s | Strong s | Em s => inert s
  | Anchor url text => is_allowed_scheme url = true /\ inert url /\ inert text
  end.
Definition inert_block (b : Block) : Prop :=
  match b with Paragraph ls | Bullets ls => Forall (Forall inert_inline) ls end.

(** ** Lemmas on text *)

Lemma find_str_bound p s i : find_str p s = Some i -> (i + length p <= length s)%nat.
Proof.
  assert (forall t, starts_with p t = true -> (length p <= length t)%nat) as Hp.
  { intros t [r ->]%starts_with_spec. rewrite length_app. lia. }
  revert i. induction s as [|c s IH]; intros i; simpl.
  - destruct (starts_with p []) eqn:E; intros [= <-]. by apply Hp in E.
  - destruct (starts_with p (c :: s)) eqn:E; [intros [= <-]; by apply Hp in E|].
    intros (j & Hj & ->)%fmap_Some. apply IH in Hj. simpl. lia.
Qed.

Lemma find_char_bound p s i : find_char p s = Some i -> (i < length s)%nat.
Proof.
  revert i. induction s as [|c s IH]; intros i; simpl; [done|].
  destruct (p c); [intros [= <-]; lia|]. intros (j & Hj & ->)%fmap_Some. apply IH in Hj. lia.
Qed.

Lemma inert_app a b : inert (a ++ b) <-> inert a /\ inert b.
Proof. apply Forall_app. Qed.
Lemma inert_take n s : inert s -> inert (take n s).
Proof. apply Forall_take. Qed.
Lemma inert_drop n s : inert s -> inert (drop n s).
Proof. apply Forall_drop. Qed.
#[local] Hint Resolve inert_take inert_drop : core.

Lemma inert_trim_start s : inert s -> inert (trim_start s).
Proof. unfold trim_start. destruct (drop_while_suffix is_whitespace s) as [k ->]. auto. Qed.
Lemma inert_trim_end p s : inert s -> inert (trim_end_matches p s).
Proof. destruct (trim_end_matches_prefix p s) as [k ->]. auto. Qed.
Lemma inert_strip_prefix p s r : strip_prefix p s = Some r -> inert s -> inert r.
Proof. intros ->%strip_prefix_Some. rewrite inert_app. tauto. Qed.
#[local] Hint Resolve inert_trim_start inert_trim_end : core.

Lemma split_on_inert c s : inert s -> Forall inert (split_on c s).
Proof.
  induction s as [|d s IH]; intros Hs; simpl; [repeat constructor|].
  apply Forall_cons in Hs as [Hd Hs]. specialize (IH Hs).
  destruct (d =? c); [by repeat constructor|].
  destruct (split_on c s); [by repeat constructor|]. apply Forall_cons in IH as [??].
  constructor; [by constructor|done].
Qed.

Lemma escape_html_inert s : inert (escape_html s).
Proof.
  apply Forall_flat_map, Forall_true. intros c. unfold escape_char.
  repeat match goal with |- context [if ?b then _ else _] => destruct b eqn:? end;
    try inert_lit.
  constructor; [|constructor]. unfold special. rewrite bool_decide_eq_false, !not_elem_of_cons.
  repeat split; try lia. apply not_elem_of_nil.
Qed.

Definition inert_blocks (st : list (list str) * list str) : Prop :=
  Forall (Forall inert) st.1 /\ Forall inert st.2.

Lemma split_blocks_step_inert st line :
  inert line -> inert_blocks st -> inert_blocks (split_blocks_step st line).
Proof.
  destruct st as [blocks current]. intros Hl [H1 H2]. unfold inert_blocks, split_blocks_step.
  simpl in *. destruct (is_empty (trim line)); simpl.
  - split; [|constructor]. destruct current; simpl; [done|]. by apply Forall_app_2; [|constructor].
  - split; [done|]. by apply Forall_app_2; [|constructor].
Qed.

Lemma split_blocks_inert s : inert s -> Forall (Forall inert) (split_blocks s).
Proof.
  intros Hs%(split_on_inert 10). unfold split_blocks.
  assert (forall ls st, Forall inert ls -> inert_blocks st ->
    inert_blocks (fold_left split_blocks_step ls st)) as Hf.
  { induction ls as [|l ls IH]; intros st Hl Hst; simpl; [done|].
    apply Forall_cons in Hl as [Hl Hls]. apply IH; [done|]. by apply split_blocks_step_inert. }
  specialize (Hf (split_on 10 s) ([], []) Hs). destruct (fold_left _ _ _) as [bs cur].
  destruct Hf as [H1 H2]; [by split|]. simpl in *.
  destruct cur; simpl; [done|]. by apply Forall_app_2; [|constructor].
Qed.

(** ** The scan of a line *)

(** What a turn emits is inlines of the document, and it consumes something. *)
Definition turn_ok (rest : str) (o : str * str) : Prop :=
  exists l n, o = (print_line l, drop (S n) rest) /\ Forall inert_inline l /\
    (S n <= length rest)%nat.

Lemma turn_ok_one rest i n :
  inert_inline i -> (S n <= length rest)%nat -> turn_ok rest (print_inline i, drop (S n) rest).
Proof.
  intros Hi Hn. exists [i], n. unfold print_line. simpl. rewrite app_nil_r.
  split; [done|]. split; [by repeat constructor|done].
Qed.

Lemma literal_char_ok rest : rest <> [] -> inert rest -> turn_ok rest (literal_char rest).
Proof.
  intros Hne Hs. apply (turn_ok_one rest (Plain (take 1 rest)) 0); [by apply inert_take|].
  destruct rest; [done|simpl; lia].
Qed.

Lemma emit_match_ok o rest otherwise :
  (forall n s, o = Some (n, s) -> turn_ok rest (s, drop n rest)) ->
  turn_ok rest otherwise -> turn_ok rest (emit_match o rest otherwise).
Proof. destruct o as [[n s]|]; simpl; auto. Qed.

(** A delimited run: [k] characters of opening, then up to the closing pattern. *)
Lemma delimited_ok k pat rest i c (mk : str -> Inline) :
  inert rest -> find_str pat (drop k rest) = Some i -> (1 <= length pat)%nat ->
  (forall s, inert s -> inert_inline (mk s)) ->
  c = (k + i + length pat)%nat ->
  turn_ok rest (print_inline (mk (take i (drop k rest))), drop c rest).
Proof.
  intros Hs Hf Hp Hmk ->. pose proof (find_str_bound _ _ _ Hf) as Hb. rewrite length_drop in Hb.
  replace (k + i + length pat)%nat with (S (k + i + length pat - 1)) by lia.
  apply turn_ok_one; [auto|lia].
Qed.

Lemma match_code_ok rest n s : inert rest -> match_code rest = Some (n, s) ->
  turn_ok rest (s, drop n rest).
Proof.
  intros Hs (i & Hf & [= <- <-])%bind_Some. by eapply (delimited_ok 1 (lit "`") _ _ _ Code).
Qed.
Lemma match_bold_ok rest n s : inert rest -> match_bold rest = Some (n, s) ->
  turn_ok rest (s, drop n rest).
Proof.
  intros Hs (i & Hf & [= <- <-])%bind_Some.
  eapply (delimited_ok 2 (lit "**") _ _ _ Strong); try done. simpl. lia.
Qed.
Lemma match_italic_ok rest n s : inert rest -> match_italic rest = Some (n, s) ->
  turn_ok rest (s, drop n rest).
Proof.
  intros Hs (i & Hf & [= <- <-])%bind_Some. by eapply (delimited_ok 1 (lit "*") _ _ _ Em).
Qed.

Lemma match_link_ok rest n s : inert rest -> match_link rest = Some (n, s) ->
  turn_ok rest (s, drop n rest).
Proof.
  intros Hs (i & Hf & E)%bind_Some. apply bind_Some in E as (paren & Hp & E).
  apply bind_Some in E as (j & Hj & E).
  pose proof (find_str_bound _ _ _ Hf) as B1. pose proof (find_str_bound _ _ _ Hj) as B2.
  pose proof Hp as Hlen%strip_prefix_Some%(f_equal length).
  rewrite length_app, length_drop in Hlen. rewrite length_drop in B1, Hlen.
  change (length (lit "]")) with 1%nat in B1. change (length (lit ")")) with 1%nat in B2.
  change (length (lit "(")) with 1%nat in Hlen.
  assert (inert paren) as Hpi by (eapply inert_strip_prefix; [exact Hp|auto]).
  set (text := take i (drop 1 rest)) in *. set (url := take j paren) in *.
  assert (inert text /\ inert url) as [? ?] by (subst text url; auto).
  cbv zeta in E.
  destruct (is_allowed_scheme url) eqn:Ea; injection E as En <-;
    replace n with (S (i + j + 3)) by lia.
  - by apply (turn_ok_one rest (Anchor url text)); [|lia].
  - apply (turn_ok_one rest (Plain (lit "[" ++ text ++ lit "](" ++ url ++ lit ")"))); [|lia].
    cbn [inert_inline]. rewrite !inert_app. repeat split; try done; inert_lit.
Qed.

(** A URL's scheme is not blank, so the run it starts is not empty. *)
Lemma http_head rest : is_http rest = true -> exists c rest', rest = c :: rest' /\ is_whitespace c = false.
Proof. intros [[r ->]%starts_with_spec|[r ->]%starts_with_spec]%orb_true_iff; by do 2 eexists. Qed.

Lemma match_autolink_ok rest n s : inert rest -> is_http rest = true ->
  match_autolink rest = (n, s) -> turn_ok rest (s, drop n rest).
Proof.
  intros Hs Hh E. unfold match_autolink in E. cbv zeta in E. set (e := default _ _) in E.
  assert (exists m, e = S m /\ S m <= length rest)%nat as (m & -> & Hm).
  { destruct (http_head rest Hh) as (c & r & -> & Hc). subst e. simpl. rewrite Hc.
    destruct (find_char is_whitespace r) as [k|] eqn:Ef; simpl; [|eauto].
    apply find_char_bound in Ef. eauto with lia. }
  set (run := take (S m) rest) in E. set (url := trim_end_matches is_trim_char run) in E.
  assert (inert run) as Hr by (subst run; auto). assert (inert url) as Hu by (subst url; auto).
  destruct (is_http url) eqn:Eu; injection E as <- <-; [|by apply (turn_ok_one rest (Plain run))].
  exists [Anchor url url; Plain (drop (length url) run)], m.
  split; [unfold print_line; simpl; by rewrite app_nil_r|]. split; [|done].
  constructor; [|repeat constructor; simpl; auto]. simpl. split; [|done].
  unfold is_allowed_scheme. unfold is_http in Eu. by rewrite Eu.
Qed.

Lemma inline_step_ok rest : rest <> [] -> inert rest -> turn_ok rest (inline_step rest).
Proof.
  intros Hne Hs. pose proof (literal_char_ok rest Hne Hs) as Hlit. unfold inline_step.
  destruct (starts_with (lit "`") rest); [apply emit_match_ok; eauto using match_code_ok|].
  destruct (starts_with (lit "**") rest) eqn:Eb.
  { apply emit_match_ok; eauto using match_bold_ok. apply starts_with_spec in Eb as [r ->].
    apply (turn_ok_one _ (Plain (lit "**")) 1); [cbn [inert_inline]; inert_lit|simpl; lia]. }
  destruct (starts_with (lit "*") rest); [apply emit_match_ok; eauto using match_italic_ok|].
  destruct (starts_with (lit "[") rest); [apply emit_match_ok; eauto using match_link_ok|].
  destruct (is_http rest) eqn:Eh; [|done]. apply emit_match_ok; [|done].
  intros n s [= E]. by apply match_autolink_ok.
Qed.

Lemma print_line_app a b : print_line (a ++ b) = print_line a ++ print_line b.
Proof. apply flat_map_app. Qed.

(** The scan prints inlines; any fuel that covers the line gives the same scan. *)
Lemma inline_loop_ok fuel rest :
  inert rest -> (length rest <= fuel)%nat ->
  exists l, Forall inert_inline l /\
    forall fuel', (length rest <= fuel')%nat -> inline_loop fuel' rest = print_line l.
Proof.
  revert rest. induction fuel as [|fuel IH]; intros rest Hs Hn.
  { destruct rest; [|simpl in Hn; lia]. exists []. split; [constructor|]. by intros []. }
  destruct rest as [|c rest]; [exists []; split; [constructor|by intros []]|].
  destruct (inline_step_ok (c :: rest)) as (l & n & E & Hl & Hb); [done..|].
  cbn [drop] in E. simpl in Hn, Hb.
  destruct (IH (drop n rest)) as (l' & Hl' & F).
  { apply inert_drop. by apply Forall_cons in Hs as [_ ?]. }
  { rewrite length_drop. lia. }
  exists (l ++ l'). split; [by apply Forall_app|]. intros [|fuel'] Hf; simpl in Hf; [lia|].
  cbn [inline_loop is_empty]. rewrite E, F, print_line_app by (rewrite length_drop; lia). done.
Qed.

Lemma render_inline_ok line :
  inert line -> exists l, render_inline line = print_line l /\ Forall inert_inline l.
Proof.
  intros Hs. destruct (inline_loop_ok (length line) line) as (l & Hl & E); [done..|].
  exists l. split; [by apply E|done].
Qed.

Lemma lines_ok {A} (f : A -> str) (P : A -> Prop) (ls : list A) :
  (forall a, P a -> exists l, f a = print_line l /\ Forall inert_inline l) -> Forall P ls ->
  exists d, map f ls = map print_line d /\ Forall (Forall inert_inline) d.
Proof.
  intros Hf. induction 1 as [|a ls Ha _ (d & E & Hd)]; [by exists []|].
  destruct (Hf a Ha) as (l & El & Hl). exists (l :: d). simpl. rewrite El, E. by repeat constructor.
Qed.

Lemma list_item_inert line : inert line -> inert (list_item line).
Proof.
  intros Hs. unfold list_item. destruct (strip_prefix _ _) as [r|] eqn:E; simpl; [|auto].
  eapply inert_strip_prefix; eauto.
Qed.

Lemma render_block_ok block :
  Forall inert block -> exists b, render_block block = print_block b /\ inert_block b.
Proof.
  intros Hb. unfold render_block. destruct (is_list_block block).
  - destruct (lines_ok (fun l => render_inline (list_item l)) inert block) as (d & E & Hd); [|done|].
    { intros l Hl. by apply render_inline_ok, list_item_inert. }
    exists (Bullets d). split; [|done]. simpl. f_equal. rewrite !flat_map_concat_map.
    rewrite <- (map_map print_line), <- E, map_map. done.
  - destruct (lines_ok render_inline inert block) as (d & E & Hd); [apply render_inline_ok|done|].
    exists (Paragraph d). split; [|done]. simpl. by rewrite E.
Qed.

(** C39: rendering cannot inject markup. Whatever the description says, the HTML is the
    printing of a document of paragraphs and lists of whitelisted elements, in which
    every piece of text is free of angle brackets and quotes, so that the only tags and
    attributes are those the printer writes; and every link has one of the three allowed
    schemes. *)
Theorem render_is_document src : exists d, render src = print_doc d /\ Forall inert_block d.
Proof.
  unfold render. pose proof (split_blocks_inert _ (escape_html_inert (normalize_newlines src))) as Hb.
  induction Hb as [|block blocks Hblock _ (d & E & Hd)]; [by exists []|].
  destruct (render_block_ok block Hblock) as (b & Eb & Hb). exists (b :: d). split.
  - cbn [flat_map print_doc]. unfold print_doc in E. by rewrite Eb, E.
  - by constructor.
Qed.

(** A quoted address: the entity of the closing quote is cut at its semicolon, so the
    quote becomes part of the link and a semicolon that nobody wrote is shown. *)
Definition quoted_url : str := dquote ++ lit "http://a.example" ++ dquote.

(** An address in double quotes is linked wrongly. Trimming trailing punctuation off
    a bare address works on the escaped text, so it takes the semicolon of [&quot;] for
    punctuation: the quote goes into the link and the semicolon, which the source does
    not have, is shown after it. *)
Theorem quoted_address_gains_semicolon :
  (59 ∉ quoted_url) /\
  render quoted_url = element (lit "p") (lit "&quot;" ++
    anchor_element (lit "http://a.example&quot") (lit "http://a.example&quot") ++ lit ";").
Proof.
  split; [|vm_compute; reflexivity].
  apply (bool_decide_eq_true_1 (59 ∉ quoted_url)). vm_compute. reflexivity.
Qed.

(** ** Plain text *)

Lemma Forall_replace_erased (c : char) s : Forall (fun d => d <> c) (replace [c] [] s).
Proof.
  unfold replace. induction s as [|d s IH]; cbn [replace_from]; [constructor|].
  unfold starts_with. cbn [strip_prefix]. destruct (Z.eqb_spec c d); [exact IH|]. by constructor.
Qed.

Lemma Forall_replace (P : char -> Prop) p q skip s :
  Forall P q -> Forall P s -> Forall P (replace_from p q skip s).
Proof.
  intros Hq Hs. revert skip. induction Hs as [|c s Hc _ IH]; intros [|k]; cbn [replace_from]; auto.
  destruct (starts_with p (c :: s)); [by apply Forall_app|by constructor].
Qed.

Lemma Forall_strip_prefix (P : char -> Prop) p s r :
  strip_prefix p s = Some r -> Forall P s -> Forall P r.
Proof. intros ->%strip_prefix_Some. rewrite Forall_app. tauto. Qed.

Lemma Forall_strip_links (P : char -> Prop) fuel s :
  P (chr "[") -> P (chr "]") -> Forall P s -> Forall P (strip_links_loop fuel s).
Proof.
  intros Ho Hc. revert s. induction fuel as [|fuel IH]; intros s Hs; cbn [strip_links_loop]; [constructor|].
  assert (Forall P (lit "[") /\ Forall P (lit "]")) as [Hlo Hlc] by (by repeat constructor).
  destruct (find_str _ s) as [start|]; [|done].
  apply Forall_app. split; [by apply Forall_take|].
  assert (Forall P (drop (start + 1) s)) as Hd by (by apply Forall_drop).
  destruct (find_str _ _) as [close|]; [|apply Forall_app; auto].
  pose proof (Forall_take P close _ Hd) as Ht. pose proof (Forall_drop P (close + 1) _ Hd) as Ha.
  destruct (link_tail _) as [r|] eqn:El; [|rewrite !Forall_app; auto].
  apply Forall_app. split; [done|]. apply IH.
  apply bind_Some in El as (paren & Hp & El). apply bind_Some in El as (j & _ & [= <-]).
  apply Forall_drop. by eapply Forall_strip_prefix.
Qed.

(** Nothing is lost for want of fuel: a loop with enough is the loop with more. *)
Lemma strip_links_fuel fuel fuel' s :
  (length s < fuel)%nat -> (length s < fuel')%nat ->
  strip_links_loop fuel s = strip_links_loop fuel' s.
Proof.
  revert fuel' s. induction fuel as [|fuel IH]; intros [|fuel'] s Hf Hf'; [lia..|].
  cbn [strip_links_loop]. destruct (find_str _ s) as [start|] eqn:Es; [|done].
  apply find_str_bound in Es. simpl in Es. f_equal.
  pose proof (length_drop s (start + 1)) as Hd.
  destruct (find_str _ (drop (start + 1) s)) as [close|] eqn:Ec; [|f_equal; apply IH; lia].
  apply find_str_bound in Ec. simpl in Ec.
  pose proof (length_drop (drop (start + 1) s) (close + 1)) as Hd2.
  destruct (link_tail _) as [r|] eqn:El; [|do 3 f_equal; apply IH; lia].
  f_equal. apply bind_Some in El as (paren & Hp%strip_prefix_Some & El).
  apply bind_Some in El as (j & _ & [= <-]). rewrite Hp, length_app in Hd2.
  pose proof (length_drop paren (j + 1)). apply IH; lia.
Qed.

Lemma split_at_words p s :
  Forall (fun w => Forall (fun c => p c = false) w) (split_at p s) /\
  forall P, Forall P s -> Forall (Forall P) (split_at p s).
Proof.
  induction s as [|c s [IH1 IH2]]; simpl; [by repeat constructor|].
  split.
  - destruct (p c) eqn:Ec; [by constructor|].
    destruct (split_at p s); [by repeat constructor|]. apply Forall_cons in IH1 as [??].
    by repeat constructor.
  - intros P [Hc Hs]%Forall_cons. specialize (IH2 P Hs). destruct (p c); [by constructor|].
    destruct (split_at p s); [by repeat constructor|]. apply Forall_cons in IH2 as [??].
    by repeat constructor.
Qed.

(** A word of the summary: not empty, without blanks, backquotes or asterisks. *)
Definition word (w : str) : Prop :=
  w <> [] /\ Forall (fun c => is_whitespace c = false /\ c <> chr "`" /\ c <> chr "*") w.

Lemma to_plain_words src : exists ws, to_plain src = join (lit " ") ws /\ Forall word ws.
Proof.
  exists (split_whitespace (strip_markdown_markers (normalize_newlines src))). split; [done|].
  set (s := strip_markdown_markers _).
  assert (Forall (fun c => c <> chr "`" /\ c <> chr "*") s) as Hs.
  { apply Forall_strip_links; [done..|]. apply Forall_and. split.
    - apply Forall_replace; [constructor|]. apply Forall_replace_erased.
    - apply Forall_replace_erased. }
  destruct (split_at_words is_whitespace s) as [H1 H2]. specialize (H2 _ Hs).
  apply Forall_forall. intros w Hw. unfold split_whitespace in Hw.
  apply list_elem_of_In, filter_In in Hw as [Hw%list_elem_of_In Hne].
  rewrite Forall_forall in H1, H2. specialize (H1 w Hw). specialize (H2 w Hw).
  split; [by destruct w|]. apply Forall_and. by split.
Qed.

(** The summary of a description is one line of at most [max_chars] characters and
    an ellipsis. It is words separated by single spaces, none with a blank or a code or
    emphasis marker, shown whole when it fits and else cut to exactly [max_chars]. *)
Theorem truncate_plain_bounded src max_chars :
  exists ws, Forall word ws /\ to_plain src = join (lit " ") ws /\
    let plain := to_plain src in
    ((length plain <= max_chars)%nat -> truncate_plain src max_chars = plain) /\
    ((max_chars < length plain)%nat ->
       truncate_plain src max_chars = take max_chars plain ++ lit "…" /\
       length (truncate_plain src max_chars) = S max_chars).
Proof.
  destruct (to_plain_words src) as (ws & E & Hw). exists ws. split; [done|]. split; [done|].
  unfold truncate_plain. cbv zeta. destruct (Nat.leb_spec (length (to_plain src)) max_chars).
  - split; [done|lia].
  - split; [lia|]. intros _. split; [done|].
    rewrite length_app, length_take. change (length (lit "…")) with 1%nat. lia.
Qed.
