(* ===== verification/Models.v ===== *)
(** * Models: [src/models.rs], with [EventKind] and [DownCause] of [src/notify.rs]

    The string-backed enumerations of the [str_enum!] macro, each in a [Module] of its
    own with its [as_str] and [from_str], and the domain records. An instant
    ([DateTime<Utc>]) is a [Z]: nanoseconds since the Unix epoch. *)
From S2P Require Import Prelude Text.
#[local] Open Scope Z_scope.

(** ** The [str_enum!] enumerations *)

(** An enumeration stored as text: what the macro generates for each of them. *)
Class StrEnum (A : Type) := {
  enum_name : str;
  as_str : A -> str;
  all_variants : list A;
}.

(** [FromStr]: the first arm whose literal is the text, else the error. *)
Definition from_str {A} `{StrEnum A} (s : str) : res str A :=
  match List.find (fun v => bool_decide (as_str v = s)) all_variants with
  | Some v => Ok v
  | None => Err (lit "invalid " ++ enum_name ++ lit ": " ++ s)
  end.

(** The laws the macro's two matches obey. *)
Class StrEnumLaws (A : Type) `{StrEnum A} := {
  all_variants_complete : forall v : A, v ∈ all_variants;
  as_str_inj : forall v w : A, as_str v = as_str w -> v = w;
}.

Ltac solve_str_enum :=
  split; [intros []; cbn; set_solver
         |intros [] [] E; try reflexivity; vm_compute in E; discriminate E].

Inductive ScheduleKind : Set :=
| SK_Period
| SK_Cron.

#[export] Instance ScheduleKind_eq_dec : EqDecision ScheduleKind.
Proof. solve_decision. Defined.
Definition ScheduleKind_as_str (v : ScheduleKind) : str :=
  match v with
  | SK_Period => lit "period"
  | SK_Cron => lit "cron"
  end.
#[export] Instance ScheduleKind_str_enum : StrEnum ScheduleKind := {|
  enum_name := lit "ScheduleKind";
  as_str := ScheduleKind_as_str;
  all_variants := [SK_Period; SK_Cron];
|}.
#[export] Instance ScheduleKind_laws : StrEnumLaws ScheduleKind.
Proof. solve_str_enum. Qed.

Inductive CheckStatus : Set :=
| CS_New
| CS_Up
| CS_Down
| CS_Paused.

#[export] Instance CheckStatus_eq_dec : EqDecision CheckStatus.
Proof. solve_decision. Defined.
Definition CheckStatus_as_str (v : CheckStatus) : str :=
  match v with
  | CS_New => lit "new"
  | CS_Up => lit "up"
  | CS_Down => lit "down"
  | CS_Paused => lit "paused"
  end.
#[export] Instance CheckStatus_str_enum : StrEnum CheckStatus := {|
  enum_name := lit "CheckStatus";
  as_str := CheckStatus_as_str;
  all_variants := [CS_New; CS_Up; CS_Down; CS_Paused];
|}.
#[export] Instance CheckStatus_laws : StrEnumLaws CheckStatus.
Proof. solve_str_enum. Qed.

Inductive PingKind : Set :=
| PK_Success
| PK_Fail
| PK_Start
| PK_Log
| PK_Exitcode.

#[export] Instance PingKind_eq_dec : EqDecision PingKind.
Proof. solve_decision. Defined.
Definition PingKind_as_str (v : PingKind) : str :=
  match v with
  | PK_Success => lit "success"
  | PK_Fail => lit "fail"
  | PK_Start => lit "start"
  | PK_Log => lit "log"
  | PK_Exitcode => lit "exitcode"
  end.
#[export] Instance PingKind_str_enum : StrEnum PingKind := {|
  enum_name := lit "PingKind";
  as_str := PingKind_as_str;
  all_variants := [PK_Success; PK_Fail; PK_Start; PK_Log; PK_Exitcode];
|}.
#[export] Instance PingKind_laws : StrEnumLaws PingKind.
Proof. solve_str_enum. Qed.

Inductive ChannelKind : Set :=
| CK_Webhook
| CK_Telegram
| CK_Slack
| CK_Ntfy
| CK_Pushover
| CK_Email.

#[export] Instance ChannelKind_eq_dec : EqDecision ChannelKind.
Proof. solve_decision. Defined.
Definition ChannelKind_as_str (v : ChannelKind) : str :=
  match v with
  | CK_Webhook => lit "webhook"
  | CK_Telegram => lit "telegram"
  | CK_Slack => lit "slack"
  | CK_Ntfy => lit "ntfy"
  | CK_Pushover => lit "pushover"
  | CK_Email => lit "email"
  end.
#[export] Instance ChannelKind_str_enum : StrEnum ChannelKind := {|
  enum_name := lit "ChannelKind";
  as_str := ChannelKind_as_str;
  all_variants := [CK_Webhook; CK_Telegram; CK_Slack; CK_Ntfy; CK_Pushover; CK_Email];
|}.
#[export] Instance ChannelKind_laws : StrEnumLaws ChannelKind.
Proof. solve_str_enum. Qed.

Inductive NotifyStatus : Set :=
| NS_Ok
| NS_Error.

#[export] Instance NotifyStatus_eq_dec : EqDecision NotifyStatus.
Proof. solve_decision. Defined.
Definition NotifyStatus_as_str (v : NotifyStatus) : str :=
  match v with
  | NS_Ok => lit "ok"
  | NS_Error => lit "error"
  end.
#[export] Instance NotifyStatus_str_enum : StrEnum NotifyStatus := {|
  enum_name := lit "NotifyStatus";
  as_str := NotifyStatus_as_str;
  all_variants := [NS_Ok; NS_Error];
|}.
#[export] Instance NotifyStatus_laws : StrEnumLaws NotifyStatus.
Proof. solve_str_enum. Qed.

(** [EventKind] of [src/notify.rs], written out by hand there; its error names the
    enumeration too. *)
Inductive EventKind : Set :=
| EK_Down
| EK_Up
| EK_Reminder
| EK_Test.

#[export] Instance EventKind_eq_dec : EqDecision EventKind.
Proof. solve_decision. Defined.
Definition EventKind_as_str (v : EventKind) : str :=
  match v with
  | EK_Down => lit "down"
  | EK_Up => lit "up"
  | EK_Reminder => lit "reminder"
  | EK_Test => lit "test"
  end.
#[export] Instance EventKind_str_enum : StrEnum EventKind := {|
  enum_name := lit "EventKind";
  as_str := EventKind_as_str;
  all_variants := [EK_Down; EK_Up; EK_Reminder; EK_Test];
|}.
#[export] Instance EventKind_laws : StrEnumLaws EventKind.
Proof. solve_str_enum. Qed.

(** ** Domain records *)

Record Check := mk_Check {
  c_id : Z;
  c_project_id : Z;
  c_name : str;
  c_description : str;
  c_ping_uuid : str;
  c_schedule_kind : ScheduleKind;
  c_period_secs : option Z;
  c_grace_secs : Z;
  c_cron_expr : option str;
  c_timezone : str;
  c_status : CheckStatus;
  c_last_ping_at : option Z;
  c_last_start_at : option Z;
  c_next_due_at : option Z;
  c_scan_interval_secs : option Z;
  c_max_runtime_secs : option Z;
  c_nag_interval_secs : option Z;
  c_last_alert_at : option Z;
  c_acknowledged : bool;
  c_created_at : Z;
}.

Record User := mk_User {
  u_id : Z;
  u_username : str;
  u_password_hash : option str;
  u_is_admin : bool;
  u_disabled : bool;
  u_created_at : Z;
}.

Record Project := mk_Project {
  p_id : Z;
  p_user_id : Z;
  p_name : str;
  p_description : str;
  p_scan_interval_secs : option Z;
  p_nag_interval_secs : option Z;
  p_created_at : Z;
}.

Record Channel := mk_Channel {
  ch_id : Z;
  ch_project_id : Z;
  ch_kind : ChannelKind;
  ch_name : str;
  ch_config_json : str;
  ch_created_at : Z;
}.

Record Ping := mk_Ping {
  pg_id : Z;
  pg_check_id : Z;
  pg_kind : PingKind;
  pg_exit_code : option Z;
  pg_body : str;
  pg_source_ip : option str;
  pg_created_at : Z;
}.

Record PingSummary := mk_PingSummary {
  ps_id : Z;
  ps_check_id : Z;
  ps_kind : PingKind;
  ps_created_at : Z;
}.

(** [impl From<&Ping> for PingSummary]. *)
Definition PingSummary_from (p : Ping) : PingSummary := {|
  ps_id := pg_id p;
  ps_check_id := pg_check_id p;
  ps_kind := pg_kind p;
  ps_created_at := pg_created_at p;
|}.

Record Notification := mk_Notification {
  n_id : Z;
  n_check_id : Z;
  n_channel_id : Z;
  n_event : EventKind;
  n_status : NotifyStatus;
  n_error : option str;
  n_created_at : Z;
}.

Record ApiKey := mk_ApiKey {
  k_id : Z;
  k_user_id : Z;
  k_name : str;
  k_prefix : str;
  k_created_at : Z;
  k_last_used_at : option Z;
  k_expires_at : option Z;
}.

Record Session := mk_Session {
  s_id : str;
  s_user_id : Z;
  s_created_at : option Z;
  s_last_seen_at : option Z;
  s_expires_at : Z;
  s_user_agent : option str;
  s_ip : option str;
  s_sso : bool;
}.

Record AuditLog := mk_AuditLog {
  a_id : Z;
  a_actor_user_id : Z;
  a_actor_username : str;
  a_action : str;
  a_target_type : option str;
  a_target_id : option Z;
  a_target_owner_id : option Z;
  a_method : option str;
  a_path : option str;
  a_detail : option str;
  a_created_at : Z;
}.

(** ** The notification data of [src/notify.rs] *)

Inductive DownCause : Set :=
| DC_Overdue
| DC_Overrun (max_runtime_secs started_at : Z)
| DC_Failed (exit_code : option Z).

Definition DownCause_as_str (c : DownCause) : str :=
  match c with
  | DC_Overdue => lit "overdue"
  | DC_Overrun _ _ => lit "overrun"
  | DC_Failed _ => lit "failed"
  end.

Record EventDetail := mk_EventDetail {
  ed_project_name : option str;
  ed_url : option str;
  ed_schedule : option str;
  ed_last_ping_at : option Z;
  ed_timezone : option str;
  ed_cause : option DownCause;
}.

Record NotificationEvent := mk_NotificationEvent {
  ev_check_id : Z;
  ev_check_name : str;
  ev_event : EventKind;
  ev_at : Z;
  ev_project_id : Z;
  ev_detail : EventDetail;
}.

#[export] Instance DownCause_eq_dec : EqDecision DownCause.
Proof. solve_decision. Defined.
#[export] Instance EventDetail_eq_dec : EqDecision EventDetail.
Proof. solve_decision. Defined.
#[export] Instance NotificationEvent_eq_dec : EqDecision NotificationEvent.
Proof. solve_decision. Defined.
#[export] Instance PingSummary_eq_dec : EqDecision PingSummary.
Proof. solve_decision. Defined.
#[export] Instance Check_eq_dec : EqDecision Check.
Proof. solve_decision. Defined.

(** ** Lemmas *)

Section enum_lemmas.
Context {A : Type} `{StrEnum A, !StrEnumLaws A}.

Lemma from_str_as_str (v : A) : from_str (as_str v) = Ok v.
Proof.
  unfold from_str. destruct (List.find _ _) as [w|] eqn:E.
  - apply List.find_some in E as [_ E]. bool_to_prop.
    f_equal. by apply as_str_inj.
  - exfalso. pose proof (all_variants_complete v) as Hv.
    apply list_elem_of_In in Hv. pose proof (List.find_none _ _ E v Hv) as E'. cbn beta in E'.
    by rewrite bool_decide_eq_true_2 in E'.
Qed.

Lemma from_str_Ok (s : str) (v : A) : from_str s = Ok v -> s = as_str v.
Proof.
  unfold from_str. destruct (List.find _ _) as [w|] eqn:E; [|done].
  apply List.find_some in E as [_ E]. bool_to_prop. by intros [= <-].
Qed.
End enum_lemmas.
#[export] Hint Rewrite @from_str_as_str using typeclasses eauto : pw.

(** Every string-backed enumeration is read back from exactly the text it is
    stored as. [from_str] accepts [s] as [v] if and only if [s] is [v]'s own text, so
    storing a status, kind or event and decoding the row returns the same value and no
    other text decodes to it. *)
Theorem enum_text_roundtrip :
  (forall (v : CheckStatus) s, from_str s = Ok v <-> s = as_str v) /\
  (forall (v : ScheduleKind) s, from_str s = Ok v <-> s = as_str v) /\
  (forall (v : PingKind) s, from_str s = Ok v <-> s = as_str v) /\
  (forall (v : ChannelKind) s, from_str s = Ok v <-> s = as_str v) /\
  (forall (v : NotifyStatus) s, from_str s = Ok v <-> s = as_str v) /\
  (forall (v : EventKind) s, from_str s = Ok v <-> s = as_str v).
Proof.
  repeat split; try apply from_str_Ok; intros ->; apply from_str_as_str.
Qed.
