(* ===== verification/Duration.v ===== *)
(** * Duration: [src/duration.rs]

    [parse_duration] and [fmt_duration] as in the source, over [i64] with its checked
    operations, a grammar that says which texts are durations and what they denote, and
    the theorems that relate the three. *)
From S2P Require Import Prelude Text.
#[local] Open Scope Z_scope.

(** ** The code *)

Definition unit_mult (unit : char) : option Z :=
  if unit =? chr "s" then Some 1
  else if unit =? chr "m" then Some 60
  else if unit =? chr "h" then Some 3600
  else if unit =? chr "d" then Some 86400
  else None.

(** The two nested [while let] loops as one recursion over the characters: [digits] is
    the inner loop's buffer, [total] the outer loop's accumulator. *)
Fixpoint parse_components (digits chars : str) (total : Z) : option Z :=
  match chars with
  | [] =>
      (* outer loop's test, or [chars.next()?] with digits but no unit *)
      if is_empty digits then Some total else None
  | c :: chars' =>
      if is_ascii_digit c then parse_components (digits ++ [c]) chars' total
      else if is_empty digits then None
      else
        mult ← unit_mult c;
        n ← parse_i64 digits;
        component ← checked_mul n mult;
        total' ← checked_add total component;
        parse_components [] chars' total'
  end.

Definition clean (s : str) : str :=
  to_ascii_lowercase (List.filter (fun c => negb (is_ascii_whitespace c)) s).

Definition parse_duration (s : str) : option Z :=
  let cleaned := clean s in
  if is_empty cleaned then None else
  let '(neg, rest) :=
    match strip_prefix (lit "-") cleaned with
    | Some rest => (true, rest)
    | None => (false, cleaned)
    end in
  if is_empty rest then None else
  if forallb is_ascii_digit rest then
    v ← parse_i64 rest;
    if (neg : bool) then checked_neg v else Some v
  else
    total ← parse_components [] rest 0;
    if (neg : bool) then checked_neg total else Some total.

Definition fmt_component (n : Z) (unit : str) : str :=
  if 0 <? n then show_Z n ++ unit else [].

Definition fmt_duration (secs : Z) : str :=
  let s := Z.max secs 0 in
  if s =? 0 then lit "0s" else
  let days := s / 86400 in
  let hours := (s mod 86400) / 3600 in
  let mins := (s mod 3600) / 60 in
  let rem_secs := s mod 60 in
  fmt_component days (lit "d") ++ fmt_component hours (lit "h")
  ++ fmt_component mins (lit "m") ++ fmt_component rem_secs (lit "s").

Example parse_1h30m : parse_duration (lit " 1H 30M ") = Some 5400.
Proof. reflexivity. Qed.
Example parse_neg : parse_duration (lit "-1h") = Some (-3600).
Proof. reflexivity. Qed.
Example parse_overflow : parse_duration (lit "9223372036854775807d") = None.
Proof. reflexivity. Qed.
Example parse_no_unit : parse_duration (lit "1h30") = None.
Proof. reflexivity. Qed.
Example fmt_5430 : fmt_duration 5430 = lit "1h30m30s".
Proof. reflexivity. Qed.

(** ** The grammar: a sequence of components, each digits then a unit *)

Definition Component : Type := str * char.

Definition component_ok (k : Component) : Prop :=
  k.1 <> [] /\ forallb is_ascii_digit k.1 = true /\ is_Some (unit_mult k.2).
Definition component_secs (k : Component) : Z :=
  digits_val k.1 * default 0 (unit_mult k.2).
Definition components_text (ks : list Component) : str :=
  concat (map (fun k => k.1 ++ [k.2]) ks).
Definition components_secs (ks : list Component) : Z :=
  fold_right (fun k n => component_secs k + n) 0 ks.

(** What a cleaned duration without its sign denotes. *)
Inductive denotes : str -> Z -> Prop :=
| denotes_bare (s : str) :
    s <> [] -> forallb is_ascii_digit s = true -> denotes s (digits_val s)
| denotes_components (ks : list Component) :
    ks <> [] -> Forall component_ok ks ->
    denotes (components_text ks) (components_secs ks).

(** ** Lemmas *)

Lemma unit_mult_pos c m : unit_mult c = Some m -> 1 <= m /\ is_ascii_digit c = false.
Proof.
  unfold unit_mult. repeat case_match; intros; simplify_eq; bool_to_prop; subst;
    (split; [lia|reflexivity]).
Qed.

Lemma component_secs_nonneg k : component_ok k -> 0 <= component_secs k.
Proof.
  intros (_ & Hd & m & Hm). unfold component_secs. rewrite Hm; simpl.
  apply unit_mult_pos in Hm as [? _]. pose proof (digits_val_nonneg _ Hd). nia.
Qed.

Lemma components_secs_nonneg ks : Forall component_ok ks -> 0 <= components_secs ks.
Proof.
  induction 1 as [|k ks Hk _ IH]; simpl; [lia|].
  pose proof (component_secs_nonneg k Hk). lia.
Qed.

Lemma forallb_snoc {A} (p : A -> bool) l x :
  forallb p (l ++ [x]) = forallb p l && p x.
Proof. rewrite forallb_app; simpl. by rewrite andb_true_r. Qed.

(** Whatever the loop returns is the value of a parse of what it consumed. *)
Lemma parse_components_sound digits chars total v :
  forallb is_ascii_digit digits = true -> 0 <= total <= i64_max ->
  parse_components digits chars total = Some v ->
  exists ks, Forall component_ok ks /\ digits ++ chars = components_text ks /\
    v = total + components_secs ks /\ v <= i64_max.
Proof.
  revert digits total. induction chars as [|c chars IH]; intros digits total Hd Ht; simpl.
  { destruct digits; [|done]. intros [= <-]. exists []. simpl. split; [done|].
    split; [done|]. lia. }
  destruct (is_ascii_digit c) eqn:Ec.
  { intros H. apply IH in H as (ks & ? & E & ?); [| |done].
    - exists ks. split; [done|]. split; [|done]. by rewrite <- E, <- (assoc_L (++)).
    - by rewrite forallb_snoc, Hd, Ec. }
  destruct digits as [|d ds] eqn:Eds; [done|]; cbn [is_empty]. rewrite <- Eds in *.
  intros H. apply bind_Some in H as (m & Hm & H). apply bind_Some in H as (n & Hn & H).
  apply bind_Some in H as (comp & Hc & H). apply bind_Some in H as (t' & Ht' & H).
  rewrite parse_i64_digits in Hn by (try done; congruence).
  case_match; simplify_eq. bool_to_prop.
  apply checked_i64_Some in Hc as [-> Hc]. apply checked_i64_Some in Ht' as [-> Ht'].
  set (ds' := d :: ds) in *.
  assert (component_ok (ds', c)) as Hok by (split; [done|split; [done|by exists m]]).
  pose proof (component_secs_nonneg _ Hok) as Hp.
  unfold component_secs in Hp; simpl in Hp. rewrite Hm in Hp; simpl in Hp.
  apply IH in H as (ks & ? & E & -> & ?); [|done|lia].
  exists ((ds', c) :: ks). split; [by constructor|]. split.
  - simpl in E. rewrite E. unfold components_text; simpl.
    by rewrite <- (assoc_L (++)).
  - simpl. unfold component_secs at 1; simpl. rewrite Hm; simpl. lia.
Qed.

Lemma parse_components_digits ds digits chars total :
  forallb is_ascii_digit ds = true ->
  parse_components digits (ds ++ chars) total = parse_components (digits ++ ds) chars total.
Proof.
  revert digits. induction ds as [|c ds IH]; intros digits H; simpl.
  - by rewrite app_nil_r.
  - cbn [forallb] in H; bool_to_prop. rewrite H, IH by done.
    by rewrite <- (assoc_L (++)).
Qed.

(** And every parse whose value fits is found. *)
Lemma parse_components_complete ks total :
  Forall component_ok ks -> 0 <= total -> total + components_secs ks <= i64_max ->
  parse_components [] (components_text ks) total = Some (total + components_secs ks).
Proof.
  intros Hks. revert total. induction Hks as [|[ds c] ks Hk Hks IH]; intros total Ht Hb.
  { simpl. f_equal. lia. }
  simpl in Hb. pose proof (component_secs_nonneg _ Hk) as Hp.
  pose proof (components_secs_nonneg _ Hks).
  destruct Hk as (Hne & Hd & m & Hm); simpl in *.
  unfold components_text; simpl. fold (components_text ks).
  rewrite <- (assoc_L (++)), parse_components_digits by done; simpl.
  destruct (unit_mult_pos _ _ Hm) as [Hm1 ->].
  unfold component_secs in *; simpl in *. rewrite Hm in *; simpl in *.
  pose proof (digits_val_nonneg _ Hd).
  destruct ds as [|d ds]; [done|]; cbn [is_empty].
  rewrite parse_i64_digits by done.
  rewrite (proj2 (Z.leb_le (digits_val (d :: ds)) i64_max)) by nia; simpl.
  assert (i64_min <= 0) by (unfold i64_min; lia).
  unfold checked_mul, checked_add. rewrite checked_i64_in by nia; simpl.
  rewrite checked_i64_in by nia; simpl. rewrite IH by nia. f_equal. lia.
Qed.

Lemma components_text_not_digits ks :
  ks <> [] -> Forall component_ok ks -> forallb is_ascii_digit (components_text ks) = false.
Proof.
  intros Hne Hks. destruct Hks as [|[ds c] ks (_ & _ & m & Hm) _]; [done|].
  unfold components_text; simpl. simpl in Hm. apply unit_mult_pos in Hm as [_ Hc].
  rewrite !forallb_app; simpl. rewrite Hc. by rewrite andb_false_r.
Qed.

Lemma denotes_nonempty s v : denotes s v -> s <> [].
Proof.
  destruct 1 as [s Hne _|ks Hne Hks]; [done|].
  destruct Hks as [|[ds c] ks (Hd & _) _]; [done|].
  unfold components_text; simpl. simpl in Hd. by destruct ds.
Qed.

(** The body after the sign computes exactly the denotation, when it fits [i64]. *)
Lemma parse_unsigned_part rest v :
  rest <> [] ->
  (if forallb is_ascii_digit rest then parse_i64 rest
   else parse_components [] rest 0) = Some v <-> denotes rest v /\ v <= i64_max.
Proof.
  intros Hne. destruct (forallb is_ascii_digit rest) eqn:Ed.
  - rewrite parse_i64_digits by done. split.
    + case_match; [|done]. intros [= <-]. bool_to_prop. split; [by constructor|done].
    + intros [Hd Hv]. inversion Hd as [s ? ? E1 E2|ks Hk Hks E1 E2]; subst.
      * by rewrite (proj2 (Z.leb_le _ _) Hv).
      * by rewrite components_text_not_digits in Ed.
  - split.
    + intros H. apply parse_components_sound in H as (ks & Hks & E & -> & Hv); [|done|].
      * simpl in E. subst rest. split; [|done]. simpl.
        apply denotes_components; [|done]. by intros ->.
      * unfold i64_max. lia.
    + intros [Hd Hv]. inversion Hd as [s ? Hd' E1 E2|ks Hk Hks E1 E2]; subst.
      * congruence.
      * by rewrite parse_components_complete.
Qed.

Lemma denotes_nonneg s v : denotes s v -> 0 <= v.
Proof.
  destruct 1; [by apply digits_val_nonneg|by apply components_secs_nonneg].
Qed.

Lemma parse_components_bounds digits chars total v :
  i64_min <= total <= i64_max -> parse_components digits chars total = Some v ->
  i64_min <= v <= i64_max.
Proof.
  revert digits total. induction chars as [|c chars IH]; intros digits total Ht E; cbn in E.
  - case_match; simplify_eq; done.
  - destruct (is_ascii_digit c); [by eapply IH|].
    destruct (is_empty digits); [done|].
    apply bind_Some in E as (m & _ & E). apply bind_Some in E as (n & _ & E).
    apply bind_Some in E as (k & _ & E). apply bind_Some in E as (tot & Etot & E).
    eapply IH; [|exact E]. by apply checked_i64_Some in Etot as [-> ?].
Qed.

(** What it returns is an [i64]. *)
Lemma parse_duration_bounds s v : parse_duration s = Some v -> i64_min <= v <= i64_max.
Proof.
  assert (forall (neg : bool) w, i64_min <= w <= i64_max ->
    (if neg then checked_neg w else Some w) = Some v -> i64_min <= v <= i64_max) as Hn.
  { intros [] w Hw E; [by apply checked_i64_Some in E as [-> ?]|congruence]. }
  unfold parse_duration. intros E.
  assert (forall (neg : bool) rest,
    (if is_empty rest then None else
     if forallb is_ascii_digit rest then w ← parse_i64 rest; if neg then checked_neg w else Some w
     else w ← parse_components [] rest 0; if neg then checked_neg w else Some w) = Some v ->
    i64_min <= v <= i64_max) as Hb.
  { intros neg rest Er. destruct (is_empty rest); [done|].
    destruct (forallb _ _); apply bind_Some in Er as (w & Ew & Er); eapply Hn; try exact Er.
    - by apply parse_signed_bounds in Ew.
    - eapply parse_components_bounds; [|exact Ew]. unfold i64_min, i64_max. lia. }
  destruct (is_empty (clean s)); [done|].
  destruct (strip_prefix (lit "-") (clean s)) as [r|]; [exact (Hb true r E)|exact (Hb false _ E)].
Qed.

Lemma parses_denoted (s : str) (v : Z) :
  parse_duration s = Some v <->
  exists rest m, denotes rest m /\ m <= i64_max /\
    ((clean s = chr "-" :: rest /\ v = - m) \/
     (clean s = rest /\ starts_with (lit "-") (clean s) = false /\ v = m)).
Proof.
  assert (forall rest neg, rest <> [] ->
    ((if forallb is_ascii_digit rest then
        w ← parse_i64 rest; if (neg : bool) then checked_neg w else Some w
      else w ← parse_components [] rest 0; if neg then checked_neg w else Some w) = Some v
     <-> exists m, denotes rest m /\ m <= i64_max /\ v = if neg then - m else m)) as Hbody.
  { intros rest neg Hne.
    transitivity (exists m, (if forallb is_ascii_digit rest then parse_i64 rest
      else parse_components [] rest 0) = Some m /\ v = if neg then - m else m).
    - assert (forall w, (if neg then checked_neg w else Some w) = Some v ->
        v = if neg then - w else w) as Hn.
      { intros w. destruct neg; [|by intros [= <-]].
        intros H. by apply checked_i64_Some in H as [-> _]. }
      split.
      + destruct (forallb _ _); intros H; apply bind_Some in H as (w & ? & H); eauto.
      + intros (m & H & ->). pose proof H as H'.
        apply parse_unsigned_part in H' as [Hd Hm]; [|done]. apply denotes_nonneg in Hd.
        assert ((if neg then checked_neg m else Some m) = Some (if neg then - m else m)) as E.
        { destruct neg; [|done]. apply checked_i64_in. unfold i64_min, i64_max in *. lia. }
        by destruct (forallb _ _); rewrite H; simpl.
    - f_equiv; intros m. rewrite parse_unsigned_part by done. tauto. }
  unfold parse_duration, starts_with.
  destruct (clean s) as [|c cs] eqn:Ecl.
  { simpl. split; [done|]. intros (r & m & Hd & _ & [[? _]|[E _]]); [done|].
    subst. by apply denotes_nonempty in Hd. }
  cbn [is_empty]. change (lit "-") with [45]. change (chr "-") with 45.
  cbn [strip_prefix]. destruct (Z.eqb_spec 45 c) as [<-|Hc].
  - destruct cs as [|d ds]; cbn [is_empty].
    { split; [done|]. intros (r & m & Hd & _ & [[[= <-] _]|[_ [? _]]]); [|done].
      by apply denotes_nonempty in Hd. }
    rewrite (Hbody (d :: ds) true) by done. split.
    + intros (m & ? & ? & ->). exists (d :: ds), m. auto.
    + intros (r & m & ? & ? & [[E ->]|[_ [? _]]]); [|done]. simplify_eq. eauto.
  - rewrite (Hbody (c :: cs) false) by done. split.
    + intros (m & ? & ? & ->). exists (c :: cs), m. split; [done|]. split; [done|]. by right.
    + intros (r & m & ? & ? & [[E _]|[<- [_ ->]]]); [by simplify_eq|eauto].
Qed.

(** *** The grammar, from the documentation alone *)

(** A unit in either case, and its seconds. *)
Inductive unit_secs : char -> Z -> Prop :=
| unit_second c : c = chr "s" \/ c = chr "S" -> unit_secs c 1
| unit_minute c : c = chr "m" \/ c = chr "M" -> unit_secs c 60
| unit_hour c : c = chr "h" \/ c = chr "H" -> unit_secs c (60 * 60)
| unit_day c : c = chr "d" \/ c = chr "D" -> unit_secs c (24 * (60 * 60)).

(** A sequence of components, each a decimal number and a unit. *)
Inductive components : str -> Z -> Prop :=
| components_one ds u k : ds <> [] -> forallb is_ascii_digit ds = true -> unit_secs u k ->
    components (ds ++ [u]) (digits_val ds * k)
| components_more ds u k s n : ds <> [] -> forallb is_ascii_digit ds = true -> unit_secs u k ->
    components s n -> components (ds ++ u :: s) (digits_val ds * k + n).

(** The text of a duration without blanks: an optional sign, and a bare number of seconds or
    components. *)
Inductive magnitude : str -> Z -> Prop :=
| magnitude_bare s : s <> [] -> forallb is_ascii_digit s = true -> magnitude s (digits_val s)
| magnitude_components s n : components s n -> magnitude s n.
Inductive duration_text : str -> Z -> Prop :=
| duration_plain s m : magnitude s m -> m <= i64_max -> duration_text s m
| duration_minus s m : magnitude s m -> m <= i64_max -> duration_text (chr "-" :: s) (- m).

(** ASCII blanks may stand anywhere: [s] is [t] with blanks put in. *)
Definition BLANKS : str := [32; 9; 10; 12; 13].
Inductive blanked : str -> str -> Prop :=
| blanked_nil : blanked [] []
| blanked_blank c s t : c ∈ BLANKS -> blanked s t -> blanked (c :: s) t
| blanked_char c s t : c ∉ BLANKS -> blanked s t -> blanked (c :: s) (c :: t).

Lemma blank_whitespace c : c ∈ BLANKS <-> is_ascii_whitespace c = true.
Proof.
  unfold BLANKS, is_ascii_whitespace. rewrite !elem_of_cons, elem_of_nil, !orb_true_iff, !Z.eqb_eq. tauto.
Qed.

Lemma blanked_filter s t : blanked s t <-> t = List.filter (fun c => negb (is_ascii_whitespace c)) s.
Proof.
  split.
  - induction 1 as [|c s t Hc _ ->|c s t Hc _ ->]; cbn [List.filter]; [done| |].
    + apply blank_whitespace in Hc. by rewrite Hc.
    + rewrite blank_whitespace in Hc. by destruct (is_ascii_whitespace c).
  - intros ->. induction s as [|c s IH]; cbn [List.filter]; [constructor|].
    destruct (is_ascii_whitespace c) eqn:E; cbn [negb]; constructor; try done;
      rewrite blank_whitespace; congruence.
Qed.

Lemma unit_secs_lower c k : unit_secs c k <-> unit_mult (to_ascii_lower c) = Some k.
Proof.
  split.
  - by destruct 1 as [c [-> | ->]|c [-> | ->]|c [-> | ->]|c [-> | ->]].
  - unfold unit_mult, to_ascii_lower, is_ascii_upper.
    change (chr "s") with 115. change (chr "m") with 109. change (chr "h") with 104. change (chr "d") with 100.
    destruct ((65 <=? c) && (c <=? 90)) eqn:Eu; bool_to_prop; repeat case_match; intros [= <-]; bool_to_prop.
    + apply unit_second. right. change (chr "S") with 83. lia.
    + apply unit_minute. right. change (chr "M") with 77. lia.
    + apply unit_hour. right. change (chr "H") with 72. lia.
    + apply unit_day. right. change (chr "D") with 68. lia.
    + apply unit_second. by left.
    + apply unit_minute. by left.
    + apply unit_hour. by left.
    + apply unit_day. by left.
Qed.

Lemma lower_digit c : is_ascii_digit (to_ascii_lower c) = is_ascii_digit c.
Proof.
  unfold to_ascii_lower, is_ascii_upper, is_ascii_digit. destruct ((65 <=? c) && (c <=? 90)) eqn:E; [|done].
  bool_to_prop. transitivity false; [|symmetry]; apply andb_false_iff; rewrite !Z.leb_gt; lia.
Qed.
Lemma lower_of_digit c : is_ascii_digit c = true -> to_ascii_lower c = c.
Proof.
  unfold to_ascii_lower, is_ascii_upper, is_ascii_digit. intros Hc. bool_to_prop.
  by rewrite (proj2 (Z.leb_gt 65 c)) by lia.
Qed.
Lemma lower_digits ds : forallb is_ascii_digit ds = true -> to_ascii_lowercase ds = ds.
Proof.
  intros Hd. apply map_id_on. rewrite forallb_Forall' in Hd. eapply Forall_impl; [exact Hd|].
  intros c Hc. by apply lower_of_digit.
Qed.
Lemma lowered_digits t ds :
  to_ascii_lowercase t = ds -> forallb is_ascii_digit ds = true -> t = ds.
Proof.
  intros <- Hd. symmetry. apply lower_digits. unfold to_ascii_lowercase in Hd.
  rewrite forallb_Forall', Forall_map in Hd. rewrite forallb_Forall'. eapply Forall_impl; [exact Hd|].
  intros c Hc. cbn in Hc. by rewrite lower_digit in Hc.
Qed.

Lemma components_lower t n :
  components t n <-> exists ks, ks <> [] /\ Forall component_ok ks /\
    to_ascii_lowercase t = components_text ks /\ n = components_secs ks.
Proof.
  split.
  - induction 1 as [ds u k Hne Hd Hu|ds u k s n Hne Hd Hu _ (ks & Hks & Hok & Hs & ->)].
    all: apply unit_secs_lower in Hu; assert (component_ok (ds, to_ascii_lower u)) as Hk by (split; [done|split; [done|by exists k]]).
    + exists [(ds, to_ascii_lower u)]. split; [done|]. split; [by constructor|].
      unfold to_ascii_lowercase, components_text, components_secs, component_secs. rewrite map_app. cbn -[digits_val].
      fold (to_ascii_lowercase ds). rewrite lower_digits, app_nil_r, Hu by done. cbn -[digits_val]. split; [done|lia].
    + exists ((ds, to_ascii_lower u) :: ks). split; [done|]. split; [by constructor|].
      unfold to_ascii_lowercase. rewrite map_app. cbn [map]. fold (to_ascii_lowercase ds). fold (to_ascii_lowercase s).
      rewrite lower_digits, Hs by done. unfold components_text. cbn [map concat fst snd]. rewrite <- app_assoc. split; [done|].
      cbn [components_secs fold_right]. unfold component_secs at 1. cbn [fst snd]. by rewrite Hu.
  - intros (ks & Hne & Hok & Ht & ->). revert t Ht. induction Hok as [|[ds u] ks (Hds & Hd & k & Hu) Hok IH]; [done|].
    intros t Ht. cbn [fst snd] in *. unfold components_text in Ht. cbn [map concat fst snd] in Ht. rewrite <- app_assoc in Ht.
    unfold to_ascii_lowercase in Ht. apply map_eq_app in Ht as (t1 & t2 & -> & H1 & H2).
    apply lowered_digits in H1; [|done]. subst t1. destruct t2 as [|c t2]; [done|]. cbn [map app] in H2. injection H2 as <- H2.
    assert (unit_secs c k) as Hc by by apply unit_secs_lower.
    cbn [components_secs fold_right]. unfold component_secs at 1. cbn [fst snd]. rewrite Hu. cbn [default].
    destruct ks as [|k' ks].
    + destruct t2; [|done]. cbn [fold_right]. rewrite Z.add_0_r. by constructor.
    + constructor; [done..|]. by apply IH.
Qed.

Lemma magnitude_lower t m : magnitude t m <-> denotes (to_ascii_lowercase t) m.
Proof.
  split.
  - destruct 1 as [s Hne Hd|s n (ks & Hne & Hok & -> & ->)%components_lower].
    + rewrite lower_digits by done. by constructor.
    + by constructor.
  - intros Hd. inversion Hd as [s Hne Hds E1 E2|ks Hne Hok E1 E2].
    + symmetry in E1. apply lowered_digits in E1 as E; [|congruence]. subst s. rewrite <- E in *. by constructor.
    + apply magnitude_components, components_lower. by exists ks.
Qed.

Lemma components_no_sign ks :
  Forall component_ok ks -> starts_with (lit "-") (components_text ks) = false.
Proof.
  intros [|[ds u] ks' (Hne & Hd & _) _]; [done|].
  simpl in Hne, Hd. destruct ds as [|d ds]; [done|].
  unfold components_text, starts_with. cbn [map concat fst snd app].
  destruct (digit_head_not_sign _ _ _ Hd eq_refl) as [Hd' _].
  change (lit "-") with [45]. cbn [strip_prefix]. by rewrite Z.eqb_sym, Hd'.
Qed.

Lemma denotes_no_sign s m : denotes s m -> starts_with (lit "-") s = false.
Proof.
  destruct 1 as [s Hne Hd|ks Hne Hok]; [|by apply components_no_sign].
  destruct s as [|c s]; [done|]. destruct (digit_head_not_sign _ _ _ Hd eq_refl) as [Hc _].
  unfold starts_with. change (lit "-") with [45]. cbn [strip_prefix]. by rewrite Z.eqb_sym, Hc.
Qed.

(** C28: [parse_duration] accepts exactly the documented grammar and returns its value.
    Blanks aside, a text is accepted if and only if it is an optional [-] and then a bare
    number of seconds, or components that are each a number and one of [s], [m], [h] and
    [d] in either case, worth 1, 60, 3600 and 86400 seconds; its value is their sum,
    negated after a [-]; and it is refused if the magnitude is beyond [i64]. The grammar
    does not mention the parser or the functions it calls. *)
Theorem parse_duration_grammar (s : str) (v : Z) :
  parse_duration s = Some v <-> exists t, blanked s t /\ duration_text t v.
Proof.
  rewrite parses_denoted. unfold clean. setoid_rewrite blanked_filter.
  set (t := List.filter _ s). clearbody t. clear s. split.
  - intros (rest & m & Hd & Hm & [[Ht ->]|(Ht & _ & ->)]); exists t; (split; [done|]).
    + destruct t as [|c t]; [done|]. cbn [to_ascii_lowercase map] in Ht. injection Ht as Hc Ht.
      assert (c = chr "-") as ->.
      { revert Hc. unfold to_ascii_lower, is_ascii_upper. change (chr "-") with 45.
        destruct ((65 <=? c) && (c <=? 90)) eqn:E; [bool_to_prop; lia|congruence]. }
      apply duration_minus; [|done]. apply magnitude_lower. unfold to_ascii_lowercase. by rewrite Ht.
    + apply duration_plain; [|done]. apply magnitude_lower. by rewrite Ht.
  - intros (? & -> & Ht). inversion Ht as [s m Hs Hm|s m Hs Hm]; subst; apply magnitude_lower in Hs;
      do 2 eexists; (split; [exact Hs|]); (split; [exact Hm|]).
    + right. split; [done|]. split; [by eapply denotes_no_sign|done].
    + by left.
Qed.

Lemma parse_duration_grammar_witness :
  parse_duration (lit " 1D 2H 30m 5s") = Some (86400 + 2 * 3600 + 30 * 60 + 5) /\
  exists t, blanked (lit " 1D 2H 30m 5s") t /\ duration_text t (86400 + 2 * 3600 + 30 * 60 + 5).
Proof. split; [reflexivity|]. apply parse_duration_grammar. reflexivity. Defined.

(** ** Printing *)

(** The components [fmt_duration] writes: those that are not zero. *)
Definition fmt_part (n : Z) (unit : char) : list Component :=
  if 0 <? n then [(show_nonneg n, unit)] else [].

Definition fmt_parts (s : Z) : list Component :=
  fmt_part (s / 86400) (chr "d") ++ fmt_part ((s mod 86400) / 3600) (chr "h")
  ++ fmt_part ((s mod 3600) / 60) (chr "m") ++ fmt_part (s mod 60) (chr "s").

Lemma components_text_app ks ks' :
  components_text (ks ++ ks') = components_text ks ++ components_text ks'.
Proof. unfold components_text. by rewrite map_app, concat_app. Qed.

Lemma components_secs_app ks ks' :
  components_secs (ks ++ ks') = components_secs ks + components_secs ks'.
Proof. induction ks as [|k ks IH]; simpl; lia. Qed.

Lemma fmt_component_text n u :
  fmt_component n [u] = components_text (fmt_part n u).
Proof.
  unfold fmt_component, fmt_part, components_text. case_match; [|done]. simpl.
  bool_to_prop. unfold show_Z. rewrite (proj2 (Z.ltb_ge n 0)) by lia.
  by rewrite app_nil_r.
Qed.

Lemma fmt_part_ok n u : is_Some (unit_mult u) -> Forall component_ok (fmt_part n u).
Proof.
  intros Hu. unfold fmt_part. case_match; [|done]. bool_to_prop.
  destruct (show_nonneg_spec n) as (? & ? & _); [lia|]. by repeat constructor.
Qed.

Lemma fmt_part_secs n u m :
  0 <= n -> unit_mult u = Some m -> components_secs (fmt_part n u) = n * m.
Proof.
  intros Hn Hu. unfold fmt_part. destruct (Z.ltb_spec 0 n); simpl.
  - destruct (show_nonneg_spec n) as (_ & _ & E); [lia|].
    unfold component_secs; simpl. rewrite Hu, E; simpl. lia.
  - replace n with 0 by lia. done.
Qed.

Lemma fmt_parts_ok s : Forall component_ok (fmt_parts s).
Proof. unfold fmt_parts. rewrite !Forall_app. repeat split; apply fmt_part_ok; by eexists. Qed.

Lemma fmt_parts_secs s : 0 <= s -> components_secs (fmt_parts s) = s.
Proof.
  intros Hs. unfold fmt_parts. rewrite !components_secs_app.
  rewrite (fmt_part_secs _ _ 86400), (fmt_part_secs _ _ 3600), (fmt_part_secs _ _ 60),
    (fmt_part_secs _ _ 1); try reflexivity; Z.to_euclidean_division_equations; lia.
Qed.

Lemma fmt_duration_text s :
  fmt_duration s = if Z.max s 0 =? 0 then lit "0s" else components_text (fmt_parts (Z.max s 0)).
Proof.
  unfold fmt_duration, fmt_parts. case_match; [done|].
  rewrite !components_text_app. by rewrite <- !fmt_component_text.
Qed.

Lemma clean_fixed s :
  Forall (fun c => is_ascii_whitespace c = false /\ is_ascii_upper c = false) s -> clean s = s.
Proof.
  intros H. unfold clean, to_ascii_lowercase. rewrite list_filter_all.
  - apply map_id_on. eapply Forall_impl; [done|]. intros c [_ E]. unfold to_ascii_lower. by rewrite E.
  - eapply Forall_impl; [done|]. intros c [E _]. by rewrite E.
Qed.

Lemma unit_mult_fixed u :
  is_Some (unit_mult u) -> is_ascii_whitespace u = false /\ is_ascii_upper u = false.
Proof.
  unfold unit_mult. intros [m H]. repeat case_match; simplify_eq; bool_to_prop; by subst.
Qed.

Lemma digits_fixed ds :
  forallb is_ascii_digit ds = true ->
  Forall (fun c => is_ascii_whitespace c = false /\ is_ascii_upper c = false) ds.
Proof.
  rewrite forallb_Forall'. intros Hds. eapply Forall_impl; [done|]. intros c H.
  unfold is_ascii_digit, is_ascii_whitespace, is_ascii_upper in *. bool_to_prop.
  rewrite !orb_false_iff, andb_false_iff, !Z.eqb_neq, !Z.leb_gt. lia.
Qed.

Lemma clean_components ks : Forall component_ok ks -> clean (components_text ks) = components_text ks.
Proof.
  intros H. apply clean_fixed. unfold components_text.
  induction H as [|[ds u] ks (_ & Hd & Hu) _ IH]; simpl in *; [done|].
  rewrite !Forall_app. split; [split|done].
  - by apply digits_fixed.
  - constructor; [by apply unit_mult_fixed|done].
Qed.

(** What [fmt_duration] prints: [0s], or components that denote the number. *)
Lemma parse_fmt_duration (v : Z) :
  i64_min <= v <= i64_max -> parse_duration (fmt_duration v) = Some (Z.max v 0).
Proof.
  intros Hv. rewrite fmt_duration_text. set (s := Z.max v 0).
  destruct (Z.eqb_spec s 0) as [E|Hs]; [by rewrite E|].
  assert (0 < s) by lia. pose proof (fmt_parts_ok s) as Hok.
  apply parses_denoted. exists (components_text (fmt_parts s)), s.
  rewrite clean_components, components_no_sign by done.
  split; [|split; [lia|by right]].
  rewrite <- (fmt_parts_secs s) at 2 by lia. apply denotes_components; [|done].
  intros E. pose proof (fmt_parts_secs s). rewrite E in *. simpl in *. lia.
Qed.

Lemma fmt_duration_no_blanks v :
  forallb (fun c => negb (is_whitespace c)) (fmt_duration v) = true /\ fmt_duration v <> [].
Proof.
  rewrite fmt_duration_text. case_match; [done|]. set (s := Z.max v 0) in *. bool_to_prop. split.
  - pose proof (fmt_parts_ok s) as Hok. unfold components_text. rewrite forallb_forall.
    intros c Hc. apply in_concat in Hc as (t & Hk & Ht).
    apply in_map_iff in Hk as ([ds u] & <- & Hk%list_elem_of_In). rewrite Forall_forall in Hok.
    destruct (Hok _ Hk) as (_ & Hd & Hu). cbn [fst snd] in *.
    apply in_app_iff in Ht as [Ht|[<-|[]]].
    + rewrite forallb_forall in Hd. apply Hd, digit_not_blank in Ht. by rewrite Ht.
    + unfold unit_mult in Hu. destruct Hu as [m Hu].
      repeat case_match; simplify_eq; bool_to_prop; by subst.
  - intros E. pose proof (fmt_parts_secs s ltac:(lia)) as F.
    destruct (fmt_parts s) as [|[ds u] ks]; [simpl in F; lia|].
    unfold components_text in E. cbn [map concat fst snd app] in E. by destruct ds.
Qed.

(** C29: [fmt_duration] is inverted by [parse_duration] over the whole of [i64]: a
    non-negative number of seconds comes back unchanged, so no stored interval is
    altered by opening and saving its edit form, and a negative one prints as zero. *)
Theorem fmt_parse_duration (v : Z) :
  i64_min <= v <= i64_max -> parse_duration (fmt_duration v) = Some (Z.max v 0).
Proof. apply parse_fmt_duration. Qed.

Lemma fmt_parse_duration_witness :
  i64_min <= 5430 <= i64_max /\ parse_duration (fmt_duration 5430) = Some 5430.
Proof.
  split; [unfold i64_min, i64_max; lia|].
  apply (fmt_parse_duration 5430). unfold i64_min, i64_max. lia.
Defined.
