(* ===== verification/Ratelimit.v ===== *)
(** * Ratelimit: [src/ratelimit.rs]

    The fixed-window limiter behind [POST /login]. Times are monotonic instants in
    nanoseconds; one call holds the lock and reads one instant [now] for all its
    [Instant::now()] and [elapsed()]. Operations on one limiter are a list of [Op]s in
    the order they took the lock. *)
From S2P Require Import Prelude Text.
#[local] Open Scope Z_scope.

Module Limiter.

Definition MAX_ATTEMPTS : Z := 5.
Definition WINDOW_SECS : Z := 60.
Definition ACCOUNT_MAX_ATTEMPTS : Z := 10.
Definition ACCOUNT_WINDOW_SECS : Z := 900.
Definition MAX_ENTRIES : Z := 10000.
Definition ACCOUNT_KEY_MAX_CHARS : nat := 64.
Definition OVERFLOW_FACTOR : Z := 10.

Definition ns_per_sec : Z := 1000000000.

(** [started.elapsed().as_secs()] at [now]: whole seconds, zero if [started] is later. *)
Definition elapsed_secs (now started : Z) : Z := Z.max 0 (now - started) / ns_per_sec.

(** [(attempts, window start)]. *)
Abbreviation Counter := (Z * Z)%type.

(** [charge]: whether the attempt is allowed, and the counter afterwards. *)
Definition charge (now : Z) (counter : Counter) (max window_secs : Z) : bool * Counter :=
  if window_secs <=? elapsed_secs now counter.2 then (true, (1, now))
  else if max <=? counter.1 then (false, counter)
  else (true, (counter.1 + 1, counter.2)).

(** [account_key]: at most 64 characters of the submitted username, case kept. *)
Definition account_key (username : str) : str := take ACCOUNT_KEY_MAX_CHARS username.

Section limiter.
Context {K : Type} `{Countable K}.

Record Buckets := mk_Buckets {
  per_key : gmap K Counter;
  overflow : Counter;
}.

Record RateLimiter := mk_RateLimiter {
  buckets : Buckets;
  max_attempts : Z;
  window_secs : Z;
  max_entries : Z;
}.

Definition new (now max_attempts window_secs : Z) : RateLimiter := {|
  buckets := {| per_key := ∅; overflow := (0, now) |};
  max_attempts := max_attempts;
  window_secs := window_secs;
  max_entries := MAX_ENTRIES;
|}.

Definition with_buckets (l : RateLimiter) (b : Buckets) : RateLimiter := {|
  buckets := b;
  max_attempts := max_attempts l;
  window_secs := window_secs l;
  max_entries := max_entries l;
|}.

Definition live (l : RateLimiter) (now : Z) (c : Counter) : Prop :=
  elapsed_secs now c.2 < window_secs l.
#[global] Instance live_dec l now c : Decision (live l now c).
Proof. unfold live. apply _. Defined.

(** [per_key.retain(|_, (_, started)| ...)]. *)
Definition prune (l : RateLimiter) (now : Z) : gmap K Counter :=
  filter (fun kc : K * Counter => live l now kc.2) (per_key (buckets l)).

Definition map_len (m : gmap K Counter) : Z := Z.of_nat (size m).

(** [entry(key).or_insert((0, now))] then [charge]. *)
Definition charge_entry (l : RateLimiter) (now : Z) (m : gmap K Counter) (key : K)
  : bool * RateLimiter :=
  let entry := default (0, now) (m !! key) in
  let '(ok, entry') := charge now entry (max_attempts l) (window_secs l) in
  (ok, with_buckets l {| per_key := <[key := entry']> m;
                         overflow := overflow (buckets l) |}).

Definition try_acquire (now : Z) (l : RateLimiter) (key : K) : bool * RateLimiter :=
  let m := per_key (buckets l) in
  if (max_entries l <=? map_len m) && bool_decide (m !! key = None) then
    let m' := prune l now in
    if max_entries l <=? map_len m' then
      let max := u32_saturating_mul (max_attempts l) OVERFLOW_FACTOR in
      let '(ok, o) := charge now (overflow (buckets l)) max (window_secs l) in
      (ok, with_buckets l {| per_key := m'; overflow := o |})
    else charge_entry l now m' key
  else charge_entry l now m key.

Definition release (l : RateLimiter) (key : K) : RateLimiter :=
  let m := per_key (buckets l) in
  match m !! key with
  | Some (n, started) =>
      let n' := saturating_sub n 1 in
      let m' := if n' =? 0 then delete key m else <[key := (n', started)]> m in
      with_buckets l {| per_key := m'; overflow := overflow (buckets l) |}
  | None =>
      let '(n, started) := overflow (buckets l) in
      with_buckets l {| per_key := m; overflow := (saturating_sub n 1, started) |}
  end.

Definition clear (l : RateLimiter) (key : K) : RateLimiter :=
  with_buckets l {| per_key := delete key (per_key (buckets l));
                    overflow := overflow (buckets l) |}.

(** ** Traces of operations *)

Inductive Op :=
| Acquire (now : Z) (key : K)
| Release (key : K)
| Clear (key : K).

(** Whether the operation is an attempt of [k] that was let through, and the state. *)
Definition step (k : K) (l : RateLimiter) (op : Op) : bool * RateLimiter :=
  match op with
  | Acquire now key =>
      let '(ok, l') := try_acquire now l key in (ok && bool_decide (key = k), l')
  | Release key => (false, release l key)
  | Clear key => (false, clear l key)
  end.

(** How many of [k]'s attempts a trace lets through. *)
Fixpoint admitted (k : K) (l : RateLimiter) (ops : list Op) : Z :=
  match ops with
  | [] => 0
  | op :: ops' =>
      let '(ok, l') := step k l op in (if ok then 1 else 0) + admitted k l' ops'
  end.

Definition is_release (op : Op) : Z := match op with Release _ => 1 | _ => 0 end.
Definition releases (ops : list Op) : Z := fold_right (fun op n => is_release op + n) 0 ops.

Fixpoint run (l : RateLimiter) (ops : list Op) : RateLimiter :=
  match ops with
  | [] => l
  | Acquire now key :: ops' => run (try_acquire now l key).2 ops'
  | Release key :: ops' => run (release l key) ops'
  | Clear key :: ops' => run (clear l key) ops'
  end.

(** ** The invariant: no counter exceeds its maximum, the map its cap *)

Definition overflow_max (l : RateLimiter) : Z :=
  u32_saturating_mul (max_attempts l) OVERFLOW_FACTOR.

Definition counter_ok (max : Z) (c : Counter) : Prop := 0 <= c.1 <= max.

Record wf (l : RateLimiter) : Prop := {
  wf_max : 1 <= max_attempts l <= u32_max;
  wf_entries : 0 <= max_entries l;
  wf_size : map_len (per_key (buckets l)) <= max_entries l;
  wf_counters : map_Forall (fun _ c => counter_ok (max_attempts l) c) (per_key (buckets l));
  wf_overflow : counter_ok (overflow_max l) (overflow (buckets l));
}.

(** ** Lemmas *)

Lemma charge_ok now c max w ok c' :
  1 <= max -> counter_ok max c -> charge now c max w = (ok, c') -> counter_ok max c'.
Proof.
  unfold charge, counter_ok. intros Hm Hc E. repeat case_match; simplify_eq/=; bool_to_prop; lia.
Qed.

Lemma overflow_max_pos l : 1 <= max_attempts l -> 1 <= overflow_max l.
Proof. unfold overflow_max, u32_saturating_mul, OVERFLOW_FACTOR, u32_max. lia. Qed.

Lemma map_len_insert m (k : K) (c : Counter) :
  map_len (<[k := c]> m) <= map_len m + 1 /\
  (is_Some (m !! k) -> map_len (<[k := c]> m) = map_len m).
Proof.
  unfold map_len. rewrite map_size_insert. destruct (m !! k); simpl.
  - split; [lia|done].
  - split; [lia|]. by intros [? ?].
Qed.

Lemma prune_le l now : map_len (prune l now) <= map_len (per_key (buckets l)).
Proof.
  unfold map_len, prune. enough (size (filter (fun kc : K * Counter => live l now kc.2)
    (per_key (buckets l))) <= size (per_key (buckets l)))%nat by lia.
  apply map_subseteq_size, map_filter_subseteq.
Qed.

Lemma prune_lookup l now k c :
  prune l now !! k = Some c <-> per_key (buckets l) !! k = Some c /\ live l now c.
Proof. unfold prune. by rewrite map_lookup_filter_Some. Qed.

Lemma charge_entry_wf l now m key ok l' :
  wf l -> map_Forall (fun _ c => counter_ok (max_attempts l) c) m ->
  map_len m <= max_entries l -> (map_len m < max_entries l \/ is_Some (m !! key)) ->
  charge_entry l now m key = (ok, l') -> wf l'.
Proof.
  intros [] Hm Hlen Hroom. unfold charge_entry.
  destruct (charge _ _ _ _) as [ok' e] eqn:E. intros [= <- <-].
  apply charge_ok in E; [|lia|].
  - split; simpl; try done.
    + destruct (map_len_insert m key e) as [? Hs]. destruct Hroom; [lia|]. by rewrite Hs.
    + by apply map_Forall_insert_2.
  - destruct (m !! key) as [c|] eqn:Ec; simpl; [by eapply Hm|]. unfold counter_ok; simpl. lia.
Qed.

Lemma try_acquire_wf now l key ok l' : wf l -> try_acquire now l key = (ok, l') -> wf l'.
Proof.
  intros Hwf. unfold try_acquire. destruct (_ && _) eqn:Efull.
  - bool_to_prop.
    assert (map_Forall (fun _ c => counter_ok (max_attempts l) c) (prune l now)) as Hp.
    { intros k c Hk. apply prune_lookup in Hk as [Hk _]. by apply (wf_counters l Hwf k). }
    pose proof (prune_le l now). pose proof (wf_size l Hwf).
    case_match eqn:Elive.
    + destruct (charge _ _ _ _) as [ok' o] eqn:E. intros [= <- <-]. bool_to_prop.
      destruct Hwf. apply charge_ok in E; [|by apply overflow_max_pos; lia|done].
      split; simpl; try done. lia.
    + bool_to_prop. eapply charge_entry_wf; try done; [lia|]. left. lia.
  - eapply charge_entry_wf; try done; [apply Hwf|apply Hwf|].
    apply andb_false_iff in Efull as [E|E]; bool_to_prop; [by left|right].
    by apply not_eq_None_Some.
Qed.

Lemma delete_len (m : gmap K Counter) k : map_len (delete k m) <= map_len m.
Proof.
  unfold map_len. enough (size (delete k m) <= size m)%nat by lia.
  apply map_subseteq_size, delete_subseteq.
Qed.

Lemma release_wf l key : wf l -> wf (release l key).
Proof.
  intros Hwf. unfold release. destruct (per_key (buckets l) !! key) as [[n st]|] eqn:E.
  - pose proof (wf_counters l Hwf _ _ E) as Hc. unfold counter_ok in Hc; simpl in Hc.
    destruct Hwf. case_match; split; simpl; try done.
    + etrans; [apply delete_len|done].
    + by apply map_Forall_delete.
    + rewrite (proj2 (map_len_insert _ _ _)); [done|by eexists].
    + apply map_Forall_insert_2; [|done]. unfold counter_ok, saturating_sub; simpl. lia.
  - destruct Hwf as [? ? ? ? Ho]. destruct (overflow (buckets l)) as [n st] eqn:Eo.
    split; simpl; try done. unfold counter_ok, saturating_sub in *; simpl in *.
    unfold overflow_max in *; simpl. lia.
Qed.

Lemma clear_wf l key : wf l -> wf (clear l key).
Proof.
  intros []. split; simpl; try done; [etrans; [apply delete_len|done]|by apply map_Forall_delete].
Qed.

Lemma step_wf k l op : wf l -> wf (step k l op).2.
Proof.
  intros Hwf. destruct op; simpl; [|by apply release_wf|by apply clear_wf].
  destruct (try_acquire _ _ _) as [ok l'] eqn:E; simpl. by eapply try_acquire_wf.
Qed.

Lemma run_wf l ops : wf l -> wf (run l ops).
Proof.
  revert l. induction ops as [|[now key|key|key] ops IH]; intros l Hwf; simpl; [done|..];
    apply IH; [|by apply release_wf|by apply clear_wf].
  destruct (try_acquire _ _ _) as [ok l'] eqn:E. by eapply try_acquire_wf.
Qed.

Lemma new_wf now m w : 1 <= m <= u32_max -> wf (new now m w).
Proof.
  intros Hm. pose proof (overflow_max_pos (new now m w) ltac:(simpl; lia)).
  split; simpl.
  - done.
  - unfold MAX_ENTRIES. lia.
  - unfold map_len, MAX_ENTRIES. rewrite map_size_empty. lia.
  - apply map_Forall_empty.
  - unfold counter_ok; simpl. lia.
Qed.

(** ** How many attempts of one key fit in one window

    [budget lo l k] bounds the attempts of [k] that can still pass at times in
    [lo .. lo + window): what is left of its current window, and one more full window
    if the current one began before [lo] and so may lapse on the way. *)
Definition counter_budget (lo max : Z) (c : Counter) : Z :=
  if lo <=? c.2 then max - c.1 else (max - c.1) + max.

Definition key_budget (lo : Z) (l : RateLimiter) (k : K) : Z :=
  match per_key (buckets l) !! k with
  | Some c => counter_budget lo (max_attempts l) c
  | None => max_attempts l
  end.
Definition overflow_budget (lo : Z) (l : RateLimiter) : Z :=
  counter_budget lo (overflow_max l) (overflow (buckets l)).
Definition budget (lo : Z) (l : RateLimiter) (k : K) : Z :=
  key_budget lo l k + overflow_budget lo l.

(** The operations of one window: attempts at times in [lo .. lo + window), refunds
    of anyone, and [clear]s of other keys. *)
Definition in_window (lo w : Z) (k : K) (op : Op) : Prop :=
  match op with
  | Acquire now _ => lo <= now < lo + w * ns_per_sec
  | Release _ => True
  | Clear key => key <> k
  end.

Lemma elapsed_in_window lo w now st :
  lo <= now < lo + w * ns_per_sec -> lo <= st -> elapsed_secs now st < w.
Proof.
  intros Hn Hs. unfold elapsed_secs. apply Z.div_lt_upper_bound; [done|].
  unfold ns_per_sec in *. lia.
Qed.

Lemma charge_budget lo w now c max ok c' :
  1 <= max -> lo <= now < lo + w * ns_per_sec -> counter_ok max c ->
  charge now c max w = (ok, c') ->
  (if ok then 1 else 0) + counter_budget lo max c' <= counter_budget lo max c.
Proof.
  intros Hm Hn Hc E. unfold counter_ok in Hc. unfold charge in E.
  destruct (Z.leb_spec w (elapsed_secs now c.2)) as [Hw|Hw].
  - assert (c.2 < lo) as Hlo.
    { destruct (Z.lt_ge_cases c.2 lo); [done|].
      pose proof (elapsed_in_window lo w now c.2 Hn ltac:(lia)). lia. }
    simplify_eq. unfold counter_budget; simpl.
    rewrite (proj2 (Z.leb_le lo now)), (proj2 (Z.leb_gt lo c.2)) by lia. lia.
  - case_match; simplify_eq/=; [lia|]. bool_to_prop. unfold counter_budget; simpl.
    case_match; lia.
Qed.

Lemma counter_budget_nonneg lo max c : 1 <= max -> counter_ok max c -> 0 <= counter_budget lo max c.
Proof. unfold counter_ok, counter_budget. intros. case_match; lia. Qed.

Lemma budget_nonneg lo l k : wf l -> 0 <= budget lo l k.
Proof.
  intros Hwf. pose proof (wf_max l Hwf) as Hm.
  pose proof (overflow_max_pos l ltac:(lia)) as Ho.
  pose proof (counter_budget_nonneg lo _ _ Ho (wf_overflow l Hwf)).
  unfold budget, key_budget, overflow_budget.
  destruct (per_key (buckets l) !! k) as [c|] eqn:E; [|lia].
  pose proof (counter_budget_nonneg lo (max_attempts l) c ltac:(lia) (wf_counters l Hwf _ _ E)).
  lia.
Qed.

(** Pruning drops only lapsed windows, so it gives nobody attempts back. *)
Lemma prune_budget lo l now k :
  wf l -> lo <= now < lo + window_secs l * ns_per_sec ->
  match prune l now !! k with
  | Some c => counter_budget lo (max_attempts l) c
  | None => max_attempts l
  end <= key_budget lo l k.
Proof.
  intros Hwf Hn. unfold key_budget.
  destruct (prune l now !! k) as [c|] eqn:E.
  { apply prune_lookup in E as [-> _]. done. }
  destruct (per_key (buckets l) !! k) as [c|] eqn:Ec; [|done].
  pose proof (wf_counters l Hwf _ _ Ec) as Hc. unfold counter_ok in Hc; simpl in Hc.
  assert (~ live l now c) as Hl.
  { intros Hl. assert (prune l now !! k = Some c) by by apply prune_lookup. congruence. }
  unfold counter_budget. destruct (Z.leb_spec lo c.2); [|lia].
  by destruct Hl; apply (elapsed_in_window lo).
Qed.

Lemma charge_entry_budget lo l now m key k ok l' :
  wf l -> lo <= now < lo + window_secs l * ns_per_sec ->
  map_Forall (fun _ c => counter_ok (max_attempts l) c) m ->
  match m !! k with
  | Some c => counter_budget lo (max_attempts l) c
  | None => max_attempts l
  end <= key_budget lo l k ->
  charge_entry l now m key = (ok, l') ->
  (if ok && bool_decide (key = k) then 1 else 0) + budget lo l' k <= budget lo l k.
Proof.
  intros Hwf Hn Hm Hk. unfold charge_entry.
  destruct (charge _ _ _ _) as [ok' e] eqn:E. intros [= <- <-].
  pose proof (wf_max l Hwf). unfold budget, overflow_budget, overflow_max.
  unfold key_budget at 1; simpl. case_bool_decide; subst.
  - rewrite lookup_insert_eq, andb_true_r.
    apply (charge_budget lo) in E; [|lia|done|].
    + destruct (m !! k) as [c|]; simpl in E; [lia|].
      unfold counter_budget in E at 2; simpl in E.
      rewrite (proj2 (Z.leb_le lo now)) in E by lia. lia.
    + destruct (m !! k) as [c|] eqn:Ec; simpl; [by eapply Hm|]. unfold counter_ok; simpl. lia.
  - rewrite andb_false_r, lookup_insert_ne by done. lia.
Qed.

Lemma try_acquire_budget lo l now key k ok l' :
  wf l -> lo <= now < lo + window_secs l * ns_per_sec ->
  try_acquire now l key = (ok, l') ->
  (if ok && bool_decide (key = k) then 1 else 0) + budget lo l' k <= budget lo l k.
Proof.
  intros Hwf Hn. pose proof (prune_budget lo l now k Hwf Hn) as Hp.
  assert (map_Forall (fun _ c => counter_ok (max_attempts l) c) (prune l now)) as Hpm.
  { intros k' c Hk. apply prune_lookup in Hk as [Hk _]. by apply (wf_counters l Hwf k'). }
  unfold try_acquire. destruct (_ && bool_decide (_ !! _ = None)).
  - cbv zeta. destruct (max_entries l <=? map_len (prune l now)).
    + destruct (charge _ _ _ _) as [ok' o] eqn:E. intros [= <- <-].
      pose proof (wf_max l Hwf).
      apply (charge_budget lo) in E; [|by apply overflow_max_pos; lia|done|apply Hwf].
      unfold budget, overflow_budget, overflow_max in *.
      unfold key_budget at 1; simpl. destruct ok', (bool_decide (key = k)); simpl in *; lia.
    + by apply charge_entry_budget.
  - intros E. eapply charge_entry_budget; [exact Hwf|exact Hn|apply Hwf|apply Z.le_refl|exact E].
Qed.

Lemma release_budget lo l key k : wf l -> budget lo (release l key) k <= budget lo l k + 1.
Proof.
  intros Hwf. unfold release. destruct (per_key (buckets l) !! key) as [[n st]|] eqn:E.
  - pose proof (wf_counters l Hwf _ _ E) as Hc. unfold counter_ok in Hc; simpl in Hc.
    unfold budget, overflow_budget, overflow_max, key_budget, saturating_sub; simpl.
    destruct (decide (key = k)) as [<-|Hne].
    + rewrite E. destruct (Z.eqb_spec (Z.max 0 (n - 1)) 0).
      * rewrite lookup_delete_eq. unfold counter_budget; simpl. repeat case_match; lia.
      * rewrite lookup_insert_eq. unfold counter_budget; simpl. repeat case_match; lia.
    + destruct (_ =? 0); rewrite ?lookup_delete_ne, ?lookup_insert_ne by done; lia.
  - unfold budget, overflow_budget, key_budget. destruct (overflow (buckets l)) as [n st].
    simpl. unfold counter_budget, saturating_sub, overflow_max; simpl. repeat case_match; lia.
Qed.

Lemma clear_budget lo l key k : key <> k -> budget lo (clear l key) k = budget lo l k.
Proof.
  intros Hne. unfold budget, key_budget, overflow_budget, clear; simpl.
  by rewrite lookup_delete_ne.
Qed.

Lemma step_budget lo l op k :
  wf l -> in_window lo (window_secs l) k op ->
  (if (step k l op).1 then 1 else 0) + budget lo (step k l op).2 k
    <= budget lo l k + is_release op.
Proof.
  intros Hwf Hop. destruct op as [now key|key|key]; simpl in *.
  - destruct (try_acquire now l key) as [ok l0] eqn:E; simpl.
    pose proof (try_acquire_budget lo l now key k ok l0 Hwf Hop E). lia.
  - pose proof (release_budget lo l key k Hwf). lia.
  - rewrite clear_budget by done. lia.
Qed.

Lemma step_config k l op :
  window_secs (step k l op).2 = window_secs l /\ max_attempts (step k l op).2 = max_attempts l.
Proof.
  destruct op as [now key|key|key]; simpl; [|by unfold release; repeat case_match|done].
  unfold try_acquire, charge_entry. by repeat (case_match; simplify_eq/=).
Qed.

Lemma admitted_budget lo l k ops :
  wf l -> Forall (in_window lo (window_secs l) k) ops ->
  admitted k l ops <= budget lo l k + releases ops.
Proof.
  intros Hwf Hops. revert l Hwf Hops. induction ops as [|op ops IH]; intros l Hwf Hops; simpl.
  { pose proof (budget_nonneg lo l k Hwf). lia. }
  apply Forall_cons in Hops as [Hop Hops].
  pose proof (step_budget lo l op k Hwf Hop). pose proof (step_wf k l op Hwf).
  pose proof (step_config k l op) as [Hw _].
  destruct (step k l op) as [ok l']; simpl in *.
  specialize (IH l' ltac:(done)). rewrite Hw in IH. specialize (IH Hops). lia.
Qed.

Lemma budget_le lo l k :
  wf l -> budget lo l k <= 2 * max_attempts l + 2 * overflow_max l.
Proof.
  intros Hwf. pose proof (wf_max l Hwf). pose proof (overflow_max_pos l ltac:(lia)).
  pose proof (wf_overflow l Hwf) as Ho. unfold counter_ok in Ho.
  unfold budget, key_budget, overflow_budget, counter_budget.
  destruct (per_key (buckets l) !! k) as [c|] eqn:E.
  - pose proof (wf_counters l Hwf _ _ E) as Hc. unfold counter_ok in Hc. repeat case_match; lia.
  - case_match; lia.
Qed.
End limiter.

Arguments Buckets K {_ _}.
Arguments RateLimiter K {_ _}.
Arguments Op K : clear implicits.

(** C26: the login limiter cannot be outrun. Start from a fresh limiter, run any history
    of attempts, refunds and clears on any keys; then in any interval shorter than one
    window, whatever else happens (sprays of other keys that fill the map and force
    pruning, refunds, clears of other keys), the attempts of one key that are let through
    number at most two per-key windows plus two shared overflow windows plus one per
    refund. In particular filling the map never resets a live counter and never admits
    unmetered traffic. *)
Theorem limiter_window_bound {K} `{Countable K} (t0 max w : Z) (history ops : list (Op K))
    (k : K) (lo : Z) :
  1 <= max <= u32_max ->
  Forall (in_window lo w k) ops ->
  admitted k (run (new t0 max w) history) ops
    <= 2 * max + 2 * (max * OVERFLOW_FACTOR) + releases ops.
Proof.
  intros Hm Hops.
  pose proof (run_wf _ history (new_wf t0 max w Hm)) as Hwf.
  assert (window_secs (run (new t0 max w) history) = w /\ max_attempts (run (new t0 max w) history) = max) as [Ew Em].
  { clear Hops Hwf. set (l := new t0 max w).
    assert (window_secs l = w /\ max_attempts l = max) as Hl by done.
    clearbody l. revert l Hl. induction history as [|op history IH]; intros l Hl; [done|].
    pose proof (step_config k l op) as [? ?].
    destruct op; simpl in *; apply IH; [|naive_solver..].
    destruct (try_acquire _ _ _); simpl in *. naive_solver. }
  rewrite <- Ew in Hops. pose proof (admitted_budget lo _ k ops Hwf Hops).
  pose proof (budget_le lo _ k Hwf) as Hb. rewrite Em in Hb.
  unfold overflow_max, u32_saturating_mul in Hb. rewrite Em in Hb. lia.
Qed.

Lemma limiter_window_bound_witness :
  admitted 7 (run (new 0 2 60) [Acquire 0 7; Release 7])
    [Acquire 1 7; Acquire 2 7; Acquire 3 7; Acquire 4 8]
    <= 2 * 2 + 2 * (2 * OVERFLOW_FACTOR) + releases (K := Z) [].
Proof.
  apply (limiter_window_bound (K := Z) 0 2 60 _
    [Acquire 1 7; Acquire 2 7; Acquire 3 7; Acquire 4 8] 7 1).
  - unfold u32_max. lia.
  - repeat constructor; unfold ns_per_sec; lia.
Defined.

Example limiter_refuses :
  admitted 7 (new 0 2 60) [Acquire 1 7; Acquire 2 7; Acquire 3 7; Acquire 4 8] = 2.
Proof. vm_compute. reflexivity. Qed.

End Limiter.
