(* ===== verification/Secret.v ===== *)
(** * Secret: signed cookies, CSRF tokens and API keys ([src/secret.rs], [src/apikey.rs])

    HMAC-SHA-256 and SHA-256 come from the crates [hmac] and [sha2]: they are the fields
    of the class [Crypto], of which the code only relies on yielding 32 bytes. What is
    proved of forgeries is relative to them: a value accepted in one domain with a
    signature made for another is a collision of the HMAC on two distinct messages. *)
From S2P Require Import Prelude Text.
#[local] Open Scope Z_scope.

Definition is_byte (b : Z) : bool := (0 <=? b) && (b <=? 255).

Class Crypto := {
  hmac_sha256 : list Z -> list Z -> list Z;    (* key, message *)
  sha256 : list Z -> list Z;
}.

(** Both digests are 32 bytes. *)
Class CryptoLaws `{Crypto} := {
  hmac_bytes : forall k m, length (hmac_sha256 k m) = 32%nat /\ forallb is_byte (hmac_sha256 k m) = true;
  sha256_bytes : forall m, length (sha256 m) = 32%nat /\ forallb is_byte (sha256 m) = true;
}.

(** ** Hexadecimal *)

Definition hex_digit (d : Z) : char := if d <? 10 then 48 + d else 87 + d.
(** [write!(out, "{b:02x}")] for every byte. *)
Definition hex_encode (bytes : list Z) : str :=
  flat_map (fun b => [hex_digit (b / 16); hex_digit (b mod 16)]) bytes.

(** [char::to_digit(16)]. *)
Definition to_digit16 (c : char) : option Z :=
  if is_ascii_digit c then Some (c - 48)
  else if (97 <=? c) && (c <=? 102) then Some (c - 87)
  else if (65 <=? c) && (c <=? 70) then Some (c - 55)
  else None.

Fixpoint hex_pairs (bytes : list Z) : option (list Z) :=
  match bytes with
  | a :: b :: rest =>
      hi ← to_digit16 a; lo ← to_digit16 b; out ← hex_pairs rest; Some (hi * 16 + lo :: out)
  | _ => Some []
  end.

Definition hex_decode (s : str) : option (list Z) :=
  let bytes := as_bytes s in
  if Nat.odd (length bytes) then None else hex_pairs bytes.

(** ** Signing *)

Definition SESSION_DOMAIN : list Z := as_bytes (lit "session:").
Definition CSRF_DOMAIN : list Z := as_bytes (lit "csrf:").
Definition FLASH_DOMAIN : list Z := as_bytes (lit "flash:").
Definition SIG_SEPARATOR : char := chr ".".
Definition GENERATED_SECRET_BYTES : nat := 32.
Definition MIN_SECRET_LEN : Z := 16.

Inductive SecretSource : Set :=
| SS_Env
| SS_Generated
| SS_Rejected.

(** [random] is what the operating system's generator fills the buffer with. *)
Definition generate (random : nat -> Z) : list Z := map random (seq 0 GENERATED_SECRET_BYTES).

Definition resolve_secret (random : nat -> Z) (raw : option str) : list Z * SecretSource :=
  match raw with
  | Some v => if MIN_SECRET_LEN <=? utf8_len v then (as_bytes v, SS_Env)
              else (generate random, SS_Rejected)
  | None => (generate random, SS_Generated)
  end.

Section secret.
Context `{Crypto}.

Definition mac (secret domain : list Z) (message : str) : list Z :=
  hmac_sha256 secret (domain ++ as_bytes message).

Definition sign (secret domain : list Z) (value : str) : str :=
  value ++ [SIG_SEPARATOR] ++ hex_encode (mac secret domain value).

Definition verify (secret domain : list Z) (signed : str) : option str :=
  '(value, sig) ← rsplit_once SIG_SEPARATOR signed;
  sig ← hex_decode sig;
  if bool_decide (mac secret domain value = sig) then Some value else None.

Definition sign_session (secret : list Z) (session_id : str) : str :=
  sign secret SESSION_DOMAIN session_id.
Definition verify_session (secret : list Z) (cookie_value : str) : option str :=
  verify secret SESSION_DOMAIN cookie_value.
Definition sign_flash (secret : list Z) (value : str) : str := sign secret FLASH_DOMAIN value.
Definition verify_flash (secret : list Z) (cookie_value : str) : option str :=
  verify secret FLASH_DOMAIN cookie_value.

Definition derive_csrf (secret : list Z) (session_id : str) : str :=
  hex_encode (mac secret CSRF_DOMAIN session_id).

Definition verify_csrf (secret : list Z) (session_id submitted : str) : bool :=
  match hex_decode submitted with
  | None => false
  | Some bytes => bool_decide (mac secret CSRF_DOMAIN session_id = bytes)
  end.

(** [jar]: the request's cookies by name. *)
Definition session_id_from_jar (jar : str -> option str) (secret : list Z) (cookie_name : str)
  : option str :=
  c ← jar cookie_name; verify_session secret c.

(** ** API keys *)

Definition API_KEY_PREFIX : str := lit "pw_".
Definition DISPLAY_BODY_CHARS : Z := 8.

Definition hash_api_key (token : str) : str := hex_encode (sha256 (as_bytes token)).

(** [u1] and [u2]: the two random UUIDs in simple form. *)
Definition generate_api_key (u1 u2 : str) : exec (str * str * str) :=
  let body := u1 ++ u2 in
  let full := API_KEY_PREFIX ++ body in
  match slice_to DISPLAY_BODY_CHARS body with
  | Done b => Done (full, API_KEY_PREFIX ++ b, hash_api_key full)
  | Panic => Panic
  end.

End secret.

(** ** Lemmas *)

Lemma hex_digit_spec d :
  0 <= d < 16 ->
  to_digit16 (hex_digit d) = Some d /\ is_ascii (hex_digit d) = true /\
  hex_digit d <> SIG_SEPARATOR.
Proof.
  intros Hd. assert (d = 0 \/ d = 1 \/ d = 2 \/ d = 3 \/ d = 4 \/ d = 5 \/ d = 6 \/ d = 7 \/
    d = 8 \/ d = 9 \/ d = 10 \/ d = 11 \/ d = 12 \/ d = 13 \/ d = 14 \/ d = 15) as D by lia.
  repeat destruct D as [->|D]; try subst d; vm_compute; split_and!; done.
Qed.

Lemma byte_nibbles b : is_byte b = true -> 0 <= b / 16 < 16 /\ 0 <= b mod 16 < 16.
Proof.
  unfold is_byte. intros; bool_to_prop. split; [|apply Z.mod_pos_bound; lia].
  split; [apply Z.div_pos; lia|apply Z.div_lt_upper_bound; lia].
Qed.

Lemma hex_encode_cons b bs :
  hex_encode (b :: bs) = hex_digit (b / 16) :: hex_digit (b mod 16) :: hex_encode bs.
Proof. done. Qed.

Lemma hex_encode_ascii bs :
  forallb is_byte bs = true ->
  forallb is_ascii (hex_encode bs) = true /\ SIG_SEPARATOR ∉ hex_encode bs.
Proof.
  induction bs as [|b bs IH]; [split; [done|by intros ?%elem_of_nil]|].
  rewrite hex_encode_cons. cbn [forallb]. intros Hb; bool_to_prop.
  destruct (byte_nibbles b) as [H1 H2]; [done|]. destruct IH as [IH1 IH2]; [done|].
  apply hex_digit_spec in H1 as (_ & A1 & S1). apply hex_digit_spec in H2 as (_ & A2 & S2).
  rewrite A1, A2, IH1. split; [done|].
  rewrite !elem_of_cons. by intros [?|[?|?]].
Qed.

Lemma hex_encode_length bs : length (hex_encode bs) = (2 * length bs)%nat.
Proof. induction bs as [|b bs IH]; simpl in *; lia. Qed.

Lemma hex_pairs_encode bs :
  forallb is_byte bs = true -> hex_pairs (hex_encode bs) = Some bs.
Proof.
  induction bs as [|b bs IH]; [done|]. rewrite hex_encode_cons. cbn [forallb hex_pairs].
  intros Hb; bool_to_prop. destruct (byte_nibbles b) as [H1 H2]; [done|].
  rewrite (proj1 (hex_digit_spec _ H1)), (proj1 (hex_digit_spec _ H2)); simpl.
  rewrite IH by done; simpl. do 2 f_equal.
  pose proof (Z.div_mod b 16 ltac:(lia)). lia.
Qed.

Lemma hex_decode_encode bs :
  forallb is_byte bs = true -> hex_decode (hex_encode bs) = Some bs.
Proof.
  intros Hb. destruct (hex_encode_ascii bs Hb) as [Ha _]. unfold hex_decode.
  rewrite as_bytes_ascii, hex_encode_length by done.
  rewrite Nat.odd_mul; simpl. by apply hex_pairs_encode.
Qed.

Lemma to_digit16_Some c d :
  to_digit16 c = Some d -> 0 <= d < 16 /\ to_ascii_lower c = hex_digit d.
Proof.
  unfold to_digit16, to_ascii_lower, is_ascii_upper, is_ascii_digit, hex_digit.
  destruct ((48 <=? c) && (c <=? 57)) eqn:E1; [|destruct ((97 <=? c) && (c <=? 102)) eqn:E2;
    [|destruct ((65 <=? c) && (c <=? 70)) eqn:E3; [|done]]]; intros [= <-]; bool_to_prop;
    (split; [lia|]).
  - replace (65 <=? c) with false by (symmetry; apply Z.leb_gt; lia); simpl.
    replace (c - 48 <? 10) with true by (symmetry; apply Z.ltb_lt; lia). lia.
  - replace (c <=? 90) with false by (symmetry; apply Z.leb_gt; lia). rewrite andb_false_r.
    replace (c - 87 <? 10) with false by (symmetry; apply Z.ltb_ge; lia). lia.
  - replace (65 <=? c) with true by (symmetry; apply Z.leb_le; lia).
    replace (c <=? 90) with true by (symmetry; apply Z.leb_le; lia); simpl.
    replace (c - 55 <? 10) with false by (symmetry; apply Z.ltb_ge; lia). lia.
Qed.

Lemma to_digit16_lower c d :
  0 <= d < 16 -> to_ascii_lower c = hex_digit d -> to_digit16 c = Some d.
Proof.
  intros Hd E. destruct (hex_digit_spec d Hd) as (Hs & _ & _).
  unfold to_ascii_lower, is_ascii_upper in E.
  destruct ((65 <=? c) && (c <=? 90)) eqn:U; [|by rewrite E]. bool_to_prop.
  unfold hex_digit in E. unfold to_digit16, is_ascii_digit.
  replace (c <=? 57) with false by (symmetry; apply Z.leb_gt; lia).
  replace (97 <=? c) with false by (symmetry; apply Z.leb_gt; lia).
  rewrite andb_false_r; simpl. destruct (Z.ltb_spec d 10); [lia|].
  replace (65 <=? c) with true by (symmetry; apply Z.leb_le; lia).
  replace (c <=? 70) with true by (symmetry; apply Z.leb_le; lia). simpl. f_equal. lia.
Qed.

Lemma to_digit16_ascii c d : to_digit16 c = Some d -> is_ascii c = true.
Proof.
  unfold to_digit16, is_ascii_digit, is_ascii. intros Hc.
  rewrite andb_true_iff, Z.leb_le, Z.ltb_lt.
  repeat (case_match; bool_to_prop; try lia). done.
Qed.

Lemma as_bytes_ascii_inv s : forallb is_ascii (as_bytes s) = true -> as_bytes s = s.
Proof.
  induction s as [|c s IH]; [done|]. unfold as_bytes in *; simpl.
  rewrite forallb_app, andb_true_iff. intros [Hc Hs]. rewrite IH by done.
  unfold utf8_encode in *. destruct (Z.ltb_spec c 128); [done|].
  exfalso. assert (0 <= c / 64 /\ 0 <= c / 4096 /\ 0 <= c / 262144) as (? & ? & ?)
    by (repeat split; apply Z.div_pos; lia).
  destruct (c <? 2048); [|destruct (c <? 65536)]; simpl in Hc; bool_to_prop;
    unfold is_ascii in *; bool_to_prop; lia.
Qed.

Lemma hex_pairs_Some n bs out :
  (length bs <= n)%nat -> Nat.odd (length bs) = false -> hex_pairs bs = Some out ->
  map to_ascii_lower bs = hex_encode out /\ forallb is_ascii bs = true /\
  forallb is_byte out = true.
Proof.
  revert bs out. induction n as [|n IH]; intros [|a [|b bs]] out Hn Hodd E; simpl in *;
    simplify_eq/=; try done; try lia.
  apply bind_Some in E as (hi & E1 & E). apply bind_Some in E as (lo & E2 & E).
  apply bind_Some in E as (rest & E & [= <-]).
  destruct (IH bs rest) as (H1 & H2 & H3); [lia|done|done|].
  destruct (to_digit16_Some _ _ E1) as [B1 D1]. destruct (to_digit16_Some _ _ E2) as [B2 D2].
  cbn [map forallb].
  rewrite (to_digit16_ascii _ _ E1), (to_digit16_ascii _ _ E2), H2, H3, D1, D2, H1, hex_encode_cons.
  rewrite Z.div_add_l, (Z.div_small lo 16), Z.add_0_r by lia.
  rewrite Z.add_comm, Z.mod_add, Z.mod_small by lia.
  split; [done|]. split; [done|]. unfold is_byte. simpl. rewrite !andb_true_iff, !Z.leb_le. lia.
Qed.

(** [hex_decode] accepts exactly the hexadecimal spellings, in either case. *)
Lemma hex_decode_Some s bs :
  hex_decode s = Some bs <-> to_ascii_lowercase s = hex_encode bs /\ forallb is_byte bs = true.
Proof.
  split.
  - unfold hex_decode. destruct (Nat.odd (length (as_bytes s))) eqn:Ho; [done|]. intros E.
    destruct (hex_pairs_Some _ _ _ (le_n _) Ho E) as (H1 & H2 & H3).
    by rewrite (as_bytes_ascii_inv _ H2) in H1.
  - intros [E Hb]. destruct (hex_encode_ascii bs Hb) as [Ha _]. rewrite <- E in Ha.
    assert (as_bytes s = s) as Eb.
    { apply as_bytes_ascii. clear E. unfold to_ascii_lowercase in Ha.
      induction s as [|c s IH]; [done|]. simpl in *. bool_to_prop.
      rewrite IH, andb_true_r by done. unfold to_ascii_lower, is_ascii_upper, is_ascii in *.
      rewrite andb_true_iff, Z.leb_le, Z.ltb_lt. repeat (case_match; bool_to_prop); lia. }
    unfold hex_decode. rewrite Eb.
    assert (length s = (2 * length bs)%nat) as ->.
    { rewrite <- hex_encode_length, <- E. unfold to_ascii_lowercase. by rewrite length_map. }
    rewrite Nat.odd_mul; simpl. clear Ha Eb. revert s E. induction bs as [|b bs IH]; intros s E.
    { by destruct s. }
    rewrite hex_encode_cons in E. destruct s as [|x [|y s]]; simplify_eq/=. bool_to_prop.
    destruct (byte_nibbles b) as [B1 B2]; [done|].
    rewrite (to_digit16_lower x _ B1), (to_digit16_lower y _ B2) by done; simpl.
    rewrite IH by done; simpl. do 2 f_equal. pose proof (Z.div_mod b 16 ltac:(lia)). lia.
Qed.

Section signing.
Context `{CryptoLaws}.

Lemma verify_Some secret domain s v :
  verify secret domain s = Some v <->
  exists sig, s = v ++ [SIG_SEPARATOR] ++ sig /\ (SIG_SEPARATOR ∉ sig) /\
              to_ascii_lowercase sig = hex_encode (mac secret domain v).
Proof.
  unfold verify. split.
  - intros E. apply bind_Some in E as ([v' sig] & E1 & E).
    apply bind_Some in E as (tag & E2 & E). case_bool_decide as Em; simplify_eq.
    apply rsplit_once_Some in E1 as [-> Hn]. apply hex_decode_Some in E2 as [E2 _].
    by exists sig.
  - intros (sig & -> & Hn & E).
    rewrite (proj2 (rsplit_once_Some _ _ v sig)) by done. simpl.
    rewrite (proj2 (hex_decode_Some sig (mac secret domain v))).
    + simpl. by rewrite bool_decide_eq_true_2.
    + split; [done|]. apply hmac_bytes.
Qed.

Lemma verify_sign secret domain v : verify secret domain (sign secret domain v) = Some v.
Proof.
  apply verify_Some. exists (hex_encode (mac secret domain v)).
  destruct (hex_encode_ascii (mac secret domain v)) as [Ha Hs]; [apply hmac_bytes|].
  split; [done|]. split; [done|].
  apply map_id_on, Forall_forall. intros c Hc.
  unfold hex_encode in Hc. apply list_elem_of_In, in_flat_map in Hc as (b & Hb & Hc).
  destruct (hmac_bytes secret (domain ++ as_bytes v)) as [_ Hbytes].
  rewrite forallb_forall in Hbytes. apply Hbytes in Hb.
  destruct (byte_nibbles _ Hb) as [B1 B2].
  assert (forall d, 0 <= d < 16 -> to_ascii_lower (hex_digit d) = hex_digit d) as Hid.
  { intros d Hd. by destruct (to_digit16_Some _ _ (proj1 (hex_digit_spec d Hd))). }
  destruct Hc as [<-|[<-|[]]]; by apply Hid.
Qed.

(** A cookie value is accepted for a session exactly when it is the session id, a dot
    and the hexadecimal HMAC of [session:] followed by that id, in either case; what
    [sign_session] issues is accepted with its own id, whatever characters the id has. *)
Theorem session_cookie_exact secret cookie id :
  (verify_session secret cookie = Some id <->
   exists sig, cookie = id ++ lit "." ++ sig /\ (chr "." ∉ sig) /\
     to_ascii_lowercase sig = hex_encode (hmac_sha256 secret (as_bytes (lit "session:" ++ id)))) /\
  verify_session secret (sign_session secret id) = Some id.
Proof.
  split; [|apply verify_sign]. unfold verify_session. rewrite verify_Some.
  unfold mac, SESSION_DOMAIN. by rewrite <- as_bytes_app.
Qed.

(** The three domains never give the HMAC the same message. *)
Lemma domains_differ (a b : str) :
  SESSION_DOMAIN ++ as_bytes a <> CSRF_DOMAIN ++ as_bytes b /\
  SESSION_DOMAIN ++ as_bytes a <> FLASH_DOMAIN ++ as_bytes b /\
  CSRF_DOMAIN ++ as_bytes a <> FLASH_DOMAIN ++ as_bytes b.
Proof.
  assert (hd 0 SESSION_DOMAIN = 115 /\ hd 0 CSRF_DOMAIN = 99 /\ hd 0 FLASH_DOMAIN = 102) as H'
    by done.
  assert (forall d, d ∈ [SESSION_DOMAIN; CSRF_DOMAIN; FLASH_DOMAIN] -> forall x, hd 0 (d ++ x) = hd 0 d) as Hd.
  { intros d Hd x. repeat (apply elem_of_cons in Hd as [->|Hd]; [done|]). by apply elem_of_nil in Hd. }
  repeat split; intros E; apply (f_equal (hd 0)) in E; rewrite !Hd in E;
    rewrite ?elem_of_cons; naive_solver.
Qed.

Lemma hex_encode_mac_inj secret d1 d2 a b :
  hex_encode (mac secret d1 a) = hex_encode (mac secret d2 b) <->
  mac secret d1 a = mac secret d2 b.
Proof.
  split; [|by intros ->]. intros E. apply (f_equal hex_decode) in E.
  rewrite !hex_decode_encode in E by apply hmac_bytes. by simplify_eq.
Qed.

(** A signature made in one domain is accepted in another exactly on equal digests. *)
Lemma verify_foreign secret d1 d2 a b v :
  verify secret d1 (a ++ [SIG_SEPARATOR] ++ hex_encode (mac secret d2 b)) = Some v <->
  v = a /\ mac secret d1 a = mac secret d2 b.
Proof.
  pose proof (hmac_bytes secret (d2 ++ as_bytes b)) as [_ Hb].
  unfold verify. destruct (hex_encode_ascii _ Hb) as [_ Hs].
  rewrite (proj2 (rsplit_once_Some SIG_SEPARATOR _ a (hex_encode (mac secret d2 b)))) by done.
  simpl. unfold mac at 1. rewrite hex_decode_encode by done. simpl.
  case_bool_decide as E; split; naive_solver.
Qed.

(** Domain separation. The CSRF token every form prints signs a session cookie, a
    flash cookie the server signed passes as a session cookie, and the token of one
    session is accepted for another, only if the HMAC gives equal digests for the two
    messages involved; and these are different messages, since the domain prefixes
    differ and the ids do. *)
Theorem signatures_domain_separated secret id id' v w :
  (verify_session secret (id ++ lit "." ++ derive_csrf secret id') = Some v ->
     hmac_sha256 secret (as_bytes (lit "session:" ++ id)) =
     hmac_sha256 secret (as_bytes (lit "csrf:" ++ id')) /\
     as_bytes (lit "session:" ++ id) <> as_bytes (lit "csrf:" ++ id')) /\
  (verify_session secret (sign_flash secret w) = Some v ->
     hmac_sha256 secret (as_bytes (lit "session:" ++ w)) =
     hmac_sha256 secret (as_bytes (lit "flash:" ++ w)) /\
     as_bytes (lit "session:" ++ w) <> as_bytes (lit "flash:" ++ w)) /\
  (verify_csrf secret id (derive_csrf secret id') = true <->
     hmac_sha256 secret (as_bytes (lit "csrf:" ++ id)) =
     hmac_sha256 secret (as_bytes (lit "csrf:" ++ id'))).
Proof.
  rewrite !as_bytes_app. split; [|split].
  - intros E. apply verify_foreign in E as [_ E]. split; [done|apply domains_differ].
  - intros E. apply verify_foreign in E as [_ E]. split; [done|apply domains_differ].
  - unfold verify_csrf, derive_csrf. rewrite hex_decode_encode by apply hmac_bytes.
    apply bool_decide_eq_true.
Qed.

(** Two UUIDs in simple form (32 ASCII characters each) give, without panicking on
    the slice, a key of 67 characters that starts with its displayable prefix, [pw_] and
    eight more, and whose stored hash is 64 characters of the hash of the whole key. *)
Theorem generate_api_key_shape u1 u2 :
  length u1 = 32%nat -> length u2 = 32%nat ->
  forallb is_ascii u1 = true -> forallb is_ascii u2 = true ->
  exists full prefix, generate_api_key u1 u2 = Done (full, prefix, hash_api_key full) /\
    utf8_len full = 67 /\ length prefix = 11%nat /\ starts_with prefix full = true /\
    starts_with (lit "pw_") prefix = true /\ length (hash_api_key full) = 64%nat.
Proof.
  intros L1 L2 A1 A2.
  assert (forall n s, (n <= length s)%nat -> forallb is_ascii s = true ->
    slice_to (Z.of_nat n) s = Done (take n s)) as Hslice.
  { induction n as [|n IH]; intros [|c s] Hn Ha; try done; [simpl in Hn; lia|].
    simpl in Hn, Ha. bool_to_prop. unfold is_ascii in *; bool_to_prop.
    cbn [slice_to take]. rewrite (proj2 (Z.eqb_neq _ 0)), (proj2 (Z.ltb_ge _ 0)) by lia.
    unfold utf8_width. rewrite (proj2 (Z.ltb_lt c 128)) by lia.
    replace (Z.of_nat (S n) - 1) with (Z.of_nat n) by lia. by rewrite IH by (done || lia). }
  unfold generate_api_key, DISPLAY_BODY_CHARS.
  change 8 with (Z.of_nat 8). rewrite Hslice; [|rewrite length_app; lia|by rewrite forallb_app, A1, A2].
  eexists _, _. split; [done|]. rewrite <- as_bytes_length, as_bytes_ascii.
  2: { rewrite !forallb_app, A1, A2. done. }
  rewrite !length_app, length_take, length_app, L1, L2. split; [done|]. split; [done|].
  split; [|split].
  - apply starts_with_spec. exists (drop 8 (u1 ++ u2)).
    by rewrite <- (assoc_L (++)), take_drop.
  - apply starts_with_spec. by eexists.
  - unfold hash_api_key. rewrite hex_encode_length. by rewrite (proj1 (sha256_bytes _)).
Qed.

End signing.

(** ** A concrete digest, for the witnesses

    Thirty-two bytes; injective on the messages the witnesses use, not a hash. *)
Module SampleCrypto.

Definition digest (m : list Z) : list Z :=
  map (fun i => nth i m 0 mod 256) (seq 0 32).

#[export] Instance sample_crypto : Crypto := {|
  hmac_sha256 _ m := digest m;
  sha256 := digest;
|}.

#[export] Instance sample_crypto_laws : CryptoLaws.
Proof.
  assert (forall m, length (digest m) = 32%nat /\ forallb is_byte (digest m) = true) as Hd.
  { intros m. unfold digest. rewrite length_map, length_seq. split; [done|].
    apply forallb_forall. intros b Hb. apply in_map_iff in Hb as (i & <- & _).
    pose proof (Z.mod_pos_bound (nth i m 0) 256 ltac:(lia)).
    unfold is_byte. rewrite andb_true_iff, !Z.leb_le. lia. }
  split; intros; apply Hd.
Qed.

End SampleCrypto.

(** ** Witnesses *)

#[local] Existing Instance SampleCrypto.sample_crypto.
#[local] Existing Instance SampleCrypto.sample_crypto_laws.

Lemma session_cookie_exact_witness :
  verify_session [1; 2] (sign_session [1; 2] (lit "a.b")) = Some (lit "a.b").
Proof. apply (session_cookie_exact [1; 2] (lit "x") (lit "a.b")). Defined.

Lemma signatures_domain_separated_witness :
  verify_csrf [1; 2] (lit "id") (derive_csrf [1; 2] (lit "id")) = true /\
  verify_csrf [1; 2] (lit "id") (derive_csrf [1; 2] (lit "other")) <> true.
Proof.
  destruct (signatures_domain_separated [1; 2] (lit "id") (lit "id") [] []) as (_ & _ & H1).
  destruct (signatures_domain_separated [1; 2] (lit "id") (lit "other") [] []) as (_ & _ & H2).
  split; [by apply H1|]. intros E. apply H2 in E. vm_compute in E. discriminate.
Defined.

Lemma generate_api_key_shape_witness :
  exists full prefix,
    generate_api_key (lit "0123456789abcdef0123456789abcdef")
                     (lit "fedcba9876543210fedcba9876543210") =
      Done (full, prefix, hash_api_key full) /\ utf8_len full = 67.
Proof.
  destruct (generate_api_key_shape (lit "0123456789abcdef0123456789abcdef")
    (lit "fedcba9876543210fedcba9876543210")) as (full & prefix & E & L & _);
    [reflexivity..|]. by exists full, prefix.
Defined.
