(* ===== verification/Config.v ===== *)
(** * Config: [src/config.rs]

    The configuration read from the environment, a map from keys to optional values, and
    the two interval cascades. *)
From S2P Require Import Prelude Text Duration Secret.
#[local] Open Scope Z_scope.

Inductive SmtpTls : Set :=
| ST_Starttls
| ST_Tls
| ST_None.

Record SmtpConfig := mk_SmtpConfig {
  sm_host : str;
  sm_port : Z;
  sm_username : option str;
  sm_password : option str;
  sm_from : str;
  sm_tls : SmtpTls;
}.

Inductive LogFormat : Set :=
| LF_Full
| LF_Compact
| LF_Pretty
| LF_Json.

Record Config := mk_Config {
  cf_database_url : str;
  cf_bind : str;
  cf_base_url : str;
  cf_scan_interval_secs : Z;
  cf_prune_interval_secs : Z;
  cf_forward_auth_header : option str;
  cf_forward_auth_logout_url : option str;
  cf_trusted_proxies : list str;
  cf_smtp : option SmtpConfig;
  cf_log_format : LogFormat;
  cf_secret : list Z;
  cf_secret_source : SecretSource;
  cf_cookie_secure : bool;
  cf_hsts_max_age_secs : Z;
}.

Definition env_duration_secs (raw : option str) (default : Z) : Z :=
  match v ← raw; s ← parse_duration v; if 0 <=? s then Some s else None with
  | Some s => s
  | None => default
  end.

Definition derived_from_base_url (base_url : str) : bool :=
  starts_with (lit "https://") (to_ascii_lowercase (trim_start base_url)).

(** [Option::filter(|s| !s.is_empty())]. *)
Definition non_empty (o : option str) : option str :=
  s ← o; if is_empty s then None else Some s.

Definition parse_cookie_secure (raw : option str) (base_url : str) : bool :=
  match non_empty (trim <$> raw) with
  | Some v =>
      if eq_ignore_ascii_case v (lit "true") || bool_decide (v = lit "1") then true
      else if eq_ignore_ascii_case v (lit "false") || bool_decide (v = lit "0") then false
      else derived_from_base_url base_url
  | None => derived_from_base_url base_url
  end.

Definition nonblank (get : str -> option str) (k : str) : option str :=
  non_empty (trim <$> get k).

Definition parse_log_format (raw : option str) : LogFormat :=
  let v := to_ascii_lowercase (trim (default [] raw)) in
  if bool_decide (v = lit "json") then LF_Json
  else if bool_decide (v = lit "compact") then LF_Compact
  else if bool_decide (v = lit "pretty") then LF_Pretty
  else LF_Full.

Definition parse_trusted_proxies (raw : option str) : list str :=
  match raw with
  | Some v => List.filter (fun s => negb (is_empty s)) (map trim (split_on (chr ",") v))
  | None => []
  end.

Definition parse_smtp_tls (raw : option str) : SmtpTls :=
  let v := to_ascii_lowercase (default [] raw) in
  if bool_decide (v = lit "tls") then ST_Tls
  else if bool_decide (v = lit "none") then ST_None
  else ST_Starttls.

(** [parse::<u16>]. *)
Definition parse_u16 : str -> option Z := parse_unsigned 65535.

Definition parse_smtp (get : str -> option str) : option SmtpConfig :=
  match nonblank get (lit "PINGWARD_SMTP_HOST"), nonblank get (lit "PINGWARD_SMTP_FROM") with
  | Some host, Some from =>
      let tls := parse_smtp_tls (nonblank get (lit "PINGWARD_SMTP_TLS")) in
      let default_port := match tls with ST_Tls => 465 | ST_Starttls | ST_None => 587 end in
      Some {|
        sm_host := host;
        sm_port := default default_port (nonblank get (lit "PINGWARD_SMTP_PORT") ≫= parse_u16);
        sm_username := nonblank get (lit "PINGWARD_SMTP_USERNAME");
        sm_password := nonblank get (lit "PINGWARD_SMTP_PASSWORD");
        sm_from := from;
        sm_tls := tls;
      |}
  | _, _ => None
  end.

(** [random] feeds the generated secret. *)
Definition from_map (random : nat -> Z) (get : str -> option str) : Config :=
  let '(secret, secret_source) := resolve_secret random (nonblank get (lit "PINGWARD_SECRET")) in
  let base_url := default (lit "http://localhost:8080") (get (lit "PINGWARD_BASE_URL")) in
  {|
    cf_database_url := default (lit "sqlite://pingward.sqlite3?mode=rwc") (get (lit "DATABASE_URL"));
    cf_bind := default (lit "127.0.0.1:8080") (get (lit "PINGWARD_BIND"));
    cf_base_url := base_url;
    cf_scan_interval_secs := env_duration_secs (get (lit "PINGWARD_SCAN_INTERVAL")) 30;
    cf_prune_interval_secs := env_duration_secs (get (lit "PINGWARD_PRUNE_INTERVAL_SECS")) 3600;
    cf_forward_auth_header := get (lit "PINGWARD_FORWARD_AUTH_HEADER");
    cf_forward_auth_logout_url := nonblank get (lit "PINGWARD_FORWARD_AUTH_LOGOUT_URL");
    cf_trusted_proxies := parse_trusted_proxies (get (lit "PINGWARD_TRUSTED_PROXIES"));
    cf_smtp := parse_smtp get;
    cf_log_format := parse_log_format (get (lit "PINGWARD_LOG_FORMAT"));
    cf_secret := secret;
    cf_secret_source := secret_source;
    cf_cookie_secure :=
      parse_cookie_secure (nonblank get (lit "PINGWARD_COOKIE_SECURE")) base_url;
    cf_hsts_max_age_secs := env_duration_secs (get (lit "PINGWARD_HSTS_MAX_AGE")) 0;
  |}.

(** ** The interval cascades *)

(** [[check, project, global].into_iter().flatten()], the first positive one. *)
Fixpoint first_positive (l : list (option Z)) : option Z :=
  match l with
  | [] => None
  | Some v :: l' => if 0 <? v then Some v else first_positive l'
  | None :: l' => first_positive l'
  end.

Definition effective_scan_interval (check_secs project_secs global_secs : option Z)
    (env_default : Z) : Z :=
  match first_positive [check_secs; project_secs; global_secs] with
  | Some v => v
  | None => Z.max env_default 1
  end.

Definition effective_nag_interval (check_secs project_secs global_secs : option Z) : option Z :=
  first_positive [check_secs; project_secs; global_secs].

(** ** Lemmas *)

Lemma first_positive_pos l v : first_positive l = Some v -> 0 < v.
Proof.
  induction l as [|[w|] l IH]; simpl; [done| |done].
  destruct (Z.ltb_spec 0 w); [|done]. by intros [= <-].
Qed.

Lemma effective_scan_interval_pos c p g d : 1 <= effective_scan_interval c p g d.
Proof.
  unfold effective_scan_interval. destruct (first_positive _) eqn:E; [|lia].
  apply first_positive_pos in E. lia.
Qed.

(** The value that wins a cascade: positive, and every level before it unset or not
    positive. *)
Definition wins (c p g : option Z) (v : Z) : Prop :=
  let off o := match o with Some w => w <= 0 | None => True end in
  0 < v /\
  (c = Some v \/ (off c /\ p = Some v) \/ (off c /\ off p /\ g = Some v)).

Lemma first_positive_wins c p g v : first_positive [c; p; g] = Some v <-> wins c p g v.
Proof.
  unfold wins. destruct c as [c|], p as [p|], g as [g|]; simpl;
    repeat (match goal with |- context [0 <? ?x] => destruct (Z.ltb_spec 0 x) end);
    (split; [intros ?; simplify_eq|]); try done; try (naive_solver lia).
  all: intros (? & [?|[[? ?]|(? & ? & ?)]]); simplify_eq; try done; try lia.
Qed.

Lemma trim_blank_non_empty o v : non_empty o = Some v -> o = Some v /\ v <> [].
Proof.
  unfold non_empty. intros E. apply bind_Some in E as (s & -> & E).
  destruct s; simplify_eq/=. done.
Qed.

Lemma nonblank_Some get k v :
  nonblank get k = Some v <-> exists raw, get k = Some raw /\ v = trim raw /\ v <> [].
Proof.
  unfold nonblank. split.
  - intros E. apply trim_blank_non_empty in E as [E Hv].
    destruct (get k) as [raw|]; simplify_eq/=. by exists raw.
  - intros (raw & -> & -> & Hv). simpl. unfold non_empty. simpl. by destruct (trim raw).
Qed.

Lemma parse_unsigned_bounds hi s v : parse_unsigned hi s = Some v -> 0 <= v <= hi.
Proof.
  unfold parse_unsigned, in_bounds. intros H. destruct s as [|c s]; [done|].
  apply bind_Some in H as (w & _ & H). case_match; simplify_eq. bool_to_prop. lia.
Qed.

(** Both interval cascades take the first positive value of check, project and global
    setting: zero and negative overrides fall through. Without one the scan interval is
    the environment's, never below one second, and nagging is off. *)
Theorem interval_cascade c p g env :
  (forall v, effective_nag_interval c p g = Some v <-> wins c p g v) /\
  (forall v, wins c p g v -> effective_scan_interval c p g env = v) /\
  ((forall v, ~ wins c p g v) ->
     effective_nag_interval c p g = None /\ effective_scan_interval c p g env = Z.max env 1) /\
  1 <= effective_scan_interval c p g env.
Proof.
  unfold effective_nag_interval. split; [apply first_positive_wins|].
  split; [|split; [|apply effective_scan_interval_pos]].
  - intros v Hv. apply first_positive_wins in Hv. unfold effective_scan_interval. by rewrite Hv.
  - intros Hno. unfold effective_scan_interval. destruct (first_positive [c; p; g]) as [v|] eqn:E.
    + apply first_positive_wins in E. by apply Hno in E.
    + done.
Qed.

(** Whatever the environment holds, reading it yields a usable configuration: a
    process secret of at least sixteen bytes, intervals that are not negative, an SMTP
    relay exactly when host and sender are both non-blank and then with a port of 16 bits,
    trusted proxies that are trimmed and not blank; and the cookie's [Secure] flag follows
    the base URL's scheme unless it is set explicitly. *)
Theorem from_map_usable random get :
  let c := from_map random get in
  MIN_SECRET_LEN <= Z.of_nat (length (cf_secret c)) /\
  0 <= cf_scan_interval_secs c /\ 0 <= cf_prune_interval_secs c /\ 0 <= cf_hsts_max_age_secs c /\
  (is_Some (cf_smtp c) <-> is_Some (nonblank get (lit "PINGWARD_SMTP_HOST")) /\
                           is_Some (nonblank get (lit "PINGWARD_SMTP_FROM"))) /\
  (forall s, cf_smtp c = Some s -> 0 <= sm_port s <= 65535) /\
  Forall (fun p => p <> [] /\ exists raw, p = trim raw) (cf_trusted_proxies c) /\
  (nonblank get (lit "PINGWARD_COOKIE_SECURE") = None ->
     cf_cookie_secure c = derived_from_base_url (cf_base_url c)).
Proof.
  assert (forall raw d, 0 <= d -> 0 <= env_duration_secs raw d) as Hd.
  { intros raw d Hd. unfold env_duration_secs.
    destruct (mbind _ _) as [s|] eqn:E; [|done].
    apply bind_Some in E as (v & _ & E). apply bind_Some in E as (x & _ & E).
    case_match; simplify_eq. by bool_to_prop. }
  cbn zeta. unfold from_map. destruct (resolve_secret _ _) as [secret src] eqn:Es.
  cbn [cf_secret cf_scan_interval_secs cf_prune_interval_secs cf_hsts_max_age_secs cf_smtp
       cf_trusted_proxies cf_cookie_secure cf_base_url].
  split_and!; try (apply Hd; lia).
  - unfold resolve_secret in Es. destruct (nonblank get _) as [v|]; [|by simplify_eq].
    destruct (Z.leb_spec MIN_SECRET_LEN (utf8_len v)); simplify_eq; [|done].
    by rewrite as_bytes_length.
  - unfold parse_smtp.
    destruct (nonblank get (lit "PINGWARD_SMTP_HOST")), (nonblank get (lit "PINGWARD_SMTP_FROM"));
      split; try (by intros [? ?]); try (by intros [[? ?] [? ?]]).
  - unfold parse_smtp. intros s.
    destruct (nonblank get (lit "PINGWARD_SMTP_HOST")), (nonblank get (lit "PINGWARD_SMTP_FROM"));
      intros; simplify_eq/=.
    destruct (nonblank get _ ≫= parse_u16) as [port|] eqn:E; simpl; [|case_match; lia].
    apply bind_Some in E as (raw & _ & E). by apply parse_unsigned_bounds in E.
  - unfold parse_trusted_proxies. destruct (get _) as [v|]; [|done].
    apply Forall_forall. intros p Hp. apply list_elem_of_In, filter_In in Hp as [Hp Hne].
    apply in_map_iff in Hp as (raw & <- & _). split; [by destruct (trim raw)|eauto].
  - intros ->. done.
Qed.
