(* ===== verification/Wire.v ===== *)
(** * Wire: what leaves the process

    The requests and e-mails of [src/notify.rs], the ways a transport fails, the pauses
    between attempts, and the background tasks the handlers spawn. The HTTP client
    ([reqwest]) and the mailer ([lettre]) are outside the repository: the environment of
    [Db] answers each request. *)
From S2P Require Import Prelude Text Models Config.
#[local] Open Scope Z_scope.

(** A JSON value built by [serde_json::json!]. *)
Inductive Json : Type :=
| J_Null
| J_Str (s : str)
| J_Int (n : Z)
| J_Obj (fields : list (str * Json)).

Definition J_opt (o : option str) : Json := match o with Some s => J_Str s | None => J_Null end.
Definition J_opt_int (o : option Z) : Json := match o with Some n => J_Int n | None => J_Null end.

Inductive Body : Type :=
| B_Json (v : Json)
| B_Text (s : str)
| B_Form (fields : list (str * str)).

(** A POST request. *)
Record HttpRequest := mk_HttpRequest {
  rq_url : str;
  rq_headers : list (str * str);
  rq_body : Body;
}.

(** What [reqwest::Error] answers about itself. *)
Record ReqwestError := mk_ReqwestError {
  is_timeout : bool;
  is_connect : bool;
  is_redirect : bool;
  is_body : bool;
  is_decode : bool;
}.

Record Email := mk_Email {
  em_from : str;
  em_to : str;
  em_subject : str;
  em_body : str;
}.

(** The relay an e-mail is handed to. *)
Record Relay := mk_Relay {
  rl_tls : SmtpTls;
  rl_host : str;
  rl_port : Z;
  rl_credentials : option (str * str);
}.

Inductive Out : Type :=
| Out_Http (rq : HttpRequest)
| Out_Mail (relay : Relay) (m : Email)
| Out_Sleep (nanos : Z).

(** [tokio::spawn]: the delivery of one event by the scan loop, or the one a ping handler
    spawns, which still has to look the project up. *)
Inductive Task : Type :=
| T_Event (ev : NotificationEvent) (smtp : option SmtpConfig)
| T_Ping (snapshot : Check) (event : EventKind) (now : Z) (cause : option DownCause)
    (base_url : str) (smtp : option SmtpConfig).

Definition task_event (t : Task) : EventKind :=
  match t with T_Event ev _ => ev_event ev | T_Ping _ k _ _ _ _ => k end.
Definition task_check (t : Task) : Z :=
  match t with T_Event ev _ => ev_check_id ev | T_Ping c _ _ _ _ _ => c_id c end.
