(* ===== verification/Chrono.v ===== *)
(** * Chrono: what the code relies on from the crates [chrono], [chrono_tz] and [cron]

    These crates are not part of the repository: their functions are the fields of the
    classes [Chrono] and [Cron], their documented behaviour the laws of [ChronoLaws] and
    [CronLaws]. An instant is a number of nanoseconds since the epoch, a [TimeDelta] a
    number of nanoseconds. [SampleChrono] is a concrete instance on which witnesses
    evaluate. *)
From S2P Require Import Prelude Text.
#[local] Open Scope Z_scope.

Definition ns : Z := 1000000000.

(** ** [chrono] *)

Class Chrono := {
  dt_min : Z;                                  (* [DateTime::<Utc>::MIN_UTC] *)
  dt_max : Z;                                  (* [DateTime::<Utc>::MAX_UTC] *)
  td_max : Z;                                  (* [TimeDelta::MAX] *)
  to_rfc3339 : Z -> str;                       (* [DateTime::to_rfc3339] in UTC *)
  parse_from_rfc3339 : str -> option Z;        (* [DateTime::parse_from_rfc3339], to UTC *)
  Tz : Type;                                   (* [chrono_tz::Tz] *)
  utc : Tz;                                    (* [chrono_tz::UTC] *)
  tz_parse : str -> option Tz;                 (* [str::parse::<Tz>] *)
  tz_name : Tz -> str;                         (* [Tz::name] *)
  format_at : Z -> Tz -> str;                  (* [with_timezone(tz).format("%Y-%m-%d %H:%M %Z")] *)
  format_utc : Z -> str;                       (* [format("%Y-%m-%d %H:%M:%S UTC")] *)
}.

(** The instants RFC 3339 can write: the years 0 to 9999. *)
Definition text_min : Z := -62167219200 * ns.
Definition text_max : Z := 253402300800 * ns - 1.
Definition text_ok (t : Z) : Prop := text_min <= t <= text_max.
#[export] Instance text_ok_dec t : Decision (text_ok t).
Proof. unfold text_ok. apply _. Defined.

Class ChronoLaws `{Chrono} := {
  (* [TimeDelta::MAX] is [i64::MAX] milliseconds *)
  td_max_value : td_max = i64_max * 1000000;
  (* the supported range covers the years RFC 3339 can write *)
  dt_covers : dt_min <= text_min /\ text_max <= dt_max;
  (* a written instant reads back *)
  parse_to_rfc3339 : forall t, text_ok t -> parse_from_rfc3339 (to_rfc3339 t) = Some t;
  (* in UTC the text order is the time order: fixed-width fields, and a fraction that
     starts with [.] and so sorts after the [+] that follows whole seconds *)
  rfc3339_order : forall a b, text_ok a -> text_ok b ->
    str_ltb (to_rfc3339 a) (to_rfc3339 b) = (a <? b);
  to_rfc3339_nonempty : forall t, to_rfc3339 t <> [];
  (* a zone is found under its own name, and UTC under [UTC] *)
  tz_parse_name : forall s tz, tz_parse s = Some tz -> tz_parse (tz_name tz) = Some tz;
  tz_parse_utc : tz_parse (lit "UTC") = Some utc;
  tz_name_utc : tz_name utc = lit "UTC";
  (* the names of the IANA database are not empty and hold no blanks *)
  tz_name_plain : forall tz, tz_name tz <> [] /\
    forallb (fun c => negb (is_whitespace c)) (tz_name tz) = true;
}.

(** [TimeDelta::seconds]: panics out of bounds. *)
Definition td_seconds `{Chrono} (n : Z) : exec Z :=
  if (- td_max <=? n * ns) && (n * ns <=? td_max) then Done (n * ns) else Panic.

(** [DateTime + TimeDelta] and [DateTime - TimeDelta]: panic out of range. *)
Definition dt_in_range `{Chrono} (t : Z) : bool := (dt_min <=? t) && (t <=? dt_max).
Definition dt_add `{Chrono} (t d : Z) : exec Z := if dt_in_range (t + d) then Done (t + d) else Panic.

(** [TimeDelta::try_days] and [DateTime::checked_sub_signed]. *)
Definition try_days `{Chrono} (n : Z) : option Z :=
  let d := n * 86400 * ns in
  if (- td_max <=? d) && (d <=? td_max) then Some d else None.
Definition checked_sub_signed `{Chrono} (t d : Z) : option Z :=
  if dt_in_range (t - d) then Some (t - d) else None.

(** [TimeDelta::num_seconds] truncates toward zero. *)
Definition num_seconds (d : Z) : Z := Z.quot d ns.

Definition days (n : Z) : Z := n * 86400 * ns.
Definition hours (n : Z) : Z := n * 3600 * ns.

(** ** [cron] *)

Class Cron `{Chrono} := {
  Schedule : Type;
  schedule_from_str : str -> res str Schedule;   (* the error's [Display] text *)
  schedule_after : Schedule -> Tz -> Z -> option Z;  (* [after(&t.with_timezone(&tz)).next()] *)
}.

Class CronLaws `{Cron} := {
  (* [after] yields instants strictly later than the one given *)
  schedule_after_later : forall s tz t n, schedule_after s tz t = Some n -> t < n;
  schedule_after_range : forall s tz t n, schedule_after s tz t = Some n -> dt_min <= n <= dt_max;
}.

(** ** Lemmas *)

Section chrono_lemmas.
Context `{ChronoLaws}.

Lemma td_seconds_Done n d :
  td_seconds n = Done d <-> d = n * ns /\ - td_max <= n * ns <= td_max.
Proof.
  unfold td_seconds. destruct (_ && _) eqn:E.
  - bool_to_prop. naive_solver.
  - split; [done|]. intros [-> ?].
    apply andb_false_iff in E as [E|E]; bool_to_prop; lia.
Qed.

Lemma td_seconds_panic n : i64_max < n * 1000 -> td_seconds n = Panic.
Proof.
  intros Hn. unfold td_seconds. destruct (_ && _) eqn:E; [|done]. bool_to_prop.
  rewrite td_max_value in *. unfold ns in *. lia.
Qed.

Lemma dt_add_Done t d v : dt_add t d = Done v <-> v = t + d /\ dt_min <= t + d <= dt_max.
Proof.
  unfold dt_add, dt_in_range. destruct (_ && _) eqn:E.
  - bool_to_prop. naive_solver.
  - split; [done|]. intros [-> ?].
    apply andb_false_iff in E as [E|E]; bool_to_prop; lia.
Qed.

Lemma to_rfc3339_inj a b : text_ok a -> text_ok b -> to_rfc3339 a = to_rfc3339 b -> a = b.
Proof.
  intros Ha Hb E. apply (f_equal parse_from_rfc3339) in E.
  rewrite !parse_to_rfc3339 in E by done. congruence.
Qed.

Lemma rfc3339_leb a b :
  text_ok a -> text_ok b -> str_leb (to_rfc3339 a) (to_rfc3339 b) = (a <=? b).
Proof. intros. unfold str_leb. rewrite rfc3339_order by done. by rewrite Z.leb_antisym. Qed.

End chrono_lemmas.

(** ** A concrete instance

    Fixed-width decimal text for instants, an hourly schedule, UTC only. It stands for
    the crates in witnesses; nothing is proved of the program from its particulars. *)
Module SampleChrono.

Fixpoint fixed_width (n : nat) (v : Z) : str :=
  match n with
  | O => []
  | S n' => fixed_width n' (v / 10) ++ [48 + v mod 10]
  end.

Lemma fixed_width_length n v : length (fixed_width n v) = n.
Proof. revert v. induction n as [|n IH]; intros v; simpl; [done|]. rewrite length_app, IH; simpl. lia. Qed.

Lemma str_ltb_snoc a b c d :
  length a = length b ->
  str_ltb (a ++ [c]) (b ++ [d]) = if decide (a = b) then c <? d else str_ltb a b.
Proof.
  revert b. induction a as [|x a IH]; intros [|y b] Hl; simplify_eq/=.
  - destruct (Z.eqb_spec c d); [subst; by rewrite Z.ltb_irrefl|done].
  - rewrite IH by done. destruct (Z.eqb_spec x y) as [->|Hne].
    + repeat case_decide; simplify_eq; done.
    + rewrite decide_False by congruence. done.
Qed.

Lemma fixed_width_inj n a b :
  0 <= a < 10 ^ Z.of_nat n -> 0 <= b < 10 ^ Z.of_nat n ->
  fixed_width n a = fixed_width n b -> a = b.
Proof.
  revert a b. induction n as [|n IH]; intros a b Ha Hb E; [simpl in *; lia|].
  rewrite Nat2Z.inj_succ, Z.pow_succ_r in Ha, Hb by lia. simpl in E.
  apply app_inj_2 in E as [E1 E2]; [|done]. simplify_eq.
  apply IH in E1; Z.to_euclidean_division_equations; lia.
Qed.

Lemma fixed_width_order n a b :
  0 <= a < 10 ^ Z.of_nat n -> 0 <= b < 10 ^ Z.of_nat n ->
  str_ltb (fixed_width n a) (fixed_width n b) = (a <? b).
Proof.
  revert a b. induction n as [|n IH]; intros a b Ha Hb; simpl.
  { simpl in *. symmetry. apply Z.ltb_ge. lia. }
  rewrite Nat2Z.inj_succ, Z.pow_succ_r in Ha, Hb by lia.
  assert (0 <= a / 10 < 10 ^ Z.of_nat n /\ 0 <= b / 10 < 10 ^ Z.of_nat n) as [Ha' Hb']
    by (Z.to_euclidean_division_equations; lia).
  rewrite str_ltb_snoc by by rewrite !fixed_width_length.
  apply eq_true_iff_eq. case_decide as E.
  - apply fixed_width_inj in E; [|done|done].
    rewrite !Z.ltb_lt. Z.to_euclidean_division_equations; lia.
  - rewrite IH, !Z.ltb_lt by done. assert (a / 10 <> b / 10) by congruence.
    Z.to_euclidean_division_equations; lia.
Qed.

Definition width : nat := 21.

Definition print (t : Z) : str :=
  if decide (text_ok t) then fixed_width width (t - text_min) else lit "out-of-range".
Definition read (s : str) : option Z :=
  v ← parse_digits s;
  if decide (text_ok (v + text_min)) then Some (v + text_min) else None.

#[export] Instance sample_chrono : Chrono := {|
  dt_min := text_min;
  dt_max := text_max;
  td_max := i64_max * 1000000;
  to_rfc3339 := print;
  parse_from_rfc3339 := read;
  Tz := unit;
  utc := tt;
  tz_parse s := if decide (s = lit "UTC") then Some tt else None;
  tz_name _ := lit "UTC";
  format_at t _ := show_Z t;
  format_utc t := show_Z t;
|}.

Lemma fixed_width_digits n v :
  0 <= v < 10 ^ Z.of_nat n ->
  forallb is_ascii_digit (fixed_width n v) = true /\ digits_val (fixed_width n v) = v.
Proof.
  revert v. induction n as [|n IH]; intros v Hv; simpl; [simpl in *; split; [done|]; cbn; lia|].
  rewrite Nat2Z.inj_succ, Z.pow_succ_r in Hv by lia.
  destruct (IH (v / 10)) as [Hd Hv']; [Z.to_euclidean_division_equations; lia|].
  rewrite forallb_app, digits_val_app, Hd, Hv'; simpl.
  unfold is_ascii_digit, digits_val, digit_val; simpl.
  pose proof (Z.mod_pos_bound v 10 ltac:(lia)). pose proof (Z.div_mod v 10 ltac:(lia)).
  split; [|lia]. rewrite !andb_true_iff, !Z.leb_le. lia.
Qed.

Lemma text_ok_width t : text_ok t -> 0 <= t - text_min < 10 ^ Z.of_nat width.
Proof. unfold text_ok, text_min, text_max, width, ns. simpl. lia. Qed.

#[export] Instance sample_chrono_laws : ChronoLaws.
Proof.
  split.
  - done.
  - simpl. unfold text_min, text_max, ns. lia.
  - intros t Ht. simpl. unfold print, read. rewrite decide_True by done.
    destruct (fixed_width_digits width (t - text_min)) as [Hd Hv]; [by apply text_ok_width|].
    unfold parse_digits. rewrite Hd, Hv. simpl.
    destruct (fixed_width width (t - text_min)) as [|c s] eqn:E.
    + apply (f_equal length) in E. by rewrite fixed_width_length in E.
    + simpl. replace (t - text_min + text_min) with t by lia. by rewrite decide_True.
  - intros a b Ha Hb. simpl. unfold print. rewrite !decide_True by done.
    rewrite fixed_width_order by by apply text_ok_width.
    apply eq_true_iff_eq. rewrite !Z.ltb_lt. lia.
  - intros t. simpl. unfold print. case_decide; [|done].
    intros E. apply (f_equal length) in E. by rewrite fixed_width_length in E.
  - by intros s [].
  - done.
  - done.
  - done.
Qed.

(** Every full hour, in any zone. *)
Definition next_hour (t : Z) : option Z :=
  let n := (t / (3600 * ns) + 1) * (3600 * ns) in
  if (text_min <=? n) && (n <=? text_max) then Some n else None.

#[export] Instance sample_cron : Cron := {|
  Schedule := unit;
  schedule_from_str s :=
    if decide (s = lit "0 0 * * * *") then Ok tt else Err (lit "unsupported expression");
  schedule_after _ _ t := next_hour t;
|}.

#[export] Instance sample_cron_laws : CronLaws.
Proof.
  split; simpl; unfold next_hour; intros _ _ t n H; case_match; simplify_eq; bool_to_prop.
  - unfold ns in *. Z.to_euclidean_division_equations; lia.
  - done.
Qed.

End SampleChrono.
