(* ===== verification/Elevate.v ===== *)
(** * Elevate: [src/elevate.rs], the short-lived elevation of a session

    The mutex-protected map as explicit state, with the reading of the monotonic clock as
    an argument of each operation. The specification is the history: the last grant of a
    handle that no revocation followed. *)
From S2P Require Import Prelude Text Chrono.
#[local] Open Scope Z_scope.

Definition ELEVATION_TTL_SECS : Z := 900.

Abbreviation Grants := (gmap str (Z * Z)).

Record Elevations := mk_Elevations {
  granted : Grants;
  ttl_secs : Z;
}.

Definition elev_new (ttl_secs : Z) : Elevations := {| granted := ∅; ttl_secs := ttl_secs |}.

(** [Instant::elapsed().as_secs()] at [now]; the elapsed time saturates at zero. *)
Definition elapsed_secs (at_ now : Z) : Z := Z.max 0 (now - at_) / ns.

Definition grant (now : Z) (handle : str) (user_id : Z) (e : Elevations) : Elevations :=
  let ttl := ttl_secs e in
  {| granted := <[handle := (user_id, now)]>
       (filter (fun kv : str * (Z * Z) => elapsed_secs kv.2.2 now < ttl) (granted e));
     ttl_secs := ttl |}.

Definition remaining_secs (now : Z) (handle : str) (e : Elevations) : option Z :=
  '(_, at_) ← granted e !! handle;
  let elapsed := elapsed_secs at_ now in
  if (elapsed <=? ttl_secs e) && (0 <? ttl_secs e - elapsed) then Some (ttl_secs e - elapsed)
  else None.

Definition revoke (handle : str) (e : Elevations) : Elevations :=
  {| granted := delete handle (granted e); ttl_secs := ttl_secs e |}.

Definition revoke_user (user_id : Z) (keep : option str) (e : Elevations) : Elevations :=
  {| granted := filter (fun kv : str * (Z * Z) => kv.2.1 <> user_id \/ keep = Some kv.1) (granted e);
     ttl_secs := ttl_secs e |}.

(** ** The history *)

Inductive Op : Type :=
| OpGrant (handle : str) (user_id : Z)
| OpRevoke (handle : str)
| OpRevokeUser (user_id : Z) (keep : option str).

Definition apply_op (e : Elevations) (top : Z * Op) : Elevations :=
  match top.2 with
  | OpGrant h u => grant top.1 h u e
  | OpRevoke h => revoke h e
  | OpRevokeUser u keep => revoke_user u keep e
  end.

Definition run (ttl : Z) (ops : list (Z * Op)) : Elevations := fold_left apply_op ops (elev_new ttl).

(** The last grant of [h] that no revocation followed: who was granted it, and when. *)
Definition window_step (h : str) (w : option (Z * Z)) (top : Z * Op) : option (Z * Z) :=
  match top.2 with
  | OpGrant h' u => if decide (h' = h) then Some (u, top.1) else w
  | OpRevoke h' => if decide (h' = h) then None else w
  | OpRevokeUser u keep =>
      match w with
      | Some (u', t) => if decide (u' <> u \/ keep = Some h) then w else None
      | None => None
      end
  end.
Definition window (h : str) (ops : list (Z * Op)) : option (Z * Z) :=
  fold_left (window_step h) ops None.

(** The clock never goes back, and [now] is not before any operation. *)
Definition monotone (ops : list (Z * Op)) (now : Z) : Prop :=
  StronglySorted Z.le (ops.*1 ++ [now]).

(** ** Lemmas *)

Lemma run_snoc ttl ops top : run ttl (ops ++ [top]) = apply_op (run ttl ops) top.
Proof. unfold run. by rewrite fold_left_app. Qed.

Lemma window_snoc h ops top : window h (ops ++ [top]) = window_step h (window h ops) top.
Proof. unfold window. by rewrite fold_left_app. Qed.

Lemma run_ttl ttl ops : ttl_secs (run ttl ops) = ttl.
Proof.
  induction ops as [|[t op] ops IH] using rev_ind; [done|].
  rewrite run_snoc. destruct op; simpl; done.
Qed.

Lemma elapsed_secs_mono a n n' : n <= n' -> elapsed_secs a n <= elapsed_secs a n'.
Proof. intros. unfold elapsed_secs. apply Z.div_le_mono; unfold ns; lia. Qed.

Lemma StronglySorted_snoc_inv (l : list Z) x :
  StronglySorted Z.le (l ++ [x]) -> StronglySorted Z.le l /\ Forall (fun y => y <= x) l.
Proof.
  intros H. apply StronglySorted_app in H as (Hx & H1 & _). split; [done|].
  apply Forall_forall. intros y Hy. apply Hx; [done|]. by apply list_elem_of_singleton.
Qed.

(** The map holds the windows of the history, less some that have expired. *)
Definition tracks (ttl now : Z) (h : str) (held win : option (Z * Z)) : Prop :=
  held = win \/ (held = None /\ exists u t, win = Some (u, t) /\ ttl <= elapsed_secs t now).

Lemma tracks_step ttl t0 t h held win (e : Elevations) op :
  t0 <= t -> ttl_secs e = ttl -> held = granted e !! h -> tracks ttl t0 h held win ->
  tracks ttl t h (granted (apply_op e (t, op)) !! h) (window_step h win (t, op)).
Proof.
  intros Ht Ettl -> Htr.
  assert (tracks ttl t h (granted e !! h) win) as Htr'.
  { destruct Htr as [->|(-> & u & s & -> & Hs)]; [by left|right]. split; [done|].
    exists u, s. split; [done|]. pose proof (elapsed_secs_mono s t0 t Ht). lia. }
  clear Htr. destruct op as [h' u|h'|u keep]; unfold window_step; simpl.
  - case_decide as Eh; [subst h'; left; by rewrite lookup_insert_eq|].
    rewrite lookup_insert_ne by done.
    destruct (granted e !! h) as [[u0 s0]|] eqn:E.
    + destruct Htr' as [<-|(? & _)]; [|done]. rewrite Ettl.
      destruct (decide (elapsed_secs s0 t < ttl)) as [Hl|Hl].
      * left. by apply map_lookup_filter_Some.
      * right. split; [|exists u0, s0; split; [done|lia]].
        apply map_lookup_filter_None. right. intros x Hx. rewrite E in Hx. by simplify_eq.
    + destruct Htr' as [<-|(_ & Hw)].
      * left. apply map_lookup_filter_None. by left.
      * right. split; [|done]. apply map_lookup_filter_None. by left.
  - case_decide as Eh; [subst h'; left; by rewrite lookup_delete_eq|].
    by rewrite lookup_delete_ne.
  - destruct (granted e !! h) as [[u0 s0]|] eqn:E.
    + destruct Htr' as [<-|(? & _)]; [|done]. left. case_decide as Eu.
      * by apply map_lookup_filter_Some.
      * apply map_lookup_filter_None. right. intros x Hx. rewrite E in Hx. by simplify_eq.
    + assert (filter (fun kv : str * (Z * Z) => kv.2.1 <> u \/ keep = Some kv.1) (granted e) !! h
              = None) as ->.
      { apply map_lookup_filter_None. by left. }
      destruct Htr' as [<-|(_ & u' & t' & -> & Hs)]; [by left|].
      case_decide; [right; split; [done|eauto]|by left].
Qed.

Lemma run_tracks ttl ops now h :
  monotone ops now -> tracks ttl now h (granted (run ttl ops) !! h) (window h ops).
Proof.
  revert now. induction ops as [|[t op] ops IH] using rev_ind; intros now Hm; [by left|].
  unfold monotone in Hm. rewrite fmap_app in Hm. apply StronglySorted_snoc_inv in Hm as [Hm Hle].
  rewrite run_snoc, window_snoc. 
  assert (t <= now) as Ht.
  { rewrite Forall_forall in Hle. apply Hle, elem_of_app. right. by apply list_elem_of_singleton. }
  pose proof (tracks_step ttl t t h _ _ (run ttl ops) op (Z.le_refl t) (run_ttl ttl ops) eq_refl
    (IH t Hm)) as Hs.
  destruct Hs as [->|(-> & u & s & -> & Hs)]; [by left|right]. split; [done|].
  exists u, s. split; [done|]. pose proof (elapsed_secs_mono s t now Ht). lia.
Qed.

(** C27: after any sequence of grants and revocations at non-decreasing times, a handle
    is elevated exactly when the last grant of it that no revocation of the handle or of
    its user followed is younger than the time to live, and the seconds left are the
    rest of that window: the sweep of expired entries is unobservable, a grant restarts
    the window, and one session's window never elevates another. *)
Theorem remaining_secs_history ttl ops now h :
  monotone ops now ->
  remaining_secs now h (run ttl ops) =
    match window h ops with
    | Some (_, t) => let left := ttl - elapsed_secs t now in if 0 <? left then Some left else None
    | None => None
    end.
Proof.
  intros Hm. pose proof (run_tracks ttl ops now h Hm) as Ht.
  unfold remaining_secs. rewrite run_ttl.
  destruct Ht as [->|(-> & u & t & -> & Ht)].
  - destruct (window h ops) as [[u t]|]; simpl; [|done].
    destruct (Z.ltb_spec 0 (ttl - elapsed_secs t now)); rewrite ?andb_false_r; [|done].
    by rewrite (proj2 (Z.leb_le _ _)) by lia.
  - simpl. by rewrite (proj2 (Z.ltb_ge _ _)) by lia.
Qed.

Lemma remaining_secs_history_witness :
  remaining_secs (100 * ns) (lit "a")
    (run 900 [(0, OpGrant (lit "a") 1); (1, OpGrant (lit "b") 1);
              (2, OpRevokeUser 1 (Some (lit "a")))]) = Some 800 /\
  remaining_secs (100 * ns) (lit "b")
    (run 900 [(0, OpGrant (lit "a") 1); (1, OpGrant (lit "b") 1);
              (2, OpRevokeUser 1 (Some (lit "a")))]) = None.
Proof.
  assert (monotone [(0, OpGrant (lit "a") 1); (1, OpGrant (lit "b") 1);
              (2, OpRevokeUser 1 (Some (lit "a")))] (100 * ns)) as Hm.
  { unfold monotone. simpl. unfold ns. repeat constructor; lia. }
  split; rewrite (remaining_secs_history _ _ _ _ Hm); reflexivity.
Defined.
