(* ===== verification/Auth.v ===== *)
(** * Auth: [src/auth.rs], sessions' lifetime, trusted proxies, passwords

    Addresses are [IpAddr]; their textual forms, the argon2 password hash and the header
    map are outside the repository. A header value is its [to_str], [None] when it is not
    visible ASCII. *)
From S2P Require Import Prelude Text Models Config Secret Chrono.
#[local] Open Scope Z_scope.
#[local] Open Scope pw_scope.

(** ** Session lifetime *)

Definition SESSION_COOKIE_BASE : str := lit "pingward_session".
Definition SESSION_COOKIE_HOST_PREFIXED : str := lit "__Host-pingward_session".
Definition session_cookie_name (cookie_secure : bool) : str :=
  if cookie_secure then SESSION_COOKIE_HOST_PREFIXED else SESSION_COOKIE_BASE.

Definition SESSION_IDLE_TTL_HOURS : Z := 72.
Definition SESSION_ABSOLUTE_MAX_DAYS : Z := 30.

Inductive RenewalKind : Set := RK_Slid | RK_Clamped.
Definition RenewalKind_as_str (k : RenewalKind) : str :=
  match k with RK_Slid => lit "slid" | RK_Clamped => lit "clamped" end.

Record SessionRenewal := mk_SessionRenewal {
  sn_expires_at : Z;
  sn_kind : RenewalKind;
}.

Section lifetime.
Context `{Chrono}.

Definition absolute_cap (created_at : option Z) : exec (option Z) :=
  match created_at with
  | Some c => let* cap := dt_add c (days SESSION_ABSOLUTE_MAX_DAYS) in Done (Some cap)
  | None => Done None
  end.

Definition is_past_absolute_cap (created_at : option Z) (now : Z) : exec bool :=
  let* cap := absolute_cap created_at in
  Done (match cap with Some cap => cap <=? now | None => false end).

Definition refreshed_expiry (created_at : option Z) (expires_at now : Z)
  : exec (option SessionRenewal) :=
  let idle := hours SESSION_IDLE_TTL_HOURS in
  let* cap := absolute_cap created_at in
  if match cap with Some cap => cap <=? expires_at | None => false end then Done None else
  let* slide := dt_add now idle in
  let next := match cap with Some cap => Z.min slide cap | None => slide end in
  if next <? expires_at then Done (Some (mk_SessionRenewal next RK_Clamped))
  else if Z.quot idle 2 <=? expires_at - now then Done None
  else Done (Some (mk_SessionRenewal next RK_Slid)).

End lifetime.

(** ** Log identifiers *)

Definition LOG_USERNAME_MAX_CHARS : nat := 64.
Definition log_username (raw : str) : str :=
  let out := take LOG_USERNAME_MAX_CHARS raw in
  if (length out <? length raw)%nat then out ++ lit "…" else out.

Definition session_log_handle `{Crypto} (session_id : str) : exec str :=
  slice_to 16 (hash_api_key session_id).

(** ** Trusted proxies *)

Inductive IpAddr : Type :=
| V4 (octets : list Z)
| V6 (octets : list Z).
#[export] Instance IpAddr_eq_dec : EqDecision IpAddr.
Proof. solve_decision. Defined.
#[export] Instance IpAddr_countable : Countable IpAddr.
Proof.
  apply (inj_countable' (fun ip => match ip with V4 o => inl o | V6 o => inr o end)
    (fun s => match s with inl o => V4 o | inr o => V6 o end)).
  by intros [].
Defined.

(** [IpAddr::to_canonical]: [::ffff:a.b.c.d] is the IPv4 address. *)
Definition to_canonical (ip : IpAddr) : IpAddr :=
  match ip with
  | V4 _ => ip
  | V6 o => if bool_decide (take 12 o = [0; 0; 0; 0; 0; 0; 0; 0; 0; 0; 255; 255])
            then V4 (drop 12 o) else ip
  end.

Class IpText := {
  parse_ip : str -> option IpAddr;     (* [str::parse::<IpAddr>] *)
  show_ip : IpAddr -> str;             (* [Display] *)
}.

(** [a[..whole] != b[..whole]], then the bits of the next octet above the mask. *)
Definition prefix_eq (a b : list Z) (prefix max : Z) : bool :=
  if max <? prefix then false else
  let whole := Z.to_nat (prefix / 8) in
  if bool_decide (take whole a <> take whole b) then false else
  let rest := prefix mod 8 in
  if rest =? 0 then true else
  let mask := Z.shiftl 255 (8 - rest) mod 256 in
  Z.land (nth whole a 0) mask =? Z.land (nth whole b 0) mask.

(** [parse::<u8>]. *)
Definition parse_u8 : str -> option Z := parse_unsigned 255.

(** Header lines in order: a name and the value's [to_str]. *)
Abbreviation HeaderMap := (list (str * option str)).

Section proxies.
Context `{IpText}.

Definition proxy_pattern_matches (pattern : str) (ip : IpAddr) : bool :=
  let pattern := trim pattern in
  match split_once (chr "/") pattern with
  | None => match parse_ip pattern with
            | Some p => bool_decide (to_canonical p = ip)
            | None => false
            end
  | Some (net, prefix) =>
      match parse_ip (trim net), parse_u8 (trim prefix) with
      | Some net, Some prefix =>
          match net, ip with
          | V4 net, V4 ip => prefix_eq net ip prefix 32
          | V6 net, V6 ip => prefix_eq net ip prefix 128
          | _, _ => false
          end
      | _, _ => false
      end
  end.

Definition is_trusted_proxy (patterns : list str) (ip : IpAddr) : bool :=
  let ip := to_canonical ip in
  existsb (fun p => proxy_pattern_matches p ip) patterns.

Definition header_get (headers : HeaderMap) (name : str) : option (option str) :=
  snd <$> List.find (fun h => eq_ignore_ascii_case h.1 name) headers.
Definition header_last (headers : HeaderMap) (name : str) : option (option str) :=
  header_get (rev headers) name.

Definition forward_auth_username (headers : HeaderMap) (peer_ip : option IpAddr) (config : Config)
  : option str :=
  header_name ← cf_forward_auth_header config;
  peer ← peer_ip;
  if negb (is_trusted_proxy (cf_trusted_proxies config) peer) then None
  else non_empty (mjoin (header_get headers header_name)).

Definition client_ip (headers : HeaderMap) (peer_ip : option IpAddr) (config : Config) : option str :=
  peer ← peer_ip;
  let peer := to_canonical peer in
  if negb (is_trusted_proxy (cf_trusted_proxies config) peer) then Some (show_ip peer)
  else
    let forwarded :=
      v ← mjoin (header_get headers (lit "x-forwarded-for"));
      s ← non_empty (trim <$> head (split_on (chr ",") v));
      parse_ip s in
    Some (match forwarded with Some ip => show_ip (to_canonical ip) | None => show_ip peer end).

(** [rate_limit_key] of [src/ratelimit.rs]. *)
Definition localhost : IpAddr := V4 [127; 0; 0; 1].
Definition rate_limit_key (peer : option IpAddr) (headers : HeaderMap) (trusted_proxies : list str)
  : IpAddr :=
  match peer with
  | None => localhost
  | Some peer =>
      let peer := to_canonical peer in
      if is_trusted_proxy trusted_proxies peer then
        match raw ← mjoin (header_last headers (lit "x-forwarded-for"));
              l ← last (split_on (chr ",") raw); parse_ip (trim l) with
        | Some ip => to_canonical ip
        | None => peer
        end
      else peer
  end.

End proxies.

(** ** Passwords *)

Definition MIN_PASSWORD_CHARS : Z := 15.
Definition MAX_PASSWORD_CHARS : Z := 128.

Definition validate_password (plain : str) : res str unit :=
  let len := Z.of_nat (length plain) in
  if len <? MIN_PASSWORD_CHARS then
    Err (lit "Password must be at least " ++ show_Z MIN_PASSWORD_CHARS ++ lit " characters.")
  else if MAX_PASSWORD_CHARS <? len then
    Err (lit "Password must be at most " ++ show_Z MAX_PASSWORD_CHARS ++ lit " characters.")
  else Ok tt.

Class Argon2 := {
  hash_password : str -> res str str;          (* with a fresh salt: the PHC text, or an error *)
  verify_password : str -> str -> bool;        (* password, PHC text *)
  dummy_password_hash : str;
}.

(** One verification is spent either way: the number of them is part of the result. *)
Definition verify_password_or_dummy `{Argon2} (plain : str) (stored : option str) : bool * nat :=
  match stored with
  | Some phc => (verify_password plain phc, 1%nat)
  | None => let _ := verify_password plain dummy_password_hash in (false, 1%nat)
  end.

(** ** Lemmas and theorems *)

(** Bit [i] of an address, from the most significant bit of its first octet. *)
Definition addr_bit (a : list Z) (i : Z) : bool :=
  Z.testbit (nth (Z.to_nat (i / 8)) a 0) (7 - i mod 8).

Lemma octet_eq_bits x y :
  0 <= x < 256 -> 0 <= y < 256 ->
  (forall j, 0 <= j < 8 -> Z.testbit x j = Z.testbit y j) -> x = y.
Proof.
  intros Hx Hy Hj. apply Z.bits_inj'. intros n Hn. destruct (Z.lt_ge_cases n 8); [by apply Hj|].
  assert (forall z, 0 <= z < 256 -> Z.testbit z n = false) as Hhigh; [|by rewrite !Hhigh].
  intros z Hz. destruct (Z.eq_dec z 0) as [->|]; [apply Z.bits_0|].
  apply Z.bits_above_log2; [lia|]. apply Z.lt_le_trans with 8; [|done].
  apply Z.log2_lt_pow2; simpl; lia.
Qed.

Lemma mask_bits rest j :
  0 < rest < 8 -> 0 <= j ->
  Z.testbit (Z.shiftl 255 (8 - rest) mod 256) j = (8 - rest <=? j) && (j <? 8).
Proof.
  intros Hr Hj. change 256 with (2 ^ 8).
  destruct (Z.ltb_spec j 8).
  - rewrite Z.mod_pow2_bits_low, Z.shiftl_spec by lia. rewrite andb_true_r.
    destruct (Z.leb_spec (8 - rest) j).
    + change 255 with (Z.ones 8). apply Z.ones_spec_low. lia.
    + apply Z.testbit_neg_r. lia.
  - rewrite Z.mod_pow2_bits_high by lia. by rewrite andb_false_r.
Qed.

Lemma take_eq_nth (a b : list Z) n :
  length a = length b ->
  take n a = take n b <-> forall k, (k < n)%nat -> nth k a 0 = nth k b 0.
Proof.
  revert b n. induction a as [|x a IH]; intros [|y b] [|n] Hl; simplify_eq/=.
  - split; [intros _ k Hk; lia|done].
  - done.
  - split; [intros _ k Hk; lia|done].
  - split.
    + intros [= -> Ht] [|k] Hk; [done|]. apply (IH b n); [done|done|lia].
    + intros Hk. rewrite (Hk 0%nat ltac:(lia)). f_equal. apply IH; [done|].
      intros k Hk'. apply (Hk (S k)). lia.
Qed.

Lemma nth_octet (c : list Z) k : Forall (fun x => 0 <= x < 256) c -> 0 <= nth k c 0 < 256.
Proof.
  intros Hc. destruct (Nat.lt_ge_cases k (length c)) as [Hk|Hk].
  - rewrite Forall_forall in Hc. apply Hc, list_elem_of_In, nth_In, Hk.
  - rewrite nth_overflow by lia. lia.
Qed.

(** Bit [j] of octet [k], by its position in the address. *)
Lemma addr_bit_octet (c : list Z) (k : nat) j :
  0 <= j < 8 -> addr_bit c (8 * Z.of_nat k + (7 - j)) = Z.testbit (nth k c 0) j.
Proof.
  intros Hj. unfold addr_bit.
  rewrite (Z.mul_comm 8), Z.div_add_l, (Z.div_small (7 - j)), Z.add_0_r, Nat2Z.id by lia.
  rewrite (Z.add_comm (_ * 8)), Z.mod_add, Z.mod_small by lia. f_equal. lia.
Qed.

Lemma whole_octets_bits (a b : list Z) k :
  length a = length b -> Forall (fun x => 0 <= x < 256) a -> Forall (fun x => 0 <= x < 256) b -> 0 <= k ->
  take (Z.to_nat k) a = take (Z.to_nat k) b <->
  forall i, 0 <= i < 8 * k -> addr_bit a i = addr_bit b i.
Proof.
  intros Hl Ha Hb Hk0. rewrite take_eq_nth by done. split.
  - intros Hk i Hi. unfold addr_bit. rewrite (Hk (Z.to_nat (i / 8))); [done|].
    Z.to_euclidean_division_equations; lia.
  - intros Hi k' Hk. apply octet_eq_bits; [by apply nth_octet..|]. intros j Hj.
    rewrite <- !addr_bit_octet by done. apply Hi. lia.
Qed.

(** The octet the prefix ends in, masked. *)
Lemma partial_octet_bits (a b : list Z) k rest :
  0 <= k -> 0 < rest < 8 ->
  Z.land (nth (Z.to_nat k) a 0) (Z.shiftl 255 (8 - rest) mod 256) =
  Z.land (nth (Z.to_nat k) b 0) (Z.shiftl 255 (8 - rest) mod 256) <->
  forall i, 8 * k <= i < 8 * k + rest -> addr_bit a i = addr_bit b i.
Proof.
  intros Hk Hr. split.
  - intros E i Hi. apply (f_equal (fun z => Z.testbit z (7 - (i - 8 * k)))) in E.
    rewrite !Z.land_spec, !mask_bits in E by lia.
    rewrite (proj2 (Z.leb_le _ _)), (proj2 (Z.ltb_lt _ _)), !andb_true_r in E by lia.
    rewrite <- !addr_bit_octet in E by lia. rewrite Z2Nat.id in E by lia.
    by replace (8 * k + (7 - (7 - (i - 8 * k)))) with i in E by lia.
  - intros Hi. apply Z.bits_inj'. intros j Hj. rewrite !Z.land_spec, mask_bits by lia.
    destruct (Z.leb_spec (8 - rest) j), (Z.ltb_spec j 8); rewrite ?andb_false_r; try done.
    rewrite <- !addr_bit_octet by lia. rewrite Z2Nat.id, Hi by lia. done.
Qed.

(** A CIDR prefix compares exactly the leading bits. For two addresses of the same
    family [prefix_eq] holds if and only if the prefix is at most the width and the
    addresses agree on each of their first [prefix] bits; so [/0] matches every address,
    and [/32] or [/128] only the same one. *)
Theorem prefix_eq_leading_bits a b prefix n :
  length a = n -> length b = n ->
  Forall (fun x => 0 <= x < 256) a -> Forall (fun x => 0 <= x < 256) b -> 0 <= prefix ->
  prefix_eq a b prefix (8 * Z.of_nat n) = true <->
  prefix <= 8 * Z.of_nat n /\ forall i, 0 <= i < prefix -> addr_bit a i = addr_bit b i.
Proof.
  intros La Lb Ha Hb Hp. unfold prefix_eq.
  destruct (Z.ltb_spec (8 * Z.of_nat n) prefix); [split; [done|lia]|].
  pose proof (Z.mod_pos_bound prefix 8 ltac:(lia)) as Hr.
  pose proof (Z.div_mod prefix 8 ltac:(lia)) as Hdm.
  pose proof (Z.div_pos prefix 8 Hp ltac:(lia)) as Hd.
  pose proof (whole_octets_bits a b (prefix / 8) ltac:(congruence) Ha Hb Hd) as Hwhole.
  case_bool_decide as Et.
  { split; [done|]. intros [_ Hi]. destruct Et. apply Hwhole. intros i Hi'. apply Hi. lia. }
  destruct (decide (take (Z.to_nat (prefix / 8)) a = take (Z.to_nat (prefix / 8)) b)) as [Ew|?]; [|done].
  pose proof (proj1 Hwhole Ew) as Hw.
  destruct (Z.eqb_spec (prefix mod 8) 0) as [E0|E0].
  - split; [|done]. intros _. split; [done|]. intros i Hi. apply Hw. lia.
  - rewrite Z.eqb_eq, partial_octet_bits by lia. split; [|intros [_ Hi] i ?; apply Hi; lia].
    intros Hi. split; [done|]. intros i Hi'.
    destruct (Z.lt_ge_cases i (8 * (prefix / 8))); [apply Hw|apply Hi]; lia.
Qed.

Lemma prefix_eq_leading_bits_witness :
  prefix_eq [192; 168; 1; 7] [192; 168; 3; 9] 22 32 = true.
Proof.
  apply (prefix_eq_leading_bits [192; 168; 1; 7] [192; 168; 3; 9] 22 4); try reflexivity.
  - repeat constructor; discriminate.
  - repeat constructor; discriminate.
  - discriminate.
  - split; [discriminate|]. intros i Hi.
    assert (i ∈ seqZ 0 22) as Hin by (apply elem_of_seqZ; lia). vm_compute in Hin.
    repeat (apply elem_of_cons in Hin as [->|Hin]; [vm_compute; reflexivity|]).
    apply elem_of_nil in Hin. destruct Hin.
Defined.

Section auth_theorems.
Context `{Chrono}.

Lemma absolute_cap_Done created_at cap :
  absolute_cap created_at = Done cap <->
  match created_at with
  | Some c => cap = Some (c + days SESSION_ABSOLUTE_MAX_DAYS) /\
              dt_min <= c + days SESSION_ABSOLUTE_MAX_DAYS <= dt_max
  | None => cap = None
  end.
Proof.
  unfold absolute_cap. destruct created_at as [c|]; [|naive_solver].
  rewrite exec_bind_done. setoid_rewrite dt_add_Done. naive_solver.
Qed.

Lemma idle_half : Z.quot (hours SESSION_IDLE_TTL_HOURS) 2 = hours 36.
Proof. reflexivity. Qed.

Lemma refreshed_limits created_at expires_at now r :
  refreshed_expiry created_at expires_at now = Done r ->
  let idle := hours SESSION_IDLE_TTL_HOURS in
  let within t := match created_at with
                  | Some c => t <= c + days SESSION_ABSOLUTE_MAX_DAYS
                  | None => True end in
  match r with
  | Some n =>
      sn_expires_at n <= now + idle /\ within (sn_expires_at n) /\
      (sn_kind n = RK_Slid -> expires_at <= sn_expires_at n /\ expires_at - now < hours 36) /\
      (sn_kind n = RK_Clamped -> sn_expires_at n < expires_at) /\
      refreshed_expiry created_at (sn_expires_at n) now = Done None
  | None =>
      (expires_at <= now + idle /\ within expires_at /\ hours 36 <= expires_at - now) \/
      match created_at with
      | Some c => c + days SESSION_ABSOLUTE_MAX_DAYS <= expires_at
      | None => False
      end
  end.
Proof.
  intros E idle within. unfold refreshed_expiry in E.
  apply exec_bind_done in E as (cap & Hcap & E).
  destruct (match cap with Some cap => cap <=? expires_at | None => false end) eqn:Ecap.
  { simplify_eq. right. apply absolute_cap_Done in Hcap. destruct created_at as [c|].
    - destruct Hcap as [-> _]. by bool_to_prop.
    - by simplify_eq. }
  apply exec_bind_done in E as (slide & Hs & E). pose proof Hs as [-> _]%dt_add_Done.
  set (next := match cap with Some cap => Z.min (now + idle) cap | None => now + idle end).
  fold idle in E, Hs. fold next in E.
  assert (next <= now + idle) as Hn1 by (subst next; destruct cap; lia).
  assert (within next) as Hn2.
  { apply absolute_cap_Done in Hcap. subst next within. destruct created_at as [c|]; [|done].
    destruct Hcap as [-> _]. cbv beta. lia. }
  assert (forall t, within t -> match cap with Some cap => t <= cap | None => True end) as Hwithin.
  { intros t Ht. apply absolute_cap_Done in Hcap. destruct created_at; [|by subst].
    by destruct Hcap as [-> _]. }
  assert (Z.quot idle 2 = hours 36) as Hhalf by apply idle_half. rewrite Hhalf in E.
  assert (now + hours 36 <= next -> refreshed_expiry created_at next now = Done None) as Hlong.
  { intros Hl. unfold refreshed_expiry. rewrite Hcap. cbn [exec_bind].
    destruct (match cap with Some cap => cap <=? next | None => false end); [done|].
    fold idle. rewrite Hs. cbn [exec_bind]. fold next. rewrite Z.ltb_irrefl, Hhalf.
    by rewrite (proj2 (Z.leb_le _ _)) by lia. }
  assert (next < now + hours 36 -> refreshed_expiry created_at next now = Done None) as Hshort.
  { intros Hl. unfold refreshed_expiry. rewrite Hcap. cbn [exec_bind].
    destruct cap as [cap|].
    - assert (next = cap) as -> by (subst next idle; unfold hours, SESSION_IDLE_TTL_HOURS, ns in *; lia).
      by rewrite Z.leb_refl.
    - exfalso. subst next idle. unfold hours, SESSION_IDLE_TTL_HOURS, ns in *. lia. }
  assert (refreshed_expiry created_at next now = Done None) as Hidem
    by (destruct (Z.le_gt_cases (now + hours 36) next); auto).
  destruct (Z.ltb_spec next expires_at); [|destruct (Z.leb_spec (hours 36) (expires_at - now))];
    simplify_eq; cbn [sn_expires_at sn_kind].
  - by split_and!.
  - left. split; [lia|]. split; [|done]. subst within. destruct created_at as [c|]; [|done].
    cbv beta in Hn2 |- *. lia.
  - by split_and!.
Qed.

(** C18: renewals respect both limits. Whatever is stored, a renewal never grants more
    than [now] plus the idle window nor anything beyond thirty days from creation; a slide
    never shortens a session and happens only in the second half of its window, a clamp
    only shortens. Without a renewal the stored expiry is itself within both limits, or
    already reaches the cap. After a renewal none is due at the same instant. *)
Theorem refreshed_expiry_limits created_at expires_at now r :
  refreshed_expiry created_at expires_at now = Done r ->
  let idle := hours SESSION_IDLE_TTL_HOURS in
  let within t := match created_at with
                  | Some c => t <= c + days SESSION_ABSOLUTE_MAX_DAYS
                  | None => True end in
  match r with
  | Some n =>
      sn_expires_at n <= now + idle /\ within (sn_expires_at n) /\
      (sn_kind n = RK_Slid -> expires_at <= sn_expires_at n /\ expires_at - now < hours 36) /\
      (sn_kind n = RK_Clamped -> sn_expires_at n < expires_at) /\
      refreshed_expiry created_at (sn_expires_at n) now = Done None
  | None =>
      (expires_at <= now + idle /\ within expires_at /\ hours 36 <= expires_at - now) \/
      match created_at with
      | Some c => c + days SESSION_ABSOLUTE_MAX_DAYS <= expires_at
      | None => False
      end
  end.
Proof. apply refreshed_limits. Qed.

End auth_theorems.

(** Only a trusted proxy's headers count. From any other peer the forward-auth user is
    none, and the recorded address and the rate limiter's key are the peer's own, whatever
    the headers say. Behind a trusted proxy that appends the client to the last
    [X-Forwarded-For] line, nothing before the last comma of that line and no other line
    changes the rate limiter's key. *)
Theorem untrusted_headers_ignored `{IpText} headers headers' peer config proxies prefix hop :
  (is_trusted_proxy (cf_trusted_proxies config) peer = false ->
   is_trusted_proxy (cf_trusted_proxies config) (to_canonical peer) = false ->
     forward_auth_username headers (Some peer) config = None /\
     client_ip headers (Some peer) config = Some (show_ip (to_canonical peer)) /\
     rate_limit_key (Some peer) headers (cf_trusted_proxies config) = to_canonical peer) /\
  forward_auth_username headers None config = None /\
  ((chr "," ∉ hop) ->
     rate_limit_key (Some peer)
       (headers ++ [(lit "x-forwarded-for", Some (prefix ++ lit "," ++ hop))]) proxies =
     rate_limit_key (Some peer) (headers' ++ [(lit "X-Forwarded-For", Some hop)]) proxies).
Proof.
  split; [|split].
  - intros Hu Hc. unfold forward_auth_username, client_ip, rate_limit_key. simpl. rewrite Hu, Hc.
    split; [|done]. by destruct (cf_forward_auth_header config).
  - unfold forward_auth_username. by destruct (cf_forward_auth_header config).
  - intros Hh. unfold rate_limit_key, header_last, header_get. rewrite !rev_app_distr.
    cbn [rev app List.find fst snd fmap option_fmap option_map].
    change (eq_ignore_ascii_case (lit "x-forwarded-for") (lit "x-forwarded-for")) with true.
    change (eq_ignore_ascii_case (lit "X-Forwarded-For") (lit "x-forwarded-for")) with true.
    cbn [fmap option_fmap option_map snd mjoin option_join mbind option_bind].
    assert (last (split_on (chr ",") (prefix ++ chr "," :: hop)) = Some hop) as Hlast.
    { by rewrite split_on_app, (split_on_none _ hop Hh), last_snoc. }
    change (lit "," ++ hop) with (chr "," :: hop). rewrite Hlast, (split_on_none _ hop Hh). done.
Qed.

(** A password is accepted exactly when it has from 15 to 128 characters, counted as
    characters and not as bytes, and nothing else of it matters. *)
Theorem validate_password_exact plain :
  (validate_password plain = Ok tt <-> 15 <= Z.of_nat (length plain) <= 128) /\
  (forall other, length other = length plain -> validate_password other = validate_password plain).
Proof.
  unfold validate_password, MIN_PASSWORD_CHARS, MAX_PASSWORD_CHARS. split.
  - destruct (Z.ltb_spec (Z.of_nat (length plain)) 15); [split; [done|lia]|].
    destruct (Z.ltb_spec 128 (Z.of_nat (length plain))); split; (done || lia).
  - by intros other ->.
Qed.

Lemma refreshed_expiry_limits_witness :
  exists n, refreshed_expiry (H := SampleChrono.sample_chrono) (Some 0) (hours 40) (hours 10)
    = Done (Some n) /\ sn_kind n = RK_Slid /\ sn_expires_at n = hours 82 /\
    sn_expires_at n <= hours 10 + hours SESSION_IDLE_TTL_HOURS.
Proof.
  eexists. split; [vm_compute; reflexivity|]. split; [reflexivity|]. split; [reflexivity|].
  exact (proj1 (@refreshed_expiry_limits SampleChrono.sample_chrono
    (Some 0) (hours 40) (hours 10) (Some (mk_SessionRenewal (hours 82) RK_Slid)) eq_refl)).
Defined.
