(* ===== verification/Db.v ===== *)
(** * Db: the database of [migrations/] and the effects of code that uses it

    One [gmap] per table, keyed by its primary key, with the [AUTOINCREMENT] counter of
    each integer key. Columns are typed as in the schema: timestamps and enumerations are
    TEXT, booleans INTEGER. Code that talks to the database runs in the monad [M], which
    threads a [World]: the tables, the number of statements executed so far, the signals
    sent on the live-tail bus, the tasks spawned and what was sent. Each statement may fail: the
    environment decides which ([env_fault]); a failed statement changes nothing. *)
From S2P Require Import Prelude Text Models Config Wire Chrono.
From S2P Require Ratelimit Elevate Auth.
#[local] Existing Instances Auth.IpAddr_eq_dec Auth.IpAddr_countable.
#[local] Open Scope Z_scope.

(** ** Rows *)

Record UserRow := mk_UserRow {
  ur_username : str;
  ur_password_hash : option str;
  ur_is_admin : Z;
  ur_disabled : Z;
  ur_created_at : str;
}.

Record ProjectRow := mk_ProjectRow {
  pr_user_id : Z;
  pr_name : str;
  pr_description : str;
  pr_scan_interval_secs : option Z;
  pr_nag_interval_secs : option Z;
  pr_created_at : str;
}.

Record CheckRow := mk_CheckRow {
  cr_project_id : Z;
  cr_name : str;
  cr_description : str;
  cr_ping_uuid : str;
  cr_schedule_kind : str;
  cr_period_secs : option Z;
  cr_grace_secs : Z;
  cr_cron_expr : option str;
  cr_timezone : str;
  cr_status : str;
  cr_last_ping_at : option str;
  cr_last_start_at : option str;
  cr_next_due_at : option str;
  cr_scan_interval_secs : option Z;
  cr_max_runtime_secs : option Z;
  cr_nag_interval_secs : option Z;
  cr_last_alert_at : option str;
  cr_acknowledged : Z;
  cr_created_at : str;
}.

Record ChannelRow := mk_ChannelRow {
  chr_project_id : Z;
  chr_kind : str;
  chr_name : str;
  chr_config_json : str;
  chr_created_at : str;
}.

Record PingRow := mk_PingRow {
  pgr_check_id : Z;
  pgr_kind : str;
  pgr_exit_code : option Z;
  pgr_body : str;
  pgr_source_ip : option str;
  pgr_created_at : str;
}.

Record NotificationRow := mk_NotificationRow {
  nr_check_id : Z;
  nr_channel_id : Z;
  nr_event : str;
  nr_status : str;
  nr_error : option str;
  nr_created_at : str;
}.

Record SessionRow := mk_SessionRow {
  sr_user_id : Z;
  sr_expires_at : str;
  sr_created_at : str;
  sr_last_seen_at : option str;
  sr_user_agent : option str;
  sr_ip : option str;
  sr_sso : Z;
}.

Record ApiKeyRow := mk_ApiKeyRow {
  kr_user_id : Z;
  kr_name : str;
  kr_token_hash : str;
  kr_prefix : str;
  kr_created_at : str;
  kr_last_used_at : option str;
  kr_expires_at : option str;
}.

Record AuditRow := mk_AuditRow {
  ar_actor_user_id : Z;
  ar_actor_username : str;
  ar_action : str;
  ar_target_type : option str;
  ar_target_id : option Z;
  ar_target_owner_id : option Z;
  ar_method : option str;
  ar_path : option str;
  ar_detail : option str;
  ar_created_at : str;
}.

(** A table with an [INTEGER PRIMARY KEY AUTOINCREMENT]: its rows and the last key given. *)
Record Table (R : Type) := mk_Table {
  t_rows : gmap Z R;
  t_seq : Z;
}.
Arguments mk_Table {R} _ _.
Arguments t_rows {R} _.
Arguments t_seq {R} _.

Definition empty_table {R} : Table R := {| t_rows := ∅; t_seq := 0 |}.

Record Db := mk_Db {
  users : Table UserRow;
  projects : Table ProjectRow;
  checks : Table CheckRow;
  channels : Table ChannelRow;
  check_channels : gset (Z * Z);
  pings : Table PingRow;
  notifications : Table NotificationRow;
  sessions : gmap str SessionRow;
  settings : gmap str str;
  api_keys : Table ApiKeyRow;
  audit_log : Table AuditRow;
}.

Definition empty_db : Db := {|
  users := empty_table; projects := empty_table; checks := empty_table;
  channels := empty_table; check_channels := ∅; pings := empty_table;
  notifications := empty_table; sessions := ∅; settings := ∅;
  api_keys := empty_table; audit_log := empty_table;
|}.

(** Replacing one table. *)
Definition set_users (t : Table UserRow) (d : Db) : Db :=
  mk_Db t (projects d) (checks d) (channels d) (check_channels d) (pings d)
    (notifications d) (sessions d) (settings d) (api_keys d) (audit_log d).
Definition set_projects (t : Table ProjectRow) (d : Db) : Db :=
  mk_Db (users d) t (checks d) (channels d) (check_channels d) (pings d)
    (notifications d) (sessions d) (settings d) (api_keys d) (audit_log d).
Definition set_checks (t : Table CheckRow) (d : Db) : Db :=
  mk_Db (users d) (projects d) t (channels d) (check_channels d) (pings d)
    (notifications d) (sessions d) (settings d) (api_keys d) (audit_log d).
Definition set_channels (t : Table ChannelRow) (d : Db) : Db :=
  mk_Db (users d) (projects d) (checks d) t (check_channels d) (pings d)
    (notifications d) (sessions d) (settings d) (api_keys d) (audit_log d).
Definition set_bindings (t : gset (Z * Z)) (d : Db) : Db :=
  mk_Db (users d) (projects d) (checks d) (channels d) t (pings d)
    (notifications d) (sessions d) (settings d) (api_keys d) (audit_log d).
Definition set_pings (t : Table PingRow) (d : Db) : Db :=
  mk_Db (users d) (projects d) (checks d) (channels d) (check_channels d) t
    (notifications d) (sessions d) (settings d) (api_keys d) (audit_log d).
Definition set_notifications (t : Table NotificationRow) (d : Db) : Db :=
  mk_Db (users d) (projects d) (checks d) (channels d) (check_channels d) (pings d)
    t (sessions d) (settings d) (api_keys d) (audit_log d).
Definition set_sessions (t : gmap str SessionRow) (d : Db) : Db :=
  mk_Db (users d) (projects d) (checks d) (channels d) (check_channels d) (pings d)
    (notifications d) t (settings d) (api_keys d) (audit_log d).
Definition set_settings (t : gmap str str) (d : Db) : Db :=
  mk_Db (users d) (projects d) (checks d) (channels d) (check_channels d) (pings d)
    (notifications d) (sessions d) t (api_keys d) (audit_log d).
Definition set_api_keys (t : Table ApiKeyRow) (d : Db) : Db :=
  mk_Db (users d) (projects d) (checks d) (channels d) (check_channels d) (pings d)
    (notifications d) (sessions d) (settings d) t (audit_log d).
Definition set_audit_log (t : Table AuditRow) (d : Db) : Db :=
  mk_Db (users d) (projects d) (checks d) (channels d) (check_channels d) (pings d)
    (notifications d) (sessions d) (settings d) (api_keys d) t.

(** ** SQL on tables *)

Definition insert_row {R} (r : R) (t : Table R) : Z * Table R :=
  let id := t_seq t + 1 in (id, {| t_rows := <[id := r]> (t_rows t); t_seq := id |}).
Definition insert_rows {R} (rs : list R) (t : Table R) : Table R :=
  fold_left (fun t r => (insert_row r t).2) rs t.
Definition update_row {R} (f : R -> R) (id : Z) (t : Table R) : Table R :=
  {| t_rows := alter f id (t_rows t); t_seq := t_seq t |}.
Definition delete_row {R} (id : Z) (t : Table R) : Table R :=
  {| t_rows := delete id (t_rows t); t_seq := t_seq t |}.
(** [DELETE ... WHERE p]. *)
Definition delete_where {R} (p : Z -> R -> bool) (t : Table R) : Table R :=
  {| t_rows := filter (fun kr : Z * R => p kr.1 kr.2 = false) (t_rows t); t_seq := t_seq t |}.
Definition count_where {R} (p : Z -> R -> bool) (t : Table R) : Z :=
  Z.of_nat (size (filter (fun kr : Z * R => p kr.1 kr.2 = true) (t_rows t))).

Definition key_le {R} (a b : Z * R) : Prop := a.1 <= b.1.
#[export] Instance key_le_dec {R} : RelDecision (@key_le R).
Proof. intros a b. unfold key_le. apply _. Defined.
#[export] Instance key_le_total {R} : Total (@key_le R).
Proof. intros a b. unfold key_le. lia. Qed.
#[export] Instance key_le_trans {R} : Transitive (@key_le R).
Proof. intros a b c. unfold key_le. lia. Qed.

(** The rows in key order: [ORDER BY id], and the scan order where none is asked for. *)
Definition rows {R} (m : gmap Z R) : list (Z * R) := merge_sort key_le (map_to_list m).
Definition select {R} (p : Z -> R -> bool) (t : Table R) : list (Z * R) :=
  List.filter (fun kr => p kr.1 kr.2) (rows (t_rows t)).

Definition find_row {R} (p : Z -> R -> bool) (t : Table R) : option (Z * R) :=
  List.find (fun kr => p kr.1 kr.2) (rows (t_rows t)).

(** ** The effects *)

(** Why a statement failed: the connection or the engine, a violated constraint, or a
    column that does not decode. *)
Inductive DbErr : Set :=
| DE_Failed
| DE_Unique
| DE_ForeignKey
| DE_Check
| DE_Decode.

#[export] Instance DbErr_eq_dec : EqDecision DbErr.
Proof. solve_decision. Defined.

(** What the environment supplies: the readings of the clock, which statements fail, the
    UUIDs drawn, the number of live-tail subscribers, the answers of the network, indexed
    by what was sent before, and the readings of the monotonic clock. *)
Record Env := mk_Env {
  env_now : nat -> Z;
  env_fault : nat -> bool;
  env_uuid : nat -> str;
  env_receivers : Z;
  env_http : nat -> HttpRequest -> res ReqwestError Z;
  env_mail : nat -> Relay -> Email -> res str unit;
  env_instant : nat -> Z;
}.

(** What the process keeps in memory between requests, each behind a mutex. *)
Record Mem := mk_Mem {
  login_limiter : @Ratelimit.Limiter.RateLimiter Auth.IpAddr _ _;
  account_limiter : @Ratelimit.Limiter.RateLimiter str _ _;
  elevations : Elevate.Elevations;
}.

(** [AppState::new], at the instant [now]. *)
Definition mem_new (now : Z) : Mem := {|
  login_limiter := Ratelimit.Limiter.new now Ratelimit.Limiter.MAX_ATTEMPTS
                     Ratelimit.Limiter.WINDOW_SECS;
  account_limiter := Ratelimit.Limiter.new now Ratelimit.Limiter.ACCOUNT_MAX_ATTEMPTS
                       Ratelimit.Limiter.ACCOUNT_WINDOW_SECS;
  elevations := Elevate.elev_new Elevate.ELEVATION_TTL_SECS;
|}.

Record World := mk_World {
  w_db : Db;
  w_stmts : nat;          (* statements executed *)
  w_reads : nat;          (* readings of the clock *)
  w_uuids : nat;          (* UUIDs drawn *)
  w_bus : list Z;         (* check ids sent on [AppState::events] *)
  w_tasks : list Task;    (* background tasks spawned *)
  w_out : list Out;       (* requests, e-mails and pauses, in order *)
  w_mem : Mem;            (* the limiters and the elevations *)
  w_instants : nat;       (* readings of the monotonic clock *)
}.

Definition M (A : Type) : Type := Env -> World -> exec A * World.

Definition mret {A} (a : A) : M A := fun _ w => (Done a, w).
Definition mbind {A B} (m : M A) (k : A -> M B) : M B := fun e w =>
  match m e w with
  | (Done a, w') => k a e w'
  | (Panic, w') => (Panic, w')
  end.
Definition mpanic {A} : M A := fun _ w => (Panic, w).
Definition mexec {A} (x : exec A) : M A := fun _ w => (x, w).
Definition mtry {E A B} (m : M (res E A)) (k : A -> M (res E B)) : M (res E B) :=
  mbind m (fun r => match r with Ok a => k a | Err e => mret (Err e) end).
Definition map_err {E E' A} (f : E -> E') (m : M (res E A)) : M (res E' A) :=
  mbind m (fun r => mret (match r with Ok a => Ok a | Err e => Err (f e) end)).

(** [x ← m] awaits; [let? x := m] awaits and applies [?]. *)
Notation "'do' x ':=' m 'in' k" := (mbind m (fun x => k))
  (at level 10, x pattern, m at level 200, k at level 200, only parsing) : pw_scope.
Notation "'let?' x ':=' m 'in' k" := (mtry m (fun x => k))
  (at level 10, x pattern, m at level 200, k at level 200, only parsing) : pw_scope.
#[local] Open Scope pw_scope.

Definition bump (d : Db) (w : World) : World :=
  mk_World d (S (w_stmts w)) (w_reads w) (w_uuids w) (w_bus w) (w_tasks w) (w_out w)
    (w_mem w) (w_instants w).

(** One statement: it fails, or it runs atomically on the tables. *)
Definition stmt {A} (run : Db -> res DbErr (A * Db)) : M (res DbErr A) := fun e w =>
  if env_fault e (w_stmts w) then (Done (Err DE_Failed), bump (w_db w) w)
  else match run (w_db w) with
       | Ok (a, d) => (Done (Ok a), bump d w)
       | Err x => (Done (Err x), bump (w_db w) w)
       end.

Definition query {A} (q : Db -> res DbErr A) : M (res DbErr A) :=
  stmt (fun d => match q d with Ok a => Ok (a, d) | Err x => Err x end).
Definition execute (u : Db -> Db) : M (res DbErr unit) := stmt (fun d => Ok (tt, u d)).

Definition utc_now : M Z := fun e w =>
  (Done (env_now e (w_reads w)),
   mk_World (w_db w) (w_stmts w) (S (w_reads w)) (w_uuids w) (w_bus w) (w_tasks w) (w_out w)
     (w_mem w) (w_instants w)).
Definition receiver_count : M Z := fun e w => (Done (env_receivers e), w).
Definition new_v4 : M str := fun e w =>
  (Done (env_uuid e (w_uuids w)),
   mk_World (w_db w) (w_stmts w) (w_reads w) (S (w_uuids w)) (w_bus w) (w_tasks w) (w_out w)
     (w_mem w) (w_instants w)).
Definition bus_send (id : Z) : M unit := fun _ w =>
  (Done tt, mk_World (w_db w) (w_stmts w) (w_reads w) (w_uuids w) (w_bus w ++ [id]) (w_tasks w)
              (w_out w) (w_mem w) (w_instants w)).
Definition spawn_task (t : Task) : M unit := fun _ w =>
  (Done tt, mk_World (w_db w) (w_stmts w) (w_reads w) (w_uuids w) (w_bus w) (w_tasks w ++ [t])
              (w_out w) (w_mem w) (w_instants w)).
Definition emit (o : Out) (w : World) : World :=
  mk_World (w_db w) (w_stmts w) (w_reads w) (w_uuids w) (w_bus w) (w_tasks w) (w_out w ++ [o])
    (w_mem w) (w_instants w).
Definition http_send (rq : HttpRequest) : M (res ReqwestError Z) := fun e w =>
  (Done (env_http e (length (w_out w)) rq), emit (Out_Http rq) w).
Definition mail_send (relay : Relay) (m : Email) : M (res str unit) := fun e w =>
  (Done (env_mail e (length (w_out w)) relay m), emit (Out_Mail relay m) w).
Definition sleep (nanos : Z) : M unit := fun _ w => (Done tt, emit (Out_Sleep nanos) w).

(** One locked operation on the process's memory, at one reading of the monotonic clock. *)
Definition on_mem {A} (f : Z -> Mem -> A * Mem) : M A := fun e w =>
  let '(a, m) := f (env_instant e (w_instants w)) (w_mem w) in
  (Done a, mk_World (w_db w) (w_stmts w) (w_reads w) (w_uuids w) (w_bus w) (w_tasks w) (w_out w)
             m (S (w_instants w))).

(** A [for] loop over a list. *)
Fixpoint for_each {A} (l : list A) (f : A -> M unit) : M unit :=
  match l with
  | [] => mret tt
  | x :: l' => mbind (f x) (fun _ => for_each l' f)
  end.

Definition world_of (d : Db) : World := mk_World d 0 0 0 [] [] [] (mem_new 0) 0.

Lemma world_of_db d : w_db (world_of d) = d.
Proof. done. Qed.

(** An environment in which no statement fails. *)
Definition calm (e : Env) : Prop := forall n, env_fault e n = false.
Definition calm_env (now : Z) : Env := {|
  env_now _ := now;
  env_fault _ := false;
  env_uuid n := show_Z (Z.of_nat n);
  env_receivers := 0;
  env_http _ _ := Ok 200;
  env_mail _ _ _ := Ok tt;
  env_instant _ := now;
|}.

Lemma calm_env_calm now : calm (calm_env now).
Proof. done. Qed.
#[export] Hint Resolve calm_env_calm : pw.

(** ** Lemmas *)

Lemma elem_of_rows {R} (m : gmap Z R) i r : (i, r) ∈ rows m <-> m !! i = Some r.
Proof. unfold rows. rewrite merge_sort_Permutation. apply elem_of_map_to_list. Qed.

Lemma rows_NoDup {R} (m : gmap Z R) : NoDup (rows m).*1.
Proof. unfold rows. rewrite merge_sort_Permutation. apply NoDup_fst_map_to_list. Qed.

Lemma rows_sorted {R} (m : gmap Z R) : StronglySorted key_le (rows m).
Proof. unfold rows. apply (StronglySorted_merge_sort key_le). Qed.

Lemma elem_of_select {R} (p : Z -> R -> bool) (t : Table R) i r :
  (i, r) ∈ select p t <-> t_rows t !! i = Some r /\ p i r = true.
Proof.
  unfold select. rewrite list_elem_of_In, filter_In, <- list_elem_of_In, elem_of_rows. done.
Qed.

Lemma sublist_map_filter {A B} (f : A -> B) (p : A -> bool) (l : list A) :
  sublist (map f (List.filter p l)) (map f l).
Proof. induction l as [|x l IH]; simpl; [done|]. destruct (p x); simpl; by constructor. Qed.

Lemma select_NoDup {R} (p : Z -> R -> bool) (t : Table R) : NoDup (select p t).*1.
Proof.
  eapply sublist_NoDup; [apply (rows_NoDup (t_rows t))|].
  apply sublist_map_filter.
Qed.

Lemma find_row_Some {R} (p : Z -> R -> bool) (t : Table R) i r :
  find_row p t = Some (i, r) -> t_rows t !! i = Some r /\ p i r = true.
Proof.
  unfold find_row. intros H. apply List.find_some in H as [Hi Hp].
  by apply list_elem_of_In, elem_of_rows in Hi.
Qed.

Lemma find_row_None {R} (p : Z -> R -> bool) (t : Table R) :
  find_row p t = None <-> forall i r, t_rows t !! i = Some r -> p i r = false.
Proof.
  unfold find_row. split.
  - intros H i r Hi. apply elem_of_rows, list_elem_of_In in Hi.
    exact (List.find_none _ _ H _ Hi).
  - intros H. destruct (List.find _ _) as [[i r]|] eqn:E; [|done].
    apply List.find_some in E as [Hi Hp]. apply list_elem_of_In, elem_of_rows in Hi.
    apply H in Hi. simpl in Hp. congruence.
Qed.

(** A unique key is found whatever the scan order. *)
Lemma find_row_unique {R} (p : Z -> R -> bool) (t : Table R) i r :
  t_rows t !! i = Some r -> p i r = true ->
  (forall j s, t_rows t !! j = Some s -> p j s = true -> j = i) ->
  find_row p t = Some (i, r).
Proof.
  intros Hi Hp Hu. destruct (find_row p t) as [[j s]|] eqn:E.
  - apply find_row_Some in E as [Hj Hps]. pose proof (Hu j s Hj Hps). simplify_eq. congruence.
  - rewrite find_row_None in E. apply E in Hi. congruence.
Qed.

Lemma update_row_lookup {R} (f : R -> R) id (t : Table R) j :
  t_rows (update_row f id t) !! j = if decide (id = j) then f <$> t_rows t !! j else t_rows t !! j.
Proof.
  unfold update_row; simpl. case_decide; subst; [apply lookup_alter_eq|by apply lookup_alter_ne].
Qed.

Lemma delete_where_lookup {R} (p : Z -> R -> bool) (t : Table R) i r :
  t_rows (delete_where p t) !! i = Some r <-> t_rows t !! i = Some r /\ p i r = false.
Proof. unfold delete_where; simpl. by rewrite map_lookup_filter_Some. Qed.

(** A statement that is not hit by a fault. *)
Lemma stmt_calm {A} (run : Db -> res DbErr (A * Db)) e w :
  calm e ->
  stmt run e w =
    match run (w_db w) with
    | Ok (a, d) => (Done (Ok a), bump d w)
    | Err x => (Done (Err x), bump (w_db w) w)
    end.
Proof. intros He. unfold stmt. by rewrite He. Qed.

Lemma query_db {A} (q : Db -> res DbErr A) e w r w' :
  query q e w = (r, w') -> w' = bump (w_db w) w /\
    (r = Done (Err DE_Failed) \/ r = Done (q (w_db w))).
Proof.
  unfold query, stmt. repeat case_match; intros; simplify_eq; auto.
Qed.

Lemma execute_db (u : Db -> Db) e w r w' :
  execute u e w = (r, w') ->
  (r = Done (Err DE_Failed) /\ w' = bump (w_db w) w) \/
  (r = Done (Ok tt) /\ w' = bump (u (w_db w)) w).
Proof. unfold execute, stmt. case_match; intros; simplify_eq; auto. Qed.

(** ** Reasoning about effectful code *)

Lemma mbind_Done {A B} (m : M A) (k : A -> M B) e w a w1 :
  m e w = (Done a, w1) -> mbind m k e w = k a e w1.
Proof. intros E. unfold mbind. by rewrite E. Qed.

Lemma mtry_Ok {E A B} (m : M (res E A)) (k : A -> M (res E B)) e w a w1 :
  m e w = (Done (Ok a), w1) -> mtry m k e w = k a e w1.
Proof. intros Hm. unfold mtry. by rewrite (mbind_Done _ _ _ _ _ _ Hm). Qed.

Lemma mtry_Err {E A B} (m : M (res E A)) (k : A -> M (res E B)) e w x w1 :
  m e w = (Done (Err x), w1) -> mtry m k e w = (Done (Err x), w1).
Proof. intros Hm. unfold mtry. by rewrite (mbind_Done _ _ _ _ _ _ Hm). Qed.

Lemma mbind_inv {A B} (m : M A) (k : A -> M B) e w r w' :
  mbind m k e w = (r, w') ->
  (m e w = (Panic, w') /\ r = Panic) \/
  (exists a w1, m e w = (Done a, w1) /\ k a e w1 = (r, w')).
Proof. unfold mbind. destruct (m e w) as [[a|] w1]; naive_solver. Qed.

Lemma mexec_inv {A} (x : exec A) e w a w' : mexec x e w = (Done a, w') -> x = Done a /\ w' = w.
Proof. unfold mexec. by intros [= -> ->]. Qed.

(** [m] keeps [I] of the database, whatever fails. *)
Definition preserves {A} (I : Db -> Prop) (m : M A) : Prop :=
  forall e w r w', I (w_db w) -> m e w = (r, w') -> I (w_db w').

(** [m] does not panic, whatever fails. *)
Definition total {A} (m : M A) : Prop := forall e w, exists a w', m e w = (Done a, w').

Section preserves.
Context (I : Db -> Prop).

Lemma preserves_mret {A} (a : A) : preserves I (mret a).
Proof. intros e w r w' Hw E. unfold mret in E. by simplify_eq/=. Qed.

Lemma preserves_mexec {A} (x : exec A) : preserves I (mexec x).
Proof. intros e w r w' Hw E. unfold mexec in *. by simplify_eq/=. Qed.

Lemma preserves_mbind {A B} (m : M A) (k : A -> M B) :
  preserves I m -> (forall a, preserves I (k a)) -> preserves I (mbind m k).
Proof.
  intros Hm Hk e w r w' Hw E. apply mbind_inv in E as [[E _]|(a & w1 & E1 & E2)]; [by eapply Hm|].
  eapply Hk; [|exact E2]. by eapply Hm.
Qed.

Lemma preserves_mtry {E A B} (m : M (res E A)) (k : A -> M (res E B)) :
  preserves I m -> (forall a, preserves I (k a)) -> preserves I (mtry m k).
Proof. intros Hm Hk. apply preserves_mbind; [done|]. intros [a|x]; [done|apply preserves_mret]. Qed.

Lemma preserves_map_err {E E' A} (f : E -> E') (m : M (res E A)) :
  preserves I m -> preserves I (map_err f m).
Proof. intros Hm. apply preserves_mbind; [done|]. intros a. apply preserves_mret. Qed.

Lemma preserves_stmt {A} (run : Db -> res DbErr (A * Db)) :
  (forall d a d', I d -> run d = Ok (a, d') -> I d') -> preserves I (stmt run).
Proof.
  intros Hr e w r w' Hw E. unfold stmt in E.
  destruct (env_fault e (w_stmts w)); [by simplify_eq/=|].
  destruct (run (w_db w)) as [[a d]|x] eqn:Er; simplify_eq/=; [by eapply Hr|done].
Qed.

Lemma preserves_query {A} (q : Db -> res DbErr A) : preserves I (query q).
Proof. apply preserves_stmt. intros d a d' Hd E. case_match; by simplify_eq. Qed.

Lemma preserves_execute (u : Db -> Db) : (forall d, I d -> I (u d)) -> preserves I (execute u).
Proof. intros Hu. apply preserves_stmt. intros d a d' Hd E. simplify_eq. by apply Hu. Qed.

Lemma preserves_for_each {A} (l : list A) (f : A -> M unit) :
  (forall x, x ∈ l -> preserves I (f x)) -> preserves I (for_each l f).
Proof.
  induction l as [|x l IH]; intros Hf; simpl; [apply preserves_mret|].
  apply preserves_mbind; [apply Hf; by left|]. intros _. apply IH. intros y Hy. apply Hf. by right.
Qed.

Lemma preserves_utc_now : preserves I utc_now.
Proof. intros e w r w' Hw E. unfold utc_now in E. by simplify_eq/=. Qed.
Lemma preserves_receiver_count : preserves I receiver_count.
Proof. intros e w r w' Hw E. unfold receiver_count in E. by simplify_eq/=. Qed.
Lemma preserves_new_v4 : preserves I new_v4.
Proof. intros e w r w' Hw E. unfold new_v4 in E. by simplify_eq/=. Qed.
Lemma preserves_bus_send id : preserves I (bus_send id).
Proof. intros e w r w' Hw E. unfold bus_send in E. by simplify_eq/=. Qed.
Lemma preserves_spawn_task t : preserves I (spawn_task t).
Proof. intros e w r w' Hw E. unfold spawn_task in E. by simplify_eq/=. Qed.
Lemma preserves_http_send rq : preserves I (http_send rq).
Proof. intros e w r w' Hw E. unfold http_send in E. by simplify_eq/=. Qed.
Lemma preserves_mail_send relay m : preserves I (mail_send relay m).
Proof. intros e w r w' Hw E. unfold mail_send in E. by simplify_eq/=. Qed.
Lemma preserves_sleep n : preserves I (sleep n).
Proof. intros e w r w' Hw E. unfold sleep in E. by simplify_eq/=. Qed.

Lemma preserves_on_mem {A} (f : Z -> Mem -> A * Mem) : preserves I (on_mem f).
Proof. intros e w r w' Hw E. unfold on_mem in E. case_match. by simplify_eq/=. Qed.

End preserves.

#[export] Hint Resolve preserves_mret preserves_mexec preserves_mbind preserves_mtry
  preserves_map_err preserves_query preserves_for_each preserves_utc_now
  preserves_receiver_count preserves_new_v4 preserves_bus_send preserves_spawn_task
  preserves_http_send preserves_mail_send preserves_sleep preserves_on_mem : pw.

(** Split effectful code along its structure; [auto] closes the steps that do not write. *)
Ltac preserves_steps :=
  repeat first
    [ progress intros
    | apply preserves_mbind
    | apply preserves_mtry
    | apply preserves_for_each
    | solve [auto with pw]
    | match goal with
      | |- preserves _ (match ?x with _ => _ end) => destruct x
      end ].

Lemma total_mret {A} (a : A) : total (mret a).
Proof. intros e w. by do 2 eexists. Qed.
Lemma total_mbind {A B} (m : M A) (k : A -> M B) :
  total m -> (forall a, total (k a)) -> total (mbind m k).
Proof.
  intros Hm Hk e w. destruct (Hm e w) as (a & w1 & E). rewrite (mbind_Done _ _ _ _ _ _ E). apply Hk.
Qed.
Lemma total_mtry {E A B} (m : M (res E A)) (k : A -> M (res E B)) :
  total m -> (forall a, total (k a)) -> total (mtry m k).
Proof. intros Hm Hk. apply total_mbind; [done|]. intros [a|x]; [done|apply total_mret]. Qed.
Lemma total_stmt {A} (run : Db -> res DbErr (A * Db)) : total (stmt run).
Proof. intros e w. unfold stmt. repeat case_match; by do 2 eexists. Qed.
Lemma total_query {A} (q : Db -> res DbErr A) : total (query q).
Proof. apply total_stmt. Qed.
Lemma total_execute (u : Db -> Db) : total (execute u).
Proof. apply total_stmt. Qed.
Lemma total_for_each {A} (l : list A) (f : A -> M unit) :
  (forall x, x ∈ l -> total (f x)) -> total (for_each l f).
Proof.
  induction l as [|x l IH]; intros Hf; simpl; [apply total_mret|].
  apply total_mbind; [apply Hf; by left|]. intros _. apply IH. intros y Hy. apply Hf. by right.
Qed.
Lemma total_map_err {E E' A} (f : E -> E') (m : M (res E A)) : total m -> total (map_err f m).
Proof. intros Hm. apply total_mbind; [done|]. intros a. apply total_mret. Qed.
Lemma total_utc_now : total utc_now.
Proof. intros e w. by do 2 eexists. Qed.
Lemma total_receiver_count : total receiver_count.
Proof. intros e w. by do 2 eexists. Qed.
Lemma total_new_v4 : total new_v4.
Proof. intros e w. by do 2 eexists. Qed.
Lemma total_bus_send id : total (bus_send id).
Proof. intros e w. by do 2 eexists. Qed.
Lemma total_spawn_task t : total (spawn_task t).
Proof. intros e w. by do 2 eexists. Qed.
Lemma total_http_send rq : total (http_send rq).
Proof. intros e w. by do 2 eexists. Qed.
Lemma total_mail_send relay m : total (mail_send relay m).
Proof. intros e w. by do 2 eexists. Qed.
Lemma total_sleep n : total (sleep n).
Proof. intros e w. by do 2 eexists. Qed.

Lemma total_on_mem {A} (f : Z -> Mem -> A * Mem) : total (on_mem f).
Proof. intros e w. unfold on_mem. case_match. by do 2 eexists. Qed.

#[export] Hint Resolve total_mret total_mbind total_mtry total_map_err total_stmt total_query
  total_execute total_for_each total_utc_now total_receiver_count total_new_v4 total_bus_send
  total_spawn_task total_http_send total_mail_send total_sleep
  total_on_mem : pw.

Ltac total_steps :=
  repeat first
    [ progress intros
    | apply total_mbind
    | apply total_mtry
    | apply total_for_each
    | solve [auto with pw]
    | match goal with
      | |- total (match ?x with _ => _ end) => destruct x
      end ].

(** A query that no fault hits. *)
Lemma query_calm {A} (q : Db -> res DbErr A) e w :
  calm e -> query q e w = (Done (q (w_db w)), bump (w_db w) w).
Proof. intros He. unfold query. rewrite stmt_calm by done. by destruct (q (w_db w)). Qed.

Lemma execute_calm (u : Db -> Db) e w :
  calm e -> execute u e w = (Done (Ok tt), bump (u (w_db w)) w).
Proof. intros He. unfold execute. by rewrite stmt_calm. Qed.

Lemma mtry_query_calm {A B} (q : Db -> res DbErr A) (k : A -> M (res DbErr B)) e w a :
  calm e -> q (w_db w) = Ok a -> mtry (query q) k e w = k a e (bump (w_db w) w).
Proof. intros He Hq. apply mtry_Ok. by rewrite query_calm, Hq. Qed.

(** A write: it is made, or it fails and changes nothing. *)
Lemma execute_step (u : Db -> Db) e w :
  exists r, execute u e w = (Done r, bump (match r with Ok _ => u (w_db w) | Err _ => w_db w end) w) /\
    (calm e -> r = Ok tt).
Proof.
  unfold execute, stmt. destruct (env_fault e (w_stmts w)) eqn:E.
  - exists (Err DE_Failed). split; [done|]. intros He. by rewrite He in E.
  - by exists (Ok tt).
Qed.

(** ** From one assertion on the database to another *)

Definition hoare {A} (P Q : Db -> Prop) (m : M A) : Prop :=
  forall e w r w', P (w_db w) -> m e w = (r, w') -> Q (w_db w').

Lemma hoare_mret {A} (P Q : Db -> Prop) (a : A) : (forall d, P d -> Q d) -> hoare P Q (mret a).
Proof. intros Hq e w r w' Hw [= _ <-]. auto. Qed.

Lemma hoare_stmt {A} (P Q : Db -> Prop) (run : Db -> res DbErr (A * Db)) :
  (forall d, P d -> Q d) -> (forall d a d', P d -> run d = Ok (a, d') -> Q d') ->
  hoare P Q (stmt run).
Proof.
  intros Hq Hr e w r w' Hw E. unfold stmt in E.
  destruct (env_fault e (w_stmts w)); [injection E as _ <-; simpl; auto|].
  destruct (run (w_db w)) as [[a d]|x] eqn:Er; injection E as _ <-; simpl; [by eapply Hr|auto].
Qed.

Lemma hoare_execute (P Q : Db -> Prop) (u : Db -> Db) :
  (forall d, P d -> Q d) -> (forall d, P d -> Q (u d)) -> hoare P Q (execute u).
Proof. intros Hq Hu. apply hoare_stmt; [done|]. intros d a d' Hd [= _ <-]. auto. Qed.

Lemma hoare_mbind {A B} (P R Q : Db -> Prop) (m : M A) (k : A -> M B) :
  hoare P R m -> (forall d, R d -> Q d) -> (forall a, hoare R Q (k a)) -> hoare P Q (mbind m k).
Proof.
  intros Hm Hq Hk e w r w' Hw E. apply mbind_inv in E as [[E _]|(a & w1 & E1 & E2)].
  - apply Hq. by eapply Hm.
  - eapply Hk; [|exact E2]. by eapply Hm.
Qed.

Lemma hoare_mtry {E A B} (P R Q : Db -> Prop) (m : M (res E A)) (k : A -> M (res E B)) :
  hoare P R m -> (forall d, R d -> Q d) -> (forall a, hoare R Q (k a)) -> hoare P Q (mtry m k).
Proof.
  intros Hm Hq Hk. eapply hoare_mbind; [exact Hm|done|]. intros [a|x]; [apply Hk|by apply hoare_mret].
Qed.

Lemma hoare_map_err {E E' A} (P Q : Db -> Prop) (f : E -> E') (m : M (res E A)) :
  hoare P Q m -> hoare P Q (map_err f m).
Proof. intros Hm. eapply hoare_mbind; [exact Hm|done|]. intros a. by apply hoare_mret. Qed.

Lemma hoare_weaken {A} (P Q R : Db -> Prop) (m : M A) :
  hoare P Q m -> (forall d, Q d -> R d) -> hoare P R m.
Proof. intros Hm Hr e w r w' Hw E. apply Hr. by eapply Hm. Qed.
