(* ===== verification/Connect.v ===== *)
(** * Connect: [src/db.rs], opening the database

    What the pool is opened with, for each kind of URL, and the migrations that are run.
    The driver is a parameter: it parses a URL, opens a pool whose every new connection
    runs a list of statements, and runs migrations. *)
From S2P Require Import Prelude Text Markdown Db.
#[local] Open Scope Z_scope.
#[local] Open Scope pw_scope.

Inductive Migrator : Set := SQLITE_MIGRATOR | POSTGRES_MIGRATOR.

Class AnyDriver := {
  ConnectOptions : Type;
  Pool : Type;
  options_from_str : str -> res DbErr ConnectOptions;
  (* [max_connections], then what [after_connect] executes on each connection *)
  connect_with : Z -> list str -> ConnectOptions -> res DbErr Pool;
  migrator_run : Migrator -> Pool -> res DbErr unit;
}.

(** [str::contains] of a string. *)
Definition contains (p s : str) : bool := bool_decide (is_Some (find_str p s)).

Definition is_in_memory_url (url : str) : bool :=
  contains (lit ":memory:") url || contains (lit "mode=memory") url.
Definition is_sqlite_url (url : str) : bool := starts_with (lit "sqlite:") url.

Definition max_connections (url : str) : Z :=
  if is_sqlite_url url && is_in_memory_url url then 1 else 5.

(** The URL with the file created when it does not exist. *)
Definition created_url (url : str) : str :=
  if is_sqlite_url url && negb (is_in_memory_url url) && negb (contains (lit "mode=") url) then
    if bool_decide (chr "?" ∈ url) then url ++ lit "&mode=rwc" else url ++ lit "?mode=rwc"
  else url.

(** What each new connection executes, in order. *)
Definition after_connect (url : str) : list str :=
  let sqlite := is_sqlite_url url in
  let sqlite_file := sqlite && negb (is_in_memory_url url) in
  (if sqlite then [lit "PRAGMA foreign_keys = ON"; lit "PRAGMA busy_timeout = 5000"] else []) ++
  (if sqlite_file then [lit "PRAGMA journal_mode = WAL"; lit "PRAGMA synchronous = NORMAL"] else []).

Section connect.
Context `{AnyDriver}.

Definition connect (url : str) : res DbErr Pool :=
  let+ opts := options_from_str (created_url url) in
  connect_with (max_connections url) (after_connect url) opts.

Definition migrate (pool : Pool) (url : str) : res DbErr unit :=
  let m := if is_sqlite_url url then SQLITE_MIGRATOR else POSTGRES_MIGRATOR in
  let+ _ := migrator_run m pool in
  Ok tt.

End connect.

(** ** Kinds of URL *)

Example created_file :
  created_url (lit "sqlite:///data/pingward.db") = lit "sqlite:///data/pingward.db?mode=rwc".
Proof. reflexivity. Qed.
Example created_query :
  created_url (lit "sqlite://p.db?cache=shared") = lit "sqlite://p.db?cache=shared&mode=rwc".
Proof. reflexivity. Qed.
Example created_chosen : created_url (lit "sqlite://p.db?mode=ro") = lit "sqlite://p.db?mode=ro".
Proof. reflexivity. Qed.
Example memory_one : max_connections (lit "sqlite::memory:") = 1.
Proof. reflexivity. Qed.

Lemma contains_spec p s : contains p s = true <-> exists a b, s = a ++ p ++ b.
Proof.
  unfold contains. rewrite bool_decide_eq_true. split.
  - revert s. induction s as [|c s IH].
    + simpl. destruct (starts_with p []) eqn:E.
      * apply starts_with_spec in E as [r Hr]. intros _. exists [], r. done.
      * by intros [? ?].
    + simpl. destruct (starts_with p (c :: s)) eqn:E.
      * apply starts_with_spec in E as [r Hr]. intros _. exists [], r. done.
      * rewrite fmap_is_Some. intros (a & b & ->)%IH. by exists (c :: a), b.
  - intros (a & b & ->). induction a as [|c a IH]; cbn [app find_str].
    + destruct (p ++ b) eqn:E; cbn [find_str]; rewrite <- E, (proj2 (starts_with_spec p (p ++ b))); eauto.
    + destruct (starts_with p (c :: a ++ p ++ b)); [eauto|]. by apply fmap_is_Some.
Qed.

Lemma contains_app p s t : contains p s = true -> contains p (s ++ t) = true.
Proof. rewrite !contains_spec. intros (a & b & ->). exists a, (b ++ t). by rewrite <- !(assoc_L (++)). Qed.

(** The URL that is opened chooses a mode, unless the database lives in memory, so opening
    it again does not change it; and it is of the same kind. *)
Lemma created_url_mode url :
  is_sqlite_url url = true -> is_in_memory_url url = true \/ contains (lit "mode=") (created_url url) = true.
Proof.
  intros Hs. unfold created_url. rewrite Hs. destruct (is_in_memory_url url); [by left|right]. cbn [andb negb].
  destruct (contains (lit "mode=") url) eqn:E; [done|]. cbn [negb].
  case_bool_decide; apply contains_spec; [exists (url ++ lit "&"), (lit "rwc")|exists (url ++ lit "?"), (lit "rwc")];
    by rewrite <- (assoc_L (++)).
Qed.

(** Every connection to SQLite enforces the foreign keys, the first thing it is asked, and
    only a database of one connection lives in memory. *)
Lemma connections_enforce_cascades url :
  is_sqlite_url url = true ->
  head (after_connect url) = Some (lit "PRAGMA foreign_keys = ON") /\
  (is_in_memory_url url = true -> max_connections url = 1 /\ lit "PRAGMA journal_mode = WAL" ∉ after_connect url).
Proof.
  intros Hs. unfold after_connect, max_connections. rewrite Hs. split; [done|]. intros ->. split; [done|].
  by rewrite <- (bool_decide_eq_false (_ ∈ _)).
Qed.
