(* ===== verification/Startup.v ===== *)
(** * Startup: [src/main.rs] and [src/shutdown.rs], how the process starts and ends

    What is warned about and opened before the loops start; the shutdown flag; and the end
    of [main], as the instants (in seconds) at which its parts finish. *)
From S2P Require Import Prelude Text Config Wire Secret Auth Db Connect.
#[local] Open Scope Z_scope.
#[local] Open Scope pw_scope.

(** ** The shutdown flag: [tokio::sync::watch] *)

Record Watch := mk_Watch {
  wt_down : bool;       (* the value *)
  wt_sender : bool;     (* whether [ShutdownTx] is still held *)
}.
Definition channel : Watch := mk_Watch false true.
Definition trigger (w : Watch) : Watch := mk_Watch true (wt_sender w).
Definition drop_tx (w : Watch) : Watch := mk_Watch (wt_down w) false.
(** Whether [Shutdown::wait] is resolved: [wait_for] looks at the value first, and yields
    an error, which counts too, when the sender is gone. *)
Definition wait_resolved (w : Watch) : bool := wt_down w || negb (wt_sender w).

Lemma wait_monotone w : wait_resolved w = true ->
  wait_resolved (trigger w) = true /\ wait_resolved (drop_tx w) = true.
Proof. unfold wait_resolved. cbn. intros _. by rewrite orb_true_r. Qed.
Lemma wait_pends : wait_resolved channel = false /\ wait_resolved (trigger channel) = true /\
  wait_resolved (drop_tx channel) = true /\ trigger (trigger channel) = trigger channel.
Proof. done. Qed.

(** What became of one signal listener: it could not be installed, or the instant its
    signal arrives, when it does. *)
Inductive Listener := LI_Failed | LI_Installed (arrives : option Z).
Inductive Signal := SIGINT | SIGTERM.
(** A listener that failed to install pends forever. *)
Definition listener_resolves (l : Listener) : option Z :=
  match l with LI_Failed => None | LI_Installed t => t end.
(** [tokio::select!] of the two; a tie is decided by the scheduler, [tie]. *)
Definition os_signal (interrupt terminate : Listener) (tie : Signal) : option (Signal * Z) :=
  match listener_resolves interrupt, listener_resolves terminate with
  | None, None => None
  | Some i, None => Some (SIGINT, i)
  | None, Some t => Some (SIGTERM, t)
  | Some i, Some t => Some (if i <? t then SIGINT else if t <? i then SIGTERM else tie, Z.min i t)
  end.

(** A shutdown is never made up: it comes with a signal that arrived; and one that
    arrives on an installed listener is not missed. *)
Lemma os_signal_sound i t tie s at_ : os_signal i t tie = Some (s, at_) ->
  (if s is SIGINT then i else t) = LI_Installed (Some at_).
Proof.
  destruct i as [|[i|]], t as [|[t|]]; cbn; try done; try (by intros [= <- <-]).
  destruct (Z.ltb_spec i t), (Z.ltb_spec t i); intros [= <- <-]; try destruct tie; do 2 f_equal; lia.
Qed.
Lemma os_signal_complete i t tie at_ : i = LI_Installed (Some at_) \/ t = LI_Installed (Some at_) ->
  exists s at', os_signal i t tie = Some (s, at') /\ at' <= at_.
Proof.
  intros [->| ->]; [destruct t as [|[t|]]|destruct i as [|[i|]]]; cbn; eexists _, _; split; (lia || done).
Qed.

(** ** Starting *)

Definition secret_cause (source : SecretSource) : option str :=
  match source with
  | SS_Env => None
  | SS_Generated => Some (lit "PINGWARD_SECRET is not set")
  | SS_Rejected => Some (lit "PINGWARD_SECRET is shorter than the 16-byte minimum and was ignored")
  end.
(** Whether the two warnings are logged. *)
Definition warn_on_ephemeral_secret (source : SecretSource) : bool :=
  bool_decide (is_Some (secret_cause source)).
Definition warn_on_orphan_logout_url (config : Config) : bool :=
  bool_decide (is_Some (cf_forward_auth_logout_url config)) &&
  bool_decide (cf_forward_auth_header config = None).

(** Colours unless [NO_COLOR] is set to something. *)
Definition use_ansi (no_color : option str) : bool :=
  match no_color with None => true | Some v => is_empty v end.

Section startup.
Context `{AnyDriver}.

(** The pool the program runs on; both failures are [expect]ed away. *)
Definition open_database (config : Config) : exec Pool :=
  match connect (cf_database_url config) with
  | Err _ => Panic
  | Ok pool => match migrate pool (cf_database_url config) with
               | Err _ => Panic
               | Ok _ => Done pool
               end
  end.

(** Nothing runs on a database that was not migrated, by the migrations of its kind. *)
Lemma open_database_migrated config pool :
  open_database config = Done pool ->
  connect (cf_database_url config) = Ok pool /\
  migrator_run (if is_sqlite_url (cf_database_url config) then SQLITE_MIGRATOR else POSTGRES_MIGRATOR) pool = Ok tt.
Proof.
  unfold open_database, migrate. destruct (connect _) as [p|x]; [|done].
  destruct (migrator_run _ p) as [[]|x] eqn:E; [|done]. cbn. by intros [= <-].
Qed.
End startup.

(** ** Ending *)

Definition HTTP_DRAIN_TIMEOUT : Z := 3.
Definition POOL_CLOSE_TIMEOUT : Z := 5.

(** When the parts of the process finish on their own: the signal, the server's drain, the
    two loops, and how long closing the pool would take. *)
Record Endings := mk_Endings {
  en_signal : Z;
  en_server : Z;
  en_scan : Z;
  en_prune : Z;
  en_close : Z;
}.

(** [tokio::select!] between the server and the drain timeout. *)
Definition served_at (en : Endings) : Z := Z.min (en_server en) (en_signal en + HTTP_DRAIN_TIMEOUT).
(** [tokio::join!] of the loops, then the pool is closed. *)
Definition close_started_at (en : Endings) : Z :=
  Z.max (served_at en) (Z.max (en_scan en) (en_prune en)).
Definition exit_at (en : Endings) : Z :=
  close_started_at en + Z.min (en_close en) POOL_CLOSE_TIMEOUT.
Definition pool_closed (en : Endings) : bool := en_close en <=? POOL_CLOSE_TIMEOUT.

(** The pool is closed after both loops have ended, and the process ends within eight
    seconds of the signal when the passes that were running then end within three: inside
    the ten seconds Docker allows. *)
Lemma exit_in_grace en :
  0 <= en_close en ->
  en_scan en <= close_started_at en /\ en_prune en <= close_started_at en /\
  (en_scan en <= en_signal en + HTTP_DRAIN_TIMEOUT -> en_prune en <= en_signal en + HTTP_DRAIN_TIMEOUT ->
   exit_at en <= en_signal en + 8).
Proof.
  unfold exit_at, close_started_at, served_at, HTTP_DRAIN_TIMEOUT, POOL_CLOSE_TIMEOUT. lia.
Qed.
