(* ===== verification/Rows.v ===== *)
(** * Rows: decoding of rows and the parameter records of [src/store.rs]

    [row_to_*] read one row of a table into its domain record and fail on a column that
    does not decode. The text of the decoding error is only logged and is left out. *)
From S2P Require Import Prelude Text Models Chrono Db.
#[local] Open Scope Z_scope.
#[local] Open Scope pw_scope.

Section rows.
Context `{Chrono}.

(** [parse_ts]. *)
Definition parse_ts (s : option str) : option Z := v ← s; parse_from_rfc3339 v.

Definition required_ts (s : str) : res DbErr Z :=
  match parse_ts (Some s) with Some t => Ok t | None => Err DE_Decode end.

Definition decode_enum {A} `{StrEnum A} (s : str) : res DbErr A :=
  match from_str s with Ok v => Ok v | Err _ => Err DE_Decode end.

Definition row_to_check (kr : Z * CheckRow) : res DbErr Check :=
  let '(id, r) := kr in
  let+ schedule_kind := decode_enum (cr_schedule_kind r) in
  let+ status := decode_enum (cr_status r) in
  let+ created_at := required_ts (cr_created_at r) in
  Ok {|
    c_id := id;
    c_project_id := cr_project_id r;
    c_name := cr_name r;
    c_description := cr_description r;
    c_ping_uuid := cr_ping_uuid r;
    c_schedule_kind := schedule_kind;
    c_period_secs := cr_period_secs r;
    c_grace_secs := cr_grace_secs r;
    c_cron_expr := cr_cron_expr r;
    c_timezone := cr_timezone r;
    c_status := status;
    c_last_ping_at := parse_ts (cr_last_ping_at r);
    c_last_start_at := parse_ts (cr_last_start_at r);
    c_next_due_at := parse_ts (cr_next_due_at r);
    c_scan_interval_secs := cr_scan_interval_secs r;
    c_max_runtime_secs := cr_max_runtime_secs r;
    c_nag_interval_secs := cr_nag_interval_secs r;
    c_last_alert_at := parse_ts (cr_last_alert_at r);
    c_acknowledged := negb (cr_acknowledged r =? 0);
    c_created_at := created_at;
  |}.

Definition row_to_user (kr : Z * UserRow) : res DbErr User :=
  let '(id, r) := kr in
  let+ created_at := required_ts (ur_created_at r) in
  Ok {|
    u_id := id;
    u_username := ur_username r;
    u_password_hash := ur_password_hash r;
    u_is_admin := negb (ur_is_admin r =? 0);
    u_disabled := negb (ur_disabled r =? 0);
    u_created_at := created_at;
  |}.

Definition row_to_api_key (kr : Z * ApiKeyRow) : res DbErr ApiKey :=
  let '(id, r) := kr in
  let+ created_at := required_ts (kr_created_at r) in
  Ok {|
    k_id := id;
    k_user_id := kr_user_id r;
    k_name := kr_name r;
    k_prefix := kr_prefix r;
    k_created_at := created_at;
    k_last_used_at := parse_ts (kr_last_used_at r);
    k_expires_at := parse_ts (kr_expires_at r);
  |}.

Definition row_to_session (kr : str * SessionRow) : res DbErr Session :=
  let '(id, r) := kr in
  let+ expires_at := required_ts (sr_expires_at r) in
  Ok {|
    s_id := id;
    s_user_id := sr_user_id r;
    s_created_at := parse_ts (Some (sr_created_at r));
    s_last_seen_at := parse_ts (sr_last_seen_at r);
    s_expires_at := expires_at;
    s_user_agent := sr_user_agent r;
    s_ip := sr_ip r;
    s_sso := negb (sr_sso r =? 0);
  |}.

Definition row_to_project (kr : Z * ProjectRow) : res DbErr Project :=
  let '(id, r) := kr in
  let+ created_at := required_ts (pr_created_at r) in
  Ok {|
    p_id := id;
    p_user_id := pr_user_id r;
    p_name := pr_name r;
    p_description := pr_description r;
    p_scan_interval_secs := pr_scan_interval_secs r;
    p_nag_interval_secs := pr_nag_interval_secs r;
    p_created_at := created_at;
  |}.

Definition row_to_channel (kr : Z * ChannelRow) : res DbErr Channel :=
  let '(id, r) := kr in
  let+ kind := decode_enum (chr_kind r) in
  let+ created_at := required_ts (chr_created_at r) in
  Ok {|
    ch_id := id;
    ch_project_id := chr_project_id r;
    ch_kind := kind;
    ch_name := chr_name r;
    ch_config_json := chr_config_json r;
    ch_created_at := created_at;
  |}.

Definition row_to_ping (kr : Z * PingRow) : res DbErr Ping :=
  let '(id, r) := kr in
  let+ kind := decode_enum (pgr_kind r) in
  let+ created_at := required_ts (pgr_created_at r) in
  Ok {|
    pg_id := id;
    pg_check_id := pgr_check_id r;
    pg_kind := kind;
    pg_exit_code := pgr_exit_code r;
    pg_body := pgr_body r;
    pg_source_ip := pgr_source_ip r;
    pg_created_at := created_at;
  |}.

Definition row_to_ping_summary (kr : Z * PingRow) : res DbErr PingSummary :=
  let '(id, r) := kr in
  let+ kind := decode_enum (pgr_kind r) in
  let+ created_at := required_ts (pgr_created_at r) in
  Ok {|
    ps_id := id;
    ps_check_id := pgr_check_id r;
    ps_kind := kind;
    ps_created_at := created_at;
  |}.

Definition row_to_notification (kr : Z * NotificationRow) : res DbErr Notification :=
  let '(id, r) := kr in
  let+ event := decode_enum (nr_event r) in
  let+ status := decode_enum (nr_status r) in
  let+ created_at := required_ts (nr_created_at r) in
  Ok {|
    n_id := id;
    n_check_id := nr_check_id r;
    n_channel_id := nr_channel_id r;
    n_event := event;
    n_status := status;
    n_error := nr_error r;
    n_created_at := created_at;
  |}.

Definition row_to_audit (kr : Z * AuditRow) : res DbErr AuditLog :=
  let '(id, r) := kr in
  let+ created_at := required_ts (ar_created_at r) in
  Ok {|
    a_id := id;
    a_actor_user_id := ar_actor_user_id r;
    a_actor_username := ar_actor_username r;
    a_action := ar_action r;
    a_target_type := ar_target_type r;
    a_target_id := ar_target_id r;
    a_target_owner_id := ar_target_owner_id r;
    a_method := ar_method r;
    a_path := ar_path r;
    a_detail := ar_detail r;
    a_created_at := created_at;
  |}.

(** [rows.iter().map(f).collect::<Result<Vec<_>, _>>()]: the first error wins. *)
Fixpoint collect {A B} (f : A -> res DbErr B) (l : list A) : res DbErr (list B) :=
  match l with
  | [] => Ok []
  | x :: l' => let+ y := f x in let+ ys := collect f l' in Ok (y :: ys)
  end.

(** [row.as_ref().map(f).transpose()]. *)
Definition transpose {A B} (f : A -> res DbErr B) (o : option A) : res DbErr (option B) :=
  match o with None => Ok None | Some x => let+ y := f x in Ok (Some y) end.

(** The loop of [list_active_checks] and [list_down_checks]: corrupt rows are skipped. *)
Fixpoint decode_skipping {A B} (f : A -> res DbErr B) (l : list A) : list B :=
  match l with
  | [] => []
  | x :: l' => match f x with
               | Ok y => y :: decode_skipping f l'
               | Err _ => decode_skipping f l'
               end
  end.

End rows.

(** ** Parameters of the writing methods *)

Record NewAudit := mk_NewAudit {
  na_actor_user_id : Z;
  na_actor_username : str;
  na_action : str;
  na_target_type : option str;
  na_target_id : option Z;
  na_target_owner_id : option Z;
  na_method : option str;
  na_path : option str;
  na_detail : option str;
}.

Record NewCheck := mk_NewCheck {
  nc_project_id : Z;
  nc_name : str;
  nc_description : str;
  nc_ping_uuid : str;
  nc_kind : ScheduleKind;
  nc_period_secs : option Z;
  nc_grace_secs : Z;
  nc_cron_expr : option str;
  nc_timezone : str;
  nc_scan_interval_secs : option Z;
  nc_max_runtime_secs : option Z;
  nc_nag_interval_secs : option Z;
}.

Record UpdateCheck := mk_UpdateCheck {
  uc_name : str;
  uc_description : str;
  uc_kind : ScheduleKind;
  uc_period_secs : option Z;
  uc_grace_secs : Z;
  uc_cron_expr : option str;
  uc_timezone : str;
  uc_scan_interval_secs : option Z;
  uc_max_runtime_secs : option Z;
  uc_nag_interval_secs : option Z;
}.

Record NewSession := mk_NewSession {
  nse_id : str;
  nse_user_id : Z;
  nse_expires_at : Z;
  nse_user_agent : option str;
  nse_ip : option str;
  nse_sso : bool;
}.

Record NewPing := mk_NewPing {
  np_check_id : Z;
  np_kind : PingKind;
  np_exit_code : option Z;
  np_body : str;
  np_source_ip : option str;
}.

Record PingMark := mk_PingMark {
  pm_status : CheckStatus;
  pm_last_ping_at : option Z;
  pm_last_start_at : option Z;
  pm_next_due_at : option Z;
}.

Record NewApiKey := mk_NewApiKey {
  nk_user_id : Z;
  nk_name : str;
  nk_token_hash : str;
  nk_prefix : str;
  nk_expires_at : option Z;
}.

Record ProjectSettings := mk_ProjectSettings {
  pse_name : str;
  pse_description : str;
  pse_scan_interval_secs : option Z;
  pse_nag_interval_secs : option Z;
}.

Record NewChannel := mk_NewChannel {
  nch_project_id : Z;
  nch_kind : ChannelKind;
  nch_name : str;
  nch_config_json : str;
}.

Record NewNotification := mk_NewNotification {
  nn_check_id : Z;
  nn_channel_id : Z;
  nn_event : EventKind;
  nn_status : NotifyStatus;
  nn_error : option str;
}.

(** ** Lemmas *)

Section row_lemmas.
Context `{Chrono}.

Lemma decode_enum_Ok {A} `{StrEnum A, !StrEnumLaws A} (s : str) (v : A) :
  decode_enum s = Ok v <-> s = as_str v.
Proof.
  unfold decode_enum. split.
  - destruct (from_str s) as [w|] eqn:E; [|done]. intros [= <-]. by apply from_str_Ok.
  - intros ->. by rewrite from_str_as_str.
Qed.

(** What a decoded check keeps of its row. *)
Lemma row_to_check_Ok id r c :
  row_to_check (id, r) = Ok c ->
  c_id c = id /\ c_project_id c = cr_project_id r /\ c_name c = cr_name r /\
  cr_status r = as_str (c_status c) /\ cr_schedule_kind r = as_str (c_schedule_kind c) /\
  c_period_secs c = cr_period_secs r /\ c_grace_secs c = cr_grace_secs r /\
  c_max_runtime_secs c = cr_max_runtime_secs r /\
  c_nag_interval_secs c = cr_nag_interval_secs r /\
  c_acknowledged c = negb (cr_acknowledged r =? 0) /\
  c_last_alert_at c = parse_ts (cr_last_alert_at r).
Proof.
  cbn. intros Hc. apply res_bind_ok in Hc as (k & Hk & Hc).
  apply res_bind_ok in Hc as (s & Hs & Hc). apply res_bind_ok in Hc as (t & Ht & Hc).
  apply decode_enum_Ok in Hk, Hs. simplify_eq/=. done.
Qed.

Lemma elem_of_decode_skipping {A B} (f : A -> res DbErr B) l y :
  y ∈ decode_skipping f l <-> exists x, x ∈ l /\ f x = Ok y.
Proof.
  induction l as [|x l IH]; simpl.
  { split; [by intros ?%elem_of_nil|]. by intros (x & ?%elem_of_nil & _). }
  setoid_rewrite elem_of_cons. destruct (f x) as [z|] eqn:E.
  - rewrite elem_of_cons, IH. split.
    + intros [->|(a & ? & ?)]; [by exists x; auto|by exists a; auto].
    + intros (a & [->|?] & ?); [left; congruence|right; by exists a].
  - rewrite IH. split.
    + intros (a & ? & ?). exists a; auto.
    + intros (a & [->|?] & ?); [congruence|by exists a].
Qed.

Lemma decode_skipping_NoDup (l : list (Z * CheckRow)) :
  NoDup l.*1 -> NoDup (map c_id (decode_skipping row_to_check l)).
Proof.
  induction l as [|[i r] l IH]; cbn [fmap list_fmap fst]; [constructor|].
  intros [Hi Hl]%NoDup_cons. cbn [decode_skipping].
  destruct (row_to_check (i, r)) as [c|] eqn:E; simpl; [|auto].
  constructor; [|auto]. intros Hc. apply Hi.
  apply list_elem_of_fmap in Hc as (c' & Ec & Hc').
  apply elem_of_decode_skipping in Hc' as ([j r'] & Hx & Hok).
  apply row_to_check_Ok in E as [E _]. apply row_to_check_Ok in Hok as [E' _].
  apply list_elem_of_fmap. exists (j, r'). split; [simpl; congruence|done].
Qed.

End row_lemmas.
