(* ===== verification/Store.v ===== *)
(** * Store: the data-access layer, [impl Store] of [src/store.rs]

    One definition per method, one [stmt] per SQL statement it executes, in the order the
    method executes them. Foreign keys, unique keys and [ON DELETE CASCADE] are those of
    [migrations/]. Statements without [ORDER BY] scan in key order. *)
From S2P Require Import Prelude Text Models Chrono Db Rows.
#[local] Open Scope Z_scope.
#[local] Open Scope pw_scope.

(** ** Cascades *)

Definition is_row {R} (t : Table R) (id : Z) : bool := bool_decide (is_Some (t_rows t !! id)).

(** The rows of the tables that reference deleted checks, and the checks themselves. *)
Definition cascade_checks (gone : Z -> bool) (d : Db) : Db :=
  set_checks (delete_where (fun id _ => gone id) (checks d))
  (set_pings (delete_where (fun _ r => gone (pgr_check_id r)) (pings d))
  (set_notifications (delete_where (fun _ r => gone (nr_check_id r)) (notifications d))
  (set_bindings (filter (fun cc : Z * Z => gone cc.1 = false) (check_channels d)) d))).

Definition cascade_channels (gone : Z -> bool) (d : Db) : Db :=
  set_channels (delete_where (fun id _ => gone id) (channels d))
  (set_notifications (delete_where (fun _ r => gone (nr_channel_id r)) (notifications d))
  (set_bindings (filter (fun cc : Z * Z => gone cc.2 = false) (check_channels d)) d)).

Definition cascade_projects (gone : Z -> bool) (d : Db) : Db :=
  let gone_check id :=
    match t_rows (checks d) !! id with Some r => gone (cr_project_id r) | None => false end in
  let gone_channel id :=
    match t_rows (channels d) !! id with Some r => gone (chr_project_id r) | None => false end in
  let d' := cascade_channels gone_channel (cascade_checks gone_check d) in
  set_projects (delete_where (fun id _ => gone id) (projects d')) d'.

Definition cascade_user (uid : Z) (d : Db) : Db :=
  let gone_project id :=
    match t_rows (projects d) !! id with Some r => pr_user_id r =? uid | None => false end in
  let d' := cascade_projects gone_project d in
  set_users (delete_row uid (users d'))
  (set_sessions (filter (fun kr : str * SessionRow => sr_user_id kr.2 <> uid) (sessions d'))
  (set_api_keys (delete_where (fun _ r => kr_user_id r =? uid) (api_keys d')) d')).

Section store.
Context `{Chrono}.

(** ** Checks *)

Definition find_check_by_uuid (uuid : str) : M (res DbErr (option Check)) :=
  query (fun d => transpose row_to_check
    (find_row (fun _ r => bool_decide (cr_ping_uuid r = uuid)) (checks d))).

Definition status_in (ss : list CheckStatus) (r : CheckRow) : bool :=
  existsb (fun s => bool_decide (cr_status r = as_str s)) ss.

Definition active_rows (d : Db) : list (Z * CheckRow) :=
  select (fun _ r => status_in [CS_New; CS_Up] r) (checks d).
Definition list_active_checks : M (res DbErr (list Check)) :=
  query (fun d => Ok (decode_skipping row_to_check (active_rows d))).

Definition down_rows (d : Db) : list (Z * CheckRow) :=
  select (fun _ r => status_in [CS_Down] r) (checks d).
Definition list_down_checks : M (res DbErr (list Check)) :=
  query (fun d => Ok (decode_skipping row_to_check (down_rows d))).

Definition insert_ping (ping : NewPing) (now : Z) : M (res DbErr unit) :=
  stmt (fun d =>
    if is_row (checks d) (np_check_id ping) then
      let '(_, t) := insert_row {|
        pgr_check_id := np_check_id ping;
        pgr_kind := as_str (np_kind ping);
        pgr_exit_code := np_exit_code ping;
        pgr_body := np_body ping;
        pgr_source_ip := np_source_ip ping;
        pgr_created_at := to_rfc3339 now |} (pings d) in
      Ok (tt, set_pings t d)
    else Err DE_ForeignKey).

(** [COALESCE($n, col)]. *)
Definition coalesce (v : option str) (col : option str) : option str :=
  match v with Some _ => v | None => col end.

Definition marked (mark : PingMark) (r : CheckRow) : CheckRow :=
  mk_CheckRow (cr_project_id r) (cr_name r) (cr_description r) (cr_ping_uuid r)
    (cr_schedule_kind r) (cr_period_secs r) (cr_grace_secs r) (cr_cron_expr r)
    (cr_timezone r) (as_str (pm_status mark))
    (coalesce (to_rfc3339 <$> pm_last_ping_at mark) (cr_last_ping_at r))
    (coalesce (to_rfc3339 <$> pm_last_start_at mark) (cr_last_start_at r))
    (to_rfc3339 <$> pm_next_due_at mark) (cr_scan_interval_secs r)
    (cr_max_runtime_secs r) (cr_nag_interval_secs r) (cr_last_alert_at r)
    (cr_acknowledged r) (cr_created_at r).

Definition update_check (f : CheckRow -> CheckRow) (check_id : Z) (d : Db) : Db :=
  set_checks (update_row f check_id (checks d)) d.

Definition mark_ping (check_id : Z) (mark : PingMark) : M (res DbErr unit) :=
  execute (update_check (marked mark) check_id).

Definition with_status (status : str) (r : CheckRow) : CheckRow :=
  mk_CheckRow (cr_project_id r) (cr_name r) (cr_description r) (cr_ping_uuid r)
    (cr_schedule_kind r) (cr_period_secs r) (cr_grace_secs r) (cr_cron_expr r)
    (cr_timezone r) status (cr_last_ping_at r) (cr_last_start_at r) (cr_next_due_at r)
    (cr_scan_interval_secs r) (cr_max_runtime_secs r) (cr_nag_interval_secs r)
    (cr_last_alert_at r) (cr_acknowledged r) (cr_created_at r).

Definition set_status (check_id : Z) (status : CheckStatus) : M (res DbErr unit) :=
  execute (update_check (with_status (as_str status)) check_id).

Definition with_alert (last_alert_at : option str) (acknowledged : Z) (r : CheckRow) : CheckRow :=
  mk_CheckRow (cr_project_id r) (cr_name r) (cr_description r) (cr_ping_uuid r)
    (cr_schedule_kind r) (cr_period_secs r) (cr_grace_secs r) (cr_cron_expr r)
    (cr_timezone r) (cr_status r) (cr_last_ping_at r) (cr_last_start_at r)
    (cr_next_due_at r) (cr_scan_interval_secs r) (cr_max_runtime_secs r)
    (cr_nag_interval_secs r) last_alert_at acknowledged (cr_created_at r).

Definition begin_down_alert (check_id at_ : Z) : M (res DbErr unit) :=
  execute (update_check (with_alert (Some (to_rfc3339 at_)) 0) check_id).

Definition record_reminder (check_id at_ : Z) : M (res DbErr unit) :=
  execute (update_check (fun r => with_alert (Some (to_rfc3339 at_)) (cr_acknowledged r) r) check_id).

Definition clear_nag (check_id : Z) : M (res DbErr unit) :=
  execute (update_check (with_alert None 0) check_id).

Definition acknowledge (check_id : Z) : M (res DbErr unit) :=
  execute (update_check (fun r => with_alert (cr_last_alert_at r) 1 r) check_id).

Definition uuid_taken (d : Db) (uuid : str) (except : Z) : bool :=
  existsb (fun kr => bool_decide (cr_ping_uuid kr.2 = uuid) && negb (kr.1 =? except))
    (rows (t_rows (checks d))).

(** Column defaults and the values [create_check] leaves [NULL]. *)
Definition new_check_row (c : NewCheck) (now : Z) : CheckRow := {|
  cr_project_id := nc_project_id c;
  cr_name := nc_name c;
  cr_description := nc_description c;
  cr_ping_uuid := nc_ping_uuid c;
  cr_schedule_kind := as_str (nc_kind c);
  cr_period_secs := nc_period_secs c;
  cr_grace_secs := nc_grace_secs c;
  cr_cron_expr := nc_cron_expr c;
  cr_timezone := nc_timezone c;
  cr_status := lit "new";
  cr_last_ping_at := None;
  cr_last_start_at := None;
  cr_next_due_at := None;
  cr_scan_interval_secs := nc_scan_interval_secs c;
  cr_max_runtime_secs := nc_max_runtime_secs c;
  cr_nag_interval_secs := nc_nag_interval_secs c;
  cr_last_alert_at := None;
  cr_acknowledged := 0;
  cr_created_at := to_rfc3339 now;
|}.

Definition create_check (c : NewCheck) : M (res DbErr Z) :=
  do now := utc_now in
  stmt (fun d =>
    if uuid_taken d (nc_ping_uuid c) 0 then Err DE_Unique
    else if is_row (projects d) (nc_project_id c) then
      let '(id, t) := insert_row (new_check_row c now) (checks d) in
      Ok (id, set_checks t d)
    else Err DE_ForeignKey).

Definition find_check (id : Z) : M (res DbErr (option Check)) :=
  query (fun d => transpose row_to_check ((fun r => (id, r)) <$> t_rows (checks d) !! id)).

Definition list_checks_for_project (project_id : Z) : M (res DbErr (list Check)) :=
  query (fun d => collect row_to_check
    (select (fun _ r => cr_project_id r =? project_id) (checks d))).

Definition with_schedule (c : UpdateCheck) (r : CheckRow) : CheckRow :=
  mk_CheckRow (cr_project_id r) (uc_name c) (uc_description c) (cr_ping_uuid r)
    (as_str (uc_kind c)) (uc_period_secs c) (uc_grace_secs c) (uc_cron_expr c)
    (uc_timezone c) (cr_status r) (cr_last_ping_at r) (cr_last_start_at r)
    (cr_next_due_at r) (uc_scan_interval_secs c) (uc_max_runtime_secs c)
    (uc_nag_interval_secs c) (cr_last_alert_at r) (cr_acknowledged r) (cr_created_at r).

Definition update_check_schedule (id : Z) (c : UpdateCheck) : M (res DbErr unit) :=
  execute (update_check (with_schedule c) id).

Definition with_uuid (uuid : str) (r : CheckRow) : CheckRow :=
  mk_CheckRow (cr_project_id r) (cr_name r) (cr_description r) uuid
    (cr_schedule_kind r) (cr_period_secs r) (cr_grace_secs r) (cr_cron_expr r)
    (cr_timezone r) (cr_status r) (cr_last_ping_at r) (cr_last_start_at r)
    (cr_next_due_at r) (cr_scan_interval_secs r) (cr_max_runtime_secs r)
    (cr_nag_interval_secs r) (cr_last_alert_at r) (cr_acknowledged r) (cr_created_at r).

Definition regenerate_uuid (id : Z) (new_uuid : str) : M (res DbErr unit) :=
  stmt (fun d =>
    if is_row (checks d) id && uuid_taken d new_uuid id then Err DE_Unique
    else Ok (tt, update_check (with_uuid new_uuid) id d)).

Definition delete_check (id : Z) : M (res DbErr unit) :=
  execute (cascade_checks (fun i => i =? id)).

(** ** Users *)

Definition count_users : M (res DbErr Z) :=
  query (fun d => Ok (count_where (fun _ _ => true) (users d))).

Inductive CreateUserError : Set :=
| UsernameTaken
| CU_Db (e : DbErr).

(** [impl From<sqlx::Error> for CreateUserError]. *)
Definition CreateUserError_from (e : DbErr) : CreateUserError :=
  match e with DE_Unique => UsernameTaken | _ => CU_Db e end.

Definition create_user (username : str) (password_hash : option str) (is_admin : bool) (now : Z)
  : M (res CreateUserError Z) :=
  map_err CreateUserError_from (stmt (fun d =>
    if existsb (fun kr => bool_decide (ur_username kr.2 = username)) (rows (t_rows (users d)))
    then Err DE_Unique
    else
      let '(id, t) := insert_row {|
        ur_username := username;
        ur_password_hash := password_hash;
        ur_is_admin := Z.b2z is_admin;
        ur_disabled := 0;
        ur_created_at := to_rfc3339 now |} (users d) in
      Ok (id, set_users t d))).

Definition find_user_by_username (username : str) : M (res DbErr (option User)) :=
  query (fun d => transpose row_to_user
    (find_row (fun _ r => bool_decide (ur_username r = username)) (users d))).

Definition find_user_by_id (id : Z) : M (res DbErr (option User)) :=
  query (fun d => transpose row_to_user ((fun r => (id, r)) <$> t_rows (users d) !! id)).

Definition list_users : M (res DbErr (list User)) :=
  query (fun d => collect row_to_user (rows (t_rows (users d)))).

Definition delete_user (id : Z) : M (res DbErr unit) := execute (cascade_user id).

Definition update_user (f : UserRow -> UserRow) (id : Z) (d : Db) : Db :=
  set_users (update_row f id (users d)) d.

Definition set_user_disabled (id : Z) (disabled : bool) : M (res DbErr unit) :=
  execute (update_user (fun r => mk_UserRow (ur_username r) (ur_password_hash r)
    (ur_is_admin r) (Z.b2z disabled) (ur_created_at r)) id).

Definition set_user_password (id : Z) (password_hash : str) : M (res DbErr unit) :=
  execute (update_user (fun r => mk_UserRow (ur_username r) (Some password_hash)
    (ur_is_admin r) (ur_disabled r) (ur_created_at r)) id).

Definition set_user_admin (id : Z) (is_admin : bool) : M (res DbErr unit) :=
  execute (update_user (fun r => mk_UserRow (ur_username r) (ur_password_hash r)
    (Z.b2z is_admin) (ur_disabled r) (ur_created_at r)) id).

Definition enabled_admin (r : UserRow) : bool := negb (ur_is_admin r =? 0) && (ur_disabled r =? 0).
Definition count_enabled_admins : M (res DbErr Z) :=
  query (fun d => Ok (count_where (fun _ r => enabled_admin r) (users d))).

(** ** API keys *)

Definition insert_api_key (key : NewApiKey) (now : Z) : M (res DbErr Z) :=
  stmt (fun d =>
    if existsb (fun kr => bool_decide (kr_token_hash kr.2 = nk_token_hash key))
         (rows (t_rows (api_keys d))) then Err DE_Unique
    else if is_row (users d) (nk_user_id key) then
      let '(id, t) := insert_row {|
        kr_user_id := nk_user_id key;
        kr_name := nk_name key;
        kr_token_hash := nk_token_hash key;
        kr_prefix := nk_prefix key;
        kr_created_at := to_rfc3339 now;
        kr_last_used_at := None;
        kr_expires_at := to_rfc3339 <$> nk_expires_at key |} (api_keys d) in
      Ok (id, set_api_keys t d)
    else Err DE_ForeignKey).

Definition list_api_keys_for_user (user_id : Z) : M (res DbErr (list ApiKey)) :=
  query (fun d => collect row_to_api_key
    (rev (select (fun _ r => kr_user_id r =? user_id) (api_keys d)))).

Definition delete_api_key (id user_id : Z) : M (res DbErr bool) :=
  stmt (fun d =>
    let p k r := (k =? id) && (kr_user_id r =? user_id) in
    Ok (0 <? count_where p (api_keys d), set_api_keys (delete_where p (api_keys d)) d)).

(** [last_used_at] is stale when absent, unreadable or at least a minute old. *)
Definition is_stale (last : option str) (now : Z) : bool :=
  match parse_ts last with None => true | Some t => 60 * ns <=? now - t end.

Definition touch_key (now : Z) (r : ApiKeyRow) : ApiKeyRow :=
  mk_ApiKeyRow (kr_user_id r) (kr_name r) (kr_token_hash r) (kr_prefix r) (kr_created_at r)
    (Some (to_rfc3339 now)) (kr_expires_at r).

Definition validate_api_key (token_hash : str) (now : Z) : M (res DbErr (option Z)) :=
  let? row := query (fun d =>
    Ok (find_row (fun _ r => bool_decide (kr_token_hash r = token_hash)) (api_keys d))) in
  match row with
  | None => mret (Ok None)
  | Some (id, r) =>
      let expired := match parse_ts (kr_expires_at r) with
                     | Some exp => exp <=? now
                     | None => false
                     end in
      if expired then mret (Ok None) else
      if is_stale (kr_last_used_at r) now then
        let? _ := execute (fun d =>
          set_api_keys (update_row (touch_key now) id (api_keys d)) d) in
        mret (Ok (Some (kr_user_id r)))
      else mret (Ok (Some (kr_user_id r)))
  end.

(** ** Projects *)

Definition create_project (user_id : Z) (project : ProjectSettings) (now : Z) : M (res DbErr Z) :=
  stmt (fun d =>
    if is_row (users d) user_id then
      let '(id, t) := insert_row {|
        pr_user_id := user_id;
        pr_name := pse_name project;
        pr_description := pse_description project;
        pr_scan_interval_secs := pse_scan_interval_secs project;
        pr_nag_interval_secs := pse_nag_interval_secs project;
        pr_created_at := to_rfc3339 now |} (projects d) in
      Ok (id, set_projects t d)
    else Err DE_ForeignKey).

Definition find_project (id : Z) : M (res DbErr (option Project)) :=
  query (fun d => transpose row_to_project ((fun r => (id, r)) <$> t_rows (projects d) !! id)).

Definition list_projects_for_user (user_id : Z) : M (res DbErr (list Project)) :=
  query (fun d => collect row_to_project
    (select (fun _ r => pr_user_id r =? user_id) (projects d))).

Definition update_project (id : Z) (project : ProjectSettings) : M (res DbErr unit) :=
  execute (fun d => set_projects (update_row (fun r =>
    mk_ProjectRow (pr_user_id r) (pse_name project) (pse_description project)
      (pse_scan_interval_secs project) (pse_nag_interval_secs project) (pr_created_at r))
    id (projects d)) d).

Definition delete_project (id : Z) : M (res DbErr unit) :=
  execute (cascade_projects (fun i => i =? id)).

Definition all_project_scan_intervals : M (res DbErr (gmap Z (option Z))) :=
  query (fun d => Ok (pr_scan_interval_secs <$> t_rows (projects d))).
Definition all_project_nag_intervals : M (res DbErr (gmap Z (option Z))) :=
  query (fun d => Ok (pr_nag_interval_secs <$> t_rows (projects d))).
Definition all_project_names : M (res DbErr (gmap Z str)) :=
  query (fun d => Ok (pr_name <$> t_rows (projects d))).

(** ** Settings *)

Definition get_setting (key : str) : M (res DbErr (option str)) :=
  query (fun d => Ok (settings d !! key)).
Definition set_setting (key value : str) : M (res DbErr unit) :=
  execute (fun d => set_settings (<[key := value]> (settings d)) d).

(** A read failure also yields [None]. *)
Definition display_timezone : M (option str) :=
  do r := get_setting (lit "display_timezone") in
  mret (match r with
        | Ok (Some s) => let t := trim s in if is_empty t then None else Some t
        | _ => None
        end).

(** ** Channels and bindings *)

Definition create_channel (channel : NewChannel) (now : Z) : M (res DbErr Z) :=
  stmt (fun d =>
    if is_row (projects d) (nch_project_id channel) then
      let '(id, t) := insert_row {|
        chr_project_id := nch_project_id channel;
        chr_kind := as_str (nch_kind channel);
        chr_name := nch_name channel;
        chr_config_json := nch_config_json channel;
        chr_created_at := to_rfc3339 now |} (channels d) in
      Ok (id, set_channels t d)
    else Err DE_ForeignKey).

Definition find_channel (id : Z) : M (res DbErr (option Channel)) :=
  query (fun d => transpose row_to_channel ((fun r => (id, r)) <$> t_rows (channels d) !! id)).

Definition list_channels_for_project (project_id : Z) : M (res DbErr (list Channel)) :=
  query (fun d => collect row_to_channel
    (select (fun _ r => chr_project_id r =? project_id) (channels d))).

Definition update_channel (id : Z) (name config_json : str) : M (res DbErr unit) :=
  execute (fun d => set_channels (update_row (fun r =>
    mk_ChannelRow (chr_project_id r) (chr_kind r) name config_json (chr_created_at r))
    id (channels d)) d).

Definition delete_channel (id : Z) : M (res DbErr unit) :=
  execute (cascade_channels (fun i => i =? id)).

Definition bind_channel (check_id channel_id : Z) : M (res DbErr unit) :=
  stmt (fun d =>
    if is_row (checks d) check_id && is_row (channels d) channel_id then
      Ok (tt, set_bindings ({[(check_id, channel_id)]} ∪ check_channels d) d)
    else Err DE_ForeignKey).

Definition bind_all_project_channels (check_id project_id : Z) : M (res DbErr unit) :=
  stmt (fun d =>
    let ids := map fst (select (fun _ r => chr_project_id r =? project_id) (channels d)) in
    if is_empty ids || is_row (checks d) check_id then
      Ok (tt, set_bindings (list_to_set (map (pair check_id) ids) ∪ check_channels d) d)
    else Err DE_ForeignKey).

Definition unbind_channel (check_id channel_id : Z) : M (res DbErr unit) :=
  execute (fun d => set_bindings (check_channels d ∖ {[(check_id, channel_id)]}) d).

Definition snd_le (a b : Z * Z) : Prop := a.2 <= b.2.
#[export] Instance snd_le_dec : RelDecision snd_le.
Proof. intros a b. unfold snd_le. apply _. Defined.

(** Ordered by [channel_id]: the channels are scanned in key order. *)
Definition bound_channel_ids (check_id : Z) : M (res DbErr (list Z)) :=
  query (fun d => Ok (map snd (merge_sort snd_le
    (List.filter (fun cc => cc.1 =? check_id) (elements (check_channels d)))))).

Definition channels_for_check (check_id : Z) : M (res DbErr (list Channel)) :=
  query (fun d => collect row_to_channel
    (select (fun id _ => bool_decide ((check_id, id) ∈ check_channels d)) (channels d))).

Definition checks_with_channels (check_ids : list Z) : M (res DbErr (gset Z)) :=
  if is_empty check_ids then mret (Ok ∅) else
  query (fun d => Ok (list_to_set (List.filter (fun c => bool_decide (c ∈ check_ids))
    (map fst (elements (check_channels d)))))).

(** ** Notifications, audit and retention *)

(** [CHECK (event IN ('down','up','reminder'))]. *)
Definition record_notification (n : NewNotification) (now : Z) : M (res DbErr unit) :=
  stmt (fun d =>
    if bool_decide (nn_event n = EK_Test) then Err DE_Check
    else if is_row (checks d) (nn_check_id n) && is_row (channels d) (nn_channel_id n) then
      let '(_, t) := insert_row {|
        nr_check_id := nn_check_id n;
        nr_channel_id := nn_channel_id n;
        nr_event := as_str (nn_event n);
        nr_status := as_str (nn_status n);
        nr_error := nn_error n;
        nr_created_at := to_rfc3339 now |} (notifications d) in
      Ok (tt, set_notifications t d)
    else Err DE_ForeignKey).

Definition record_audit (a : NewAudit) (now : Z) : M (res DbErr Z) :=
  stmt (fun d =>
    let '(id, t) := insert_row {|
      ar_actor_user_id := na_actor_user_id a;
      ar_actor_username := na_actor_username a;
      ar_action := na_action a;
      ar_target_type := na_target_type a;
      ar_target_id := na_target_id a;
      ar_target_owner_id := na_target_owner_id a;
      ar_method := na_method a;
      ar_path := na_path a;
      ar_detail := na_detail a;
      ar_created_at := to_rfc3339 now |} (audit_log d) in
    Ok (id, set_audit_log t d)).

(** [DELETE FROM t WHERE created_at < $1], with the rows affected. *)
Definition delete_before {R} (created_at : R -> str) (cutoff : str) (t : Table R) : Z * Table R :=
  let p _ r := str_ltb (created_at r) cutoff in (count_where p t, delete_where p t).

Definition delete_pings_before (cutoff : str) : M (res DbErr Z) :=
  stmt (fun d => let '(n, t) := delete_before pgr_created_at cutoff (pings d) in
                 Ok (n, set_pings t d)).
Definition delete_audit_before (cutoff : str) : M (res DbErr Z) :=
  stmt (fun d => let '(n, t) := delete_before ar_created_at cutoff (audit_log d) in
                 Ok (n, set_audit_log t d)).
Definition delete_notifications_before (cutoff : str) : M (res DbErr Z) :=
  stmt (fun d => let '(n, t) := delete_before nr_created_at cutoff (notifications d) in
                 Ok (n, set_notifications t d)).

Definition notification_counts_since (cutoff : Z) : M (res DbErr (Z * Z)) :=
  let since status _ r :=
    bool_decide (nr_status r = as_str status) && str_leb (to_rfc3339 cutoff) (nr_created_at r) in
  let? ok := query (fun d => Ok (count_where (since NS_Ok) (notifications d))) in
  let? err := query (fun d => Ok (count_where (since NS_Error) (notifications d))) in
  mret (Ok (ok, err)).

Definition count_projects : M (res DbErr Z) :=
  query (fun d => Ok (count_where (fun _ _ => true) (projects d))).
Definition count_checks : M (res DbErr Z) :=
  query (fun d => Ok (count_where (fun _ _ => true) (checks d))).
Definition count_pings_since (cutoff : Z) : M (res DbErr Z) :=
  query (fun d => Ok (count_where
    (fun _ r => str_leb (to_rfc3339 cutoff) (pgr_created_at r)) (pings d))).

Record CheckStatusCounts := mk_CheckStatusCounts {
  sc_new : Z; sc_up : Z; sc_down : Z; sc_paused : Z; sc_running : Z;
}.

(** [status IN ('up','new') AND last_start_at IS NOT NULL AND (last_ping_at IS NULL OR
    last_start_at > last_ping_at)], on the text columns. *)
Definition running_row (r : CheckRow) : bool :=
  status_in [CS_Up; CS_New] r &&
  match cr_last_start_at r, cr_last_ping_at r with
  | None, _ => false
  | Some _, None => true
  | Some s, Some p => str_ltb p s
  end.

Definition count_checks_by_status : M (res DbErr CheckStatusCounts) :=
  let n d s := count_where (fun _ r => status_in [s] r) (checks d) in
  let? c := query (fun d => Ok (n d CS_New, n d CS_Up, n d CS_Down, n d CS_Paused)) in
  let? running := query (fun d => Ok (count_where (fun _ r => running_row r) (checks d))) in
  let '(new, up, down, paused) := c in
  mret (Ok (mk_CheckStatusCounts new up down paused running)).

End store.
