(* ===== verification/Sessions.v ===== *)
(** * Sessions: the session statements of [src/store.rs] and the users of [src/auth.rs]

    Sessions are compared as text in SQL and as instants in Rust; [created_at = '']
    marks a row of unknown age. *)
From S2P Require Import Prelude Text Models Config Wire Secret Chrono Auth Db Rows Store.
#[local] Open Scope Z_scope.
#[local] Open Scope pw_scope.

Section sessions.
Context `{Chrono}.

Definition set_session (id : str) (r : SessionRow) (d : Db) : Db :=
  set_sessions (<[id := r]> (sessions d)) d.

Definition create_session (session : NewSession) (now : Z) : M (res DbErr unit) :=
  stmt (fun d =>
    if bool_decide (is_Some (sessions d !! nse_id session)) then Err DE_Unique
    else if is_row (users d) (nse_user_id session) then
      Ok (tt, set_session (nse_id session) {|
        sr_user_id := nse_user_id session;
        sr_expires_at := to_rfc3339 (nse_expires_at session);
        sr_created_at := to_rfc3339 now;
        sr_last_seen_at := None;
        sr_user_agent := nse_user_agent session;
        sr_ip := nse_ip session;
        sr_sso := Z.b2z (nse_sso session) |} d)
    else Err DE_ForeignKey).

(** [UPDATE sessions SET last_seen_at = $1[, expires_at = $2] WHERE id = ...]. *)
Definition seen (now : Z) (expires_at : option Z) (r : SessionRow) : SessionRow :=
  mk_SessionRow (sr_user_id r)
    (match expires_at with Some t => to_rfc3339 t | None => sr_expires_at r end)
    (sr_created_at r) (Some (to_rfc3339 now)) (sr_user_agent r) (sr_ip r) (sr_sso r).
Definition update_session (f : SessionRow -> SessionRow) (id : str) (d : Db) : Db :=
  set_sessions (alter f id (sessions d)) d.

(** The joined row: the session unexpired, its user present. *)
Definition session_user_row (session_id : str) (now : Z) (d : Db) : option (SessionRow * UserRow) :=
  s ← sessions d !! session_id;
  u ← t_rows (users d) !! sr_user_id s;
  if str_ltb (to_rfc3339 now) (sr_expires_at s) then Some (s, u) else None.

Definition find_session_user (session_id : str) (now : Z) : M (res DbErr (option User)) :=
  let? row := query (fun d => Ok (session_user_row session_id now d)) in
  match row with
  | None => mret (Ok None)
  | Some (s, u) =>
      let created := parse_ts (Some (sr_created_at s)) in
      do capped := mexec (is_past_absolute_cap created now) in
      if (capped : bool) then mret (Ok None) else
      let stale := is_stale (sr_last_seen_at s) now in
      match parse_ts (Some (sr_expires_at s)) with
      | None => mret (Err DE_Decode)
      | Some expires =>
          do renewal := mexec (refreshed_expiry created expires now) in
          let? _ :=
            match renewal, stale with
            | Some n, _ => execute (update_session (seen now (Some (sn_expires_at n))) session_id)
            | None, true => execute (update_session (seen now None) session_id)
            | None, false => mret (Ok tt)
            end in
          mret (let+ user := row_to_user (sr_user_id s, u) in Ok (Some user))
      end
  end.

Definition delete_sessions_where (p : str -> SessionRow -> bool) : M (res DbErr Z) :=
  stmt (fun d =>
    let gone := filter (fun kr : str * SessionRow => p kr.1 kr.2 = true) (sessions d) in
    Ok (Z.of_nat (size gone),
        set_sessions (filter (fun kr : str * SessionRow => p kr.1 kr.2 = false) (sessions d)) d)).

Definition delete_session (id : str) : M (res DbErr unit) :=
  let? _ := delete_sessions_where (fun k _ => bool_decide (k = id)) in mret (Ok tt).

(** [ORDER BY created_at DESC, id]. *)
Definition session_le (a b : str * SessionRow) : Prop :=
  str_ltb (sr_created_at b.2) (sr_created_at a.2) = true \/
  sr_created_at a.2 = sr_created_at b.2 /\ str_leb a.1 b.1 = true.
#[export] Instance session_le_dec : RelDecision session_le.
Proof. intros a b. unfold session_le. apply _. Defined.

(** [filter(|s| !is_past_absolute_cap(...))]: the predicate may panic. *)
Fixpoint drop_capped (now : Z) (l : list Session) : exec (list Session) :=
  match l with
  | [] => Done []
  | s :: l' =>
      let* capped := is_past_absolute_cap (s_created_at s) now in
      let* rest := drop_capped now l' in
      Done (if (capped : bool) then rest else s :: rest)
  end.

Definition list_sessions_for_user (user_id now : Z) : M (res DbErr (list Session)) :=
  let? ss := query (fun d => collect row_to_session (merge_sort session_le
    (List.filter (fun kr => (sr_user_id kr.2 =? user_id) && str_ltb (to_rfc3339 now) (sr_expires_at kr.2))
       (map_to_list (sessions d))))) in
  do l := mexec (drop_capped now ss) in
  mret (Ok l).

(** [now - Duration::days(30)], as text. *)
Definition cap_before (now : Z) : exec str :=
  let* t := dt_add now (- days SESSION_ABSOLUTE_MAX_DAYS) in Done (to_rfc3339 t).

(** [created_at <> '' AND created_at <= $n]. *)
Definition past_cap_text (cap : str) (r : SessionRow) : bool :=
  negb (is_empty (sr_created_at r)) && str_leb (sr_created_at r) cap.

Definition delete_capped_sessions_for_user (user_id now : Z) : M (res DbErr Z) :=
  do cap := mexec (cap_before now) in
  delete_sessions_where (fun _ r => (sr_user_id r =? user_id) && past_cap_text cap r).

Definition delete_session_owned (id : str) (user_id : Z) : M (res DbErr bool) :=
  let? n := delete_sessions_where (fun k r => bool_decide (k = id) && (sr_user_id r =? user_id)) in
  mret (Ok (0 <? n)).
Definition delete_other_sessions_for_user (user_id : Z) (keep_id : str) : M (res DbErr Z) :=
  delete_sessions_where (fun k r => (sr_user_id r =? user_id) && negb (bool_decide (k = keep_id))).
Definition delete_sessions_for_user (user_id : Z) : M (res DbErr Z) :=
  delete_sessions_where (fun _ r => sr_user_id r =? user_id).

Definition expired_text (now : Z) (cap : str) (r : SessionRow) : bool :=
  str_leb (sr_expires_at r) (to_rfc3339 now) || past_cap_text cap r.
Definition delete_expired_sessions (now : Z) : M (res DbErr Z) :=
  do cap := mexec (cap_before now) in
  delete_sessions_where (fun _ r => expired_text now cap r).

(** ** Who is signed in: [src/auth.rs] *)

Context `{Crypto} `{IpText}.

(** The parts of a request the extractors read. *)
Record Parts := mk_Parts {
  rp_headers : HeaderMap;
  rp_cookies : str -> option str;
  rp_peer : option IpAddr;
}.

Definition forward_auth_user (config : Config) (headers : HeaderMap) (peer_ip : option IpAddr) (now : Z)
  : M (option User) :=
  match forward_auth_username headers peer_ip config with
  | None => mret None
  | Some username =>
      do r := find_user_by_username username in
      match r with
      | Ok (Some user) => mret (if u_disabled user then None else Some user)
      | Ok None =>
          do c := create_user username None false now in
          match c with
          | Ok id => do f := find_user_by_id id in
                     mret (match f with Ok u => u | Err _ => None end)
          | Err _ => mret None
          end
      | Err _ => mret None
      end
  end.

Definition resolve_user (config : Config) (parts : Parts) : M (option User) :=
  do now := utc_now in
  let cookie_name := session_cookie_name (cf_cookie_secure config) in
  let forward := forward_auth_user config (rp_headers parts) (rp_peer parts) now in
  match session_id_from_jar (rp_cookies parts) (cf_secret config) cookie_name with
  | Some session_id =>
      do r := find_session_user session_id now in
      match r with
      | Ok (Some user) => if u_disabled user then forward else mret (Some user)
      | _ => forward
      end
  | None => forward
  end.

(** [CurrentUser], [OptionalUser] and [AdminUser]: who they let in, or the refusal. *)
Inductive Refusal : Set := RF_RedirectToLogin | RF_AdminOnly.
Definition CurrentUser (config : Config) (parts : Parts) : M (res Refusal User) :=
  do u := resolve_user config parts in
  mret (match u with Some user => Ok user | None => Err RF_RedirectToLogin end).
Definition OptionalUser (config : Config) (parts : Parts) : M (option User) := resolve_user config parts.
Definition AdminUser (config : Config) (parts : Parts) : M (res Refusal User) :=
  let? user := CurrentUser config parts in
  mret (if u_is_admin user then Ok user else Err RF_AdminOnly).

End sessions.

(** ** Theorems *)

Section session_theorems.
Context `{ChronoLaws}.

(** What resolving a session may do to it: nothing, a new [last_seen_at], or also a new
    expiry within the limits of [now] and of the session's age. *)
Definition touched (now : Z) (s s' : SessionRow) : Prop :=
  s' = s \/ s' = seen now None s \/
  exists x, s' = seen now (Some x) s /\ x <= now + hours SESSION_IDLE_TTL_HOURS /\
    forall c, parse_ts (Some (sr_created_at s)) = Some c -> x <= c + days SESSION_ABSOLUTE_MAX_DAYS.

(** The write of a resolution, then the user: what it returns and changes. *)
Lemma touch_then_user now id s u (write : option (SessionRow -> SessionRow)) e w r w' :
  sessions (w_db w) !! id = Some s ->
  match write with Some g => touched now s (g s) | None => True end ->
  mtry (match write with
        | Some g => execute (update_session g id)
        | None => mret (Ok tt)
        end) (fun _ => mret (let+ user := row_to_user (sr_user_id s, u) in Ok (Some user))) e w
    = (Done r, w') ->
  (forall v, r = Ok (Some v) -> row_to_user (sr_user_id s, u) = Ok v) /\
  (w_db w' = w_db w \/ exists s', touched now s s' /\
     w_db w' = update_session (fun _ => s') id (w_db w)).
Proof.
  intros Hs Ht E.
  assert (forall v, (let+ user := row_to_user (sr_user_id s, u) in Ok (Some user)) = Ok (Some v) ->
    row_to_user (sr_user_id s, u) = Ok v) as Hv.
  { intros v Hv. by apply res_bind_ok in Hv as (? & ? & [= ->]). }
  destruct write as [g|].
  2: { unfold mtry, mbind, mret in E. injection E as <- <-. split; [exact Hv|by left]. }
  destruct (execute_step (update_session g id) e w) as (r1 & E1 & _).
  destruct r1 as [[]|x1].
  - rewrite (mtry_Ok _ _ _ _ _ _ E1) in E. unfold mret in E. injection E as <- <-.
    split; [exact Hv|]. right. exists (g s). split; [done|]. simpl. unfold update_session.
    f_equal. apply map_eq. intros k. destruct (decide (k = id)) as [->|].
    + rewrite !lookup_alter_eq. by rewrite Hs.
    + by rewrite !lookup_alter_ne.
  - rewrite (mtry_Err _ _ _ _ _ _ E1) in E. injection E as <- <-. split; [done|by left].
Qed.

Lemma find_session_user_inv id now e w r w' :
  find_session_user id now e w = (Done r, w') ->
  (forall u, r = Ok (Some u) -> exists s ur,
     sessions (w_db w) !! id = Some s /\ t_rows (users (w_db w)) !! sr_user_id s = Some ur /\
     row_to_user (sr_user_id s, ur) = Ok u /\
     str_ltb (to_rfc3339 now) (sr_expires_at s) = true /\
     (forall c, parse_ts (Some (sr_created_at s)) = Some c -> now < c + days SESSION_ABSOLUTE_MAX_DAYS)) /\
  (w_db w' = w_db w \/
   exists s s', sessions (w_db w) !! id = Some s /\ touched now s s' /\
     w_db w' = update_session (fun _ => s') id (w_db w)).
Proof.
  intros E. unfold find_session_user in E.
  destruct (query (fun d => Ok (session_user_row id now d)) e w) as [r0 w1] eqn:Eq.
  pose proof Eq as [-> Hr]%query_db. destruct Hr as [->| ->].
  { rewrite (mtry_Err _ _ _ _ _ _ Eq) in E. simplify_eq. split; [done|by left]. }
  rewrite (mtry_Ok _ _ _ _ _ _ Eq) in E. clear Eq.
  destruct (session_user_row id now (w_db w)) as [[s u]|] eqn:Es.
  2: { unfold mret in E. simplify_eq. split; [done|by left]. }
  unfold session_user_row in Es.
  apply bind_Some in Es as (s0 & Hs & Es). apply bind_Some in Es as (u0 & Hu & Es).
  destruct (str_ltb (to_rfc3339 now) (sr_expires_at s0)) eqn:Elt; simplify_eq.
  apply mbind_inv in E as [[_ ?]|(capped & w2 & Ec & E)]; [done|].
  apply mexec_inv in Ec as [Ecap ->]. destruct capped.
  { unfold mret in E. simplify_eq. split; [done|by left]. }
  destruct (parse_ts (Some (sr_expires_at s))) as [x|].
  2: { unfold mret in E. simplify_eq. split; [done|by left]. }
  apply mbind_inv in E as [[_ ?]|(renewal & w3 & Er & E)]; [done|].
  apply mexec_inv in Er as [Erenew ->].
  assert (forall c, parse_ts (Some (sr_created_at s)) = Some c ->
    now < c + days SESSION_ABSOLUTE_MAX_DAYS) as Halive.
  { intros c Hc. rewrite Hc in Ecap. unfold is_past_absolute_cap in Ecap.
    apply exec_bind_done in Ecap as (cap & Hcap & Ecap). apply absolute_cap_Done in Hcap as [-> _].
    injection Ecap as Ecap. by bool_to_prop. }
  pose (write := match renewal, is_stale (sr_last_seen_at s) now with
                 | Some n, _ => Some (seen now (Some (sn_expires_at n)))
                 | None, true => Some (seen now None)
                 | None, false => None end).
  destruct (touch_then_user now id s u write e (bump (w_db w) w) r w') as [H1 H2].
  - done.
  - subst write. destruct renewal as [n|].
    + right; right. exists (sn_expires_at n). split; [done|].
      apply refreshed_limits in Erenew as (H1 & H2 & _). split; [done|].
      intros c Hc. by rewrite Hc in H2.
    + destruct (is_stale (sr_last_seen_at s) now); [by right; left|done].
  - subst write. rewrite <- E. by destruct renewal, (is_stale (sr_last_seen_at s) now).
  - split; [intros v Hv; exists s, u; split_and!; auto|].
    destruct H2 as [?|(s' & ? & ?)]; [by left|]. right. by exists s, s'.
Qed.

(** C16: a session resolves to a user only while both limits hold. Whatever fails, if
    [find_session_user] yields a user then the session exists, its user exists and is
    that one, its stored expiry is later than [now] and, if its age is known, [now] is
    before thirty days from its creation, so no activity keeps it alive past the cap;
    and, answered or not, nothing changed but that session's own activity, a new expiry
    never exceeding either limit. *)
Theorem find_session_user_sound id now e w r w' :
  find_session_user id now e w = (Done r, w') ->
  (forall u, r = Ok (Some u) -> exists s ur,
     sessions (w_db w) !! id = Some s /\ t_rows (users (w_db w)) !! sr_user_id s = Some ur /\
     row_to_user (sr_user_id s, ur) = Ok u /\
     str_ltb (to_rfc3339 now) (sr_expires_at s) = true /\
     (forall c, parse_ts (Some (sr_created_at s)) = Some c -> now < c + days SESSION_ABSOLUTE_MAX_DAYS)) /\
  (w_db w' = w_db w \/
   exists s s', sessions (w_db w) !! id = Some s /\ touched now s s' /\
     w_db w' = update_session (fun _ => s') id (w_db w)).
Proof. apply find_session_user_inv. Qed.

Lemma to_rfc3339_not_blank t : is_empty (to_rfc3339 t) = false.
Proof. pose proof (to_rfc3339_nonempty t). by destruct (to_rfc3339 t). Qed.

Lemma parse_ts_written t : text_ok t -> parse_ts (Some (to_rfc3339 t)) = Some t.
Proof. apply parse_to_rfc3339. Qed.

(** The text conditions of the prune statement, as instants. *)
Lemma expired_text_instants now s c x :
  sr_created_at s = to_rfc3339 c -> sr_expires_at s = to_rfc3339 x ->
  text_ok c -> text_ok x -> text_ok now -> text_ok (now - days SESSION_ABSOLUTE_MAX_DAYS) ->
  expired_text now (to_rfc3339 (now - days SESSION_ABSOLUTE_MAX_DAYS)) s =
  (x <=? now) || (c + days SESSION_ABSOLUTE_MAX_DAYS <=? now).
Proof.
  intros Hc Hx Tc Tx Tn Tcap. unfold expired_text, past_cap_text.
  rewrite Hc, Hx, to_rfc3339_not_blank, !rfc3339_leb by done. simpl. f_equal.
  apply eq_true_iff_eq. rewrite !Z.leb_le. lia.
Qed.

(** What resolving answers for a stored session, when nothing fails. *)
Lemma find_session_user_answer id now e w s u user c x :
  calm e -> sessions (w_db w) !! id = Some s -> t_rows (users (w_db w)) !! sr_user_id s = Some u ->
  row_to_user (sr_user_id s, u) = Ok user ->
  sr_created_at s = to_rfc3339 c -> sr_expires_at s = to_rfc3339 x ->
  text_ok c -> text_ok x -> text_ok now ->
  dt_min <= c + days SESSION_ABSOLUTE_MAX_DAYS <= dt_max ->
  dt_min <= now + hours SESSION_IDLE_TTL_HOURS <= dt_max ->
  exists w', find_session_user id now e w = (Done (Ok
    (if (x <=? now) || (c + days SESSION_ABSOLUTE_MAX_DAYS <=? now) then None else Some user)), w').
Proof.
  intros He Hs Hu Hok Hc Hx Tc Tx Tn Hr Hi. unfold find_session_user.
  rewrite (mtry_query_calm _ _ e w (session_user_row id now (w_db w)) He) by done.
  assert (session_user_row id now (w_db w) = if x <=? now then None else Some (s, u)) as ->.
  { unfold session_user_row. rewrite Hs. change (Some s ≫= ?f) with (f s). cbv beta. rewrite Hu.
    change (Some u ≫= ?f) with (f u). cbv beta. rewrite Hx, rfc3339_order, Z.ltb_antisym by done. by destruct (x <=? now). }
  destruct (Z.leb_spec x now); cbn [orb]; [by eexists|].
  rewrite Hc, Hx, !parse_ts_written by done. unfold is_past_absolute_cap, refreshed_expiry, absolute_cap.
  rewrite (proj2 (dt_add_Done c _ _)) by done. simpl exec_bind.
  unfold mbind at 1, mexec at 1. destruct (Z.leb_spec (c + days SESSION_ABSOLUTE_MAX_DAYS) now);
    [by eexists|].
  rewrite (proj2 (dt_add_Done now _ _)) by done. simpl exec_bind.
  set (renewal := if c + _ <=? x then _ else _).
  assert (exists n, renewal = Done n) as [n ->].
  { subst renewal. repeat case_match; by eexists. }
  unfold mbind, mexec.
  destruct n as [n|], (is_stale (sr_last_seen_at s) now);
    first [erewrite mtry_Ok by by apply execute_calm | unfold mtry, mbind, mret];
    unfold mret; rewrite Hok; by eexists.
Qed.

(** C17: pruning deletes exactly the sessions that no longer resolve. For a session whose
    user exists and whose columns are timestamps, [delete_expired_sessions] removes it if
    and only if [find_session_user] would refuse it at that instant: no one is signed out
    early, and no dead session outlives a prune. *)
Theorem prune_sessions_exact id now e w s u user c x n w' :
  calm e -> sessions (w_db w) !! id = Some s -> t_rows (users (w_db w)) !! sr_user_id s = Some u ->
  row_to_user (sr_user_id s, u) = Ok user ->
  sr_created_at s = to_rfc3339 c -> sr_expires_at s = to_rfc3339 x ->
  text_ok c -> text_ok x -> text_ok now -> text_ok (now - days SESSION_ABSOLUTE_MAX_DAYS) ->
  dt_min <= c + days SESSION_ABSOLUTE_MAX_DAYS <= dt_max ->
  dt_min <= now + hours SESSION_IDLE_TTL_HOURS <= dt_max ->
  delete_expired_sessions now e w = (Done (Ok n), w') ->
  sessions (w_db w') !! id = None <-> exists w2, find_session_user id now e w = (Done (Ok None), w2).
Proof.
  intros He Hs Hu Hok Hc Hx Tc Tx Tn Tcap Hr Hi E.
  destruct (find_session_user_answer id now e w s u user c x) as [w2 Ef]; try done.
  unfold delete_expired_sessions, cap_before in E. pose proof dt_covers.
  rewrite (proj2 (dt_add_Done now _ (now - days SESSION_ABSOLUTE_MAX_DAYS))) in E
    by (unfold text_ok in *; lia).
  unfold mbind, mexec in E. cbn [exec_bind] in E. unfold delete_sessions_where in E.
  rewrite stmt_calm in E by done. injection E as <- <-. simpl.
  pose proof (expired_text_instants now s c x Hc Hx Tc Tx Tn Tcap) as Ht.
  rewrite Ef. destruct ((x <=? now) || _) eqn:Eb.
  - split; [by eexists|]. intros _. apply map_lookup_filter_None. right. intros y Hy. simpl.
    rewrite Hs in Hy. simplify_eq. by rewrite Ht.
  - split; [|intros [? [=]]]. intros Hnone. exfalso.
    apply map_lookup_filter_None in Hnone as [?|Hnone]; [congruence|].
    by apply (Hnone s Hs).
Qed.

(** The user [u] is the decoding of a stored row. *)
Definition stored_user (d : Db) (u : User) : Prop :=
  exists row, t_rows (users d) !! u_id u = Some row /\ row_to_user (u_id u, row) = Ok u.

Lemma stored_user_iff d d' u : users d' = users d -> stored_user d u -> stored_user d' u.
Proof. unfold stored_user. by intros ->. Qed.

Lemma row_to_user_id i r u : row_to_user (i, r) = Ok u -> u_id u = i.
Proof. intros E. by apply res_bind_ok in E as (? & _ & [= <-]). Qed.

Lemma find_session_user_stored id now e w u w' :
  find_session_user id now e w = (Done (Ok (Some u)), w') -> stored_user (w_db w') u.
Proof.
  intros [H1 H2]%find_session_user_inv. destruct (H1 u eq_refl) as (s & row & _ & Hr & Hd & _).
  pose proof (row_to_user_id _ _ _ Hd) as Hid. rewrite <- Hid in Hr, Hd.
  eapply (stored_user_iff (w_db w)); [|by exists row].
  by destruct H2 as [->|(? & ? & _ & _ & ->)].
Qed.

Lemma find_user_by_id_stored id e w u w' :
  find_user_by_id id e w = (Done (Ok (Some u)), w') ->
  w_db w' = w_db w /\ u_id u = id /\ stored_user (w_db w') u.
Proof.
  intros E. apply query_db in E as [-> [[=]|Eo]]. injection Eo as Eo. symmetry in Eo. simpl.
  destruct (t_rows (users (w_db w)) !! id) as [row|] eqn:Er; [|done]. simpl in Eo.
  apply res_bind_ok in Eo as (u' & Eu & [= ->]). pose proof (row_to_user_id _ _ _ Eu) as Hid.
  split; [done|]. split; [done|]. exists row. by rewrite Hid.
Qed.

Lemma find_user_by_username_stored name e w u w' :
  find_user_by_username name e w = (Done (Ok (Some u)), w') -> stored_user (w_db w') u.
Proof.
  intros E. apply query_db in E as [-> [[=]|Eo]]. injection Eo as Eo. symmetry in Eo. simpl.
  unfold transpose in Eo. destruct (find_row _ _) as [[i row]|] eqn:Ef; [|done].
  apply res_bind_ok in Eo as (u' & Eu & [= ->]). apply find_row_Some in Ef as [Hi _].
  exists row. by rewrite (row_to_user_id _ _ _ Eu).
Qed.

(** The row [create_user] leaves, when it succeeds. *)
Lemma create_user_step name phc is_admin now e w id w' :
  create_user name phc is_admin now e w = (Done (Ok id), w') ->
  t_rows (users (w_db w')) !! id
    = Some (mk_UserRow name phc (Z.b2z is_admin) 0 (to_rfc3339 now)).
Proof.
  unfold create_user, map_err, mbind, stmt. destruct (env_fault _ _); [done|].
  destruct (existsb _ _); [done|]. intros [= <- <-]. simpl. apply lookup_insert_eq.
Qed.

Context `{Crypto} `{IpText}.

(** Whoever is let in is stored and not disabled. *)
Definition lets_in (m : M (option User)) : Prop :=
  forall e w u w', m e w = (Done (Some u), w') -> stored_user (w_db w') u /\ u_disabled u = false.

Lemma forward_auth_user_lets_in config headers peer now :
  lets_in (forward_auth_user config headers peer now).
Proof.
  intros e w u w' E. unfold forward_auth_user in E.
  destruct (forward_auth_username _ _ _) as [name|]; [|done].
  apply mbind_inv in E as [[_ [=]]|(r & w1 & E1 & E)].
  destruct r as [[v|]|]; [| |done].
  - destruct (u_disabled v) eqn:Ed; [done|]. injection E as <- <-.
    split; [by eapply find_user_by_username_stored|done].
  - apply mbind_inv in E as [[_ [=]]|(c & w2 & E2 & E)]. destruct c as [id|]; [|done].
    apply mbind_inv in E as [[_ [=]]|(f & w3 & E3 & E)]. destruct f as [f|]; [|done].
    injection E as -> <-. apply create_user_step in E2.
    apply find_user_by_id_stored in E3 as (D & <- & row & Hr & Hd). split; [by exists row|].
    rewrite D, E2 in Hr. injection Hr as <-. by apply res_bind_ok in Hd as (? & _ & [= <-]).
Qed.

Lemma resolve_user_lets_in config parts : lets_in (resolve_user config parts).
Proof.
  intros e w u w' E. unfold resolve_user in E.
  apply mbind_inv in E as [[_ [=]]|(now & w1 & _ & E)].
  destruct (session_id_from_jar _ _ _) as [id|].
  2: { by eapply forward_auth_user_lets_in. }
  apply mbind_inv in E as [[_ [=]]|(r & w2 & E2 & E)].
  destruct r as [[v|]|]; [|by eapply forward_auth_user_lets_in..].
  destruct (u_disabled v) eqn:Ed; [by eapply forward_auth_user_lets_in|].
  injection E as <- <-. split; [by eapply find_session_user_stored|done].
Qed.

Lemma AdminUser_lets_in config parts e w u w' :
  AdminUser config parts e w = (Done (Ok u), w') ->
  stored_user (w_db w') u /\ u_disabled u = false /\ u_is_admin u = true.
Proof.
  intros E. unfold AdminUser, CurrentUser in E.
  apply mbind_inv in E as [[_ [=]]|(r & w1 & E1 & E)].
  apply mbind_inv in E1 as [[_ [=]]|(o & w2 & E2 & E1)].
  destruct o as [v|]; injection E1 as <- <-; [|done].
  destruct (u_is_admin v) eqn:Ea; [|done]. injection E as <- <-.
  apply resolve_user_lets_in in E2 as [??]. auto.
Qed.

End session_theorems.

(** ** Witnesses *)

#[local] Existing Instance SampleChrono.sample_chrono.
#[local] Existing Instance SampleChrono.sample_chrono_laws.

(** One user and one session of hers, created at 0 and good for three days. *)
Definition session_db : Db :=
  w_db (mbind (create_user (lit "ann") None true 0) (fun _ =>
    create_session (mk_NewSession (lit "sid") 1 (hours 72) None None false) 0)
    (calm_env 0) (world_of empty_db)).2.

Lemma find_session_user_sound_witness :
  exists r w', find_session_user (lit "sid") (hours 40) (calm_env 0) (world_of session_db)
      = (Done (Ok (Some r)), w') /\ u_username r = lit "ann" /\
    exists s, sessions session_db !! lit "sid" = Some s /\ hours 40 < 0 + days SESSION_ABSOLUTE_MAX_DAYS.
Proof.
  pose (r := (find_session_user (lit "sid") (hours 40) (calm_env 0) (world_of session_db)).1).
  pose (w' := (find_session_user (lit "sid") (hours 40) (calm_env 0) (world_of session_db)).2).
  destruct r as [[[u|]|]|] eqn:Er; try (vm_compute in Er; discriminate).
  assert (find_session_user (lit "sid") (hours 40) (calm_env 0) (world_of session_db)
    = (Done (Ok (Some u)), w')) as E by (rewrite <- Er; apply surjective_pairing).
  exists u, w'. split; [exact E|]. split; [clear E; vm_compute in Er; injection Er as <-; reflexivity|].
  destruct (find_session_user_sound _ _ _ _ _ _ E) as [H _].
  destruct (H u eq_refl) as (s & ur & Hs & _ & _ & _ & Hcap). rewrite world_of_db in Hs.
  exists s. split; [exact Hs|]. apply Hcap. clear -Hs. vm_compute in Hs. injection Hs as <-.
  vm_compute. reflexivity.
Defined.

Definition session_row : SessionRow :=
  mk_SessionRow 1 (to_rfc3339 (hours 72)) (to_rfc3339 0) None None None 0.
Definition user_row : UserRow := mk_UserRow (lit "ann") None 1 0 (to_rfc3339 0).

Lemma prune_sessions_exact_witness :
  sessions (w_db (delete_expired_sessions (hours 73) (calm_env 0) (world_of session_db)).2) !! lit "sid"
    = None /\
  exists w2, find_session_user (lit "sid") (hours 73) (calm_env 0) (world_of session_db)
    = (Done (Ok None), w2).
Proof.
  assert (sessions (w_db (delete_expired_sessions (hours 73) (calm_env 0) (world_of session_db)).2)
    !! lit "sid" = None) as Hn by (vm_compute; reflexivity).
  split; [exact Hn|].
  refine (proj1 (prune_sessions_exact (lit "sid") (hours 73) (calm_env 0) (world_of session_db)
    session_row user_row (mk_User 1 (lit "ann") None true false 0) 0 (hours 72) 1
    (delete_expired_sessions (hours 73) (calm_env 0) (world_of session_db)).2
    (calm_env_calm 0) _ _ _ _ _ _ _ _ _ _ _ _) Hn); try (vm_compute; reflexivity);
    vm_compute; split; discriminate.
Defined.

