(* ===== verification/Keyset.v ===== *)
(** * Keyset: the pagination of [src/store.rs]

    The filters, the SQL text [keyset_sql] builds with its bound values, the rows that
    statement selects, and [keyset_rows_to_page]. The rows are selected by [keyset_select]
    from the same [KeysetQuery]: the scope, the filters, the cursor, the order and the
    limit, columns being read by name. *)
From S2P Require Import Prelude Text Models Config Wire Chrono Db Rows Store.
#[local] Open Scope Z_scope.
#[local] Open Scope pw_scope.

Inductive PageCursor : Set :=
| PC_Latest
| PC_Before (id : Z)
| PC_After (id : Z).

Record Page (T : Type) := mk_Page {
  pa_items : list T;
  pa_has_newer : bool;
  pa_has_older : bool;
}.
Arguments mk_Page {T} _ _ _.
Arguments pa_items {T} _.
Arguments pa_has_newer {T} _.
Arguments pa_has_older {T} _.

Inductive QueryBind : Type :=
| QB_Int (n : Z)
| QB_Text (s : str).

Inductive CmpOp : Set := Op_Ge | Op_Le | Op_Eq.
Definition op_text (op : CmpOp) : str :=
  match op with Op_Ge => lit ">=" | Op_Le => lit "<=" | Op_Eq => lit "=" end.

Inductive Predicate : Type :=
| TextCmp (col : str) (op : CmpOp) (v : str)
| TextIn (col : str) (vals : list str).

(** ** Filters *)

Section filters.
Context `{Chrono}.

Definition date_predicates (from to_ : option Z) : list Predicate :=
  match from with Some f => [TextCmp (lit "created_at") Op_Ge (to_rfc3339 f)] | None => [] end
  ++ match to_ with Some t => [TextCmp (lit "created_at") Op_Le (to_rfc3339 t)] | None => [] end.

Record PingFilter := mk_PingFilter {
  pf_kinds : list PingKind; pf_from : option Z; pf_to : option Z }.
Definition PingFilter_is_empty (f : PingFilter) : bool :=
  is_empty (pf_kinds f) && bool_decide (pf_from f = None) && bool_decide (pf_to f = None).
Definition PingFilter_predicates (f : PingFilter) : list Predicate :=
  (if is_empty (pf_kinds f) then [] else [TextIn (lit "kind") (map as_str (pf_kinds f))])
  ++ date_predicates (pf_from f) (pf_to f).

Record NotifFilter := mk_NotifFilter {
  nf_events : list EventKind; nf_statuses : list NotifyStatus;
  nf_from : option Z; nf_to : option Z }.
Definition NotifFilter_is_empty (f : NotifFilter) : bool :=
  is_empty (nf_events f) && is_empty (nf_statuses f)
  && bool_decide (nf_from f = None) && bool_decide (nf_to f = None).
Definition NotifFilter_predicates (f : NotifFilter) : list Predicate :=
  (if is_empty (nf_events f) then [] else [TextIn (lit "event") (map as_str (nf_events f))])
  ++ (if is_empty (nf_statuses f) then [] else [TextIn (lit "status") (map as_str (nf_statuses f))])
  ++ date_predicates (nf_from f) (nf_to f).

Record AuditFilter := mk_AuditFilter {
  af_actor : option str; af_action : option str; af_from : option Z; af_to : option Z }.
Definition AuditFilter_is_empty (f : AuditFilter) : bool :=
  bool_decide (af_actor f = None) && bool_decide (af_action f = None)
  && bool_decide (af_from f = None) && bool_decide (af_to f = None).
Definition AuditFilter_predicates (f : AuditFilter) : list Predicate :=
  match af_actor f with Some a => [TextCmp (lit "actor_username") Op_Eq a] | None => [] end
  ++ match af_action f with Some a => [TextCmp (lit "action") Op_Eq a] | None => [] end
  ++ date_predicates (af_from f) (af_to f).

End filters.

(** ** The statement *)

Record KeysetQuery := mk_KeysetQuery {
  kq_table : str;
  kq_scope : option (str * Z);
  kq_cursor : PageCursor;
  kq_limit : Z;
  kq_filters : list Predicate;
}.

(** [${n}]. *)
Definition placeholder (n : nat) : str := lit "$" ++ show_Z (Z.of_nat n).

(** Conditions and binds accumulate; a placeholder's number is the binds' length. *)
Definition Acc : Type := list str * list QueryBind.

Definition push_cond (text : str -> str) (b : QueryBind) (acc : Acc) : Acc :=
  let '(conds, binds) := acc in
  (conds ++ [text (placeholder (S (length binds)))], binds ++ [b]).

Definition sql_filter (acc : Acc) (f : Predicate) : Acc :=
  match f with
  | TextCmp col op v =>
      push_cond (fun p => col ++ lit " " ++ op_text op ++ lit " " ++ p) (QB_Text v) acc
  | TextIn col vals =>
      let '(conds, binds) := acc in
      let phs := map (fun i => placeholder (S (length binds + i))) (seq 0 (length vals)) in
      (conds ++ [col ++ lit " IN (" ++ join (lit ",") phs ++ lit ")"],
       binds ++ map QB_Text vals)
  end.

Definition sql_scope (scope : option (str * Z)) (acc : Acc) : Acc :=
  match scope with
  | Some (col, id) => push_cond (fun p => col ++ lit " = " ++ p) (QB_Int id) acc
  | None => acc
  end.

Definition sql_cursor (cursor : PageCursor) (acc : Acc) : Acc * str :=
  match cursor with
  | PC_Latest => (acc, lit "DESC")
  | PC_Before id => (push_cond (fun p => lit "id < " ++ p) (QB_Int id) acc, lit "DESC")
  | PC_After id => (push_cond (fun p => lit "id > " ++ p) (QB_Int id) acc, lit "ASC")
  end.

Definition keyset_sql (q : KeysetQuery) : str * list QueryBind :=
  let acc := sql_scope (kq_scope q) ([], []) in
  let acc := fold_left sql_filter (kq_filters q) acc in
  let '((conds, binds), order) := sql_cursor (kq_cursor q) acc in
  let binds := binds ++ [QB_Int (kq_limit q + 1)] in
  let where_clause := if is_empty conds then [] else lit " WHERE " ++ join (lit " AND ") conds in
  (lit "SELECT * FROM " ++ kq_table q ++ where_clause ++ lit " ORDER BY id " ++ order
   ++ lit " LIMIT " ++ placeholder (length binds), binds).

Example keyset_sql_example :
  keyset_sql (mk_KeysetQuery (lit "pings") (Some (lit "check_id", 7)) (PC_Before 40) 20
    [TextIn (lit "kind") [lit "fail"; lit "log"]; TextCmp (lit "created_at") Op_Ge (lit "2026")])
  = (lit "SELECT * FROM pings WHERE check_id = $1 AND kind IN ($2,$3) AND created_at >= $4 AND id < $5 ORDER BY id DESC LIMIT $6",
     [QB_Int 7; QB_Text (lit "fail"); QB_Text (lit "log"); QB_Text (lit "2026"); QB_Int 40; QB_Int 21]).
Proof. reflexivity. Qed.

(** ** The rows it selects *)

(** A row's columns by name. *)
Record Columns (R : Type) := mk_Columns {
  col_text : str -> R -> str;
  col_int : str -> R -> Z;
}.
Arguments mk_Columns {R} _ _.
Arguments col_text {R} _ _ _.
Arguments col_int {R} _ _ _.

Definition cmp_text (op : CmpOp) (a b : str) : bool :=
  match op with
  | Op_Ge => str_leb b a
  | Op_Le => str_leb a b
  | Op_Eq => bool_decide (a = b)
  end.

Definition passes {R} (cols : Columns R) (r : R) (f : Predicate) : bool :=
  match f with
  | TextCmp col op v => cmp_text op (col_text cols col r) v
  | TextIn col vals => bool_decide (col_text cols col r ∈ vals)
  end.

(** The scope and the filters, without the cursor. *)
Definition in_view {R} (cols : Columns R) (q : KeysetQuery) (r : R) : bool :=
  match kq_scope q with Some (col, id) => col_int cols col r =? id | None => true end
  && forallb (passes cols r) (kq_filters q).

Definition past_cursor (cursor : PageCursor) (id : Z) : bool :=
  match cursor with
  | PC_Latest => true
  | PC_Before c => id <? c
  | PC_After c => c <? id
  end.

(** [ORDER BY id DESC] or [ASC], then [LIMIT limit + 1]. *)
Definition keyset_select {R} (cols : Columns R) (q : KeysetQuery) (t : Table R) : list (Z * R) :=
  let sel := select (fun id r => in_view cols q r && past_cursor (kq_cursor q) id) t in
  let sel := match kq_cursor q with PC_After _ => sel | _ => rev sel end in
  take (Z.to_nat (kq_limit q + 1)) sel.

(** [Vec::pop]. *)
Definition pop {A} (l : list A) : list A := removelast l.

Definition keyset_rows_to_page {R T} (row_to : Z * R -> res DbErr T) (q : KeysetQuery)
    (rows : list (Z * R)) : res DbErr (Page T) :=
  let limit := kq_limit q in
  let overflowed := limit <? Z.of_nat (length rows) in
  match kq_cursor q with
  | PC_After _ =>
      let rows := if overflowed then pop rows else rows in
      let+ items := collect row_to rows in
      Ok {| pa_items := rev items; pa_has_newer := overflowed; pa_has_older := true |}
  | _ =>
      let+ items := collect row_to (take (Z.to_nat limit) rows) in
      Ok {| pa_items := items;
            pa_has_newer := match kq_cursor q with PC_Before _ => true | _ => false end;
            pa_has_older := overflowed |}
  end.

Definition keyset_page {R T} (cols : Columns R) (row_to : Z * R -> res DbErr T)
    (table : Db -> Table R) (q : KeysetQuery) : M (res DbErr (Page T)) :=
  let? rows := query (fun d => Ok (keyset_select cols q (table d))) in
  mret (keyset_rows_to_page row_to q rows).

(** ** The three tables *)

Definition ping_columns : Columns PingRow := {|
  col_text c r := if bool_decide (c = lit "kind") then pgr_kind r else pgr_created_at r;
  col_int c r := pgr_check_id r |}.
Definition notification_columns : Columns NotificationRow := {|
  col_text c r := if bool_decide (c = lit "event") then nr_event r
                  else if bool_decide (c = lit "status") then nr_status r else nr_created_at r;
  col_int c r := nr_check_id r |}.
Definition audit_columns : Columns AuditRow := {|
  col_text c r := if bool_decide (c = lit "actor_username") then ar_actor_username r
                  else if bool_decide (c = lit "action") then ar_action r else ar_created_at r;
  col_int c r := ar_actor_user_id r |}.

Section store_pages.
Context `{Chrono}.

Definition list_pings_page (check_id : Z) (cursor : PageCursor) (limit : Z) (filter : PingFilter)
  : M (res DbErr (Page Ping)) :=
  keyset_page ping_columns row_to_ping pings
    (mk_KeysetQuery (lit "pings") (Some (lit "check_id", check_id)) cursor limit
       (PingFilter_predicates filter)).

Definition list_notifications_page (check_id : Z) (cursor : PageCursor) (limit : Z)
    (filter : NotifFilter) : M (res DbErr (Page Notification)) :=
  keyset_page notification_columns row_to_notification notifications
    (mk_KeysetQuery (lit "notifications") (Some (lit "check_id", check_id)) cursor limit
       (NotifFilter_predicates filter)).

Definition list_audit_page (cursor : PageCursor) (limit : Z) (filter : AuditFilter)
  : M (res DbErr (Page AuditLog)) :=
  keyset_page audit_columns row_to_audit audit_log
    (mk_KeysetQuery (lit "audit_log") None cursor limit (AuditFilter_predicates filter)).

(** ** The other listings *)

Definition newest {R} (p : Z -> R -> bool) (limit : Z) (t : Table R) : list (Z * R) :=
  take (Z.to_nat limit) (rev (select p t)).

Definition list_recent_pings (check_id limit : Z) : M (res DbErr (list Ping)) :=
  query (fun d => collect row_to_ping (newest (fun _ r => pgr_check_id r =? check_id) limit (pings d))).
Definition list_recent_ping_summaries (check_id limit : Z) : M (res DbErr (list PingSummary)) :=
  query (fun d => collect row_to_ping_summary
    (newest (fun _ r => pgr_check_id r =? check_id) limit (pings d))).
Definition list_recent_notifications (check_id limit : Z) : M (res DbErr (list Notification)) :=
  query (fun d => collect row_to_notification
    (newest (fun _ r => nr_check_id r =? check_id) limit (notifications d))).
Definition list_audit (limit : Z) : M (res DbErr (list AuditLog)) :=
  query (fun d => collect row_to_audit (newest (fun _ _ => true) limit (audit_log d))).
Definition recent_failed_notifications (limit : Z) : M (res DbErr (list Notification)) :=
  query (fun d => collect row_to_notification
    (newest (fun _ r => bool_decide (nr_status r = as_str NS_Error)) limit (notifications d))).

(** [map.entry(k).or_default().push(x)] for every element. *)
Definition group_by {A} (key : A -> Z) (l : list A) : gmap Z (list A) :=
  fold_left (fun m x => <[key x := default [] (m !! key x) ++ [x]]> m) l ∅.

(** Sorted and without duplicates: the order the partitions are read in. *)
Definition distinct_sorted (ids : list Z) : list Z := merge_sort Z.le (remove_dups ids).

(** The newest [per_check_limit] of each check, by check. *)
Definition list_recent_ping_summaries_for_checks (check_ids : list Z) (per_check_limit : Z)
  : M (res DbErr (gmap Z (list PingSummary))) :=
  if is_empty check_ids then mret (Ok ∅) else
  query (fun d =>
    let rows := concat (map (fun id =>
      newest (fun _ r => pgr_check_id r =? id) per_check_limit (pings d)) (distinct_sorted check_ids)) in
    let+ ps := collect row_to_ping_summary rows in
    Ok (group_by ps_check_id ps)).

Definition list_checks_for_projects (project_ids : list Z) : M (res DbErr (gmap Z (list Check))) :=
  if is_empty project_ids then mret (Ok ∅) else
  query (fun d =>
    let rows := concat (map (fun id => select (fun _ r => cr_project_id r =? id) (checks d))
                  (distinct_sorted project_ids)) in
    let+ cs := collect row_to_check rows in
    Ok (group_by c_project_id cs)).

(** The inner join with the owner drops a project without one. *)
Definition owner_name (d : Db) (user_id : Z) : option str := ur_username <$> t_rows (users d) !! user_id.
Definition list_all_projects_with_owner : M (res DbErr (list (Project * str))) :=
  query (fun d => collect (fun x : (Z * ProjectRow) * str => let+ p := row_to_project x.1 in Ok (p, x.2))
    (omap (fun kr : Z * ProjectRow => name ← owner_name d (pr_user_id kr.2); Some (kr, name))
       (rows (t_rows (projects d))))).

(** [SELECT DISTINCT ... ORDER BY 1]. *)
Definition text_le (a b : str) : Prop := str_leb a b = true.
#[export] Instance text_le_dec : RelDecision text_le.
Proof. intros a b. unfold text_le. apply _. Defined.
Definition distinct_texts (l : list str) : list str := merge_sort text_le (remove_dups l).
Definition audit_filter_options : M (res DbErr (list str * list str)) :=
  let? actors := query (fun d =>
    Ok (distinct_texts (map (fun kr => ar_actor_username kr.2) (rows (t_rows (audit_log d)))))) in
  let? actions := query (fun d =>
    Ok (distinct_texts (map (fun kr => ar_action kr.2) (rows (t_rows (audit_log d)))))) in
  mret (Ok (actors, actions)).

(** [ORDER BY c.last_ping_at IS NULL, c.last_ping_at, c.id], on the text column. *)
Definition oldest_ping_le (a b : Z * CheckRow) : Prop :=
  match cr_last_ping_at a.2, cr_last_ping_at b.2 with
  | None, None => a.1 <= b.1
  | Some _, None => True
  | None, Some _ => False
  | Some s, Some t => str_ltb s t = true \/ s = t /\ a.1 <= b.1
  end.
#[export] Instance oldest_ping_le_dec : RelDecision oldest_ping_le.
Proof. intros a b. unfold oldest_ping_le. repeat case_match; apply _. Defined.

Definition list_down_checks_with_owner : M (res DbErr (list (Check * str * str))) :=
  query (fun d => collect
    (fun x : (Z * CheckRow) * str * str => let+ c := row_to_check x.1.1 in Ok (c, x.1.2, x.2))
    (omap (fun kr : Z * CheckRow =>
       p ← t_rows (projects d) !! cr_project_id kr.2;
       owner ← owner_name d (pr_user_id p);
       Some (kr, pr_name p, owner))
      (merge_sort oldest_ping_le (down_rows d)))).

(** [ORDER BY err DESC, ch.id]. *)
Definition most_failures_le (a b : Z * (str * Z * Z)) : Prop :=
  b.2.2 < a.2.2 \/ a.2.2 = b.2.2 /\ a.1 <= b.1.
#[export] Instance most_failures_le_dec : RelDecision most_failures_le.
Proof. intros a b. unfold most_failures_le. apply _. Defined.

(** One group per channel that has a notification since the cutoff. *)
Definition channel_failure_counts_since (cutoff : Z) : M (res DbErr (list (str * Z * Z))) :=
  query (fun d =>
    let since id r := (nr_channel_id r =? id) && str_leb (to_rfc3339 cutoff) (nr_created_at r) in
    let n id status := count_where
      (fun _ r => since id r && bool_decide (nr_status r = as_str status)) (notifications d) in
    Ok (map snd (merge_sort most_failures_le
      (omap (fun kr : Z * ChannelRow =>
         if 0 <? count_where (fun _ r => since kr.1 r) (notifications d)
         then Some (kr.1, (chr_name kr.2, n kr.1 NS_Ok, n kr.1 NS_Error)) else None)
        (rows (t_rows (channels d))))))).

End store_pages.

(** ** Lemmas *)

Definition desc {R} (a b : Z * R) : Prop := b.1 < a.1.

Lemma collect_app {A B} (f : A -> res DbErr B) l1 l2 :
  collect f (l1 ++ l2) = res_bind (collect f l1) (fun a => res_bind (collect f l2) (fun b => Ok (a ++ b))).
Proof.
  induction l1 as [|x l1 IH]; simpl; [by destruct (collect f l2)|].
  destruct (f x); simpl; [|done]. rewrite IH. destruct (collect f l1); simpl; [|done].
  by destruct (collect f l2).
Qed.

Lemma collect_app_Ok {A B} (f : A -> res DbErr B) l1 l2 ys :
  collect f (l1 ++ l2) = Ok ys <->
  exists y1 y2, ys = y1 ++ y2 /\ collect f l1 = Ok y1 /\ collect f l2 = Ok y2.
Proof.
  rewrite collect_app. destruct (collect f l1), (collect f l2); simpl; naive_solver.
Qed.

Lemma select_sorted {R} (p : Z -> R -> bool) (t : Table R) :
  StronglySorted (fun a b => a.1 < b.1) (select p t).
Proof.
  pose proof (select_NoDup p t) as Hnd. unfold select in *.
  assert (StronglySorted key_le (List.filter (fun kr => p kr.1 kr.2) (rows (t_rows t)))) as Hs.
  { generalize (rows_sorted (t_rows t)). generalize (rows (t_rows t)). clear.
    induction 1 as [|x l Hs IH Hx]; simpl; [constructor|].
    destruct (p x.1 x.2); [|done]. constructor; [done|].
    rewrite Forall_forall in *. intros y Hy. apply Hx.
    rewrite list_elem_of_In, filter_In in Hy. destruct Hy. by apply list_elem_of_In. }
  induction Hs as [|x l Hs IH Hx]; [constructor|].
  rewrite fmap_cons in Hnd. apply NoDup_cons in Hnd as [Hn Hnd]. constructor; [by apply IH|].
  rewrite Forall_forall in *. intros y Hy. specialize (Hx y Hy). unfold key_le in Hx.
  assert (x.1 <> y.1); [|lia]. intros E. apply Hn. rewrite E. apply list_elem_of_fmap. by exists y.
Qed.

Lemma StronglySorted_rev {A} (R : A -> A -> Prop) l :
  StronglySorted R l -> StronglySorted (fun a b => R b a) (rev l).
Proof.
  induction 1 as [|x l Hs IH Hx]; simpl; [constructor|].
  apply StronglySorted_app. split_and!; [|done|repeat constructor].
  intros a b Ha Hb. apply list_elem_of_singleton in Hb as ->.
  rewrite Forall_forall in Hx. apply Hx. by rewrite list_elem_of_In, in_rev, <- list_elem_of_In.
Qed.

Lemma filter_rev {A} (p : A -> bool) l : List.filter p (rev l) = rev (List.filter p l).
Proof.
  induction l as [|x l IH]; simpl; [done|]. rewrite List.filter_app, IH. simpl.
  destruct (p x); simpl; [done|]. by rewrite app_nil_r.
Qed.

Lemma filter_andb {A} (p q : A -> bool) l :
  List.filter (fun x => p x && q x) l = List.filter q (List.filter p l).
Proof.
  induction l as [|x l IH]; simpl; [done|]. destruct (p x); simpl; [|done].
  by destruct (q x); rewrite IH.
Qed.

Lemma filter_none {A} (p : A -> bool) l : (forall x, x ∈ l -> p x = false) -> List.filter p l = [].
Proof.
  induction l as [|x l IH]; intros H; simpl; [done|]. rewrite H by left.
  apply IH. intros y Hy. apply H. by right.
Qed.

(** In a list sorted by descending key, what follows an element is what is below it. *)
Lemma filter_below {R} (a b : list (Z * R)) (x : Z * R) :
  StronglySorted desc (a ++ x :: b) ->
  List.filter (fun kr => kr.1 <? x.1) (a ++ x :: b) = b.
Proof.
  intros H. apply StronglySorted_app in H as (Hab & _ & Hxb).
  apply StronglySorted_inv in Hxb as [_ Hb]. rewrite List.filter_app. simpl.
  rewrite Z.ltb_irrefl, filter_none.
  - simpl. apply list_filter_all. eapply Forall_impl; [exact Hb|].
    intros y Hy. unfold desc in Hy. by apply Z.ltb_lt.
  - intros y Hy. apply Z.ltb_ge. specialize (Hab y x Hy ltac:(left)). unfold desc in Hab. lia.
Qed.

Section paging.
Context {R T : Type} (cols : Columns R) (row_to : Z * R -> res DbErr T) (id_of : T -> Z).
Context (q : KeysetQuery) (t : Table R).

Definition at_cursor (c : PageCursor) : KeysetQuery :=
  mk_KeysetQuery (kq_table q) (kq_scope q) c (kq_limit q) (kq_filters q).

(** All rows of the view, newest first. *)
Definition view : list (Z * R) := rev (select (fun _ r => in_view cols q r) t).

Lemma view_sorted : StronglySorted desc view.
Proof. apply (StronglySorted_rev (fun a b => a.1 < b.1)), select_sorted. Qed.

Lemma keyset_select_view c :
  keyset_select cols (at_cursor c) t =
  take (Z.to_nat (kq_limit q + 1))
    match c with
    | PC_Latest => view
    | PC_Before id => List.filter (fun kr => kr.1 <? id) view
    | PC_After id => rev (List.filter (fun kr => id <? kr.1) view)
    end.
Proof.
  unfold keyset_select, view, select, at_cursor; simpl. f_equal.
  destruct c; simpl; rewrite ?filter_rev, ?rev_involutive, <- ?filter_andb; try done.
  rewrite (List.filter_ext _ (fun kr => in_view cols q kr.2)); [done|].
  intros kr. apply andb_true_r.
Qed.

(** One page, and the walk that follows the link to older rows from page to page. *)
Definition page_at (c : PageCursor) : res DbErr (Page T) :=
  keyset_rows_to_page row_to (at_cursor c) (keyset_select cols (at_cursor c) t).

Fixpoint walk_older (fuel : nat) (c : PageCursor) : res DbErr (list T) :=
  match fuel with
  | O => Ok []
  | S fuel' =>
      let+ page := page_at c in
      if pa_has_older page then
        match List.last (map Some (pa_items page)) None with
        | Some x => let+ rest := walk_older fuel' (PC_Before (id_of x)) in Ok (pa_items page ++ rest)
        | None => Ok (pa_items page)
        end
      else Ok (pa_items page)
  end.

Context (Hlimit : 1 <= kq_limit q).
Context (Hid : forall kr x, row_to kr = Ok x -> id_of x = kr.1).

Lemma last_map_Some {A} (l : list A) x : List.last (map Some (l ++ [x])) None = Some x.
Proof. rewrite map_app. simpl. apply List.last_last. Qed.

Lemma walk_suffix fuel c pre l ys :
  match c with PC_After _ => False | _ => True end ->
  keyset_select cols (at_cursor c) t = take (Z.to_nat (kq_limit q + 1)) l ->
  view = pre ++ l -> (length l < fuel)%nat -> collect row_to l = Ok ys ->
  walk_older fuel c = Ok ys.
Proof.
  revert c pre l ys. induction fuel as [|fuel IH]; intros c pre l ys Hc Hsel Hv Hf Hys; [lia|].
  assert (page_at c = res_bind (collect row_to (take (Z.to_nat (kq_limit q)) l)) (fun items =>
    Ok (mk_Page items match c with PC_Before _ => true | _ => false end
         (kq_limit q <? Z.of_nat (length (take (Z.to_nat (kq_limit q + 1)) l)))))) as Hpage.
  { unfold page_at, keyset_rows_to_page. rewrite Hsel. cbn [kq_cursor kq_limit at_cursor].
    rewrite take_take, Nat.min_l by lia. by destruct c. }
  cbn [walk_older]. rewrite Hpage. rewrite <- (take_drop (Z.to_nat (kq_limit q)) l) in Hys.
  apply collect_app_Ok in Hys as (y1 & y2 & -> & Hy1 & Hy2). rewrite Hy1. cbn [res_bind pa_has_older pa_items].
  rewrite length_take. destruct (Z.ltb_spec (kq_limit q)
    (Z.of_nat (Nat.min (Z.to_nat (kq_limit q + 1)) (length l)))).
  - destruct (exists_last (l := take (Z.to_nat (kq_limit q)) l)) as (a & x & Etake).
    { intros E. apply (f_equal length) in E. rewrite length_take in E. simpl in E. lia. }
    rewrite Etake in Hy1. pose proof Hy1 as Hy1'.
    apply collect_app_Ok in Hy1' as (ya & yx & -> & Hya & Hyx).
    simpl in Hyx. apply res_bind_ok in Hyx as (x' & Hx' & [= <-]).
    rewrite last_map_Some, (Hid _ _ Hx').
    assert (view = pre ++ a ++ x :: drop (Z.to_nat (kq_limit q)) l) as Hv'.
    { rewrite Hv. f_equal. rewrite <- (take_drop (Z.to_nat (kq_limit q)) l) at 1.
      by rewrite Etake, <- (assoc_L (++)). }
    rewrite (IH (PC_Before x.1) (pre ++ a ++ [x]) (drop (Z.to_nat (kq_limit q)) l) y2); [done|done|..].
    + rewrite keyset_select_view, Hv', (assoc_L (++)). rewrite filter_below; [done|].
      rewrite <- (assoc_L (++)), <- Hv'. apply view_sorted.
    + by rewrite Hv', <- !(assoc_L (++)).
    + rewrite length_drop. lia.
    + done.
  - rewrite drop_ge in Hy2 by lia. simpl in Hy2. simplify_eq. by rewrite app_nil_r.
Qed.

End paging.

(** C21: paging loses nothing and repeats nothing. From the newest page, following the
    link to older rows until there is none, whatever the page size, the filters and the
    gaps that deletions left in the ids, yields exactly the rows of the view, each once,
    newest first; a walk of as many steps as there are rows is always long enough. *)
Theorem paging_complete {R T} (cols : Columns R) (row_to : Z * R -> res DbErr T) id_of q t all fuel :
  1 <= kq_limit q -> (forall kr x, row_to kr = Ok x -> id_of x = kr.1) ->
  collect row_to (view cols q t) = Ok all -> (length (view cols q t) < fuel)%nat ->
  walk_older cols row_to id_of q t fuel PC_Latest = Ok all.
Proof.
  intros Hl Hid Hall Hf.
  apply (walk_suffix cols row_to id_of q t Hl Hid fuel PC_Latest [] (view cols q t)); try done.
  by rewrite keyset_select_view.
Qed.

(** ** No value reaches the statement's text *)

Definition same_shape (f g : Predicate) : Prop :=
  match f, g with
  | TextCmp c o _, TextCmp c' o' _ => c = c' /\ o = o'
  | TextIn c vs, TextIn c' vs' => c = c' /\ length vs = length vs'
  | _, _ => False
  end.
Definition same_cursor (a b : PageCursor) : Prop :=
  match a, b with
  | PC_Latest, PC_Latest | PC_Before _, PC_Before _ | PC_After _, PC_After _ => True
  | _, _ => False
  end.

(** Same conditions, and binds of the same number. *)
Definition acc_sim (a b : Acc) : Prop := a.1 = b.1 /\ length a.2 = length b.2.

Lemma push_cond_sim text x y a b : acc_sim a b -> acc_sim (push_cond text x a) (push_cond text y b).
Proof.
  destruct a as [c1 b1], b as [c2 b2]. intros [E L]. simpl in E, L. subst.
  split; simpl; [by rewrite L|]. rewrite !length_app. simpl. lia.
Qed.

Lemma sql_filters_sim fs gs a b :
  Forall2 same_shape fs gs -> acc_sim a b ->
  acc_sim (fold_left sql_filter fs a) (fold_left sql_filter gs b).
Proof.
  intros Hs. revert a b. induction Hs as [|f g fs gs Hfg Hs IH]; intros a b Hab; simpl; [done|].
  apply IH. destruct f as [c o v|c vs], g as [c' o' v'|c' vs']; try done.
  - destruct Hfg as [-> ->]. by apply push_cond_sim.
  - destruct Hfg as [-> Hlen]. destruct a as [c1 b1], b as [c2 b2]. destruct Hab as [E L].
    simpl in *. subst. split; simpl.
    + by rewrite L, Hlen.
    + rewrite !length_app, !length_map. lia.
Qed.

(** Nothing a caller supplies reaches the text of the statement: two queries that
    differ only in the scope's id, the cursor's id, the limit and the filters' values are
    the same text, so every value travels as a bound parameter. *)
Theorem keyset_sql_text_fixed table col ids fs gs c1 c2 l1 l2 :
  Forall2 same_shape fs gs -> same_cursor c1 c2 ->
  (keyset_sql (mk_KeysetQuery table ((fun i => (col, i)) <$> (fst <$> ids)) c1 l1 fs)).1 =
  (keyset_sql (mk_KeysetQuery table ((fun i => (col, i)) <$> (snd <$> ids)) c2 l2 gs)).1.
Proof.
  intros Hfs Hc. unfold keyset_sql. cbn [kq_scope kq_filters kq_cursor kq_limit kq_table].
  set (a0 := sql_scope (_ <$> (fst <$> ids)) _). set (b0 := sql_scope (_ <$> (snd <$> ids)) _).
  assert (acc_sim a0 b0) as H0.
  { subst a0 b0. destruct ids as [[i j]|]; [|done].
    by apply (push_cond_sim (fun p => col ++ lit " = " ++ p) (QB_Int i) (QB_Int j) ([], []) ([], [])). }
  pose proof (sql_filters_sim fs gs a0 b0 Hfs H0) as H1.
  set (a1 := fold_left sql_filter fs a0) in *. set (b1 := fold_left sql_filter gs b0) in *.
  assert (acc_sim (sql_cursor c1 a1).1 (sql_cursor c2 b1).1 /\
          (sql_cursor c1 a1).2 = (sql_cursor c2 b1).2) as [H2 Ho].
  { destruct c1, c2; try done; (split; [|done]); by apply push_cond_sim. }
  destruct (sql_cursor c1 a1) as [[x1 y1] o1], (sql_cursor c2 b1) as [[x2 y2] o2].
  destruct H2 as [E L]. simpl in *. subst. by rewrite !length_app, L.
Qed.

(** ** Witnesses *)

Definition sample_pings : Table PingRow :=
  insert_rows (map (fun k => mk_PingRow k (lit "log") None [] None (lit "x")) [1; 1; 2; 1; 1; 1])
    empty_table.
Definition sample_query : KeysetQuery :=
  mk_KeysetQuery (lit "pings") (Some (lit "check_id", 1)) PC_Latest 2 [].

Lemma paging_complete_witness :
  walk_older ping_columns (fun kr => Ok kr.1) (fun i => i) sample_query sample_pings 9 PC_Latest
  = Ok [6; 5; 4; 2; 1].
Proof.
  apply (paging_complete ping_columns (fun kr => Ok kr.1) (fun i => i)).
  - vm_compute. discriminate.
  - intros kr x [= <-]. reflexivity.
  - vm_compute. reflexivity.
  - vm_compute. lia.
Defined.

Lemma keyset_sql_text_fixed_witness :
  (keyset_sql (mk_KeysetQuery (lit "pings") (Some (lit "check_id", 1)) (PC_Before 3) 20
     [TextCmp (lit "created_at") Op_Ge (lit "2026")])).1 =
  (keyset_sql (mk_KeysetQuery (lit "pings") (Some (lit "check_id", 2)) (PC_Before 9) 50
     [TextCmp (lit "created_at") Op_Ge (lit "' OR 1=1 --")])).1.
Proof.
  apply (keyset_sql_text_fixed (lit "pings") (lit "check_id") (Some (1, 2))).
  - repeat constructor.
  - exact I.
Defined.
