(* ===== verification/Sample.v ===== *)
(** * Sample: a small database for the witnesses, built by the store's own methods

    One user with one project, a check pinged every minute with ten seconds of grace, two
    channels bound to it, and a second check that nothing is bound to. *)
From S2P Require Import Prelude Text Models Config Wire Chrono Db Rows Store.
From S2P Require Secret.
#[local] Open Scope Z_scope.
#[local] Open Scope pw_scope.
#[local] Existing Instance SampleChrono.sample_chrono.

Definition sample_check (name uuid : str) : NewCheck := {|
  nc_project_id := 1;
  nc_name := name;
  nc_description := [];
  nc_ping_uuid := uuid;
  nc_kind := SK_Period;
  nc_period_secs := Some 60;
  nc_grace_secs := 10;
  nc_cron_expr := None;
  nc_timezone := lit "UTC";
  nc_scan_interval_secs := None;
  nc_max_runtime_secs := Some 5;
  nc_nag_interval_secs := Some 30;
|}.

Definition sample_setup : M unit :=
  do _ := create_user (lit "ann") None true 0 in
  do _ := create_project 1 (mk_ProjectSettings (lit "infra") [] None None) 0 in
  do _ := create_check (sample_check (lit "backup") (lit "u1")) in
  do _ := create_check (sample_check (lit "mail") (lit "u2")) in
  do _ := create_channel (mk_NewChannel 1 CK_Webhook (lit "hook") (lit "{}")) 0 in
  do _ := create_channel (mk_NewChannel 1 CK_Telegram (lit "chat") (lit "{}")) 0 in
  do _ := bind_channel 1 1 in
  do _ := bind_channel 1 2 in
  mret tt.

Definition sample_db : Db := w_db (sample_setup (calm_env 0) (world_of empty_db)).2.

Definition sample_config : Config := {|
  cf_database_url := [];
  cf_bind := [];
  cf_base_url := lit "https://p.example";
  cf_scan_interval_secs := 30;
  cf_prune_interval_secs := 3600;
  cf_forward_auth_header := None;
  cf_forward_auth_logout_url := None;
  cf_trusted_proxies := [];
  cf_smtp := None;
  cf_log_format := LF_Full;
  cf_secret := [];
  cf_secret_source := Secret.SS_Generated;
  cf_cookie_secure := true;
  cf_hsts_max_age_secs := 0;
|}.

Example sample_db_shape :
  (map fst (rows (t_rows (checks sample_db))), map fst (rows (t_rows (channels sample_db))),
   elements (check_channels sample_db)) = ([1; 2], [1; 2], [(1, 2); (1, 1)]).
Proof. vm_compute. reflexivity. Qed.

(** The user of [sample_db]. *)
Definition ann_user : User := mk_User 1 (lit "ann") None true false 0.
