(* ===== verification/Notify.v ===== *)
(** * Notify: [src/notify.rs], the notifications and their delivery

    The texts of a notification, the request each kind of channel sends, the retry loop
    and [deliver_event]. The crates behind them are the fields of [NotifyDeps]: reading a
    channel's JSON configuration, parsing a mailbox, building a message, the relay's set-up
    and the text of a status code. *)
From S2P Require Import Prelude Text Models Duration Config Wire Chrono Db Rows Store Sample.
#[local] Open Scope Z_scope.
#[local] Open Scope pw_scope.

Class NotifyDeps := {
  (* [serde_json::from_str], then [v.get(key).and_then(as_str)] *)
  parse_config : str -> option (str -> option str);
  (* [str::parse::<Mailbox>]: the error's text *)
  parse_mailbox : str -> res str unit;
  (* [MessageBuilder::body]: the error's text *)
  build_message : Email -> res str unit;
  (* [AsyncSmtpTransport::relay] and [starttls_relay] *)
  relay_setup : SmtpTls -> str -> res str unit;
  (* [Display] of [StatusCode] *)
  status_text : Z -> str;
}.

(** A line break. *)
Definition newline : str := [10].

(** ** Texts *)

Definition check_url (base_url : str) (check_id : Z) : option str :=
  let base := trim_end_matches (fun c => c =? chr "/") (trim base_url) in
  if is_empty base then None else Some (base ++ lit "/checks/" ++ show_Z check_id).

Definition schedule_summary (check : Check) : str :=
  let grace :=
    if 0 <? c_grace_secs check then lit " (grace " ++ fmt_duration (c_grace_secs check) ++ lit ")"
    else [] in
  match c_schedule_kind check with
  | SK_Period =>
      match c_period_secs check with
      | Some p => lit "every " ++ fmt_duration p ++ grace
      | None => lit "no period set" ++ grace
      end
  | SK_Cron =>
      match c_cron_expr check with
      | Some e => lit "cron " ++ dquote ++ e ++ dquote ++ lit " " ++ c_timezone check ++ grace
      | None => lit "no cron expression set" ++ grace
      end
  end.

Definition from_check (check : Check) (project_name : option str) (base_url : str) : EventDetail := {|
  ed_project_name := project_name;
  ed_url := check_url base_url (c_id check);
  ed_schedule := Some (schedule_summary check);
  ed_last_ping_at := c_last_ping_at check;
  ed_timezone := Some (c_timezone check);
  ed_cause := None;
|}.

Definition with_cause (cause : DownCause) (d : EventDetail) : EventDetail :=
  mk_EventDetail (ed_project_name d) (ed_url d) (ed_schedule d) (ed_last_ping_at d)
    (ed_timezone d) (Some cause).

Definition with_display_timezone (tz : option str) (d : EventDetail) : EventDetail :=
  match non_empty (trim <$> tz) with
  | Some t => mk_EventDetail (ed_project_name d) (ed_url d) (ed_schedule d) (ed_last_ping_at d)
                (Some t) (ed_cause d)
  | None => d
  end.

Definition single_line (s : str) : str := map (fun c => if is_control c then 32 else c) s.

Definition context_line (detail : EventDetail) : option str :=
  match ed_project_name detail, ed_schedule detail with
  | Some p, Some s => Some (lit "Project: " ++ p ++ lit " · " ++ s)
  | Some p, None => Some (lit "Project: " ++ p)
  | None, Some s => Some (lit "Schedule: " ++ s)
  | None, None => None
  end.

Definition event_title (ev : NotificationEvent) : str :=
  let name := single_line (ev_check_name ev) in
  let subject := match ed_project_name (ev_detail ev) with
                 | Some p => single_line p ++ lit "/" ++ name
                 | None => name
                 end in
  match ev_event ev with
  | EK_Test => lit "pingward: test notification for " ++ dquote ++ subject ++ dquote
  | EK_Down => lit "pingward: " ++ subject ++ lit " is DOWN"
  | EK_Up => lit "pingward: " ++ subject ++ lit " is UP"
  | EK_Reminder => lit "pingward: " ++ subject ++ lit " is STILL DOWN"
  end.

Section texts.
Context `{Chrono}.

Definition fmt_at (at_ : Z) (tz : option str) : str :=
  format_at at_ (default utc (tz ≫= tz_parse)).

Definition fmt_at_rel (at_ now : Z) (tz : option str) : str :=
  let secs := num_seconds (now - at_) in
  if 0 <? secs then fmt_at at_ tz ++ lit " (" ++ fmt_duration secs ++ lit " ago)"
  else fmt_at at_ tz.

Definition reason_line (ev : NotificationEvent) : str :=
  let detail := ev_detail ev in
  let tz := ed_timezone detail in
  match ev_event ev with
  | EK_Up =>
      match ed_last_ping_at detail with
      | Some prev => lit "Recovered; previous ping " ++ fmt_at_rel prev (ev_at ev) tz
      | None => lit "Recovered"
      end
  | EK_Reminder =>
      match ed_last_ping_at detail with
      | Some prev => lit "Last ping " ++ fmt_at_rel prev (ev_at ev) tz
      | None => lit "Never pinged"
      end
  | EK_Down | EK_Test =>
      match ed_cause detail with
      | Some (DC_Overrun max_runtime_secs started_at) =>
          lit "Run started " ++ fmt_at_rel started_at (ev_at ev) tz ++ lit " and exceeded its "
          ++ fmt_duration max_runtime_secs ++ lit " max runtime"
      | Some (DC_Failed (Some c)) => lit "Fail ping received (exit code " ++ show_Z c ++ lit ")"
      | Some (DC_Failed None) => lit "Fail ping received"
      | Some DC_Overdue | None =>
          match ed_last_ping_at detail with
          | Some prev => lit "No ping since " ++ fmt_at_rel prev (ev_at ev) tz
          | None => lit "No ping received yet"
          end
      end
  end.

Definition opt_line (o : option str) : list str := match o with Some l => [l] | None => [] end.

(** The [lines] vector [event_text] joins. *)
Definition event_lines (ev : NotificationEvent) : list str :=
  let detail := ev_detail ev in
  let tail := opt_line (context_line detail) ++ [reason_line ev] ++ opt_line (ed_url detail) in
  match ev_event ev with
  | EK_Test =>
      [ lit "🔔 pingward test notification";
        match ed_project_name detail with
        | Some p => lit "Channel " ++ dquote ++ ev_check_name ev ++ dquote ++ lit " · project " ++ p
        | None => lit "Channel " ++ dquote ++ ev_check_name ev ++ dquote
        end;
        fmt_at (ev_at ev) (ed_timezone detail) ]
  | EK_Down => (lit "🔴 DOWN — " ++ ev_check_name ev) :: tail
  | EK_Reminder => (lit "🔴 STILL DOWN — " ++ ev_check_name ev) :: tail
  | EK_Up => (lit "🟢 UP — " ++ ev_check_name ev) :: tail
  end.

Definition event_text (ev : NotificationEvent) : str := join newline (event_lines ev).

(** ** Notifiers *)

(** The error's message; its [Display] prefixes it. *)
Record NotifyError := mk_NotifyError { ne_message : str }.
Definition notify_error_text (e : NotifyError) : str := lit "notify failed: " ++ ne_message e.

Definition transport_err (e : ReqwestError) : NotifyError := mk_NotifyError (
  if is_timeout e then lit "request timed out"
  else if is_connect e then lit "connection failed"
  else if is_redirect e then lit "too many redirects"
  else if is_body e || is_decode e then lit "invalid response"
  else lit "request failed").

Inductive Notifier : Type :=
| NO_Webhook (url : str)
| NO_Telegram (token chat_id base_url : str)
| NO_Slack (url : str)
| NO_Ntfy (base_url topic : str) (token : option str)
| NO_Pushover (token user base_url : str)
| NO_Email (smtp : option SmtpConfig) (to : str).

Definition no_slash (s : str) : str := trim_end_matches (fun c => c =? chr "/") s.
Definition TelegramNotifier_with_base_url (token chat_id base_url : str) : Notifier :=
  NO_Telegram token chat_id (no_slash base_url).
Definition NtfyNotifier_new (base_url topic : str) (token : option str) : Notifier :=
  NO_Ntfy (no_slash base_url) topic (non_empty token).
Definition PushoverNotifier_with_base_url (token user base_url : str) : Notifier :=
  NO_Pushover token user (no_slash base_url).

(** The JSON body of a webhook. *)
Definition webhook_body (ev : NotificationEvent) : Json :=
  let detail := ev_detail ev in
  let exit_code := match ed_cause detail with Some (DC_Failed c) => c | _ => None end in
  J_Obj [
    (lit "check", J_Str (ev_check_name ev));
    (lit "event", J_Str (as_str (ev_event ev)));
    (lit "at", J_Str (to_rfc3339 (ev_at ev)));
    (lit "project_id", J_Int (ev_project_id ev));
    (lit "check_id", J_Int (ev_check_id ev));
    (lit "project", J_opt (ed_project_name detail));
    (lit "url", J_opt (ed_url detail));
    (lit "schedule", J_opt (ed_schedule detail));
    (lit "timezone", J_opt (ed_timezone detail));
    (lit "last_ping_at", J_opt (to_rfc3339 <$> ed_last_ping_at detail));
    (lit "cause", J_opt (DownCause_as_str <$> ed_cause detail));
    (lit "exit_code", J_opt_int exit_code);
    (lit "text", J_Str (event_text ev))].

(** Whether [ntfy]'s [Click] header is set: the URL, if it is safe in a header. *)
Definition click_url (detail : EventDetail) : option str :=
  u ← ed_url detail;
  if negb (is_empty u) && negb (existsb (fun c => is_control c || is_whitespace c) u)
  then Some u else None.

Definition ntfy_headers (ev : NotificationEvent) (token : option str) : list (str * str) :=
  let '(priority, tags) := match ev_event ev with
    | EK_Down | EK_Reminder => (lit "high", lit "red_circle")
    | EK_Up => (lit "default", lit "green_circle")
    | EK_Test => (lit "default", lit "bell")
    end in
  [(lit "Title", event_title ev); (lit "Priority", priority); (lit "Tags", tags)]
  ++ match click_url (ev_detail ev) with Some u => [(lit "Click", u)] | None => [] end
  ++ match token with Some t => [(lit "Authorization", lit "Bearer " ++ t)] | None => [] end.

Definition pushover_form (ev : NotificationEvent) (token user : str) : list (str * str) :=
  let priority := match ev_event ev with EK_Down | EK_Reminder => lit "1" | EK_Up | EK_Test => lit "0" end in
  [(lit "token", token); (lit "user", user); (lit "title", event_title ev);
   (lit "message", event_text ev); (lit "priority", priority)]
  ++ match non_empty (ed_url (ev_detail ev)) with
     | Some u => [(lit "url", u); (lit "url_title", lit "Open in pingward")]
     | None => []
     end.

Context `{NotifyDeps}.

Definition is_success (status : Z) : bool := (200 <=? status) && (status <=? 299).

(** The tail all HTTP notifiers share: send, then judge the status. *)
Definition post (rq : HttpRequest) : M (res NotifyError unit) :=
  do r := http_send rq in
  mret (match r with
        | Err e => Err (transport_err e)
        | Ok status =>
            if is_success status then Ok tt
            else Err (mk_NotifyError (lit "status " ++ status_text status))
        end).

Definition build_email (from to : str) (ev : NotificationEvent) : res NotifyError Email :=
  match parse_mailbox from with
  | Err e => Err (mk_NotifyError (lit "invalid from address: " ++ e))
  | Ok _ =>
      match parse_mailbox to with
      | Err e => Err (mk_NotifyError (lit "invalid recipient address: " ++ e))
      | Ok _ =>
          let m := mk_Email from to (event_title ev) (event_text ev) in
          match build_message m with
          | Err e => Err (mk_NotifyError (lit "failed to build email: " ++ e))
          | Ok _ => Ok m
          end
      end
  end.

Definition smtp_relay (smtp : SmtpConfig) : res NotifyError Relay :=
  let relay := {|
    rl_tls := sm_tls smtp;
    rl_host := sm_host smtp;
    rl_port := sm_port smtp;
    rl_credentials := match sm_username smtp, sm_password smtp with
                      | Some u, Some p => Some (u, p)
                      | _, _ => None
                      end |} in
  match sm_tls smtp with
  | ST_Tls | ST_Starttls =>
      match relay_setup (sm_tls smtp) (sm_host smtp) with
      | Err e => Err (mk_NotifyError (lit "smtp setup failed: " ++ e))
      | Ok _ => Ok relay
      end
  | ST_None => Ok relay
  end.

(** [Notifier::send] of each implementation. *)
Definition send (n : Notifier) (ev : NotificationEvent) : M (res NotifyError unit) :=
  match n with
  | NO_Webhook url => post (mk_HttpRequest url [] (B_Json (webhook_body ev)))
  | NO_Telegram token chat_id base_url =>
      post (mk_HttpRequest (base_url ++ lit "/bot" ++ token ++ lit "/sendMessage") []
        (B_Json (J_Obj [(lit "chat_id", J_Str chat_id); (lit "text", J_Str (event_text ev))])))
  | NO_Slack url =>
      post (mk_HttpRequest url [] (B_Json (J_Obj [(lit "text", J_Str (event_text ev))])))
  | NO_Ntfy base_url topic token =>
      post (mk_HttpRequest (base_url ++ lit "/" ++ topic) (ntfy_headers ev token)
        (B_Text (event_text ev)))
  | NO_Pushover token user base_url =>
      post (mk_HttpRequest (base_url ++ lit "/1/messages.json") []
        (B_Form (pushover_form ev token user)))
  | NO_Email None to => mret (Err (mk_NotifyError (lit "instance SMTP not configured")))
  | NO_Email (Some smtp) to =>
      match build_email (sm_from smtp) to ev with
      | Err e => mret (Err e)
      | Ok m =>
          match smtp_relay smtp with
          | Err e => mret (Err e)
          | Ok relay =>
              do r := mail_send relay m in
              mret (match r with
                    | Ok _ => Ok tt
                    | Err e => Err (mk_NotifyError (lit "smtp send failed: " ++ e))
                    end)
          end
      end
  end.

(** A trimmed, non-empty string field of the channel config. *)
Definition cfg_str (v : str -> option str) (key : str) : option str := non_empty (trim <$> v key).

Definition notifier_for (channel : Channel) (smtp : option SmtpConfig) : option Notifier :=
  cfg ← parse_config (ch_config_json channel);
  match ch_kind channel with
  | CK_Webhook => NO_Webhook <$> cfg_str cfg (lit "url")
  | CK_Slack => NO_Slack <$> cfg_str cfg (lit "url")
  | CK_Telegram =>
      token ← cfg_str cfg (lit "token"); chat_id ← cfg_str cfg (lit "chat_id");
      Some (TelegramNotifier_with_base_url token chat_id (lit "https://api.telegram.org"))
  | CK_Ntfy =>
      topic ← cfg_str cfg (lit "topic");
      let base_url := default (lit "https://ntfy.sh") (cfg_str cfg (lit "base_url")) in
      Some (NtfyNotifier_new base_url topic (cfg_str cfg (lit "token")))
  | CK_Pushover =>
      token ← cfg_str cfg (lit "token"); user ← cfg_str cfg (lit "user");
      Some (PushoverNotifier_with_base_url token user (lit "https://api.pushover.net"))
  | CK_Email => NO_Email smtp <$> cfg_str cfg (lit "to")
  end.

(** ** Retry and delivery *)

Record RetryPolicy := mk_RetryPolicy {
  max_attempts : Z;      (* u32 *)
  base_backoff : Z;      (* nanoseconds *)
}.

Definition default_retry : RetryPolicy := {| max_attempts := 3; base_backoff := 500 * 1000000 |}.

(** [std::time::Duration * u32]: panics on overflow. *)
Definition duration_max : Z := u64_max * ns + (ns - 1).
Definition duration_mul (d k : Z) : exec Z := if d * k <=? duration_max then Done (d * k) else Panic.

(** [2u32.saturating_pow(attempt)]. *)
Definition pow2_saturating (attempt : Z) : Z := Z.min u32_max (2 ^ attempt).

(** The loop's body for [attempt], [left] attempts being left after it. *)
Fixpoint retry_loop (send1 : M (res NotifyError unit)) (policy : RetryPolicy) (attempt : Z)
    (left : nat) (last : NotifyError) : M (res NotifyError unit) :=
  match left with
  | O => mret (Err last)
  | S left' =>
      do r := send1 in
      match r with
      | Ok _ => mret (Ok tt)
      | Err e =>
          if attempt + 1 <? max_attempts policy then
            do backoff := mexec (duration_mul (base_backoff policy) (pow2_saturating attempt)) in
            do _ := sleep backoff in
            retry_loop send1 policy (attempt + 1) left' e
          else retry_loop send1 policy (attempt + 1) left' e
      end
  end.

Definition send_with_retry (send1 : M (res NotifyError unit)) (policy : RetryPolicy)
  : M (res NotifyError unit) :=
  retry_loop send1 policy 0 (Z.to_nat (Z.max 1 (max_attempts policy)))
    (mk_NotifyError (lit "no attempts")).

Record DeliveryOptions := mk_DeliveryOptions {
  do_retry : RetryPolicy;
  do_smtp : option SmtpConfig;
}.

(** One iteration of the loop over the channels. *)
Definition deliver_one (ev : NotificationEvent) (options : DeliveryOptions) (now : Z)
    (channel : Channel) : M unit :=
  match notifier_for channel (do_smtp options) with
  | None => mret tt
  | Some notifier =>
      do r := send_with_retry (send notifier ev) (do_retry options) in
      let '(status, error) := match r with
        | Ok _ => (NS_Ok, None)
        | Err e => (NS_Error, Some (notify_error_text e))
        end in
      do _ := record_notification {|
        nn_check_id := ev_check_id ev;
        nn_channel_id := ch_id channel;
        nn_event := ev_event ev;
        nn_status := status;
        nn_error := error |} now in
      mret tt
  end.

Definition deliver_event (ev : NotificationEvent) (options : DeliveryOptions) (now : Z) : M unit :=
  do r := channels_for_check (ev_check_id ev) in
  match r with
  | Err _ => mret tt
  | Ok channels => for_each channels (deliver_one ev options now)
  end.

(** [dispatch]: every notifier once, in order. *)
Fixpoint dispatch (notifiers : list Notifier) (ev : NotificationEvent)
  : M (list (res NotifyError unit)) :=
  match notifiers with
  | [] => mret []
  | n :: l => do r := send n ev in do rs := dispatch l ev in mret (r :: rs)
  end.

(** The body of a spawned task. *)
Definition run_task (t : Task) : M unit :=
  match t with
  | T_Event ev smtp =>
      do now := utc_now in
      deliver_event ev (mk_DeliveryOptions default_retry smtp) now
  | T_Ping snapshot event now cause base_url smtp =>
      do p := find_project (c_project_id snapshot) in
      let project_name := match p with Ok (Some p) => Some (p_name p) | _ => None end in
      do display_tz := display_timezone in
      let detail := with_display_timezone display_tz (from_check snapshot project_name base_url) in
      let detail := mk_EventDetail (ed_project_name detail) (ed_url detail) (ed_schedule detail)
                      (ed_last_ping_at detail) (ed_timezone detail) cause in
      let ev := {|
        ev_check_id := c_id snapshot;
        ev_check_name := c_name snapshot;
        ev_event := event;
        ev_at := now;
        ev_project_id := c_project_id snapshot;
        ev_detail := detail |} in
      deliver_event ev (mk_DeliveryOptions default_retry smtp) now
  end.

End texts.

(** ** Lemmas *)

(** A printable header value: no control character. *)
Definition no_control (s : str) : bool := forallb (fun c => negb (is_control c)) s.

Lemma single_line_no_control s : no_control (single_line s) = true.
Proof.
  unfold no_control, single_line. induction s as [|c s IH]; simpl; [done|].
  rewrite IH, andb_true_r. by destruct (is_control c) eqn:E; rewrite ?E.
Qed.

Lemma no_control_app a b : no_control (a ++ b) = no_control a && no_control b.
Proof. apply forallb_app. Qed.

(** Whatever characters the names hold, the title is free of control characters, so
    it can be a header; it keeps the lengths of the names, and the [Click] header is set
    only to a URL without control characters or whitespace. *)
Theorem event_title_header_safe ev u :
  no_control (event_title ev) = true /\
  (forall s, length (single_line s) = length s) /\
  (click_url (ev_detail ev) = Some u ->
     ed_url (ev_detail ev) = Some u /\ no_control u = true /\
     forallb (fun c => negb (is_whitespace c)) u = true).
Proof.
  split; [|split].
  - unfold event_title. destruct (ev_event ev), (ed_project_name (ev_detail ev));
      rewrite !no_control_app, !single_line_no_control; reflexivity.
  - intros s. apply length_map.
  - unfold click_url. intros E. apply bind_Some in E as (v & Hv & E).
    destruct (is_empty v); [done|]. simpl in E.
    destruct (existsb _ v) eqn:Ex; simpl in E; simplify_eq. split; [done|].
    unfold no_control. rewrite !forallb_forall. split; intros c Hc;
      (destruct (is_control c || is_whitespace c) eqn:Eo;
       [exfalso; apply not_true_iff_false in Ex; apply Ex; apply existsb_exists; eauto|];
       bool_to_prop; by rewrite ?H, ?H0).
Qed.

Lemma event_title_header_safe_witness :
  forallb (fun c => negb (is_whitespace c)) (lit "https://p/checks/1") = true.
Proof.
  apply (event_title_header_safe
    (mk_NotificationEvent 1 (lit "a") EK_Down 0 1
      (mk_EventDetail None (Some (lit "https://p/checks/1")) None None None None))
    (lit "https://p/checks/1")). reflexivity.
Defined.

Section retry.
Context (send1 : M (res NotifyError unit)) (policy : RetryPolicy) (e : Env) (w : World).

(** The world before attempt [k], and that attempt's outcome: each earlier attempt was
    followed by its pause. *)
Fixpoint attempt_world (k : nat) : World :=
  match k with
  | O => w
  | S k' =>
      emit (Out_Sleep (base_backoff policy * pow2_saturating (Z.of_nat k')))
        (send1 e (attempt_world k')).2
  end.
Definition attempt (k : nat) : exec (res NotifyError unit) * World := send1 e (attempt_world k).
Definition failed (k : nat) : Prop := exists x, (attempt k).1 = Done (Err x).

Definition attempts : nat := Z.to_nat (Z.max 1 (max_attempts policy)).

Context (Hbase : 0 <= base_backoff policy /\ base_backoff policy * u32_max <= duration_max).

Lemma backoff_fits k :
  duration_mul (base_backoff policy) (pow2_saturating (Z.of_nat k)) =
  Done (base_backoff policy * pow2_saturating (Z.of_nat k)).
Proof.
  unfold duration_mul. rewrite (proj2 (Z.leb_le _ _)); [done|].
  unfold pow2_saturating. pose proof (Z.le_min_l u32_max (2 ^ Z.of_nat k)). nia.
Qed.

Lemma retry_loop_fail k left last x :
  (attempt k).1 = Done (Err x) -> Z.of_nat (k + S (S left)) = Z.of_nat attempts ->
  retry_loop send1 policy (Z.of_nat k) (S (S left)) last e (attempt_world k) =
  retry_loop send1 policy (Z.of_nat (S k)) (S left) x e (attempt_world (S k)).
Proof.
  intros Hx Hk. cbn [retry_loop]. unfold attempt in Hx.
  destruct (send1 e (attempt_world k)) as [r w1] eqn:Es. simpl in Hx. subst r.
  rewrite (mbind_Done _ _ _ _ _ _ Es). cbn beta iota.
  rewrite (proj2 (Z.ltb_lt _ _)) by (unfold attempts in Hk; lia).
  rewrite backoff_fits. unfold mexec, sleep, mbind.
  cbn [attempt_world]. rewrite Es. by rewrite Nat2Z.inj_succ.
Qed.

Lemma retry_loop_upto k :
  (k < attempts)%nat -> (forall j, (j < k)%nat -> failed j) ->
  exists last', send_with_retry send1 policy e w =
    retry_loop send1 policy (Z.of_nat k) (attempts - k) last' e (attempt_world k).
Proof.
  induction k as [|k IH]; intros Hk Hf.
  { exists (mk_NotifyError (lit "no attempts")). unfold send_with_retry. fold attempts.
    by rewrite Nat.sub_0_r. }
  destruct IH as [l ->]; [lia|intros; apply Hf; lia|].
  destruct (Hf k ltac:(lia)) as [x Hx]. exists x.
  replace (attempts - k)%nat with (S (S (attempts - S k - 1))) by lia.
  rewrite (retry_loop_fail k _ _ x) by (done || lia).
  by replace (S (attempts - S k - 1)) with (attempts - S k)%nat by lia.
Qed.

End retry.

(** C20: retrying makes at most [max(max_attempts, 1)] attempts. It stops at the first
    that succeeds and returns success; if all fail it returns the error of the last one.
    Attempt [k] is followed by a pause of the base backoff times [2^k], saturated, except
    the last, which is followed by none. *)
Theorem send_with_retry_exact send1 policy e w :
  0 <= base_backoff policy -> base_backoff policy * u32_max <= duration_max ->
  (forall k, (k < attempts policy)%nat ->
     (forall j, (j < k)%nat -> failed send1 policy e w j) ->
     (attempt send1 policy e w k).1 = Done (Ok tt) ->
     send_with_retry send1 policy e w = attempt send1 policy e w k) /\
  ((forall j, (j < attempts policy)%nat -> failed send1 policy e w j) ->
     send_with_retry send1 policy e w = attempt send1 policy e w (attempts policy - 1)).
Proof.
  intros H0 H1. assert (0 < attempts policy)%nat by (unfold attempts; lia). split.
  - intros k Hk Hf Hok.
    destruct (retry_loop_upto send1 policy e w (conj H0 H1) k Hk Hf) as [l ->].
    replace (attempts policy - k)%nat with (S (attempts policy - k - 1)) by lia.
    cbn [retry_loop]. unfold attempt in *.
    destruct (send1 e (attempt_world _ _ _ _ k)) as [r w1] eqn:Es. simpl in Hok. subst r.
    by rewrite (mbind_Done _ _ _ _ _ _ Es).
  - intros Hf.
    destruct (retry_loop_upto send1 policy e w (conj H0 H1) (attempts policy - 1))
      as [l ->]; [lia|intros; apply Hf; lia|].
    replace (attempts policy - (attempts policy - 1))%nat with 1%nat by lia.
    destruct (Hf (attempts policy - 1)%nat ltac:(lia)) as [x Hx]. cbn [retry_loop].
    unfold attempt in *.
    destruct (send1 e (attempt_world _ _ _ _ _)) as [r w1] eqn:Es. simpl in Hx. subst r.
    rewrite (mbind_Done _ _ _ _ _ _ Es). cbn beta iota.
    by rewrite (proj2 (Z.ltb_ge _ _)) by (unfold attempts in *; lia).
Qed.

Section delivery.
Context `{Chrono} `{NotifyDeps}.

Lemma send_total n ev : total (send n ev).
Proof. destruct n; unfold send, post; total_steps. Qed.

Lemma send_preserves I n ev : preserves I (send n ev).
Proof. destruct n; unfold send, post; preserves_steps. Qed.

Definition policy_ok (policy : RetryPolicy) : Prop :=
  0 <= base_backoff policy /\ base_backoff policy * u32_max <= duration_max.

Lemma default_retry_ok : policy_ok default_retry.
Proof. split; vm_compute; discriminate. Qed.

Lemma retry_loop_total send1 policy attempt left last :
  policy_ok policy -> total send1 -> 0 <= attempt ->
  total (retry_loop send1 policy attempt left last).
Proof.
  intros Hp Hs. revert attempt last. induction left as [|left IH]; intros attempt last Ha;
    cbn [retry_loop]; [apply total_mret|].
  apply total_mbind; [done|]. intros [a|x]; [apply total_mret|].
  destruct (_ <? _); [|apply IH; lia].
  apply total_mbind.
  - intros e w. pose proof (backoff_fits policy Hp (Z.to_nat attempt)) as E.
    rewrite Z2Nat.id in E by done. unfold mexec. rewrite E. by do 2 eexists.
  - intros d. apply total_mbind; [apply total_sleep|]. intros _. apply IH. lia.
Qed.

Lemma send_with_retry_total send1 policy :
  policy_ok policy -> total send1 -> total (send_with_retry send1 policy).
Proof. intros. by apply retry_loop_total. Qed.

Lemma send_with_retry_preserves I send1 policy :
  preserves I send1 -> preserves I (send_with_retry send1 policy).
Proof.
  intros Hs. unfold send_with_retry. generalize 0 as attempt.
  generalize (mk_NotifyError (lit "no attempts")) as last.
  induction (Z.to_nat _) as [|left IH]; intros last attempt; cbn [retry_loop]; preserves_steps.
Qed.

(** The row a delivery leaves for a channel. *)
Definition delivery_row (ev : NotificationEvent) (now : Z) (channel_id : Z) (r : NotificationRow)
  : Prop :=
  nr_check_id r = ev_check_id ev /\ nr_channel_id r = channel_id /\
  nr_event r = as_str (ev_event ev) /\ nr_created_at r = to_rfc3339 now /\
  (nr_status r = as_str NS_Ok /\ nr_error r = None \/
   nr_status r = as_str NS_Error /\ is_Some (nr_error r)).

Definition deliverable (options : DeliveryOptions) (ch : Channel) : bool :=
  match notifier_for ch (do_smtp options) with Some _ => true | None => false end.

(** Recording can only fail by a fault when the rows it refers to exist. *)
Definition recordable (ev : NotificationEvent) (d : Db) (channel_id : Z) : bool :=
  negb (bool_decide (ev_event ev = EK_Test)) && is_row (checks d) (ev_check_id ev)
  && is_row (channels d) channel_id.

Definition notification_row (n : NewNotification) (now : Z) : NotificationRow := {|
  nr_check_id := nn_check_id n;
  nr_channel_id := nn_channel_id n;
  nr_event := as_str (nn_event n);
  nr_status := as_str (nn_status n);
  nr_error := nn_error n;
  nr_created_at := to_rfc3339 now |}.

Lemma set_notifications_id d : d = set_notifications (insert_rows [] (notifications d)) d.
Proof. by destruct d. Qed.

Lemma record_notification_spec n now e w :
  exists r rs w', record_notification n now e w = (Done r, w') /\
    w_db w' = set_notifications (insert_rows rs (notifications (w_db w))) (w_db w) /\
    (rs = [] \/ rs = [notification_row n now]) /\
    (calm e -> nn_event n <> EK_Test -> is_row (checks (w_db w)) (nn_check_id n) = true ->
     is_row (channels (w_db w)) (nn_channel_id n) = true -> rs = [notification_row n now]).
Proof.
  unfold record_notification, stmt. destruct (env_fault e (w_stmts w)) eqn:Ef.
  { eexists _, [], _. split; [done|]. split; [apply set_notifications_id|]. split; [by left|].
    intros Hc. by rewrite Hc in Ef. }
  case_bool_decide as Et.
  { eexists _, [], _. split; [done|]. split; [apply set_notifications_id|]. by split; [left|]. }
  destruct (_ && _) eqn:Er.
  - eexists _, [_], _. split; [reflexivity|]. split; [reflexivity|]. split; [by right|done].
  - eexists _, [], _. split; [done|]. split; [apply set_notifications_id|]. split; [by left|].
    intros _ _ H1 H2. by rewrite H1, H2 in Er.
Qed.

Lemma deliver_one_spec ev options now ch e w :
  policy_ok (do_retry options) ->
  exists rs w', deliver_one ev options now ch e w = (Done tt, w') /\
    w_db w' = set_notifications (insert_rows rs (notifications (w_db w))) (w_db w) /\
    (rs = [] \/ exists r, rs = [r] /\ delivery_row ev now (ch_id ch) r /\ deliverable options ch = true) /\
    (calm e -> recordable ev (w_db w) (ch_id ch) = true -> deliverable options ch = true -> rs <> []).
Proof.
  intros Hp. unfold deliver_one, deliverable.
  destruct (notifier_for ch (do_smtp options)) as [n|].
  2: { exists [], w. split; [done|]. split; [apply set_notifications_id|]. by split; [left|]. }
  destruct (send_with_retry_total (send n ev) (do_retry options) Hp (send_total n ev) e w)
    as (r & w1 & E1).
  pose proof (send_with_retry_preserves (fun d => d = w_db w) _ _ (send_preserves _ n ev) e w _ w1
    eq_refl E1) as Ew1. simpl in Ew1.
  rewrite (mbind_Done _ _ _ _ _ _ E1), <- Ew1. clear Ew1 E1 w.
  set (out := match r with Ok _ => (NS_Ok, None) | Err x => (NS_Error, Some (notify_error_text x)) end).
  assert (out.1 = NS_Ok /\ out.2 = None \/ out.1 = NS_Error /\ is_Some out.2) as Hout.
  { subst out. destruct r; simpl; eauto. }
  destruct out as [status error]. simpl in Hout.
  destruct (record_notification_spec
    (mk_NewNotification (ev_check_id ev) (ch_id ch) (ev_event ev) status error) now e w1)
    as (r' & rs & w' & E2 & Hdb & Hrs & Hcalm).
  exists rs, w'. rewrite (mbind_Done _ _ _ _ _ _ E2). split; [done|]. split; [done|]. split.
  - destruct Hrs as [->| ->]; [by left|right]. eexists. split; [done|]. split; [|done].
    unfold delivery_row; simpl. split_and!; try done.
    destruct Hout as [[-> ->]|[-> ?]]; [left|right]; done.
  - intros Hc Hr _. unfold recordable in Hr. simpl in *. bool_to_prop.
    by rewrite Hcalm.
Qed.

Lemma set_notifications_twice t t' d : set_notifications t (set_notifications t' d) = set_notifications t d.
Proof. by destruct d. Qed.

Lemma insert_rows_app {R} (a b : list R) t : insert_rows (a ++ b) t = insert_rows b (insert_rows a t).
Proof. apply fold_left_app. Qed.

Lemma deliver_channels_spec ev options now chs e w :
  policy_ok (do_retry options) ->
  exists rs w', for_each chs (deliver_one ev options now) e w = (Done tt, w') /\
    w_db w' = set_notifications (insert_rows rs (notifications (w_db w))) (w_db w) /\
    Forall (fun r => delivery_row ev now (nr_channel_id r) r) rs /\
    sublist (map nr_channel_id rs) (map ch_id (List.filter (deliverable options) chs)) /\
    (calm e -> Forall (fun ch => recordable ev (w_db w) (ch_id ch) = true) chs ->
     map nr_channel_id rs = map ch_id (List.filter (deliverable options) chs)).
Proof.
  intros Hp. revert w. induction chs as [|ch chs IH]; intros w.
  { exists [], w. split; [done|]. split; [apply set_notifications_id|]. by repeat constructor. }
  destruct (deliver_one_spec ev options now ch e w Hp) as (rs1 & w1 & E1 & D1 & S1 & C1).
  destruct (IH w1) as (rs2 & w2 & E2 & D2 & S2 & L2 & C2). clear IH.
  exists (rs1 ++ rs2), w2. simpl. rewrite (mbind_Done _ _ _ _ _ _ E1). split; [done|].
  split; [by rewrite D2, D1, set_notifications_twice, insert_rows_app|].
  assert (deliverable options ch = false -> rs1 = []) as Hno.
  { intros Hf. destruct S1 as [->|(r & -> & _ & Ht)]; [done|congruence]. }
  split; [|split].
  - apply Forall_app. split; [|done]. destruct S1 as [->|(r & -> & Hr & _)]; [done|].
    constructor; [|constructor]. pose proof Hr as (_ & Hid & _). by rewrite Hid.
  - rewrite map_app. cbn [List.filter]. destruct (deliverable options ch) eqn:Ed.
    + destruct S1 as [->|(r & -> & (_ & Hid & _) & _)]; simpl;
        [|rewrite Hid]; by constructor.
    + by rewrite Hno.
  - intros Hc Hr. apply Forall_cons in Hr as [Hr1 Hr2]. rewrite map_app.
    rewrite C2; [|done|by rewrite D1].
    cbn [List.filter]. destruct (deliverable options ch) eqn:Ed; [|by rewrite Hno].
    destruct S1 as [->|(r & -> & (_ & Hid & _) & _)]; [by destruct (C1 Hc Hr1 eq_refl)|].
    simpl. by rewrite Hid.
Qed.

(** C19: delivering an event never panics and, whatever the statements and the network
    do, changes nothing but the notification log, to which it appends rows of this event,
    at most one per channel bound to the check whose configuration is usable, in channel
    order, with status [ok] and no error or [error] and a text. When no statement fails
    and the rows it refers to exist, there is exactly one for each of those channels, so
    a failing channel neither stops the others nor goes unrecorded. *)
Theorem deliver_event_records ev options now e w :
  policy_ok (do_retry options) ->
  exists rs w', deliver_event ev options now e w = (Done tt, w') /\
    w_db w' = set_notifications (insert_rows rs (notifications (w_db w))) (w_db w) /\
    Forall (fun r => delivery_row ev now (nr_channel_id r) r) rs /\
    forall chs,
      collect row_to_channel (select (fun id _ =>
        bool_decide ((ev_check_id ev, id) ∈ check_channels (w_db w))) (channels (w_db w))) = Ok chs ->
      let wanted := map ch_id (List.filter (deliverable options) chs) in
      sublist (map nr_channel_id rs) wanted /\
      (calm e -> Forall (fun ch => recordable ev (w_db w) (ch_id ch) = true) chs ->
       map nr_channel_id rs = wanted).
Proof.
  intros Hp. unfold deliver_event.
  destruct (channels_for_check (ev_check_id ev) e w) as [r w1] eqn:Eq.
  pose proof Eq as Eq'. apply query_db in Eq' as [-> Hr]. destruct Hr as [->| ->].
  { rewrite (mbind_Done _ _ _ _ _ _ Eq). eexists [], _. split; [done|].
    split; [apply set_notifications_id|]. split; [done|]. intros chs Hq.
    split; [apply sublist_nil_l|]. intros Hc. unfold channels_for_check in Eq.
    rewrite query_calm in Eq by done. rewrite Hq in Eq. simplify_eq. }
  rewrite (mbind_Done _ _ _ _ _ _ Eq). cbv beta.
  destruct (collect _ _) as [chs|x] eqn:Ec.
  - destruct (deliver_channels_spec ev options now chs e (bump (w_db w) w) Hp)
      as (rs & w' & E & D & S & L & C).
    exists rs, w'. split; [done|]. split; [done|]. split; [done|].
    intros chs' [= <-]. split; [exact L|exact C].
  - eexists [], _. split; [done|]. split; [apply set_notifications_id|]. by split; [done|].
Qed.

End delivery.

(** An endpoint that answers 503 twice and then 200. *)
Definition flaky : Env := {|
  env_now _ := 0; env_fault _ := false; env_uuid _ := []; env_receivers := 0;
  env_http n _ := Ok (if bool_decide (n < 4)%nat then 503 else 200);
  env_mail _ _ _ := Ok tt; env_instant _ := 0 |}.
Definition plain_deps : NotifyDeps := {|
  parse_config _ := Some (fun k => if decide (k = lit "url") then Some (lit "http://h") else None);
  parse_mailbox _ := Ok tt;
  build_message _ := Ok tt;
  relay_setup _ _ := Ok tt;
  status_text := show_Z;
|}.
Definition flaky_post : M (res NotifyError unit) :=
  @post plain_deps (mk_HttpRequest (lit "http://h") [] (B_Text [])).

Lemma send_with_retry_exact_witness :
  (send_with_retry flaky_post default_retry flaky (world_of empty_db)).1 = Done (Ok tt) /\
  map (fun o => match o with Out_Sleep n => n | _ => 0 end)
    (w_out (send_with_retry flaky_post default_retry flaky (world_of empty_db)).2)
  = [0; 500000000; 0; 1000000000; 0].
Proof.
  destruct (send_with_retry_exact flaky_post default_retry flaky (world_of empty_db)) as [H1 _];
    [by vm_compute|by vm_compute|].
  rewrite (H1 2%nat); [by vm_compute|vm_compute; lia| |by vm_compute].
  - intros [|[|j]] Hj; [..|lia]; eexists; vm_compute; reflexivity.
Defined.

#[local] Existing Instance SampleChrono.sample_chrono.

Definition sample_event : NotificationEvent := {|
  ev_check_id := 1; ev_check_name := lit "backup"; ev_event := EK_Down; ev_at := 0;
  ev_project_id := 1;
  ev_detail := mk_EventDetail (Some (lit "infra")) None None None None (Some DC_Overdue) |}.

(** Every statement works; the endpoints never do. Only the webhook is configured. *)
Definition deaf_env : Env := {|
  env_now _ := 0; env_fault _ := false; env_uuid _ := []; env_receivers := 0;
  env_http _ _ := Err (mk_ReqwestError true false false false false);
  env_mail _ _ _ := Ok tt; env_instant _ := 0 |}.

Lemma deliver_event_records_witness :
  exists rs w', @deliver_event _ plain_deps sample_event (mk_DeliveryOptions default_retry None) 0
      deaf_env (world_of sample_db) = (Done tt, w') /\
    w_db w' = set_notifications (insert_rows rs (notifications sample_db)) sample_db /\
    map nr_channel_id rs = [1].
Proof.
  destruct (@deliver_event_records _ plain_deps sample_event (mk_DeliveryOptions default_retry None)
    0 deaf_env (world_of sample_db) default_retry_ok) as (rs & w' & E & D & _ & H).
  rewrite world_of_db in D, H. exists rs, w'. split; [exact E|]. split; [exact D|].
  pose (chs := match collect row_to_channel (rows (t_rows (channels sample_db))) with
               | Ok l => l | Err _ => [] end).
  destruct (H chs) as [_ Hc].
  - subst chs. vm_compute. reflexivity.
  - clear E D H. rewrite Hc; [clear Hc; vm_compute; reflexivity|exact (fun _ => eq_refl)|clear Hc].
    subst chs. apply Forall_forall. intros ch Hin. vm_compute in Hin.
    repeat (apply elem_of_cons in Hin as [->|Hin]; [vm_compute; reflexivity|]).
    by apply elem_of_nil in Hin.
Defined.
