(* ===== verification/Scheduler.v ===== *)
(** * Scheduler: [src/scheduler.rs], overdue and overrun checks, reminders, the scan loop

    [due_time] and [overrun_time] may panic, as [Duration::seconds] and the addition of a
    duration to an instant do. [scan_once] and [nag_once] run in [M], one statement per
    store call, with the [continue]s of the source. *)
From S2P Require Import Prelude Text Models Config Wire Chrono Db Rows Store Sample Notify.
#[local] Open Scope Z_scope.
#[local] Open Scope pw_scope.

Section scheduler.
Context `{Cron}.

(** ** Deadlines *)

Definition anchor (check : Check) : Z := default (c_created_at check) (c_last_ping_at check).

Definition due_time (check : Check) : exec (option Z) :=
  let* grace := td_seconds (c_grace_secs check) in
  match c_schedule_kind check with
  | SK_Period =>
      match c_period_secs check with
      | None => Done None
      | Some p =>
          let* period := td_seconds p in
          let* t := dt_add (anchor check) period in
          let* t := dt_add t grace in
          Done (Some t)
      end
  | SK_Cron =>
      match c_cron_expr check with
      | None => Done None
      | Some expr =>
          match schedule_from_str expr with
          | Err _ => Done None
          | Ok schedule =>
              let tz := default utc (tz_parse (c_timezone check)) in
              match schedule_after schedule tz (anchor check) with
              | None => Done None
              | Some next => let* t := dt_add next grace in Done (Some t)
              end
          end
      end
  end.

Definition overrun_time (check : Check) : exec (option Z) :=
  match c_max_runtime_secs check with
  | None => Done None
  | Some max =>
      if max <=? 0 then Done None else
      match c_last_start_at check with
      | None => Done None
      | Some start =>
          let in_flight := match c_last_ping_at check with
                           | None => true
                           | Some done => done <? start
                           end in
          if in_flight then
            let* d := td_seconds max in
            let* t := dt_add start d in
            Done (Some t)
          else Done None
      end
  end.

(** [deadline.is_some_and(|d| now >= d)]. *)
Definition reached (now : Z) (deadline : option Z) : bool :=
  match deadline with Some d => d <=? now | None => false end.

(** ** One scan *)

(** Overrun wins over overdue. *)
Definition down_cause (overrun : bool) (check : Check) : DownCause :=
  match overrun, c_max_runtime_secs check, c_last_start_at check with
  | true, Some max, Some started_at => DC_Overrun max started_at
  | _, _, _ => DC_Overdue
  end.

Definition scan_event (kind : EventKind) (now : Z) (base_url : str) (names : gmap Z str)
    (display_tz : option str) (check : Check) : NotificationEvent := {|
  ev_check_id := c_id check;
  ev_check_name := c_name check;
  ev_event := kind;
  ev_at := now;
  ev_project_id := c_project_id check;
  ev_detail := with_display_timezone display_tz
                 (from_check check (names !! c_project_id check) base_url);
|}.

Definition with_event_cause (cause : DownCause) (ev : NotificationEvent) : NotificationEvent :=
  mk_NotificationEvent (ev_check_id ev) (ev_check_name ev) (ev_event ev) (ev_at ev)
    (ev_project_id ev) (with_cause cause (ev_detail ev)).

(** The body of the loop: the event pushed, if any. *)
Definition scan_check (now : Z) (base_url : str) (names : gmap Z str) (display_tz : option str)
    (check : Check) : M (option NotificationEvent) :=
  do due := mexec (due_time check) in
  let overdue := reached now due in
  do deadline := mexec (overrun_time check) in
  let overrun := reached now deadline in
  if negb (overdue || overrun) then mret None else
  do r := set_status (c_id check) CS_Down in
  match r with
  | Err _ => mret None
  | Ok _ =>
      do _ := begin_down_alert (c_id check) now in
      mret (Some (with_event_cause (down_cause overrun check)
                    (scan_event EK_Down now base_url names display_tz check)))
  end.

(** A [for] loop that pushes to a vector. *)
Fixpoint collect_each {A B} (l : list A) (f : A -> M (option B)) : M (list B) :=
  match l with
  | [] => mret []
  | x :: l' =>
      do o := f x in
      do rest := collect_each l' f in
      mret (match o with Some b => b :: rest | None => rest end)
  end.

Definition scan_once (now : Z) (base_url : str) : M (res DbErr (list NotificationEvent)) :=
  let? names := all_project_names in
  do display_tz := display_timezone in
  let? checks := list_active_checks in
  do events := collect_each checks (scan_check now base_url names display_tz) in
  mret (Ok events).

(** ** Reminders *)

Definition nag_check (now : Z) (base_url : str) (nags : gmap Z (option Z)) (names : gmap Z str)
    (display_tz : option str) (global_nag : option Z) (check : Check)
  : M (option NotificationEvent) :=
  if c_acknowledged check then mret None else
  let project := mjoin (nags !! c_project_id check) in
  match effective_nag_interval (c_nag_interval_secs check) project global_nag with
  | None => mret None
  | Some interval =>
      match c_last_alert_at check with
      | None => mret None
      | Some last =>
          do next := mexec (let* d := td_seconds interval in dt_add last d) in
          if now <? next then mret None else
          do r := record_reminder (c_id check) now in
          match r with
          | Err _ => mret None
          | Ok _ => mret (Some (scan_event EK_Reminder now base_url names display_tz check))
          end
      end
  end.

Definition nag_once (now : Z) (base_url : str) : M (res DbErr (list NotificationEvent)) :=
  let? nags := all_project_nag_intervals in
  let? names := all_project_names in
  do display_tz := display_timezone in
  let? setting := get_setting (lit "nag_interval") in
  let global_nag := setting ≫= parse_i64 in
  let? checks := list_down_checks in
  do events := collect_each checks (nag_check now base_url nags names display_tz global_nag) in
  mret (Ok events).

(** ** The loop *)

Fixpoint min_list (l : list Z) : option Z :=
  match l with
  | [] => None
  | x :: l' => match min_list l' with None => Some x | Some m => Some (Z.min x m) end
  end.

Definition loop_interval_secs (checks : list Check) (project_intervals : gmap Z (option Z))
    (global_secs : option Z) (env_default : Z) : Z :=
  match min_list (map (fun c =>
    effective_scan_interval (c_scan_interval_secs c) (mjoin (project_intervals !! c_project_id c))
      global_secs env_default) checks) with
  | Some m => m
  | None => Z.max env_default 1
  end.

Definition spawn_deliveries (smtp : option SmtpConfig) (events : list NotificationEvent) : M unit :=
  for_each events (fun ev => spawn_task (T_Event ev smtp)).

Record ScanLoop := mk_ScanLoop {
  sl_env_default_secs : Z;
  sl_smtp : option SmtpConfig;
  sl_base_url : str;
}.

(** [unwrap_or_default]. *)
Definition ok_or {A} (r : res DbErr A) (d : A) : A := match r with Ok a => a | Err _ => d end.

(** One pass of [run_scan_loop], up to the sleep, and the seconds to sleep. *)
Definition scan_pass (scan : ScanLoop) : M Z :=
  do now := utc_now in
  do r := scan_once now (sl_base_url scan) in
  do _ := match r with
          | Ok events =>
              do _ := for_each events (fun ev =>
                do n := receiver_count in
                if 0 <? n then bus_send (ev_check_id ev) else mret tt) in
              spawn_deliveries (sl_smtp scan) events
          | Err _ => mret tt
          end in
  do _ := set_setting (lit "last_scan_at") (to_rfc3339 now) in
  do now2 := utc_now in
  do r := nag_once now2 (sl_base_url scan) in
  do _ := match r with
          | Ok events => spawn_deliveries (sl_smtp scan) events
          | Err _ => mret tt
          end in
  do active := list_active_checks in
  do projects := all_project_scan_intervals in
  do setting := get_setting (lit "scan_interval") in
  let global := ok_or setting None ≫= parse_i64 in
  mret (loop_interval_secs (ok_or active []) (ok_or projects ∅) global (sl_env_default_secs scan)).

(** The loop: [stop k] is whether the shutdown signal wins the [select] of pass [k]. *)
Fixpoint run_scan_loop (scan : ScanLoop) (stop : nat -> bool) (fuel : nat) (k : nat) : M bool :=
  match fuel with
  | O => mret false
  | S fuel' =>
      do secs := scan_pass scan in
      if stop k then mret true
      else
        do _ := sleep (secs * ns) in
        run_scan_loop scan stop fuel' (S k)
  end.

End scheduler.

(** ** One pass over the checks

    What a loop of [collect_each] does to the [checks] table when its body either leaves
    the database alone and pushes nothing, or rewrites the check's own row and pushes its
    event. Both [scan_once] and [nag_once] are of this shape. *)

Record PassBody := mk_PassBody {
  pb_wanted : Check -> bool;                    (* which checks the body acts on *)
  pb_event : Check -> NotificationEvent;        (* the event it pushes *)
  pb_full : CheckRow -> CheckRow;               (* the row it means to leave *)
  pb_row : CheckRow -> CheckRow -> Prop;        (* the rows it may leave under faults *)
}.

Definition body_ok (b : PassBody) (f : Check -> M (option NotificationEvent)) (c : Check) : Prop :=
  forall e w, exists o w', f c e w = (Done o, w') /\
    ((o = None /\ w_db w' = w_db w) \/
     (o = Some (pb_event b c) /\ pb_wanted b c = true /\
      exists g, (forall r, pb_row b r (g r)) /\ w_db w' = update_check g (c_id c) (w_db w))) /\
    (calm e -> pb_wanted b c = true ->
     o = Some (pb_event b c) /\ w_db w' = update_check (pb_full b) (c_id c) (w_db w)).

(** The checks acted on, the events pushed for them in order, and the table after. *)
Record pass_result (b : PassBody) (e : Env) (d d' : Db) (cs : list Check)
    (evs : list NotificationEvent) (sel : list Check) : Prop := mk_pass_result {
  pr_sel : sublist sel (List.filter (pb_wanted b) cs);
  pr_events : evs = map (pb_event b) sel;
  pr_frame : d' = set_checks (checks d') d /\ t_seq (checks d') = t_seq (checks d);
  pr_others : forall id, id ∉ map c_id sel -> t_rows (checks d') !! id = t_rows (checks d) !! id;
  pr_rows : forall id r, id ∈ map c_id sel -> t_rows (checks d) !! id = Some r ->
              exists r', t_rows (checks d') !! id = Some r' /\ pb_row b r r';
  pr_calm : calm e -> sel = List.filter (pb_wanted b) cs /\
              forall id, id ∈ map c_id sel ->
                t_rows (checks d') !! id = pb_full b <$> t_rows (checks d) !! id;
}.

Lemma update_check_lookup g i d id :
  t_rows (checks (update_check g i d)) !! id =
  if decide (i = id) then g <$> t_rows (checks d) !! id else t_rows (checks d) !! id.
Proof. unfold update_check. simpl. apply update_row_lookup. Qed.

Lemma update_check_frame g i d : update_check g i d = set_checks (checks (update_check g i d)) d.
Proof. by destruct d. Qed.

Lemma sublist_filter_elem {A} (p : A -> bool) (sel l : list A) x :
  sublist sel (List.filter p l) -> x ∈ sel -> x ∈ l /\ p x = true.
Proof.
  intros Hs Hx. pose proof (elem_of_sublist _ _ x Hx Hs) as Hf.
  by rewrite list_elem_of_In, filter_In, <- list_elem_of_In in Hf.
Qed.

Lemma elem_of_map_c_id (l : list Check) id : id ∈ map c_id l <-> exists c, c ∈ l /\ c_id c = id.
Proof. rewrite list_elem_of_fmap. naive_solver. Qed.

Lemma collect_each_pass b f cs e w :
  (forall c, c ∈ cs -> body_ok b f c) -> NoDup (map c_id cs) ->
  exists evs w' sel, collect_each cs f e w = (Done evs, w') /\
    pass_result b e (w_db w) (w_db w') cs evs sel.
Proof.
  revert w. induction cs as [|c cs IH]; intros w Hf Hnd.
  { exists [], w, []. split; [done|]. split; try done.
    - split; [by destruct (w_db w)|done].
    - by intros id r ?%elem_of_nil.
    - intros _. split; [done|]. by intros id ?%elem_of_nil. }
  apply NoDup_cons in Hnd as [Hc Hnd].
  destruct (Hf c ltac:(left) e w) as (o & w1 & E1 & Ho & C1).
  destruct (IH w1 ltac:(intros; apply Hf; by right) Hnd) as (evs & w2 & sel & E2 & [S2 V2 [F2 Q2] O2 R2 K2]).
  assert (c_id c ∉ map c_id sel) as Hcs.
  { intros (c' & Hc' & Eid)%elem_of_map_c_id. apply Hc, elem_of_map_c_id. exists c'.
    split; [|done]. by apply (sublist_filter_elem _ _ _ _ S2 Hc'). }
  destruct Ho as [[-> D1]|(-> & Hw & g & Hg & D1)].
  - exists evs, w2, sel. simpl. rewrite (mbind_Done _ _ _ _ _ _ E1), (mbind_Done _ _ _ _ _ _ E2).
    split; [done|]. rewrite D1 in *. split; try done.
    + cbn [List.filter]. destruct (pb_wanted b c); [by apply sublist_cons|done].
    + intros He. destruct (K2 He) as [-> ?]. split; [|done].
      cbn [List.filter]. destruct (pb_wanted b c) eqn:Ew; [|done].
      by destruct (C1 He eq_refl) as [[=] _].
  - exists (pb_event b c :: evs), w2, (c :: sel). simpl.
    rewrite (mbind_Done _ _ _ _ _ _ E1), (mbind_Done _ _ _ _ _ _ E2).
    split; [done|]. split.
    + cbn [List.filter]. rewrite Hw. by constructor.
    + by rewrite V2.
    + rewrite D1 in F2, Q2. split; [|done]. rewrite F2. by destruct (w_db w).
    + intros id Hid. cbn [map] in Hid. rewrite not_elem_of_cons in Hid. destruct Hid as [Hne Hid].
      rewrite O2, D1, update_check_lookup by done. by rewrite decide_False.
    + intros id r Hid Hr. cbn [map] in Hid. apply elem_of_cons in Hid as [->|Hid].
      * exists (g r). split; [|apply Hg]. rewrite O2, D1, update_check_lookup by done.
        by rewrite decide_True, Hr.
      * apply R2; [done|]. rewrite D1, update_check_lookup. rewrite decide_False; [done|]. congruence.
    + intros He. destruct (K2 He) as [-> K]. destruct (C1 He Hw) as [_ D1'].
      split; [cbn [List.filter]; by rewrite Hw|].
      intros id Hid. cbn [map] in Hid. apply elem_of_cons in Hid as [->|Hid].
      * rewrite O2, D1', update_check_lookup by done. by rewrite decide_True.
      * rewrite K by done. rewrite D1', update_check_lookup. rewrite decide_False; [done|]. congruence.
Qed.

(** ** What a scan does *)

Lemma update_check_compose g h i d :
  update_check g i (update_check h i d) = update_check (fun r => g (h r)) i d.
Proof.
  unfold update_check, update_row. simpl.
  assert (alter g i (alter h i (t_rows (checks d))) = alter (fun r => g (h r)) i (t_rows (checks d)))
    as ->; [|done].
  apply map_eq. intros j. destruct (decide (i = j)) as [<-|].
  - rewrite !lookup_alter_eq. by destruct (t_rows (checks d) !! i).
  - by rewrite !lookup_alter_ne.
Qed.

(** A statement of the shape [UPDATE checks SET ... WHERE id = i]. *)
Lemma execute_check g i e w :
  exists r w', execute (update_check g i) e w = (Done r, w') /\
    ((r = Err DE_Failed /\ w_db w' = w_db w) \/ (r = Ok tt /\ w_db w' = update_check g i (w_db w))) /\
    (calm e -> r = Ok tt).
Proof.
  destruct (execute (update_check g i) e w) as [r w'] eqn:E.
  pose proof E as E'. apply execute_db in E' as [[-> ->]|[-> ->]].
  - exists (Err DE_Failed), (bump (w_db w) w). split; [done|]. split; [by left|].
    intros He. by rewrite execute_calm in E by done.
  - exists (Ok tt), (bump (update_check g i (w_db w)) w). split; [done|]. split; [by right|done].
Qed.

Section scan_theorems.
Context `{Cron}.

Definition schedulable (c : Check) : Prop :=
  (exists d, due_time c = Done d) /\ (exists o, overrun_time c = Done o).

Definition is_overrun (now : Z) (c : Check) : bool :=
  match overrun_time c with Done o => reached now o | Panic => false end.
Definition is_overdue (now : Z) (c : Check) : bool :=
  match due_time c with Done d => reached now d | Panic => false end.
Definition late (now : Z) (c : Check) : bool := is_overdue now c || is_overrun now c.

Definition down_event (now : Z) (base_url : str) (names : gmap Z str) (display_tz : option str)
    (c : Check) : NotificationEvent :=
  with_event_cause (down_cause (is_overrun now c) c)
    (scan_event EK_Down now base_url names display_tz c).

(** The row of a check that went down at [now]: the status, and the baseline of the
    reminders, which also resets the acknowledgement. *)
Definition downed (now : Z) (r : CheckRow) : CheckRow :=
  with_alert (Some (to_rfc3339 now)) 0 (with_status (as_str CS_Down) r).

Definition scan_body (now : Z) (base_url : str) (names : gmap Z str) (display_tz : option str)
  : PassBody := {|
  pb_wanted := late now;
  pb_event := down_event now base_url names display_tz;
  pb_full := downed now;
  pb_row := fun r r' => r' = downed now r \/ r' = with_status (as_str CS_Down) r;
|}.

Lemma scan_check_ok now base_url names display_tz c :
  schedulable c ->
  body_ok (scan_body now base_url names display_tz) (scan_check now base_url names display_tz) c.
Proof.
  intros [[d Hd] [o Ho]] e w. unfold scan_check, mexec, mbind at 1 2. rewrite Hd, Ho.
  assert (late now c = reached now d || reached now o) as Hl.
  { unfold late, is_overdue, is_overrun. by rewrite Hd, Ho. }
  assert (is_overrun now c = reached now o) as Hover by (unfold is_overrun; by rewrite Ho).
  rewrite <- Hl, <- Hover. destruct (late now c) eqn:El; simpl.
  2: { exists None, w. split; [done|]. split; [by left|]. congruence. }
  unfold set_status, begin_down_alert.
  destruct (execute_check (with_status (as_str CS_Down)) (c_id c) e w)
    as (r1 & w1 & E1 & [[-> D1]|[-> D1]] & C1); rewrite (mbind_Done _ _ _ _ _ _ E1).
  - exists None, w1. split; [done|]. split; [by left|]. intros He. by apply C1 in He.
  - destruct (execute_check (with_alert (Some (to_rfc3339 now)) 0) (c_id c) e w1)
      as (r2 & w2 & E2 & D2 & C2). rewrite (mbind_Done _ _ _ _ _ _ E2).
    eexists _, w2. split; [done|]. split.
    + right. split; [done|]. split; [done|]. destruct D2 as [[-> D2]|[-> D2]]; rewrite D2, D1.
      * exists (with_status (as_str CS_Down)). split; [by right|done].
      * exists (downed now). split; [by left|]. by rewrite update_check_compose.
    + intros He _. split; [done|]. destruct D2 as [[-> D2]|[-> D2]]; [by apply C2 in He|].
      rewrite D2, D1. by rewrite update_check_compose.
Qed.

Definition active_checks (d : Db) : list Check := decode_skipping row_to_check (active_rows d).
Definition down_checks (d : Db) : list Check := decode_skipping row_to_check (down_rows d).

Lemma active_checks_NoDup d : NoDup (map c_id (active_checks d)).
Proof. apply decode_skipping_NoDup, select_NoDup. Qed.
Lemma down_checks_NoDup d : NoDup (map c_id (down_checks d)).
Proof. apply decode_skipping_NoDup, select_NoDup. Qed.

(** A read inside a pass: it answers from the tables, or fails and is not calm. *)
Lemma query_step {A} (q : Db -> res DbErr A) e w :
  exists r, query q e w = (Done r, bump (w_db w) w) /\
    (r = Err DE_Failed \/ r = q (w_db w)) /\ (calm e -> r = q (w_db w)).
Proof.
  destruct (query q e w) as [r w'] eqn:E. pose proof E as E'. apply query_db in E' as [-> Hr].
  destruct Hr as [->| ->]; (eexists; split; [done|]); (split; [by auto|]); [|done].
  intros He. rewrite query_calm in E by done. congruence.
Qed.

(** The zone of the settings, as [display_timezone] reads it. *)
Definition configured_timezone (d : Db) : option str := non_empty (trim <$> settings d !! lit "display_timezone").

Lemma display_timezone_step e w :
  exists tz w', display_timezone e w = (Done tz, w') /\ w_db w' = w_db w /\
    (tz = None \/ tz = configured_timezone (w_db w)) /\ (calm e -> tz = configured_timezone (w_db w)).
Proof.
  unfold display_timezone, get_setting, configured_timezone, non_empty.
  destruct (query_step (fun d => Ok (settings d !! lit "display_timezone")) e w) as (r & E & Hr & Hc).
  rewrite (mbind_Done _ _ _ _ _ _ E). eexists _, _. split; [done|]. split; [done|].
  split.
  - destruct Hr as [->| ->]; [by left|right]. by destruct (settings (w_db w) !! _).
  - intros He. rewrite (Hc He). by destruct (settings (w_db w) !! _).
Qed.

Lemma scan_effect now base_url e w :
  (forall c, c ∈ active_checks (w_db w) -> schedulable c) ->
  exists r w', scan_once now base_url e w = (Done r, w') /\
    match r with
    | Err _ => w_db w' = w_db w /\ ~ calm e
    | Ok evs => exists tz sel,
        (tz = None \/ tz = configured_timezone (w_db w)) /\
        (calm e -> tz = configured_timezone (w_db w)) /\
        pass_result (scan_body now base_url (pr_name <$> t_rows (projects (w_db w))) tz) e
          (w_db w) (w_db w') (active_checks (w_db w)) evs sel
    end.
Proof.
  intros Hs. unfold scan_once, all_project_names, list_active_checks.
  destruct (query_step (fun d => Ok (pr_name <$> t_rows (projects d))) e w) as (r1 & E1 & R1 & C1).
  destruct R1 as [->| ->].
  { rewrite (mtry_Err _ _ _ _ _ _ E1). eexists _, _. split; [done|]. split; [done|].
    intros He. by apply C1 in He. }
  rewrite (mtry_Ok _ _ _ _ _ _ E1).
  destruct (display_timezone_step e (bump (w_db w) w)) as (tz & w2 & E2 & D2 & T2 & C2).
  rewrite (mbind_Done _ _ _ _ _ _ E2). simpl in D2, T2, C2.
  destruct (query_step (fun d => Ok (decode_skipping row_to_check (active_rows d))) e w2)
    as (r3 & E3 & R3 & C3). rewrite D2 in E3, R3, C3.
  destruct R3 as [->| ->].
  { rewrite (mtry_Err _ _ _ _ _ _ E3). eexists _, _. split; [done|]. split; [done|].
    intros He. by apply C3 in He. }
  rewrite (mtry_Ok _ _ _ _ _ _ E3). fold (active_checks (w_db w)).
  destruct (collect_each_pass (scan_body now base_url (pr_name <$> t_rows (projects (w_db w))) tz)
    (scan_check now base_url (pr_name <$> t_rows (projects (w_db w))) tz)
    (active_checks (w_db w)) e (bump (w_db w) w2)) as (evs & w' & sel & E4 & P4).
  { intros c Hc. by apply scan_check_ok, Hs. }
  { apply active_checks_NoDup. }
  rewrite (mbind_Done _ _ _ _ _ _ E4). eexists _, w'. split; [done|].
  exists tz, sel. done.
Qed.

(** C3: one scan, whatever statements fail. If no active check's deadline overflows, the
    scan returns: with an error only if a read failed, and then nothing was written; or
    with one [Down] event for each active check that is overdue or overrun, in key order,
    except those whose own status update failed. Exactly the checks it reports are down
    afterwards; no other row and no other table changed. When nothing fails all late
    checks are reported, with the reminder baseline set to [now] and unacknowledged. *)
Theorem scan_once_effect now base_url e w :
  (forall c, c ∈ active_checks (w_db w) -> schedulable c) ->
  exists r w', scan_once now base_url e w = (Done r, w') /\
    match r with
    | Err _ => w_db w' = w_db w /\ ~ calm e
    | Ok evs => exists tz sel,
        (tz = None \/ tz = configured_timezone (w_db w)) /\
        (calm e -> tz = configured_timezone (w_db w)) /\
        pass_result (scan_body now base_url (pr_name <$> t_rows (projects (w_db w))) tz) e
          (w_db w) (w_db w') (active_checks (w_db w)) evs sel
    end.
Proof. apply scan_effect. Qed.

(** Which rows a pass reads. *)
Lemma elem_of_decoded ss d c :
  c ∈ decode_skipping row_to_check (select (fun _ r => status_in ss r) (checks d)) <->
  exists r, t_rows (checks d) !! c_id c = Some r /\ status_in ss r = true /\
            row_to_check (c_id c, r) = Ok c.
Proof.
  rewrite elem_of_decode_skipping. split.
  - intros ([id r] & Hx & Hok). apply elem_of_select in Hx as [Hx Hst].
    pose proof Hok as Hid. apply row_to_check_Ok in Hid as [-> _]. by exists r.
  - intros (r & Hr & Hst & Hok). exists (c_id c, r). split; [by apply elem_of_select|done].
Qed.

Lemma pb_row_status now base_url names tz r r' :
  pb_row (scan_body now base_url names tz) r r' -> cr_status r' = as_str CS_Down.
Proof. intros [-> | ->]; done. Qed.

Lemma scan_events_ids now base_url names tz sel :
  map ev_check_id (map (down_event now base_url names tz) sel) = map c_id sel.
Proof. by rewrite map_map. Qed.

(** An outage is reported once. Two scans in a row never report the same check, at
    whatever times and whatever fails in either; one scan never reports a check twice;
    and when nothing fails in the first, repeating it at the same instant reports
    nothing. *)
Theorem scan_once_no_repeat now now2 base_url e e2 w w1 w2 w3 evs evs2 :
  (forall c, c ∈ active_checks (w_db w) -> schedulable c) ->
  scan_once now base_url e w = (Done (Ok evs), w1) ->
  w_db w2 = w_db w1 ->
  scan_once now2 base_url e2 w2 = (Done (Ok evs2), w3) ->
  NoDup (map ev_check_id evs) /\
  (forall id, id ∈ map ev_check_id evs -> id ∉ map ev_check_id evs2) /\
  (calm e -> now2 = now -> evs2 = []).
Proof.
  intros Hs E1 Hw E2.
  destruct (scan_effect now base_url e w Hs) as (r & w' & E1' & Heff).
  rewrite E1 in E1'. simplify_eq. destruct Heff as (tz & sel & _ & _ & [S V F O R K]).
  assert (forall id, id ∈ map c_id sel -> forall c, c ∈ active_checks (w_db w') -> c_id c <> id) as Hgone.
  { intros id Hid c Hc <-. apply elem_of_decoded in Hc as (r' & Hr' & Hst & _).
    pose proof Hid as (c' & Hc' & Eid)%elem_of_map_c_id.
    apply (sublist_filter_elem _ _ _ _ S) in Hc' as [Hc' _].
    apply elem_of_decoded in Hc' as (r & Hr & _). rewrite Eid in Hr.
    destruct (R _ _ Hid Hr) as (r'' & Hr'' & Hrow). rewrite Hr' in Hr''. simplify_eq.
    apply pb_row_status in Hrow. unfold status_in in Hst. by rewrite Hrow in Hst. }
  assert (forall c, c ∈ active_checks (w_db w') -> c ∈ active_checks (w_db w) /\ c ∉ sel) as Hstill.
  { intros c Hc. assert (c_id c ∉ map c_id sel) as Hn by (intros Hid; by apply (Hgone _ Hid c Hc)).
    split; [|intros Hin; apply Hn, elem_of_map_c_id; by exists c].
    apply elem_of_decoded in Hc as (r' & Hr' & Hst & Hok).
    apply elem_of_decoded. exists r'. by rewrite <- O. }
  destruct (scan_effect now2 base_url e2 w2) as (r & w4 & E2' & Heff).
  { rewrite Hw. intros c Hc. by apply Hs, Hstill. }
  rewrite E2 in E2'. simplify_eq. destruct Heff as (tz2 & sel2 & _ & _ & [S2 V2 _ _ _ _]).
  rewrite Hw in S2. subst evs2. change (pb_event (scan_body ?n ?b ?m ?t)) with (down_event n b m t).
  rewrite !scan_events_ids. split; [|split].
  - eapply sublist_NoDup; [apply (active_checks_NoDup (w_db w))|].
    etransitivity; [apply (fmap_sublist c_id), S|]. apply sublist_map_filter.
  - intros id Hid (c & Hc & <-)%elem_of_map_c_id.
    apply (sublist_filter_elem _ _ _ _ S2) in Hc as [Hc _]. by apply (Hgone _ Hid c Hc).
  - intros He ->. destruct (K He) as [Esel _].
    assert (List.filter (late now) (active_checks (w_db w')) = []) as Enil.
    { destruct (List.filter (late now) (active_checks (w_db w'))) as [|c l] eqn:Ef; [done|]. exfalso.
      assert (c ∈ List.filter (late now) (active_checks (w_db w'))) as Hc by (rewrite Ef; left).
      rewrite list_elem_of_In, filter_In, <- list_elem_of_In in Hc. destruct Hc as [Hc Hl].
      apply Hstill in Hc as [Hc Hn]. apply Hn. rewrite Esel.
      by rewrite list_elem_of_In, filter_In, <- list_elem_of_In. }
    simpl in S2. rewrite Enil in S2. by apply sublist_nil_r in S2 as ->.
Qed.

(** ** What a reminder pass does *)

Definition global_nag (d : Db) : option Z := settings d !! lit "nag_interval" ≫= parse_i64.
Definition nag_interval_of (d : Db) (c : Check) : option Z :=
  effective_nag_interval (c_nag_interval_secs c)
    (mjoin ((pr_nag_interval_secs <$> t_rows (projects d)) !! c_project_id c)) (global_nag d).

(** When the next reminder of an unacknowledged check is due: the outcome of the
    addition, when it has an interval and a baseline. *)
Definition next_reminder (d : Db) (c : Check) : option (exec Z) :=
  if c_acknowledged c then None else
  interval ← nag_interval_of d c;
  last ← c_last_alert_at c;
  Some (let* s := td_seconds interval in dt_add last s)%pw.

Definition nag_due (d : Db) (now : Z) (c : Check) : bool :=
  match next_reminder d c with Some (Done next) => next <=? now | _ => false end.
Definition remindable (d : Db) (c : Check) : Prop := next_reminder d c <> Some Panic.

Definition reminded (now : Z) (r : CheckRow) : CheckRow :=
  with_alert (Some (to_rfc3339 now)) (cr_acknowledged r) r.

Definition nag_body (d : Db) (now : Z) (base_url : str) (names : gmap Z str) (tz : option str)
  : PassBody := {|
  pb_wanted := nag_due d now;
  pb_event := scan_event EK_Reminder now base_url names tz;
  pb_full := reminded now;
  pb_row := fun r r' => r' = reminded now r;
|}.

(** A body that does nothing to a check it does not want. *)
Lemma body_idle b (f : Check -> M (option NotificationEvent)) c e w :
  f c e w = (Done None, w) -> pb_wanted b c = false ->
  exists o w', f c e w = (Done o, w') /\
    ((o = None /\ w_db w' = w_db w) \/
     (o = Some (pb_event b c) /\ pb_wanted b c = true /\
      exists g, (forall r, pb_row b r (g r)) /\ w_db w' = update_check g (c_id c) (w_db w))) /\
    (calm e -> pb_wanted b c = true ->
     o = Some (pb_event b c) /\ w_db w' = update_check (pb_full b) (c_id c) (w_db w)).
Proof.
  intros Hf Hw. exists None, w. split; [done|]. split; [by left|]. intros _ Ht. by rewrite Hw in Ht.
Qed.

Lemma nag_check_ok d now base_url names tz c :
  remindable d c ->
  body_ok (nag_body d now base_url names tz)
    (nag_check now base_url (pr_nag_interval_secs <$> t_rows (projects d)) names tz (global_nag d)) c.
Proof.
  intros Hr e w.
  assert (pb_wanted (nag_body d now base_url names tz) c =
    match next_reminder d c with Some (Done next) => next <=? now | _ => false end) as Hw by done.
  unfold remindable, next_reminder, nag_interval_of in Hr, Hw.
  destruct (c_acknowledged c) eqn:Ea.
  { apply body_idle; [|done]. unfold nag_check. by rewrite Ea. }
  destruct (effective_nag_interval _ _ _) as [i|] eqn:Ei.
  2: { apply body_idle; [|done]. unfold nag_check. by rewrite Ea, Ei. }
  destruct (c_last_alert_at c) as [last|] eqn:El.
  2: { apply body_idle; [|done]. unfold nag_check. by rewrite Ea, Ei, El. }
  simpl in Hr, Hw. destruct (exec_bind (td_seconds i) _) as [next|] eqn:En; [|by destruct Hr].
  rewrite Z.leb_antisym in Hw. destruct (now <? next) eqn:Eb; simpl in Hw.
  { apply body_idle; [|done]. unfold nag_check. rewrite Ea, Ei, El. unfold mexec, mbind.
    by rewrite En, Eb. }
  assert (nag_check now base_url (pr_nag_interval_secs <$> t_rows (projects d)) names tz
    (global_nag d) c e w = mbind (record_reminder (c_id c) now) (fun r => match r with
      | Err _ => mret None
      | Ok _ => mret (Some (scan_event EK_Reminder now base_url names tz c)) end) e w) as ->.
  { unfold nag_check. rewrite Ea, Ei, El. unfold mexec, mbind at 1. by rewrite En, Eb. }
  unfold record_reminder. fold (reminded now).
  destruct (execute_check (reminded now) (c_id c) e w) as (r1 & w1 & E1 & [[-> D1]|[-> D1]] & C1);
    rewrite (mbind_Done _ _ _ _ _ _ E1).
  - exists None, w1. split; [done|]. split; [by left|]. intros He. by apply C1 in He.
  - eexists _, w1. split; [done|]. split; [|done]. right. split; [done|]. split; [done|].
    by exists (reminded now).
Qed.

Lemma nag_effect now base_url e w :
  (forall c, c ∈ down_checks (w_db w) -> remindable (w_db w) c) ->
  exists r w', nag_once now base_url e w = (Done r, w') /\
    match r with
    | Err _ => w_db w' = w_db w /\ ~ calm e
    | Ok evs => exists tz sel,
        (tz = None \/ tz = configured_timezone (w_db w)) /\
        (calm e -> tz = configured_timezone (w_db w)) /\
        pass_result (nag_body (w_db w) now base_url (pr_name <$> t_rows (projects (w_db w))) tz) e
          (w_db w) (w_db w') (down_checks (w_db w)) evs sel
    end.
Proof.
  intros Hs. unfold nag_once, all_project_nag_intervals, all_project_names, list_down_checks, get_setting.
  destruct (query_step (fun d => Ok (pr_nag_interval_secs <$> t_rows (projects d))) e w)
    as (r0 & E0 & R0 & C0).
  destruct R0 as [->| ->].
  { rewrite (mtry_Err _ _ _ _ _ _ E0). eexists _, _. split; [done|]. split; [done|].
    intros He. by apply C0 in He. }
  rewrite (mtry_Ok _ _ _ _ _ _ E0). set (w0 := bump (w_db w) w).
  destruct (query_step (fun d => Ok (pr_name <$> t_rows (projects d))) e w0) as (r1 & E1 & R1 & C1).
  destruct R1 as [->| ->].
  { rewrite (mtry_Err _ _ _ _ _ _ E1). eexists _, _. split; [done|]. split; [done|].
    intros He. by apply C1 in He. }
  rewrite (mtry_Ok _ _ _ _ _ _ E1). clear E0 E1 C0 C1.
  destruct (display_timezone_step e (bump (w_db w0) w0)) as (tz & w2 & E2 & D2 & T2 & C2).
  rewrite (mbind_Done _ _ _ _ _ _ E2). simpl in D2, T2, C2. clear E2.
  destruct (query_step (fun d => Ok (settings d !! lit "nag_interval")) e w2) as (r3 & E3 & R3 & C3).
  rewrite D2 in E3, R3, C3. destruct R3 as [->| ->].
  { rewrite (mtry_Err _ _ _ _ _ _ E3). eexists _, _. split; [done|]. split; [done|].
    intros He. by apply C3 in He. }
  rewrite (mtry_Ok _ _ _ _ _ _ E3). clear E3 C3. set (w3 := bump (w_db w) w2).
  destruct (query_step (fun d => Ok (decode_skipping row_to_check (down_rows d))) e w3)
    as (r4 & E4 & R4 & C4). change (w_db w3) with (w_db w) in E4, R4, C4.
  destruct R4 as [->| ->].
  { rewrite (mtry_Err _ _ _ _ _ _ E4). eexists _, _. split; [done|]. split; [done|].
    intros He. by apply C4 in He. }
  rewrite (mtry_Ok _ _ _ _ _ _ E4). fold (down_checks (w_db w)).
  destruct (collect_each_pass
    (nag_body (w_db w) now base_url (pr_name <$> t_rows (projects (w_db w))) tz)
    (nag_check now base_url (pr_nag_interval_secs <$> t_rows (projects (w_db w)))
       (pr_name <$> t_rows (projects (w_db w))) tz (global_nag (w_db w)))
    (down_checks (w_db w)) e (bump (w_db w) w3)) as (evs & w' & sel & E5 & P5).
  { intros c Hc. by apply nag_check_ok, Hs. }
  { apply down_checks_NoDup. }
  unfold global_nag in E5. rewrite (mbind_Done _ _ _ _ _ _ E5). eexists _, w'. split; [done|].
  exists tz, sel. done.
Qed.

(** C15: one reminder pass, whatever statements fail. If no reminder's due time overflows,
    it returns: with an error only if a read failed, and then nothing was written; or with
    one [Reminder] for each down, unacknowledged check with an interval and a baseline
    whose interval has elapsed, except those whose own update failed. Exactly their
    baselines advance to [now]; statuses, acknowledgements, all other rows and tables
    stay. When nothing fails every due reminder is sent. *)
Theorem nag_once_effect now base_url e w :
  (forall c, c ∈ down_checks (w_db w) -> remindable (w_db w) c) ->
  exists r w', nag_once now base_url e w = (Done r, w') /\
    match r with
    | Err _ => w_db w' = w_db w /\ ~ calm e
    | Ok evs => exists tz sel,
        (tz = None \/ tz = configured_timezone (w_db w)) /\
        (calm e -> tz = configured_timezone (w_db w)) /\
        pass_result (nag_body (w_db w) now base_url (pr_name <$> t_rows (projects (w_db w))) tz) e
          (w_db w) (w_db w') (down_checks (w_db w)) evs sel
    end.
Proof. apply nag_effect. Qed.

(** Reminders are spaced. If two passes in a row both remind of a check, then between
    them at least the effective interval of the check, which is positive, has elapsed,
    whatever fails in either. *)
Theorem nag_once_spacing `{!ChronoLaws} now now2 base_url e e2 w w1 w2 w3 evs evs2 id :
  text_ok now ->
  (forall c, c ∈ down_checks (w_db w) -> remindable (w_db w) c) ->
  (forall c, c ∈ down_checks (w_db w1) -> remindable (w_db w1) c) ->
  nag_once now base_url e w = (Done (Ok evs), w1) ->
  w_db w2 = w_db w1 ->
  nag_once now2 base_url e2 w2 = (Done (Ok evs2), w3) ->
  id ∈ map ev_check_id evs -> id ∈ map ev_check_id evs2 ->
  exists c i, c ∈ down_checks (w_db w1) /\ c_id c = id /\ nag_interval_of (w_db w1) c = Some i /\
    0 < i /\ now + i * ns <= now2.
Proof.
  intros Hnow Hs1 Hs2 E1 Hw E2 Hid Hid2.
  destruct (nag_effect now base_url e w Hs1) as (r & w' & E1' & Heff).
  rewrite E1 in E1'. simplify_eq. destruct Heff as (tz & sel & _ & _ & [S V _ _ R _]).
  destruct (nag_effect now2 base_url e2 w2) as (r & w4 & E2' & Heff); [by rewrite Hw|].
  rewrite E2 in E2'. simplify_eq. destruct Heff as (tz2 & sel2 & _ & _ & [S2 V2 _ _ _ _]).
  rewrite Hw in S2. subst. rewrite map_map in Hid, Hid2. simpl in Hid, Hid2.
  apply elem_of_map_c_id in Hid2 as (c & Hc & <-).
  apply (sublist_filter_elem _ _ _ _ S2) in Hc as [Hc Hdue]. cbn [pb_wanted nag_body] in Hdue.
  exists c.
  pose proof Hid as (c1 & Hc1 & Eid)%elem_of_map_c_id.
  apply (sublist_filter_elem _ _ _ _ S) in Hc1 as [Hc1 _].
  apply elem_of_decoded in Hc1 as (r1 & Hr1 & _). rewrite Eid in Hr1.
  destruct (R _ _ Hid Hr1) as (r2 & Hr2 & Hrow). simpl in Hrow.
  pose proof Hc as (r2' & Hr2' & _ & Hok)%elem_of_decoded.
  rewrite Hr2 in Hr2'. simplify_eq.
  apply row_to_check_Ok in Hok. destruct_and! Hok.
  assert (c_last_alert_at c = Some now) as El.
  { etransitivity; [eassumption|]. simpl. by apply parse_to_rfc3339. }
  unfold nag_due, next_reminder in Hdue. destruct (c_acknowledged c); [done|].
  rewrite El in Hdue. destruct (nag_interval_of _ c) as [i|] eqn:Ei; [|done].
  simpl in Hdue. exists i. split; [done|]. split; [done|]. split; [done|].
  destruct (td_seconds i) as [s|] eqn:Es; simpl in Hdue; [|done].
  destruct (dt_add now s) as [n|] eqn:En; [|done].
  apply td_seconds_Done in Es as [-> _]. apply dt_add_Done in En as [-> _].
  apply first_positive_pos in Ei. split; [done|]. by bool_to_prop.
Qed.

(** ** A panicking deadline *)

Lemma collect_each_panic {A B} (f : A -> M (option B)) l x e w :
  x ∈ l -> (forall w, (f x e w).1 = Panic) -> (collect_each l f e w).1 = Panic.
Proof.
  intros Hx Hp. revert w. induction Hx as [x l|x y l Hx IH]; intros w; simpl.
  - unfold mbind at 1. specialize (Hp w). destruct (f x e w) as [[o|] w1]; simplify_eq/=. done.
  - unfold mbind at 1. destruct (f y e w) as [[o|] w1]; [|done].
    unfold mbind. specialize (IH Hp w1). destruct (collect_each l f e w1) as [[?|] ?]; done.
Qed.

Lemma due_time_huge_period `{!ChronoLaws} c p :
  c_schedule_kind c = SK_Period -> c_period_secs c = Some p -> i64_max < p * 1000 ->
  due_time c = Panic.
Proof.
  intros Hk Hp Hbig. unfold due_time. destruct (td_seconds (c_grace_secs c)); [|done]. simpl.
  by rewrite Hk, Hp, (td_seconds_panic p Hbig).
Qed.

(** C14: one active check with a period beyond chrono's range stops all monitoring. The
    period fits the [i64] column and decodes, but [Duration::seconds] panics on it, so
    every scan that reads the checks panics, whatever the other checks are; and with it
    the loop, before it can scan again or send a reminder. *)
Theorem huge_period_kills_scan_loop `{!ChronoLaws} scan stop fuel k e w c p :
  calm e -> c ∈ active_checks (w_db w) ->
  c_schedule_kind c = SK_Period -> c_period_secs c = Some p -> i64_max < p * 1000 ->
  (forall now base_url, (scan_once now base_url e w).1 = Panic) /\
  (run_scan_loop scan stop (S fuel) k e w).1 = Panic.
Proof.
  intros He Hc Hk Hp Hbig.
  assert (forall now base_url w', w_db w' = w_db w -> (scan_once now base_url e w').1 = Panic) as Hscan.
  { intros now base_url w' Hw. unfold scan_once, all_project_names, list_active_checks.
    erewrite mtry_query_calm by done.
    destruct (display_timezone_step e (bump (w_db w') w')) as (tz & w2 & E2 & D2 & _).
    rewrite (mbind_Done _ _ _ _ _ _ E2). simpl in D2.
    erewrite mtry_query_calm by done. rewrite D2, Hw.
    unfold mbind. pose proof (collect_each_panic
      (scan_check now base_url (pr_name <$> t_rows (projects (w_db w))) tz)
      (active_checks (w_db w)) c e (bump (w_db w) w2) Hc) as Hpanic.
    unfold active_checks in Hpanic.
    destruct (collect_each _ _ e _) as [[evs|] w3]; [|done]. exfalso.
    discriminate Hpanic. intros w4. unfold scan_check, mbind, mexec.
    by rewrite (due_time_huge_period c p). }
  split; [intros; by apply Hscan|].
  cbn [run_scan_loop]. unfold scan_pass. unfold mbind at 1 2 3, utc_now.
  set (w1 := mk_World _ _ _ _ _ _ _ _ _).
  pose proof (Hscan (env_now e (w_reads w)) (sl_base_url scan) w1 eq_refl) as Hp1.
  destruct (scan_once _ _ e w1) as [[?|] w2]; [done|]. done.
Qed.

(** ** The interval of the loop *)

Lemma min_list_spec l m :
  min_list l = Some m -> m ∈ l /\ forall x, x ∈ l -> m <= x.
Proof.
  revert m. induction l as [|x l IH]; intros m; simpl; [done|].
  destruct (min_list l) as [m'|] eqn:E; intros [= <-].
  - destruct (IH m' eq_refl) as [Hin Hle]. split.
    + destruct (Z.min_spec x m') as [[_ ->]|[_ ->]]; [left|by right].
    + intros y [->|Hy]%elem_of_cons; [lia|]. apply Hle in Hy. lia.
  - destruct l as [|y l]; [|simpl in E; by destruct (min_list l)].
    split; [left|]. intros y [->|Hy%elem_of_nil]%elem_of_cons; [lia|done].
Qed.

(** The loop sleeps for the smallest effective interval of the active checks, the
    environment's without any, and never for less than a second. *)
Theorem loop_interval_secs_min cs intervals global env :
  let interval c := effective_scan_interval (c_scan_interval_secs c)
                      (mjoin (intervals !! c_project_id c)) global env in
  let secs := loop_interval_secs cs intervals global env in
  1 <= secs /\
  (forall c, c ∈ cs -> secs <= interval c) /\
  (cs <> [] -> exists c, c ∈ cs /\ secs = interval c) /\
  (cs = [] -> secs = Z.max env 1).
Proof.
  intros interval secs. subst secs. unfold loop_interval_secs. fold interval.
  destruct (min_list (map interval cs)) as [m|] eqn:E.
  - apply min_list_spec in E as [Hin Hle]. apply list_elem_of_fmap in Hin as (c & -> & Hc).
    split; [apply effective_scan_interval_pos|]. split; [|split].
    + intros c' Hc'. apply Hle, list_elem_of_fmap. by exists c'.
    + intros _. by exists c.
    + intros ->. by apply elem_of_nil in Hc.
  - destruct cs as [|c cs]; [|simpl in E; by destruct (min_list (map interval cs))].
    split; [lia|]. split; [by intros c ?%elem_of_nil|]. done.
Qed.

End scan_theorems.

(** ** Witnesses: the sample database, scanned a hundred seconds in *)

#[local] Existing Instance SampleChrono.sample_chrono.
#[local] Existing Instance SampleChrono.sample_chrono_laws.
#[local] Existing Instance SampleChrono.sample_cron.

Definition t100 : Z := 100 * ns.
Definition sample_url : str := lit "https://p.example".
Definition scan100 : exec (res DbErr (list NotificationEvent)) * World :=
  scan_once t100 sample_url (calm_env t100) (world_of sample_db).
Definition events_of (r : exec (res DbErr (list NotificationEvent))) : list NotificationEvent :=
  match r with Done (Ok l) => l | _ => [] end.
Definition schedulable_b (c : Check) : bool :=
  match due_time c, overrun_time c with Done _, Done _ => true | _, _ => false end.
Definition remindable_b (d : Db) (c : Check) : bool :=
  match next_reminder d c with Some Panic => false | _ => true end.

Lemma schedulable_all cs : forallb schedulable_b cs = true -> forall c, c ∈ cs -> schedulable c.
Proof.
  intros Hf c Hc. rewrite forallb_forall in Hf. apply list_elem_of_In, Hf in Hc.
  unfold schedulable_b, schedulable in *.
  destruct (due_time c); [|done]. destruct (overrun_time c); [|done]. eauto.
Qed.
Lemma remindable_all d cs : forallb (remindable_b d) cs = true -> forall c, c ∈ cs -> remindable d c.
Proof.
  intros Hf c Hc. rewrite forallb_forall in Hf. apply list_elem_of_In, Hf in Hc.
  unfold remindable_b, remindable in *. by destruct (next_reminder d c) as [[?|]|].
Qed.

Lemma scan_once_effect_witness :
  exists evs w', scan100 = (Done (Ok evs), w') /\ map ev_check_id evs = [1; 2].
Proof.
  destruct (scan_once_effect t100 sample_url (calm_env t100) (world_of sample_db))
    as (r & w' & E & Hr); [apply schedulable_all; vm_compute; reflexivity|].
  destruct r as [evs|x].
  - exists evs, w'. split; [exact E|]. destruct Hr as (tz & sel & _ & _ & P).
    rewrite (pr_events _ _ _ _ _ _ _ P).
    destruct (pr_calm _ _ _ _ _ _ _ P (calm_env_calm t100)) as [-> _].
    clear P E. vm_compute. reflexivity.
  - destruct Hr as [_ Hn]. destruct (Hn (calm_env_calm t100)).
Defined.

Lemma scan_once_no_repeat_witness :
  length (events_of scan100.1) = 2%nat /\
  NoDup (map ev_check_id (events_of scan100.1)) /\
  events_of (scan_once t100 sample_url (calm_env t100) scan100.2).1 = [].
Proof.
  split; [vm_compute; reflexivity|].
  destruct (scan_once_no_repeat t100 t100 sample_url (calm_env t100) (calm_env t100)
    (world_of sample_db) scan100.2 scan100.2
    (scan_once t100 sample_url (calm_env t100) scan100.2).2 (events_of scan100.1)
    (events_of (scan_once t100 sample_url (calm_env t100) scan100.2).1)) as (H1 & _ & H2).
  - apply schedulable_all. vm_compute. reflexivity.
  - vm_compute. reflexivity.
  - reflexivity.
  - vm_compute. reflexivity.
  - split; [exact H1|]. exact (H2 (calm_env_calm t100) eq_refl).
Defined.

(** A reminder pass thirty seconds after the scan, and one thirty seconds later. *)
Definition nag130 : exec (res DbErr (list NotificationEvent)) * World :=
  nag_once (130 * ns) sample_url (calm_env 0) scan100.2.
Definition nag160 : exec (res DbErr (list NotificationEvent)) * World :=
  nag_once (160 * ns) sample_url (calm_env 0) nag130.2.

Lemma nag_once_effect_witness :
  exists evs w', nag130 = (Done (Ok evs), w') /\ map ev_check_id evs = [1; 2].
Proof.
  destruct (nag_once_effect (130 * ns) sample_url (calm_env 0) scan100.2)
    as (r & w' & E & Hr); [apply remindable_all; vm_compute; reflexivity|].
  destruct r as [evs|x].
  - exists evs, w'. split; [exact E|]. destruct Hr as (tz & sel & _ & _ & P).
    rewrite (pr_events _ _ _ _ _ _ _ P). destruct (pr_calm _ _ _ _ _ _ _ P (calm_env_calm 0)) as [-> _].
    clear P E. vm_compute. reflexivity.
  - destruct Hr as [_ Hn]. destruct (Hn (calm_env_calm 0)).
Defined.

Lemma nag_once_spacing_witness :
  map ev_check_id (events_of nag160.1) = [1; 2] /\
  exists c i, c_id c = 1 /\ nag_interval_of (w_db nag130.2) c = Some i /\ 130 * ns + i * ns <= 160 * ns.
Proof.
  split; [vm_compute; reflexivity|].
  destruct (nag_once_spacing (130 * ns) (160 * ns) sample_url (calm_env 0) (calm_env 0)
    scan100.2 nag130.2 nag130.2 nag160.2 (events_of nag130.1) (events_of nag160.1) 1)
    as (c & i & _ & Hid & Hi & _ & Hle).
  - vm_compute. split; discriminate.
  - apply remindable_all. vm_compute. reflexivity.
  - apply remindable_all. vm_compute. reflexivity.
  - vm_compute. reflexivity.
  - reflexivity.
  - vm_compute. reflexivity.
  - vm_compute. left.
  - vm_compute. left.
  - exists c, i. split; [exact Hid|]. split; [exact Hi|exact Hle].
Defined.

(** The sample database with one more check, whose period is [i64::MAX] seconds. *)
Definition poisoned_db : Db :=
  w_db (create_check (mk_NewCheck 1 (lit "never") [] (lit "u3") SK_Period (Some i64_max) 0 None
          (lit "UTC") None None None) (calm_env 0) (world_of sample_db)).2.

Lemma huge_period_kills_scan_loop_witness :
  (run_scan_loop (mk_ScanLoop 30 None sample_url) (fun _ => true) 1 0 (calm_env t100)
     (world_of poisoned_db)).1 = Panic.
Proof.
  destruct (List.find (fun c => c_id c =? 3) (active_checks poisoned_db)) as [c|] eqn:Ef.
  2: { vm_compute in Ef. discriminate. }
  pose proof Ef as Ef'. apply List.find_some in Ef' as [Hin _].
  vm_compute in Ef. injection Ef as <-.
  refine (proj2 (huge_period_kills_scan_loop (mk_ScanLoop 30 None sample_url) (fun _ => true) 0 0
    (calm_env t100) (world_of poisoned_db) _ i64_max (calm_env_calm t100)
    (proj2 (list_elem_of_In _ _) Hin) eq_refl eq_refl _)).
  vm_compute. reflexivity.
Defined.
