(* ===== verification/View.v ===== *)
(** * View: [src/view.rs], what the pages show of a check

    The displayed status and the next deadline, run durations and the heartbeat bars.
    The bars are drawn with [f64] arithmetic, which is that of [SpecFloat]: binary64,
    rounded to nearest. *)
From Stdlib Require Import SpecFloat.
From S2P Require Import Prelude Text Models Config Wire Chrono Db Rows Store Sample Notify Scheduler.
#[local] Open Scope Z_scope.
#[local] Open Scope pw_scope.

Inductive DisplayStatus : Set :=
| DS_New
| DS_Up
| DS_Running
| DS_Late
| DS_Down
| DS_Paused.

#[export] Instance DisplayStatus_eq_dec : EqDecision DisplayStatus.
Proof. solve_decision. Defined.

Definition DisplayStatus_as_str (s : DisplayStatus) : str :=
  match s with
  | DS_New => lit "new"
  | DS_Up => lit "up"
  | DS_Running => lit "running"
  | DS_Late => lit "late"
  | DS_Down => lit "down"
  | DS_Paused => lit "paused"
  end.

(** [Option]'s derived order: [None] below every [Some]. *)
Definition option_gtb (a b : option Z) : bool :=
  match a, b with
  | Some x, Some y => y <? x
  | Some _, None => true
  | None, _ => false
  end.

Definition is_running (check : Check) : bool :=
  option_gtb (c_last_start_at check) (c_last_ping_at check).

(** ** Texts *)

(** [{:02}]. *)
Definition pad2 (n : Z) : str := if n <? 10 then lit "0" ++ show_Z n else show_Z n.

Definition fmt_secs (secs : Z) : str :=
  let s := Z.max secs 0 in
  if s <? 60 then show_Z s ++ lit "s"
  else if s <? 3600 then show_Z (s / 60) ++ lit "m " ++ pad2 (s mod 60) ++ lit "s"
  else show_Z (s / 3600) ++ lit "h " ++ pad2 (s mod 3600 / 60) ++ lit "m".

(** The coarsest unit of a number of seconds. *)
Definition coarse (s : Z) : str :=
  if s <? 60 then show_Z s ++ lit "s"
  else if s <? 3600 then show_Z (s / 60) ++ lit "m"
  else if s <? 86400 then show_Z (s / 3600) ++ lit "h"
  else show_Z (s / 86400) ++ lit "d".
Definition fmt_relative (then_ now : Z) : str :=
  coarse (Z.max (num_seconds (now - then_)) 0) ++ lit " ago".
Definition fmt_until (then_ now : Z) : str :=
  lit "in " ++ coarse (Z.max (num_seconds (then_ - now)) 0).

Definition durations : list str :=
  map lit ["30s"; "1m"; "5m"; "15m"; "30m"; "1h"; "6h"; "12h"; "1d"; "7d"]%string.
Definition expiries : list str := map lit ["7d"; "30d"; "90d"; "365d"]%string.

(** ** Runs *)

Definition is_finish (k : PingKind) : bool :=
  match k with PK_Success | PK_Fail => true | _ => false end.

(** [sort_by_key(|p| (p.created_at, p.id))]. *)
Definition chrono_le (p q : PingSummary) : Prop :=
  ps_created_at p < ps_created_at q \/
  ps_created_at p = ps_created_at q /\ ps_id p <= ps_id q.
#[export] Instance chrono_le_dec : RelDecision chrono_le.
Proof. intros p q. unfold chrono_le. apply _. Defined.
#[export] Instance chrono_le_total : Total chrono_le.
Proof. intros p q. unfold chrono_le. lia. Qed.
#[export] Instance chrono_le_trans : Transitive chrono_le.
Proof. intros p q r. unfold chrono_le. lia. Qed.

(** One turn of the loop: the durations so far and the start that is pending. *)
Definition run_step (st : gmap Z Z * option Z) (p : PingSummary) : gmap Z Z * option Z :=
  let '(out, pending_start) := st in
  if bool_decide (ps_kind p = PK_Start) then (out, Some (ps_created_at p))
  else if negb (is_finish (ps_kind p)) then st
  else match pending_start with
       | None => (out, None)
       | Some started_at =>
           let secs := num_seconds (ps_created_at p - started_at) in
           (if 0 <=? secs then <[ps_id p := secs]> out else out, None)
       end.
Definition run_durations (pings : list PingSummary) : gmap Z Z :=
  (fold_left run_step (merge_sort chrono_le pings) (∅, None)).1.

(** ** The heartbeat *)

Record Bar := mk_Bar {
  bar_height : Z;
  bar_class : str;
  bar_title : str;
}.

Definition MAX_H : Z := 26.
Definition MIN_H : Z := 5.
Definition NONE_H : Z := 16.

(** [f64]. *)
Definition prec : Z := 53.
Definition emax : Z := 1024.
(** [n as f64]. *)
Definition f64_of (n : Z) : spec_float := binary_normalize prec emax n 0 false.
(** The literal [0.80]: the double next to it, 7205759403792794 * 2^-53. *)
Definition HOT_FRACTION : spec_float := S754_finite false 7205759403792794 (-53).

Definition f64_leb (a b : spec_float) : bool :=
  match SFcompare a b with Some Lt | Some Eq => true | _ => false end.
Definition f64_ltb (a b : spec_float) : bool :=
  match SFcompare a b with Some Lt => true | _ => false end.
(** [f64::clamp(0.0, 1.0)]. *)
Definition clamp01 (x : spec_float) : spec_float :=
  let x := if f64_ltb x (f64_of 0) then f64_of 0 else x in
  if f64_ltb (f64_of 1) x then f64_of 1 else x.
(** [x.round() as u32]: to the nearest integer, halves away from zero, saturating, and 0
    for a NaN. *)
Definition round_as_u32 (x : spec_float) : Z :=
  match x with
  | S754_finite false m e =>
      let n := if 0 <=? e then Z.pos m * 2 ^ e else (Z.pos m + 2 ^ (- e - 1)) / 2 ^ (- e) in
      Z.min u32_max n
  | S754_infinity false => u32_max
  | _ => 0
  end.

Definition clamp (lo hi v : Z) : Z := Z.min hi (Z.max lo v).

(** The explicit budget, else the longest of at least two measured runs. *)
Definition runtime_ceiling (max_runtime_secs : option Z) (measured : list Z) : option Z :=
  match max_runtime_secs with
  | Some m => if 0 <? m then Some m else
              if (2 <=? length measured)%nat then Some (fold_left Z.max measured (hd 0 measured)) else None
  | None => if (2 <=? length measured)%nat then Some (fold_left Z.max measured (hd 0 measured)) else None
  end.

Definition is_hot (max_runtime_secs : option Z) (d : Z) : bool :=
  match max_runtime_secs with
  | Some m => (0 <? m) && f64_leb (SFmul prec emax HOT_FRACTION (f64_of m)) (f64_of d)
  | None => false
  end.

Definition bar_of (max_runtime_secs ceiling : option Z) (durations : gmap Z Z) (p : PingSummary) : Bar :=
  let dur := durations !! ps_id p in
  let failed := bool_decide (ps_kind p = PK_Fail) in
  let unmeasured :=
    mk_Bar (if failed then MAX_H else NONE_H) (if failed then lit "bad" else lit "none")
      (if failed then lit "failed"
       else match dur with Some _ => lit "no runtime limit set" | None => lit "duration unknown" end) in
  match dur, ceiling with
  | Some d, Some c =>
      if 0 <? c then
        let frac := clamp01 (SFdiv prec emax (f64_of d) (f64_of c)) in
        let h := round_as_u32 (SFmul prec emax (f64_of MAX_H) frac) in
        mk_Bar (clamp MIN_H MAX_H h)
          (if failed then lit "bad" else if is_hot max_runtime_secs d then lit "hot" else [])
          (fmt_secs d ++ lit " / " ++ fmt_secs c)
      else unmeasured
  | _, _ => unmeasured
  end.

Definition heartbeat (pings : list PingSummary) (max_runtime_secs : option Z) (paused : bool)
    (n : nat) : list Bar :=
  if paused then List.repeat (mk_Bar MIN_H (lit "pausedbar") (lit "paused")) n else
  let durations := run_durations pings in
  let runs := merge_sort chrono_le (List.filter (fun p => is_finish (ps_kind p)) pings) in
  let runs := drop (length runs - n) runs in
  let measured := omap (fun p => durations !! ps_id p) runs in
  let ceiling := runtime_ceiling max_runtime_secs measured in
  map (bar_of max_runtime_secs ceiling durations) runs.

(** ** Status and deadline *)

Section view.
Context `{Cron}.

(** [due - Duration::seconds(grace)] may panic. *)
Definition display_status (check : Check) (now : Z) : exec DisplayStatus :=
  match c_status check with
  | CS_Down => Done DS_Down
  | CS_Paused => Done DS_Paused
  | CS_New => Done (if is_running check then DS_Running else DS_New)
  | CS_Up =>
      if is_running check then Done DS_Running else
      match c_next_due_at check with
      | Some due =>
          let* grace := td_seconds (c_grace_secs check) in
          let* expected := dt_add due (- grace) in
          Done (if (expected <? now) && (now <=? due) then DS_Late else DS_Up)
      | None => Done DS_Up
      end
  end.

Record NextDue := mk_NextDue { nd_label : str; nd_iso : option str }.

Definition next_due (check : Check) (now : Z) : exec NextDue :=
  let unlabelled label := mk_NextDue label None in
  if bool_decide (c_status check = CS_Paused) then Done (unlabelled (lit "not scheduled while paused"))
  else
    let* due := due_time check in
    match due with
    | None => Done (unlabelled (lit "next due unknown"))
    | Some due =>
        let label :=
          if due <=? now then lit "overdue by " ++ fmt_secs (num_seconds (now - due))
          else match c_last_ping_at check with
               | None => lit "first ping due " ++ fmt_until due now
               | Some _ => lit "due " ++ fmt_until due now
               end in
        Done (mk_NextDue label (Some (to_rfc3339 due)))
    end.

End view.

(** ** Runs are a start and the finish that answers it *)

(** In a list in order: [q] starts, [p] finishes, and nothing between them starts or
    finishes. *)
Definition quiet (p : PingSummary) : Prop := ps_kind p <> PK_Start /\ is_finish (ps_kind p) = false.
Definition opens (l : list PingSummary) (q : PingSummary) : Prop :=
  exists l1 l2, l = l1 ++ q :: l2 /\ ps_kind q = PK_Start /\ Forall quiet l2.
Definition paired (l : list PingSummary) (q p : PingSummary) : Prop :=
  exists l1 l2, l = l1 ++ p :: l2 /\ is_finish (ps_kind p) = true /\ opens l1 q.

Lemma opens_quiet l p q : quiet p -> opens (l ++ [p]) q <-> opens l q.
Proof.
  intros Hp. split.
  - intros (l1 & l2 & E & Hq & Hl). destruct l2 as [|x l2 _] using rev_ind.
    + apply app_inj_tail in E as [_ ->]. by destruct Hp.
    + rewrite app_comm_cons, app_assoc in E. apply app_inj_tail in E as [-> ->].
      apply Forall_app in Hl as [Hl _]. by exists l1, l2.
  - intros (l1 & l2 & -> & Hq & Hl). exists l1, (l2 ++ [p]). split; [by rewrite <- app_assoc|].
    split; [done|]. apply Forall_app. split; [done|by constructor].
Qed.

Lemma opens_finish l p q : is_finish (ps_kind p) = true -> ~ opens (l ++ [p]) q.
Proof.
  intros Hp (l1 & l2 & E & Hq & Hl). destruct l2 as [|x l2 _] using rev_ind.
  - apply app_inj_tail in E as [_ ->]. by rewrite Hq in Hp.
  - rewrite app_comm_cons, app_assoc in E. apply app_inj_tail in E as [_ ->].
    apply Forall_app in Hl as [_ Hx]. apply Forall_singleton in Hx as [_ Hx]. congruence.
Qed.

Lemma opens_start l p q : ps_kind p = PK_Start -> opens (l ++ [p]) q <-> q = p.
Proof.
  intros Hp. split.
  - intros (l1 & l2 & E & Hq & Hl). destruct l2 as [|x l2 _] using rev_ind.
    + by apply app_inj_tail in E as [_ ->].
    + rewrite app_comm_cons, app_assoc in E. apply app_inj_tail in E as [_ ->].
      apply Forall_app in Hl as [_ Hx]. by apply Forall_singleton in Hx as [Hx _].
  - intros ->. exists l, []. by repeat split.
Qed.

Lemma opens_unique l q q' : opens l q -> opens l q' -> q = q'.
Proof.
  induction l as [|p l IH] using rev_ind.
  { intros (l1 & ? & E & _). by destruct l1. }
  destruct (decide (ps_kind p = PK_Start)) as [Hs|Hs].
  { rewrite !opens_start by done. congruence. }
  destruct (is_finish (ps_kind p)) eqn:Hf; [by intros ?%opens_finish|].
  rewrite !opens_quiet by done. done.
Qed.

Lemma paired_snoc l x q p :
  paired (l ++ [x]) q p <->
  paired l q p \/ (p = x /\ is_finish (ps_kind x) = true /\ opens l q).
Proof.
  split.
  - intros (l1 & l2 & E & Hf & Ho). destruct l2 as [|y l2 _] using rev_ind.
    + apply app_inj_tail in E as [-> ->]. by right.
    + rewrite app_comm_cons, app_assoc in E. apply app_inj_tail in E as [-> ->].
      left. by exists l1, l2.
  - intros [(l1 & l2 & -> & Hf & Ho)|(-> & Hf & Ho)].
    + exists l1, (l2 ++ [x]). by rewrite <- app_assoc.
    + by exists l, [].
Qed.

Definition measures (l : list PingSummary) (i s : Z) : Prop :=
  exists q p, paired l q p /\ ps_id p = i /\ s = num_seconds (ps_created_at p - ps_created_at q).

Lemma opens_in l q : opens l q -> q ∈ l.
Proof. intros (l1 & l2 & -> & _). set_solver. Qed.
Lemma paired_in l q p : paired l q p -> p ∈ l.
Proof. intros (l1 & l2 & -> & _). set_solver. Qed.

Lemma num_seconds_nonneg d : 0 <= d -> 0 <= num_seconds d.
Proof. intros. unfold num_seconds, ns. by apply Z.quot_pos. Qed.

(** A ping that ends no run measures nothing. *)
Lemma measures_snoc_quiet l x i s :
  (forall q, is_finish (ps_kind x) = true -> ~ opens l q) ->
  measures (l ++ [x]) i s <-> measures l i s.
Proof.
  intros Hq. unfold measures. setoid_rewrite paired_snoc.
  split; [|naive_solver]. intros (q & p & [?|(_ & Hf & Ho)] & ?); [eauto|]. by apply Hq in Ho.
Qed.

(** One that does measures from the start that is open. *)
Lemma measures_snoc_finish l x q0 i s :
  NoDup (map ps_id (l ++ [x])) -> is_finish (ps_kind x) = true -> opens l q0 ->
  measures (l ++ [x]) i s <->
  if decide (i = ps_id x) then s = num_seconds (ps_created_at x - ps_created_at q0) else measures l i s.
Proof.
  intros Hn Hf Ho. rewrite map_app in Hn. apply NoDup_app in Hn as (_ & Hx & _).
  unfold measures. setoid_rewrite paired_snoc. case_decide as Hi; [subst i; split|split; [|naive_solver]].
  - intros (q & p & [Hp|(-> & _ & Ho')] & Hid & ->); [exfalso|by rewrite (opens_unique _ _ _ Ho' Ho)].
    apply (Hx (ps_id x)); [|simpl; by left]. rewrite <- Hid. apply list_elem_of_fmap_2. by eapply paired_in.
  - intros ->. exists q0, x. auto.
  - intros (q & p & [?|(-> & _ & _)] & Hid & ->); [eauto 6|congruence].
Qed.

(** The loop measures exactly the pairs, and the pending start is the one still open. *)
Lemma run_fold_spec l :
  StronglySorted chrono_le l -> NoDup (map ps_id l) ->
  let st := fold_left run_step l (∅, None) in
  (forall i s, st.1 !! i = Some s <-> measures l i s) /\
  (forall t, st.2 = Some t <-> exists q, opens l q /\ ps_created_at q = t).
Proof.
  induction l as [|x l IH] using rev_ind; intros Hs Hn.
  { split.
    - intros i s. simpl. rewrite lookup_empty. split; [done|]. by intros (q & p & ?%paired_in%elem_of_nil & _).
    - intros t. split; [done|]. by intros (q & ?%opens_in%elem_of_nil & _). }
  pose proof Hn as Hall. rewrite map_app in Hn. apply NoDup_app in Hn as (Hn & _ & _).
  apply StronglySorted_app in Hs as (Hle & Hs & _).
  rewrite fold_left_app. destruct (IH Hs Hn) as [IH1 IH2]. clear IH.
  destruct (fold_left run_step l (∅, None)) as [out pending]. cbn [fold_left run_step].
  simpl in IH1, IH2.
  case_bool_decide as Hk.
  { split; simpl.
    - intros i s. rewrite IH1, measures_snoc_quiet; [done|]. by rewrite Hk.
    - intros t. setoid_rewrite opens_start; [|done]. naive_solver. }
  destruct (is_finish (ps_kind x)) eqn:Hf; cbn [negb].
  2: { split; simpl.
    - intros i s. rewrite IH1, measures_snoc_quiet; [done|]. congruence.
    - intros t. setoid_rewrite opens_quiet; [|done]. apply IH2. }
  destruct pending as [t0|]; simpl.
  2: { split; [|intros t; split; [done|]; by intros (q & ?%opens_finish & _)].
    intros i s. rewrite IH1, measures_snoc_quiet; [done|]. intros q _ Ho.
    assert (None = Some (ps_created_at q)) by (apply IH2; eauto). done. }
  destruct (proj1 (IH2 t0) eq_refl) as (q0 & Ho0 & E0).
  assert (0 <= num_seconds (ps_created_at x - t0)) as Hpos.
  { apply num_seconds_nonneg. specialize (Hle q0 x (opens_in _ _ Ho0) ltac:(by apply list_elem_of_singleton)).
    unfold chrono_le in Hle. lia. }
  rewrite (proj2 (Z.leb_le _ _) Hpos). split; [|intros t; split; [done|]; by intros (q & ?%opens_finish & _)].
  intros i s. rewrite (measures_snoc_finish l x q0) by done. rewrite E0. case_decide as Hi.
  - subst i. rewrite lookup_insert_eq. naive_solver.
  - rewrite lookup_insert_ne by done. apply IH1.
Qed.

Lemma sorted_pings_NoDup pings :
  NoDup (map ps_id pings) -> NoDup (map ps_id (merge_sort chrono_le pings)).
Proof. intros H. by rewrite merge_sort_Permutation. Qed.


Lemma NoDup_id_inj pings p q :
  NoDup (map ps_id pings) -> p ∈ pings -> q ∈ pings -> ps_id p = ps_id q -> p = q.
Proof.
  intros Hn [i Hi]%list_elem_of_lookup [j Hj]%list_elem_of_lookup E.
  assert (i = j) as ->; [|congruence]. eapply (NoDup_lookup _ i j (ps_id p) Hn).
  - by rewrite list_lookup_fmap, Hi.
  - rewrite E. by rewrite list_lookup_fmap, Hj.
Qed.

Lemma same_pings pings pings' :
  NoDup (map ps_id pings) -> pings ≡ₚ pings' ->
  merge_sort chrono_le pings = merge_sort chrono_le pings'.
Proof.
  intros Hn Hp. apply (StronglySorted_unique_strong chrono_le).
  - intros x y Hx Hy Hxy Hyx. apply (NoDup_id_inj pings); [done| | |unfold chrono_le in *; lia].
    + by rewrite merge_sort_Permutation in Hx.
    + by rewrite merge_sort_Permutation, <- Hp in Hy.
  - apply (StronglySorted_merge_sort chrono_le).
  - apply (StronglySorted_merge_sort chrono_le).
  - by rewrite !merge_sort_Permutation.
Qed.

(** C40: run durations pair every finish with its own start. Whatever the order the pings
    come in, a finish has a duration exactly when, in order of time, a start precedes it
    with no other start or finish in between; the duration is the whole seconds from
    that start, never negative; and the order of the input does not matter. *)
Theorem run_durations_pairs pings pings' :
  NoDup (map ps_id pings) -> pings ≡ₚ pings' ->
  (forall i s, run_durations pings !! i = Some s <-> measures (merge_sort chrono_le pings) i s) /\
  (forall i s, run_durations pings !! i = Some s -> 0 <= s) /\
  run_durations pings' = run_durations pings.
Proof.
  intros Hn Hp. unfold run_durations. rewrite <- (same_pings _ _ Hn Hp).
  pose proof (StronglySorted_merge_sort chrono_le pings) as Hs.
  destruct (run_fold_spec _ Hs (sorted_pings_NoDup _ Hn)) as [H1 _].
  split; [done|]. split; [|done].
  intros i s (q & p & (l1 & l2 & E & _ & Ho) & _ & ->)%H1. apply num_seconds_nonneg.
  rewrite E in Hs. apply StronglySorted_app in Hs as (Hle & _ & _).
  specialize (Hle q p (opens_in _ _ Ho) ltac:(by left)). unfold chrono_le in Hle. lia.
Qed.

(** ** The bars *)

Definition bar_shows (max_runtime ceiling : option Z) (durations : gmap Z Z) (p : PingSummary)
    (b : Bar) : Prop :=
  b = bar_of max_runtime ceiling durations p /\
  MIN_H <= bar_height b <= MAX_H /\
  (bar_class b = lit "bad" <-> ps_kind p = PK_Fail).

Lemma bar_of_shows max_runtime ceiling durations p :
  bar_shows max_runtime ceiling durations p (bar_of max_runtime ceiling durations p).
Proof.
  split; [done|]. unfold bar_of.
  destruct (bool_decide (ps_kind p = PK_Fail)) eqn:Ef;
    [apply bool_decide_eq_true in Ef|apply bool_decide_eq_false in Ef];
    repeat case_match; simpl; unfold clamp, MAX_H, MIN_H, NONE_H in *;
    (split; [lia|done]).
Qed.

(** The runs the bars stand for: the last [n] finishes in order of time. *)
Definition last_runs (pings : list PingSummary) (n : nat) : list PingSummary :=
  let runs := merge_sort chrono_le (List.filter (fun p => is_finish (ps_kind p)) pings) in
  drop (length runs - n) runs.

(** The heartbeat draws one bar per run. An unpaused check gets one bar for each of
    its last [n] finishes, in order of time, each from 5 to 26 units high and marked bad
    exactly when the run failed; a paused one gets [n] bars of the lowest height. *)
Theorem heartbeat_bars pings max_runtime n :
  (exists ceiling, Forall2 (bar_shows max_runtime ceiling (run_durations pings))
     (last_runs pings n) (heartbeat pings max_runtime false n)) /\
  length (heartbeat pings max_runtime false n)
    = Nat.min n (length (List.filter (fun p => is_finish (ps_kind p)) pings)) /\
  heartbeat pings max_runtime true n = List.repeat (mk_Bar MIN_H (lit "pausedbar") (lit "paused")) n.
Proof.
  split; [|split; [|done]].
  - eexists. unfold heartbeat. fold (last_runs pings n). cbv zeta.
    apply Forall2_fmap_r, Forall2_same_length_lookup_2; [done|].
    intros i p b Hp Hb. rewrite Hp in Hb. injection Hb as <-. apply bar_of_shows.
  - unfold heartbeat. cbv zeta.
    rewrite length_map, length_drop, (Permutation_length (merge_sort_Permutation _ _)). lia.
Qed.

(** ** The status over time *)

(** The badge of a check that is up, between its last ping and the next scan. Its
    stored deadline splits time in three: up before the grace period, late during it,
    and, once the deadline has passed, up again until a scan takes the check down, which
    it does exactly from then on; meanwhile the page's own deadline says overdue. *)
Theorem display_status_timeline `{Cron} c due now :
  c_status c = CS_Up -> is_running c = false -> c_next_due_at c = Some due ->
  due_time c = Done (Some due) -> 0 <= c_grace_secs c -> dt_min <= due - c_grace_secs c * ns <= dt_max ->
  display_status c now = Done
    (if due - c_grace_secs c * ns <? now then if now <=? due then DS_Late else DS_Up else DS_Up) /\
  (due < now -> display_status c now = Done DS_Up /\ reached now (Some due) = true /\
     exists n, next_due c now = Done n /\
       nd_label n = lit "overdue by " ++ fmt_secs (num_seconds (now - due))).
Proof.
  intros Hup Hrun Hdue Ht Hg Hr.
  assert (td_seconds (c_grace_secs c) = Done (c_grace_secs c * ns)) as Hgrace.
  { unfold due_time in Ht. apply exec_bind_done in Ht as (g & Hg' & _).
    by pose proof Hg' as [-> _]%td_seconds_Done. }
  assert (display_status c now = Done
    (if due - c_grace_secs c * ns <? now then if now <=? due then DS_Late else DS_Up else DS_Up)) as E.
  { unfold display_status. rewrite Hup, Hrun, Hdue, Hgrace. cbn [exec_bind].
    rewrite (proj2 (dt_add_Done due _ (due - c_grace_secs c * ns))) by (split; [lia|lia]).
    cbn [exec_bind]. destruct (_ <? now), (now <=? due); done. }
  split; [done|]. intros Hnow. rewrite E. split.
  { destruct (_ <? now); [|done]. by rewrite (proj2 (Z.leb_gt now due)). }
  split; [unfold reached; lia|]. unfold next_due. rewrite Hup, Ht. cbn [exec_bind].
  rewrite bool_decide_eq_false_2 by done. eexists. split; [done|]. cbn.
  by rewrite (proj2 (Z.leb_le due now)) by lia.
Qed.

(** ** Witnesses *)

#[local] Existing Instance SampleChrono.sample_chrono.
#[local] Existing Instance SampleChrono.sample_cron.

Definition sample_pings : list PingSummary := [
  mk_PingSummary 4 1 PK_Success (90 * ns); mk_PingSummary 1 1 PK_Start 0;
  mk_PingSummary 2 1 PK_Fail (30 * ns); mk_PingSummary 3 1 PK_Log (40 * ns)].

Lemma run_durations_pairs_witness :
  run_durations sample_pings !! 2 = Some 30 /\ run_durations sample_pings !! 4 = None /\
  run_durations (rev sample_pings) = run_durations sample_pings.
Proof.
  split; [vm_compute; reflexivity|]. split; [vm_compute; reflexivity|].
  apply (run_durations_pairs sample_pings (rev sample_pings)).
  - apply (bool_decide_eq_true_1 (NoDup _)). vm_compute. reflexivity.
  - apply Permutation_rev.
Defined.

Definition sample_up : Check :=
  mk_Check 1 1 (lit "job") [] (lit "u") SK_Period (Some 60) 10 None (lit "UTC") CS_Up
    (Some 0) None (Some (70 * ns)) None None None None false 0.

Lemma display_status_timeline_witness :
  display_status sample_up (65 * ns) = Done DS_Late /\
  display_status sample_up (71 * ns) = Done DS_Up /\ reached (71 * ns) (Some (70 * ns)) = true.
Proof.
  assert (due_time sample_up = Done (Some (70 * ns))) as Ht by (vm_compute; reflexivity).
  assert (0 <= c_grace_secs sample_up) as Hg by discriminate.
  assert (dt_min <= 70 * ns - c_grace_secs sample_up * ns <= dt_max) as Hr
    by (split; apply Z.leb_le; vm_compute; reflexivity).
  destruct (display_status_timeline sample_up (70 * ns) (65 * ns) eq_refl eq_refl eq_refl Ht Hg Hr)
    as [E _].
  destruct (display_status_timeline sample_up (70 * ns) (71 * ns) eq_refl eq_refl eq_refl Ht Hg Hr)
    as [_ H].
  destruct H as (E2 & R & _); [vm_compute; reflexivity|]. split; [rewrite E; vm_compute; reflexivity|].
  split; [exact E2|exact R].
Defined.
