(* ===== verification/Prune.v ===== *)
(** * Prune: [src/prune.rs], the retention of pings, notifications, audit and sessions *)
From S2P Require Import Prelude Text Models Config Wire Chrono Auth Db Rows Store Sample Scheduler Sessions.
#[local] Open Scope Z_scope.
#[local] Open Scope pw_scope.

Section prune.
Context `{Chrono}.

Definition parse_days (v : option str) : option Z :=
  s ← v; n ← parse_i64 (trim s); if 0 <? n then Some n else None.

Definition retention_cutoff (now : Z) (setting : option str) : option str :=
  days ← parse_days setting;
  d ← try_days days;
  cutoff ← checked_sub_signed now d;
  Some (to_rfc3339 cutoff).

Inductive PruneTable : Set := PT_Pings | PT_Notifications | PT_Audit.
Definition setting_key (t : PruneTable) : str :=
  match t with
  | PT_Pings => lit "pings_retention_days"
  | PT_Notifications => lit "notifications_retention_days"
  | PT_Audit => lit "audit_retention_days"
  end.

Definition prune_table (now : Z) (table : PruneTable) : M (res DbErr Z) :=
  let? setting := get_setting (setting_key table) in
  match retention_cutoff now setting with
  | None => mret (Ok 0)
  | Some cutoff =>
      match table with
      | PT_Pings => delete_pings_before cutoff
      | PT_Notifications => delete_notifications_before cutoff
      | PT_Audit => delete_audit_before cutoff
      end
  end.

Record PruneCounts := mk_PruneCounts {
  pc_pings : Z; pc_notifications : Z; pc_audit : Z; pc_sessions : Z;
}.

Definition prune_once (now : Z) : M (res DbErr PruneCounts) :=
  let? p := prune_table now PT_Pings in
  let? n := prune_table now PT_Notifications in
  let? a := prune_table now PT_Audit in
  let? s := delete_expired_sessions now in
  mret (Ok (mk_PruneCounts p n a s)).

(** One pass of [run_prune_loop], and the loop: [stop k] is whether the shutdown signal
    wins the [select] of pass [k]. *)
Definition prune_pass : M unit :=
  do now := utc_now in
  do _ := prune_once now in
  do now2 := utc_now in
  do _ := set_setting (lit "last_prune_at") (to_rfc3339 now2) in
  mret tt.

Fixpoint run_prune_loop (interval_secs : Z) (stop : nat -> bool) (fuel k : nat) : M bool :=
  match fuel with
  | O => mret false
  | S fuel' =>
      do _ := prune_pass in
      if stop k then mret true
      else
        do _ := sleep (Z.max interval_secs 1 * ns) in
        run_prune_loop interval_secs stop fuel' (S k)
  end.

End prune.

(** ** Theorems *)

Section prune_theorems.
Context `{ChronoLaws}.

(** The instant a retention setting keeps rows from, if it is on and in range. *)
Definition keep_from (now : Z) (setting : option str) : option Z :=
  n ← parse_days setting;
  d ← try_days n;
  checked_sub_signed now d.

Lemma retention_cutoff_keep now setting :
  retention_cutoff now setting = to_rfc3339 <$> keep_from now setting.
Proof.
  unfold retention_cutoff, keep_from. destruct (parse_days setting) as [n|]; simpl; [|done].
  destruct (try_days n) as [d|]; simpl; [|done]. by destruct (checked_sub_signed now d).
Qed.

(** Every row's [created_at] is a timestamp. *)
Definition dated {R} (created_at : R -> str) (t : Table R) : Prop :=
  forall id r, t_rows t !! id = Some r -> exists a, created_at r = to_rfc3339 a /\ text_ok a.

(** [t'] holds the rows of [t] created at [from] or later, and [n] counts the others. *)
Definition kept_since {R} (created_at : R -> str) (from : Z) (t t' : Table R) (n : Z) : Prop :=
  t_seq t' = t_seq t /\
  (forall id r, t_rows t' !! id = Some r <->
     t_rows t !! id = Some r /\ exists a, created_at r = to_rfc3339 a /\ text_ok a /\ from <= a) /\
  n = Z.of_nat (size (t_rows t)) - Z.of_nat (size (t_rows t')).

Lemma delete_before_kept {R} (created_at : R -> str) from t :
  text_ok from -> dated created_at t ->
  kept_since created_at from t (delete_before created_at (to_rfc3339 from) t).2
    (delete_before created_at (to_rfc3339 from) t).1.
Proof.
  intros Tf Hd. unfold delete_before. split; [done|]. split.
  - intros id r. cbn [snd]. rewrite delete_where_lookup. split.
    + intros [Hr Hp]. split; [done|]. destruct (Hd id r Hr) as (a & Ha & Ta).
      exists a. split; [done|]. split; [done|]. rewrite Ha, rfc3339_order in Hp by done. by bool_to_prop.
    + intros [Hr (a & Ha & Ta & Hle)]. split; [done|]. rewrite Ha, rfc3339_order by done.
      by apply Z.ltb_ge.
  - cbn [fst snd]. unfold count_where, delete_where; cbn [t_rows].
    set (P := fun kr : Z * R => str_ltb (created_at kr.2) (to_rfc3339 from) = true).
    pose proof (map_filter_union_complement P (t_rows t)) as Hu.
    pose proof (map_disjoint_filter_complement P (t_rows t)) as Hdisj.
    assert (size (t_rows t) = size (filter P (t_rows t)) +
      size (filter (fun kr => ~ P kr) (t_rows t)))%nat as Hsize.
    { rewrite <- map_size_disj_union by done. by rewrite Hu. }
    assert (filter (fun kr : Z * R => str_ltb (created_at kr.2) (to_rfc3339 from) = false) (t_rows t) =
            filter (fun kr => ~ P kr) (t_rows t)) as Ef.
    { apply map_filter_ext. intros i x _. subst P. simpl. by destruct (str_ltb _ _). }
    rewrite Ef. subst P. cbv beta in *. lia.
Qed.

(** Retention deletes exactly what is too old. When nothing fails, pruning a table
    whose setting is off, blank, not a positive number or too large to subtract changes
    nothing; otherwise it keeps precisely the rows created at or after [now] less that
    many days, reports how many it deleted, and touches no other table. It never panics,
    whatever the setting. *)
Theorem prune_table_exact now table e w :
  calm e ->
  dated pgr_created_at (pings (w_db w)) -> dated nr_created_at (notifications (w_db w)) ->
  dated ar_created_at (audit_log (w_db w)) ->
  exists n w', prune_table now table e w = (Done (Ok n), w') /\
    match keep_from now (settings (w_db w) !! setting_key table) with
    | None => n = 0 /\ w_db w' = w_db w
    | Some from =>
        text_ok from ->
        match table with
        | PT_Pings => exists t, w_db w' = set_pings t (w_db w) /\
            kept_since pgr_created_at from (pings (w_db w)) t n
        | PT_Notifications => exists t, w_db w' = set_notifications t (w_db w) /\
            kept_since nr_created_at from (notifications (w_db w)) t n
        | PT_Audit => exists t, w_db w' = set_audit_log t (w_db w) /\
            kept_since ar_created_at from (audit_log (w_db w)) t n
        end
    end.
Proof.
  intros He Hp Hn Ha. unfold prune_table, get_setting.
  rewrite (mtry_query_calm _ _ e w (settings (w_db w) !! setting_key table) He) by done.
  rewrite retention_cutoff_keep. destruct (keep_from now _) as [from|]; cbn [fmap option_fmap option_map].
  2: { by eexists _, _. }
  destruct table; unfold delete_pings_before, delete_notifications_before, delete_audit_before;
    rewrite stmt_calm by done; simpl w_db; unfold delete_before;
    (eexists _, _; split; [reflexivity|]); intros Tf; (eexists; split; [reflexivity|]).
  - by apply (delete_before_kept pgr_created_at from).
  - by apply (delete_before_kept nr_created_at from).
  - by apply (delete_before_kept ar_created_at from).
Qed.

End prune_theorems.

#[local] Existing Instance SampleChrono.sample_chrono.
#[local] Existing Instance SampleChrono.sample_chrono_laws.

(** Pings of days 0, 5 and 9, kept for three days. *)
Definition retention_db : Db :=
  set_settings {[ lit "pings_retention_days" := lit " 3 " ]}
    (set_pings (insert_rows (map (fun k => mk_PingRow 1 (lit "log") None [] None (to_rfc3339 (days k)))
       [0; 5; 9]) empty_table) empty_db).

Lemma prune_table_exact_witness :
  exists t w', prune_table (days 10) PT_Pings (calm_env 0) (world_of retention_db) = (Done (Ok 2), w') /\
    w_db w' = set_pings t retention_db /\
    kept_since pgr_created_at (days 7) (pings retention_db) t 2.
Proof.
  destruct (prune_table_exact (days 10) PT_Pings (calm_env 0) (world_of retention_db))
    as (n & w' & E & Hk); [exact (calm_env_calm 0)|..].
  - intros id r Hr. apply elem_of_rows, (list_elem_of_fmap_2 snd) in Hr.
    assert ((rows (t_rows (pings retention_db))).*2 =
      map (fun k => mk_PingRow 1 (lit "log") None [] None (to_rfc3339 (days k))) [0; 5; 9]) as Er
      by (vm_compute; reflexivity).
    simpl snd in Hr. change (w_db (world_of retention_db)) with retention_db in Hr. rewrite Er in Hr.
    apply list_elem_of_fmap in Hr as (k & -> & Hk). exists (days k). split; [reflexivity|].
    repeat (apply elem_of_cons in Hk as [->|Hk]; [vm_compute; split; discriminate|]).
    apply elem_of_nil in Hk. destruct Hk.
  - intros id r Hr. vm_compute in Hr. discriminate.
  - intros id r Hr. vm_compute in Hr. discriminate.
  - rewrite world_of_db in Hk.
    assert (keep_from (days 10) (settings retention_db !! setting_key PT_Pings) = Some (days 7)) as Ek
      by (vm_compute; reflexivity).
    rewrite Ek in Hk. destruct Hk as (t & D & K); [vm_compute; split; discriminate|].
    assert (n = 2) as ->.
    { assert ((prune_table (days 10) PT_Pings (calm_env 0) (world_of retention_db)).1 = Done (Ok 2)) as E2
        by (vm_compute; reflexivity). rewrite E in E2. injection E2 as ->. reflexivity. }
    exists t, w'. split; [exact E|]. split; [exact D|exact K].
Defined.
