(* ===== verification/Forms.v ===== *)
(** * Forms: the validators of [src/web.rs], shared with the JSON API

    A form is what the browser sent, every field a text; a validator yields the values
    to store or the message to show. *)
From S2P Require Import Prelude Text Models Duration Config Wire Chrono Db Rows Store Notify Scheduler Prune.
#[local] Open Scope Z_scope.
#[local] Open Scope pw_scope.

Definition MAX_DESCRIPTION_CHARS : Z := 2000.

Definition validate_description (s : str) : res str str :=
  let trimmed := trim s in
  if MAX_DESCRIPTION_CHARS <? Z.of_nat (length trimmed) then
    Err (lit "description must be at most " ++ show_Z MAX_DESCRIPTION_CHARS ++ lit " characters")
  else Ok trimmed.

Definition parse_opt_positive (s field : str) : res str (option Z) :=
  let t := trim s in
  if is_empty t then Ok None else
  match parse_i64 t with
  | Some v => if 0 <? v then Ok (Some v) else Err (field ++ lit " must be a positive integer")
  | None => Err (field ++ lit " must be a positive integer")
  end.

Definition not_a_positive_duration (field : str) : str :=
  field ++ lit " must be a positive duration (e.g. 30, 5m, 1h30m)".
Definition parse_opt_positive_duration (s field : str) : res str (option Z) :=
  let t := trim s in
  if is_empty t then Ok None else
  match parse_duration t with
  | Some v => if 0 <? v then Ok (Some v) else Err (not_a_positive_duration field)
  | None => Err (not_a_positive_duration field)
  end.

(** ** Projects *)

Record ProjectForm := mk_ProjectForm {
  pf_name : str;
  pf_description : str;
  pf_scan_interval_secs : str;
  pf_nag_interval_secs : str;
}.

Definition validate_project (form : ProjectForm) : res str (str * str * option Z * option Z) :=
  let name := trim (pf_name form) in
  if is_empty name then Err (lit "name is required") else
  let+ description := validate_description (pf_description form) in
  let+ scan := parse_opt_positive_duration (pf_scan_interval_secs form) (lit "scan interval") in
  let+ nag := parse_opt_positive_duration (pf_nag_interval_secs form) (lit "nag interval") in
  Ok (name, description, scan, nag).

(** ** Checks *)

Record CheckForm := mk_CheckForm {
  ckf_name : str;
  ckf_description : str;
  ckf_schedule_kind : str;
  ckf_period_secs : str;
  ckf_cron_expr : str;
  ckf_grace_secs : str;
  ckf_timezone : str;
  ckf_scan_interval_secs : str;
  ckf_max_runtime_secs : str;
  ckf_nag_interval_secs : str;
}.

Record ValidatedCheck := mk_ValidatedCheck {
  vc_name : str;
  vc_description : str;
  vc_kind : ScheduleKind;
  vc_period_secs : option Z;
  vc_grace : Z;
  vc_cron_expr : option str;
  vc_timezone : str;
  vc_scan_interval_secs : option Z;
  vc_max_runtime_secs : option Z;
  vc_nag_interval_secs : option Z;
}.

(** [ok_or]. *)
Definition ok_or_else {E A} (o : option A) (e : E) : res E A :=
  match o with Some a => Ok a | None => Err e end.

Section forms.
Context `{Cron}.

Definition validate_timezone (raw : str) : res str str :=
  let tz := trim raw in
  if is_empty tz then Ok (lit "UTC") else
  match tz_parse tz with
  | Some parsed => Ok (tz_name parsed)
  | None => Err (lit "unknown timezone " ++ dquote ++ tz ++ dquote
                 ++ lit " — use an IANA name such as UTC or Asia/Taipei")
  end.

(** The [match kind]: the period, or the cron expression. *)
Definition validate_schedule (kind : ScheduleKind) (form : CheckForm)
  : res str (option Z * option str) :=
  match kind with
  | SK_Period =>
      if is_empty (trim (ckf_period_secs form)) then
        Err (lit "period_secs required for period mode") else
      let+ secs := ok_or_else (parse_duration (ckf_period_secs form))
                     (lit "period_secs must be a duration (e.g. 30, 5m, 1h30m)") in
      if secs <=? 0 then Err (lit "period_secs must be > 0") else Ok (Some secs, None)
  | SK_Cron =>
      let expr := trim (ckf_cron_expr form) in
      if is_empty expr then Err (lit "cron_expr required for cron mode") else
      match schedule_from_str expr with
      | Ok _ => Ok (None, Some expr)
      | Err e => Err (lit "invalid cron expression: " ++ e)
      end
  end.

Definition validate_check (form : CheckForm) : res str ValidatedCheck :=
  let name := trim (ckf_name form) in
  if is_empty name then Err (lit "name is required") else
  let+ description := validate_description (ckf_description form) in
  let+ grace := ok_or_else (parse_duration (ckf_grace_secs form))
                  (lit "grace_secs must be a duration (e.g. 30, 5m, 1h30m)") in
  if grace <? 0 then Err (lit "grace_secs must be >= 0") else
  let+ kind := match from_str (ckf_schedule_kind form) with
               | Ok k => Ok k
               | Err _ => Err (lit "invalid schedule kind")
               end in
  let+ schedule := validate_schedule kind form in
  let '(period_secs, cron_expr) := schedule in
  let+ timezone := validate_timezone (ckf_timezone form) in
  let+ scan := parse_opt_positive_duration (ckf_scan_interval_secs form)
                 (lit "scan interval") in
  let+ max_runtime := parse_opt_positive_duration (ckf_max_runtime_secs form)
                        (lit "max runtime") in
  let+ nag := parse_opt_positive_duration (ckf_nag_interval_secs form) (lit "nag interval") in
  Ok {| vc_name := name;
        vc_description := description;
        vc_kind := kind;
        vc_period_secs := period_secs;
        vc_grace := grace;
        vc_cron_expr := cron_expr;
        vc_timezone := timezone;
        vc_scan_interval_secs := scan;
        vc_max_runtime_secs := max_runtime;
        vc_nag_interval_secs := nag |}.

(** ** Settings *)

Record SettingsForm := mk_SettingsForm {
  sf_scan_interval : str;
  sf_nag_interval : str;
  sf_pings_retention_days : str;
  sf_notifications_retention_days : str;
  sf_audit_retention_days : str;
  sf_display_timezone : str;
}.

Inductive SettingKind : Set := SetDuration | SetDays | SetTimezone.

Definition fmt_opt_setting (v : option Z) : str :=
  match v with Some n => show_Z n | None => [] end.

Definition validate_opt_timezone (raw : str) : res str str :=
  if is_empty (trim raw) then Ok [] else validate_timezone raw.

(** The table of fields: key, submitted text, label and how it is validated. *)
Definition setting_fields (form : SettingsForm) : list (str * str * str * SettingKind) := [
  (lit "scan_interval", sf_scan_interval form, lit "Global scan interval", SetDuration);
  (lit "nag_interval", sf_nag_interval form, lit "Global nag interval", SetDuration);
  (lit "pings_retention_days", sf_pings_retention_days form, lit "Pings retention", SetDays);
  (lit "notifications_retention_days", sf_notifications_retention_days form,
    lit "Notifications retention", SetDays);
  (lit "audit_retention_days", sf_audit_retention_days form, lit "Audit trail retention", SetDays);
  (lit "display_timezone", sf_display_timezone form, lit "Notification timezone", SetTimezone)].

Definition validate_setting (raw label : str) (kind : SettingKind) : res str str :=
  match kind with
  | SetDuration => let+ v := parse_opt_positive_duration raw label in Ok (fmt_opt_setting v)
  | SetDays => let+ v := parse_opt_positive raw label in Ok (fmt_opt_setting v)
  | SetTimezone => validate_opt_timezone raw
  end.

Fixpoint validate_fields (fields : list (str * str * str * SettingKind))
  : res str (list (str * str)) :=
  match fields with
  | [] => Ok []
  | (key, raw, label, kind) :: rest =>
      let+ value := validate_setting raw label kind in
      let+ parsed := validate_fields rest in
      Ok ((key, value) :: parsed)
  end.

Definition validate_settings (form : SettingsForm) : res str (list (str * str)) :=
  validate_fields (setting_fields form).

End forms.

(** ** Lemmas *)

Lemma parse_opt_positive_duration_pos s field v :
  parse_opt_positive_duration s field = Ok (Some v) -> 0 < v <= i64_max.
Proof.
  unfold parse_opt_positive_duration. intros E. split_matches. bool_to_prop.
  split; [done|]. by eapply parse_duration_bounds.
Qed.

Lemma parse_opt_positive_pos s field v :
  parse_opt_positive s field = Ok (Some v) -> 0 < v <= i64_max.
Proof.
  unfold parse_opt_positive. intros E. split_matches. bool_to_prop.
  match goal with H : parse_i64 _ = Some _ |- _ => apply parse_signed_bounds in H end. lia.
Qed.

Lemma ok_or_else_Ok {E A} (o : option A) (e : E) a : ok_or_else o e = Ok a -> o = Some a.
Proof. destruct o; naive_solver. Qed.

Section form_theorems.
Context `{CronLaws} `{!ChronoLaws}.

Lemma validate_timezone_parses raw tz :
  validate_timezone raw = Ok tz -> exists z, tz_parse tz = Some z.
Proof.
  unfold validate_timezone. intros E. destruct (is_empty (trim raw)).
  - injection E as <-. exists utc. apply tz_parse_utc.
  - destruct (tz_parse (trim raw)) as [z|] eqn:Ez; [|done]. injection E as <-.
    exists z. by eapply tz_parse_name.
Qed.

(** What [validate_schedule] accepts: a positive period or an expression that parses. *)
Lemma validate_schedule_Ok kind form s :
  validate_schedule kind form = Ok s ->
  match kind with
  | SK_Period => exists p, s = (Some p, None) /\ 0 < p <= i64_max
  | SK_Cron => exists e sch, s = (None, Some e) /\ schedule_from_str e = Ok sch
  end.
Proof.
  unfold validate_schedule. intros E. destruct kind.
  - destruct (is_empty _); [done|]. apply res_bind_ok in E as (p & Ep & E).
    apply ok_or_else_Ok, parse_duration_bounds in Ep. split_matches. bool_to_prop.
    exists p. split; [done|lia].
  - split_matches. eauto.
Qed.

Lemma validate_check_Ok form v :
  validate_check form = Ok v ->
  vc_name v = trim (ckf_name form) /\ vc_name v <> [] /\
  vc_description v = trim (ckf_description form) /\
  Z.of_nat (length (vc_description v)) <= MAX_DESCRIPTION_CHARS /\
  0 <= vc_grace v <= i64_max /\
  validate_schedule (vc_kind v) form = Ok (vc_period_secs v, vc_cron_expr v) /\
  validate_timezone (ckf_timezone form) = Ok (vc_timezone v) /\
  parse_opt_positive_duration (ckf_scan_interval_secs form) (lit "scan interval")
    = Ok (vc_scan_interval_secs v) /\
  parse_opt_positive_duration (ckf_max_runtime_secs form) (lit "max runtime")
    = Ok (vc_max_runtime_secs v) /\
  parse_opt_positive_duration (ckf_nag_interval_secs form) (lit "nag interval")
    = Ok (vc_nag_interval_secs v).
Proof.
  unfold validate_check. intros E. destruct (trim (ckf_name form)) as [|c cs] eqn:En; [done|].
  cbn [is_empty] in E.
  apply res_bind_ok in E as (d & Ed & E). apply res_bind_ok in E as (g & Eg & E).
  apply ok_or_else_Ok, parse_duration_bounds in Eg.
  destruct (g <? 0) eqn:Hg; [done|]. bool_to_prop.
  apply res_bind_ok in E as (k & _ & E). apply res_bind_ok in E as ([p x] & Es & E).
  apply res_bind_ok in E as (tz & Etz & E). apply res_bind_ok in E as (a & Ea & E).
  apply res_bind_ok in E as (b & Eb & E). apply res_bind_ok in E as (n & En' & E).
  injection E as <-. simpl.
  unfold validate_description in Ed. split_matches. bool_to_prop.
  repeat split; done || lia.
Qed.

(** The settings of an accepted form, as a check carries them. *)
Definition carries (v : ValidatedCheck) (c : Check) : Prop :=
  c_schedule_kind c = vc_kind v /\ c_period_secs c = vc_period_secs v /\
  c_grace_secs c = vc_grace v /\ c_cron_expr c = vc_cron_expr v /\ c_timezone c = vc_timezone v.

(** Durations and instants at which chrono cannot overflow: a billion seconds each. *)
Definition roomy (v : ValidatedCheck) (c : Check) : Prop :=
  vc_grace v <= 10 ^ 9 /\ match vc_period_secs v with Some p => p <= 10 ^ 9 | None => True end /\
  text_ok (anchor c) /\ text_ok (anchor c + 2 * 10 ^ 9 * ns).

Lemma td_seconds_roomy n : 0 <= n <= 10 ^ 9 -> td_seconds n = Done (n * ns).
Proof. intros Hn. apply td_seconds_Done. rewrite td_max_value. unfold ns, i64_max. lia. Qed.

(** C22: a check made from an accepted form is monitored as the form says. Its name is
    not blank, its description bounded, its overrides are positive, and with durations
    below a billion seconds [due_time] gives it a deadline: the period plus the grace
    after the anchor, or the next instant of the expression, which parses, in the zone
    of the form, which is known (no silent fallback to UTC), plus the grace. *)
Theorem validate_check_scheduled form v c :
  validate_check form = Ok v -> carries v c -> roomy v c ->
  vc_name v <> [] /\ Z.of_nat (length (vc_description v)) <= MAX_DESCRIPTION_CHARS /\
  Forall (fun o => match o with Some n => 0 < n <= i64_max | None => True end)
    [vc_scan_interval_secs v; vc_max_runtime_secs v; vc_nag_interval_secs v] /\
  exists tz, tz_parse (c_timezone c) = Some tz /\
    match vc_kind v with
    | SK_Period => exists p, c_period_secs c = Some p /\ 0 < p /\
        due_time c = Done (Some (anchor c + p * ns + vc_grace v * ns))
    | SK_Cron => exists e s, c_cron_expr c = Some e /\ schedule_from_str e = Ok s /\
        match schedule_after s tz (anchor c) with
        | None => due_time c = Done None
        | Some n => anchor c < n /\
            (n + vc_grace v * ns <= dt_max -> due_time c = Done (Some (n + vc_grace v * ns)))
        end
    end.
Proof.
  intros Hv (Hk & Hp & Hg & Hc & Hz) (Rg & Rp & Ra & Ra').
  destruct (validate_check_Ok form v Hv)
    as (_ & Hn & _ & Hd & Bg & Hs & Hz' & Hscan & Hrun & Hnag).
  split; [done|]. split; [done|]. split.
  { repeat constructor; match goal with |- match ?o with _ => _ end => destruct o; [|done] end;
      by eapply parse_opt_positive_duration_pos. }
  destruct (validate_timezone_parses _ _ Hz') as (tz & Etz). exists tz.
  split; [by rewrite Hz|]. apply validate_schedule_Ok in Hs.
  pose proof dt_covers as [? ?]. unfold text_ok in *. unfold due_time.
  rewrite Hk, Hp, Hg, Hc, Hz, td_seconds_roomy by lia. cbn [exec_bind].
  destruct (vc_kind v).
  - destruct Hs as (p & [= Ep Ec] & Hpos). exists p. rewrite Ep in *.
    split; [done|]. split; [lia|]. rewrite td_seconds_roomy by lia. cbn [exec_bind].
    unfold ns in *.
    rewrite (proj2 (dt_add_Done (anchor c) (p * 1000000000) _)) by (split; [reflexivity|lia]).
    cbn [exec_bind].
    by rewrite (proj2 (dt_add_Done _ (vc_grace v * 1000000000) _)) by (split; [reflexivity|lia]).
  - destruct Hs as (x & s & [= _ Ec] & Ex). exists x, s. rewrite Ec.
    split; [done|]. split; [done|]. rewrite Ex, Etz. change (default utc (Some tz)) with tz.
    destruct (schedule_after s tz (anchor c)) as [n|] eqn:En; [|done].
    pose proof (schedule_after_later _ _ _ _ En). pose proof (schedule_after_range _ _ _ _ En).
    split; [done|]. intros Hmax.
    by rewrite (proj2 (dt_add_Done n (vc_grace v * ns) _))
      by (split; [reflexivity|unfold ns in *; lia]).
Qed.

(** What [validate_setting] stores for a field, and that its reader gets it back. *)
Definition reads_back (field : str * str * str * SettingKind) (kv : str * str) : Prop :=
  let '(key, raw, _, kind) := field in
  kv.1 = key /\
  if is_empty (trim raw) then kv.2 = []
  else match kind with
       | SetDuration => exists n, parse_duration (trim raw) = Some n /\ 0 < n /\ parse_i64 kv.2 = Some n
       | SetDays => exists n, parse_i64 (trim raw) = Some n /\ 0 < n /\ parse_days (Some kv.2) = Some n
       | SetTimezone => exists tz z, tz_parse (trim raw) = Some tz /\ tz_parse kv.2 = Some z /\
                          tz_name tz = kv.2
       end.

Lemma parse_days_show n : 0 < n <= i64_max -> parse_days (Some (show_Z n)) = Some n.
Proof.
  intros Hn. unfold parse_days. simpl. rewrite trim_show_Z, parse_i64_show by (unfold i64_min; lia).
  simpl. by rewrite (proj2 (Z.ltb_lt 0 n)) by lia.
Qed.

Lemma validate_setting_reads_back key raw label kind value :
  validate_setting raw label kind = Ok value -> reads_back (key, raw, label, kind) (key, value).
Proof.
  intros E. split; [done|]. simpl. destruct kind; unfold validate_setting in E.
  - apply res_bind_ok in E as (o & Eo & [= <-]). pose proof Eo as Eo'.
    unfold parse_opt_positive_duration in Eo. split_matches. bool_to_prop.
    apply parse_opt_positive_duration_pos in Eo'.
    eexists. split; [done|]. split; [done|]. simpl. apply parse_i64_show. unfold i64_min. lia.
  - apply res_bind_ok in E as (o & Eo & [= <-]). pose proof Eo as Eo'.
    unfold parse_opt_positive in Eo. split_matches. bool_to_prop.
    apply parse_opt_positive_pos in Eo'. eexists. split; [done|]. split; [done|].
    simpl. by apply parse_days_show.
  - unfold validate_opt_timezone, validate_timezone in E. split_matches.
    do 2 eexists. split; [done|]. split; [|done]. by eapply tz_parse_name.
Qed.

(** A saved settings form reads back. [validate_settings] accepts all the fields or
    none; when it accepts, it yields the six keys in order, a blank field clears its
    setting, and any other is stored as the text its reader turns into the submitted
    value: the loops' interval parser, the retention parser, the zone parser. *)
Theorem settings_read_back form kvs :
  validate_settings form = Ok kvs -> Forall2 reads_back (setting_fields form) kvs.
Proof.
  unfold validate_settings. generalize (setting_fields form). intros fields. revert kvs.
  induction fields as [|[[[key raw] label] kind] fields IH]; intros kvs E; cbn [validate_fields] in E.
  - injection E as <-. constructor.
  - apply res_bind_ok in E as (value & Ev & E). apply res_bind_ok in E as (rest & Er & [= <-]).
    constructor; [by eapply validate_setting_reads_back|by apply IH].
Qed.

End form_theorems.

(** ** Witnesses *)

#[local] Existing Instance SampleChrono.sample_chrono.
#[local] Existing Instance SampleChrono.sample_chrono_laws.
#[local] Existing Instance SampleChrono.sample_cron.
#[local] Existing Instance SampleChrono.sample_cron_laws.

Definition sample_form : CheckForm := {|
  ckf_name := lit " backup ";
  ckf_description := [];
  ckf_schedule_kind := lit "period";
  ckf_period_secs := lit "1h30m";
  ckf_cron_expr := [];
  ckf_grace_secs := lit "5m";
  ckf_timezone := lit " UTC";
  ckf_scan_interval_secs := [];
  ckf_max_runtime_secs := lit "10m";
  ckf_nag_interval_secs := lit "1d";
|}.
Definition sample_validated : ValidatedCheck :=
  mk_ValidatedCheck (lit "backup") [] SK_Period (Some 5400) 300 None (lit "UTC") None (Some 600)
    (Some 86400).
Definition sample_scheduled : Check :=
  mk_Check 1 1 (lit "backup") [] (lit "u1") SK_Period (Some 5400) 300 None (lit "UTC") CS_New
    None None None None (Some 600) (Some 86400) None false 0.

Lemma validate_check_scheduled_witness :
  validate_check sample_form = Ok sample_validated /\
  due_time sample_scheduled = Done (Some (5700 * ns)).
Proof.
  assert (validate_check sample_form = Ok sample_validated) as Hv by (vm_compute; reflexivity).
  split; [exact Hv|].
  destruct (validate_check_scheduled sample_form sample_validated sample_scheduled Hv)
    as (_ & _ & _ & tz & _ & p & Hp & _ & E).
  - repeat split.
  - unfold roomy. split; [vm_compute; discriminate|]. split; [vm_compute; discriminate|].
    split; split; vm_compute; discriminate.
  - vm_compute in Hp. injection Hp as <-. exact E.
Defined.

Definition sample_settings : SettingsForm :=
  mk_SettingsForm (lit "5m") [] (lit " 30 ") [] (lit "365") (lit "UTC").

Lemma settings_read_back_witness :
  exists kvs, validate_settings sample_settings = Ok kvs /\
    Forall2 reads_back (setting_fields sample_settings) kvs /\
    kvs !! 2%nat = Some (lit "pings_retention_days", lit "30").
Proof.
  destruct (validate_settings sample_settings) as [kvs|] eqn:E; [|vm_compute in E; discriminate E].
  exists kvs. split; [reflexivity|]. split; [exact (settings_read_back sample_settings kvs E)|].
  vm_compute in E. injection E as <-. reflexivity.
Defined.
