(* ===== verification/Channels.v ===== *)
(** * Channels: the channel forms of [src/web.rs]

    Creating and editing a notification channel share one validator: on an edit a blank
    field keeps what is stored. What the edit page may show of a stored configuration is
    a record of its own, without the secrets. *)
From S2P Require Import Prelude Text Models Config Wire Chrono Db Rows Notify.
#[local] Open Scope Z_scope.
#[local] Open Scope pw_scope.

(** [Value::to_string] on the objects [json!] builds. *)
Class JsonText := { json_to_string : Json -> str }.

Record ChannelForm := mk_ChannelForm {
  cf_name : str;
  cf_kind : str;
  cf_webhook_url : str;
  cf_slack_url : str;
  cf_telegram_token : str;
  cf_telegram_chat_id : str;
  cf_ntfy_base_url : str;
  cf_ntfy_topic : str;
  cf_ntfy_token : str;
  cf_ntfy_token_clear : bool;
  cf_pushover_token : str;
  cf_pushover_user : str;
  cf_email_to : str;
}.

(** The parsed configuration of the channel being edited, [None] when creating. *)
Abbreviation StoredConfig := (option (str -> option str)).

Section channels.
Context `{NotifyDeps} `{JsonText}.

Definition StoredConfig_of (existing : option Channel) : StoredConfig :=
  c ← existing; parse_config (ch_config_json c).

Definition merged (stored : StoredConfig) (submitted key : str) : str :=
  let submitted := trim submitted in
  if negb (is_empty submitted) then submitted
  else default [] (v ← stored; v key).

Definition object (fields : list (str * str)) : str :=
  json_to_string (J_Obj (map (fun kv => (kv.1, J_Str kv.2)) fields)).

Definition channel_config (kind : ChannelKind) (form : ChannelForm) (stored : StoredConfig)
  : res str str :=
  let merged := merged stored in
  match kind with
  | CK_Webhook =>
      let url := merged (cf_webhook_url form) (lit "url") in
      if is_empty url then Err (lit "a webhook URL is required")
      else Ok (object [(lit "url", url)])
  | CK_Slack =>
      let url := merged (cf_slack_url form) (lit "url") in
      if is_empty url then Err (lit "a Slack incoming-webhook URL is required")
      else Ok (object [(lit "url", url)])
  | CK_Telegram =>
      let token := merged (cf_telegram_token form) (lit "token") in
      let chat_id := merged (cf_telegram_chat_id form) (lit "chat_id") in
      if is_empty token || is_empty chat_id then
        Err (lit "Telegram requires both a bot token and a chat id")
      else Ok (object [(lit "token", token); (lit "chat_id", chat_id)])
  | CK_Ntfy =>
      let topic := merged (cf_ntfy_topic form) (lit "topic") in
      if is_empty topic then Err (lit "ntfy requires a topic") else
      let base_url :=
        let b := merged (cf_ntfy_base_url form) (lit "base_url") in
        if is_empty b then lit "https://ntfy.sh" else b in
      let token := if cf_ntfy_token_clear form then [] else merged (cf_ntfy_token form) (lit "token") in
      Ok (object [(lit "base_url", base_url); (lit "topic", topic); (lit "token", token)])
  | CK_Pushover =>
      let token := merged (cf_pushover_token form) (lit "token") in
      let user := merged (cf_pushover_user form) (lit "user") in
      if is_empty token || is_empty user then
        Err (lit "Pushover requires both an application token and a user key")
      else Ok (object [(lit "token", token); (lit "user", user)])
  | CK_Email =>
      let to := merged (cf_email_to form) (lit "to") in
      if is_empty to then Err (lit "an email recipient address is required")
      else Ok (object [(lit "to", to)])
  end.

Definition parse_new_channel_kind (raw : str) : res str ChannelKind :=
  let kind := trim raw in
  if is_empty kind then Err (lit "a channel kind is required") else
  match from_str kind with Ok k => Ok k | Err _ => Err (lit "unknown channel kind") end.

Definition validate_channel_update (form : ChannelForm) (existing : option Channel)
  : res str (ChannelKind * str * str) :=
  let+ name :=
    let n := trim (cf_name form) in
    if negb (is_empty n) then Ok n
    else match existing with
         | None => Err (lit "a channel name is required")
         | Some c => Ok (ch_name c)
         end in
  let+ kind := match existing with
               | Some c => Ok (ch_kind c)
               | None => parse_new_channel_kind (cf_kind form)
               end in
  let+ config := channel_config kind form (StoredConfig_of existing) in
  Ok (kind, name, config).

Definition validate_channel (form : ChannelForm) : res str (ChannelKind * str * str) :=
  validate_channel_update form None.

(** What the edit page is given of a channel. *)
Record ChannelEditView := mk_ChannelEditView {
  cev_id : Z;
  cev_kind : str;
  cev_name : str;
  cev_telegram_chat_id : str;
  cev_ntfy_base_url : str;
  cev_ntfy_topic : str;
  cev_email_to : str;
  cev_has_webhook_url : bool;
  cev_has_slack_url : bool;
  cev_has_telegram_token : bool;
  cev_has_ntfy_token : bool;
  cev_has_pushover_token : bool;
  cev_has_pushover_user : bool;
}.

Definition ChannelEditView_new (ch : Channel) : ChannelEditView :=
  let cfg := parse_config (ch_config_json ch) in
  let value key := default [] (v ← cfg; v key) in
  let is_set key := negb (is_empty (value key)) in
  {| cev_id := ch_id ch;
     cev_kind := as_str (ch_kind ch);
     cev_name := ch_name ch;
     cev_telegram_chat_id := value (lit "chat_id");
     cev_ntfy_base_url := value (lit "base_url");
     cev_ntfy_topic := value (lit "topic");
     cev_email_to := value (lit "to");
     cev_has_webhook_url := is_set (lit "url");
     cev_has_slack_url := is_set (lit "url");
     cev_has_telegram_token := is_set (lit "token");
     cev_has_ntfy_token := is_set (lit "token");
     cev_has_pushover_token := is_set (lit "token");
     cev_has_pushover_user := is_set (lit "user") |}.

End channels.

(** [serde_json] reads back the objects it prints: each key its value, no other key. *)
Definition field (fields : list (str * str)) (key : str) : option str :=
  snd <$> List.find (fun kv => bool_decide (kv.1 = key)) fields.
Class JsonTextLaws `{NotifyDeps} `{JsonText} := {
  parse_object : forall fields, NoDup (map fst fields) ->
    exists f, parse_config (object fields) = Some f /\ forall key, f key = field fields key;
}.

(** ** Lemmas *)
Section channel_theorems.
Context `{JsonTextLaws}.

Lemma cfg_str_Some v key s : cfg_str v key = Some s <-> exists t, v key = Some t /\ s = trim t /\ s <> [].
Proof.
  unfold cfg_str, non_empty. destruct (v key) as [t|]; simpl.
  - destruct (trim t) eqn:E; simpl.
    + split; [done|]. intros (u & [= <-] & -> & Hne). by rewrite E in Hne.
    + split; [intros [= <-]; exists t; by rewrite E|]. intros (u & [= <-] & -> & _). by rewrite E.
  - split; [done|]. by intros (u & [=] & _).
Qed.

Lemma cfg_str_field (f : str -> option str) fields key s :
  (forall k, f k = field fields k) -> field fields key = Some s -> trim s <> [] ->
  cfg_str f key = Some (trim s).
Proof. intros Hf E Hs. apply cfg_str_Some. exists s. by rewrite Hf. Qed.

(** A required key of the stored configuration is there and not blank. *)
Definition has_key (stored : StoredConfig) (key : str) : Prop :=
  forall v, stored = Some v -> is_Some (cfg_str v key).

Lemma merged_usable stored submitted key :
  has_key stored key -> is_empty (merged stored submitted key) = false ->
  trim (merged stored submitted key) <> [].
Proof.
  unfold merged, has_key. destruct (trim submitted) as [|c s] eqn:E; cbn [is_empty negb].
  - destruct stored as [v|]; [|done]. intros Hk _. destruct (Hk v eq_refl) as [t Ht].
    apply cfg_str_Some in Ht as (u & Hu & -> & Hne). cbn. by rewrite Hu.
  - intros _ _. rewrite <- E, trim_trim, E. done.
Qed.

Lemma notifier_has_keys c smtp n :
  notifier_for c smtp = Some n ->
  Forall (has_key (parse_config (ch_config_json c)))
    match ch_kind c with
    | CK_Webhook | CK_Slack => [lit "url"]
    | CK_Telegram => [lit "token"; lit "chat_id"]
    | CK_Ntfy => [lit "topic"]
    | CK_Pushover => [lit "token"; lit "user"]
    | CK_Email => [lit "to"]
    end.
Proof.
  unfold notifier_for. intros (cfg & Hcfg & E)%bind_Some.
  assert (forall key, is_Some (cfg_str cfg key) -> has_key (parse_config (ch_config_json c)) key) as Hk.
  { intros key Hs v Hv. congruence. }
  destruct (ch_kind c);
    repeat (apply bind_Some in E as (? & ? & E)); try (apply fmap_Some in E as (? & ? & _));
    repeat constructor; apply Hk; eauto.
Qed.

(** The configuration written for a kind is one its notifier can be built from, if what
    was stored was. *)
Lemma channel_config_usable kind form stored config ch smtp :
  Forall (has_key stored)
    match kind with
    | CK_Webhook | CK_Slack => [lit "url"]
    | CK_Telegram => [lit "token"; lit "chat_id"]
    | CK_Ntfy => [lit "topic"]
    | CK_Pushover => [lit "token"; lit "user"]
    | CK_Email => [lit "to"]
    end ->
  channel_config kind form stored = Ok config ->
  ch_kind ch = kind -> ch_config_json ch = config -> is_Some (notifier_for ch smtp).
Proof.
  intros Hkeys E Hk Hc. unfold channel_config in E. unfold notifier_for. rewrite Hk, Hc.
  destruct kind; rewrite ?Forall_cons in Hkeys; destruct_and? Hkeys; cbv zeta in E;
    repeat match type of E with (if ?b then _ else _) = _ => destruct b eqn:?; [done|] end;
    injection E as <-;
    (edestruct parse_object as (f & -> & Hf); [|rewrite option_bind_Some]);
    try (apply (bool_decide_eq_true_1 (NoDup _)); vm_compute; reflexivity);
    repeat match goal with Hb : _ || _ = false |- _ => apply orb_false_iff in Hb as [??] end;
    repeat match goal with
    | Hk : has_key _ _, He : is_empty (merged _ _ _) = false |- _ =>
        pose proof (merged_usable _ _ _ Hk He); clear Hk
    end;
    repeat match goal with
    | |- context [cfg_str f ?key] =>
        rewrite (cfg_str_field f _ key _ Hf eq_refl ltac:(eassumption)); rewrite ?option_bind_Some
    end; by eexists.
Qed.

(** A channel the forms accept can be notified. Whatever is submitted, if a new
    channel validates then the delivery code can build its notifier from what is stored;
    an edit that validates keeps the kind, and keeps the notifier buildable if it was. *)
Theorem validated_channel_usable form existing smtp kind name config :
  (forall c, existing = Some c -> is_Some (notifier_for c smtp)) ->
  validate_channel_update form existing = Ok (kind, name, config) ->
  (forall c, existing = Some c -> kind = ch_kind c) /\
  (forall ch, ch_kind ch = kind -> ch_config_json ch = config -> is_Some (notifier_for ch smtp)).
Proof.
  intros Hex E. unfold validate_channel_update in E.
  apply res_bind_ok in E as (n & _ & E). apply res_bind_ok in E as (k & Ek & E).
  apply res_bind_ok in E as (cfg & Ec & E). injection E as -> _ ->.
  assert (forall c, existing = Some c -> kind = ch_kind c) as Hkind
    by (intros c ->; by injection Ek as ->).
  split; [done|]. intros ch Hk Hc. eapply channel_config_usable; [|exact Ec|done|done].
  destruct existing as [c|].
  - rewrite (Hkind c eq_refl). destruct (Hex c eq_refl) as [no Hn].
    exact (notifier_has_keys c smtp no Hn).
  - destruct kind; repeat constructor; by intros v Hv.
Qed.

(** ** Saving an edit form nobody typed into *)

Definition blank_form : ChannelForm := mk_ChannelForm [] [] [] [] [] [] [] [] [] false [] [] [].

Lemma merged_blank v key : merged (Some v) [] key = default [] (v key).
Proof. done. Qed.

Lemma cfg_str_kept f (v : str -> option str) fields key :
  (forall k, f k = field fields k) -> field fields key = Some (default [] (v key)) ->
  cfg_str f key = cfg_str v key.
Proof. intros Hf E. unfold cfg_str. rewrite Hf, E. by destruct (v key). Qed.

Lemma cfg_str_default f (v : str -> option str) fields key d :
  (forall k, f k = field fields k) ->
  field fields key = Some (if is_empty (default [] (v key)) then d else default [] (v key)) ->
  trim d = d -> d <> [] -> default d (cfg_str f key) = default d (cfg_str v key).
Proof.
  intros Hf E Hd Hne. unfold cfg_str. rewrite Hf, E. unfold non_empty.
  destruct (v key) as [[|c s]|]; simpl; rewrite ?Hd; try done; by destruct d.
Qed.

Lemma has_key_nonempty v key : is_Some (cfg_str v key) -> is_empty (default [] (v key)) = false.
Proof.
  intros [s (t & -> & -> & Ht)%cfg_str_Some]. simpl. by destruct t.
Qed.

(** Saving the edit form as it is shown changes nothing that is delivered. The form
    shows secrets as blanks; submitted blank it validates, keeps the kind and the name,
    and the notifier built from the new configuration is the old one. *)
Theorem blank_edit_keeps_notifier c smtp n :
  notifier_for c smtp = Some n ->
  exists config, validate_channel_update blank_form (Some c) = Ok (ch_kind c, ch_name c, config) /\
    notifier_for (mk_Channel (ch_id c) (ch_project_id c) (ch_kind c) (ch_name c) config
                    (ch_created_at c)) smtp = Some n.
Proof.
  intros Hn. pose proof Hn as (v & Hv & E)%bind_Some. unfold validate_channel_update.
  cbn [cf_name blank_form StoredConfig_of]. change (trim []) with (@nil Z). cbn [is_empty negb res_bind].
  unfold StoredConfig_of. rewrite option_bind_Some, Hv.
  unfold notifier_for. cbn [ch_config_json ch_kind].
  destruct (ch_kind c); cbn [channel_config blank_form cf_webhook_url cf_slack_url cf_telegram_token
    cf_telegram_chat_id cf_ntfy_base_url cf_ntfy_topic cf_ntfy_token cf_ntfy_token_clear
    cf_pushover_token cf_pushover_user cf_email_to]; cbv zeta; rewrite !merged_blank;
    pose proof E as E0;
    repeat (apply bind_Some in E0 as (? & ? & E0)); try (apply fmap_Some in E0 as (? & ? & _));
    repeat match goal with H : cfg_str v ?key = Some _ |- context [default [] (v ?key)] =>
      rewrite (has_key_nonempty v key) by (by eexists) end;
    cbn [orb res_bind]; (eexists; split; [reflexivity|]);
    (edestruct parse_object as (f & -> & Hf); [|rewrite option_bind_Some]);
    try (apply (bool_decide_eq_true_1 (NoDup _)); vm_compute; reflexivity);
    rewrite <- E; clear E;
    repeat match goal with
    | |- context [default ?d (cfg_str f ?key)] =>
        rewrite (cfg_str_default f v _ key d Hf eq_refl eq_refl) by done
    | |- context [cfg_str f ?key] => rewrite (cfg_str_kept f v _ key Hf eq_refl)
    end; done.
Qed.

(** ** What the edit page shows *)

Definition secret_keys : list str := [lit "url"; lit "token"; lit "user"].
Definition shown_keys : list str := [lit "chat_id"; lit "base_url"; lit "topic"; lit "to"].
Definition stored_text (c : Channel) (key : str) : str :=
  default [] (v ← parse_config (ch_config_json c); v key).

(** The edit page does not depend on the secrets. Two channels that agree on what is
    public and on which secrets are set give the same page, whatever those secrets are. *)
Theorem edit_view_hides_secrets c c' :
  ch_id c' = ch_id c -> ch_kind c' = ch_kind c -> ch_name c' = ch_name c ->
  (forall key, key ∈ shown_keys -> stored_text c' key = stored_text c key) ->
  (forall key, key ∈ secret_keys -> stored_text c' key = [] <-> stored_text c key = []) ->
  ChannelEditView_new c' = ChannelEditView_new c.
Proof.
  intros Hid Hk Hn Hshown Hsecret.
  assert (forall key, key ∈ secret_keys ->
    is_empty (stored_text c' key) = is_empty (stored_text c key)) as He.
  { intros key Hkey. specialize (Hsecret key Hkey).
    destruct (stored_text c' key), (stored_text c key); naive_solver. }
  unfold ChannelEditView_new. fold (stored_text c) (stored_text c').
  change (fun key => default [] (v ← parse_config (ch_config_json c); v key)) with (stored_text c).
  change (fun key => default [] (v ← parse_config (ch_config_json c'); v key)) with (stored_text c').
  cbv zeta. rewrite Hid, Hk, Hn. 
  f_equal; first [apply Hshown | f_equal; apply He]; unfold shown_keys, secret_keys; set_solver.
Qed.

End channel_theorems.

(** ** A concrete configuration text, and witnesses *)

Module SampleJson.

(** Keys and values, each with its length before it. *)
Definition put_text (s : str) : str := Z.of_nat (length s) :: s.
Definition get_text (s : str) : option (str * str) :=
  match s with [] => None | n :: s' => Some (take (Z.to_nat n) s', drop (Z.to_nat n) s') end.
Fixpoint get_fields (fuel : nat) (s : str) : list (str * str) :=
  match fuel with
  | O => []
  | S fuel' =>
      match get_text s with
      | Some (k, s') =>
          match get_text s' with
          | Some (v, s'') => (k, v) :: get_fields fuel' s''
          | None => []
          end
      | None => []
      end
  end.
Definition put_field (kv : str * str) : str := put_text kv.1 ++ put_text kv.2.

Lemma get_put_text s r : get_text (put_text s ++ r) = Some (s, r).
Proof. simpl. rewrite Nat2Z.id, take_app_length, drop_app_length. done. Qed.

Lemma get_put_fields fields fuel :
  (length fields <= fuel)%nat -> get_fields fuel (flat_map put_field fields) = fields.
Proof.
  revert fields. induction fuel as [|fuel IH]; intros [|[k v] fields] Hn; simpl in Hn; try done; [lia|].
  cbn [flat_map get_fields]. unfold put_field at 1. cbn [fst snd]. rewrite <- !app_assoc, get_put_text.
  rewrite get_put_text, IH by lia. done.
Qed.

#[export] Instance sample_deps : NotifyDeps := {|
  parse_config s := Some (field (get_fields (length s) s));
  parse_mailbox _ := Ok tt;
  build_message _ := Ok tt;
  relay_setup _ _ := Ok tt;
  status_text := show_Z;
|}.
#[export] Instance sample_json : JsonText := {|
  json_to_string v :=
    match v with
    | J_Obj fields => flat_map (fun kv => put_field (kv.1, match kv.2 with J_Str s => s | _ => [] end)) fields
    | _ => []
    end;
|}.

#[export] Instance sample_json_laws : JsonTextLaws.
Proof.
  split. intros fields _. eexists. split; [reflexivity|]. intros key. cbn.
  rewrite flat_map_concat_map, map_map. cbn.
  rewrite (map_ext _ put_field), <- flat_map_concat_map by (by intros []).
  rewrite get_put_fields; [done|]. induction fields as [|kv fields IH]; [done|].
  cbn. rewrite length_app. simpl. lia.
Qed.

End SampleJson.

#[local] Existing Instances SampleJson.sample_deps SampleJson.sample_json SampleJson.sample_json_laws.

Definition ntfy_form : ChannelForm :=
  mk_ChannelForm (lit "phone") (lit "ntfy") [] [] [] [] [] (lit " alerts ") (lit "s3cret") false [] [] [].
Definition ntfy_channel (token : str) : Channel :=
  mk_Channel 1 1 CK_Ntfy (lit "phone")
    (object [(lit "base_url", lit "https://ntfy.sh"); (lit "topic", lit "alerts"); (lit "token", token)]) 0.

Lemma validated_channel_usable_witness :
  is_Some (notifier_for (ntfy_channel (lit "s3cret")) None).
Proof.
  destruct (validated_channel_usable ntfy_form None None CK_Ntfy (lit "phone")
    (ch_config_json (ntfy_channel (lit "s3cret")))) as [_ H].
  - discriminate.
  - vm_compute. reflexivity.
  - apply H; reflexivity.
Defined.

Lemma blank_edit_keeps_notifier_witness :
  exists config, validate_channel_update blank_form (Some (ntfy_channel (lit "s3cret")))
    = Ok (CK_Ntfy, lit "phone", config).
Proof.
  destruct (blank_edit_keeps_notifier (ntfy_channel (lit "s3cret")) None
    (NO_Ntfy (lit "https://ntfy.sh") (lit "alerts") (Some (lit "s3cret")))) as (config & E & _).
  - vm_compute. reflexivity.
  - exists config. exact E.
Defined.

Lemma edit_view_hides_secrets_witness :
  ChannelEditView_new (ntfy_channel (lit "other")) = ChannelEditView_new (ntfy_channel (lit "s3cret")).
Proof.
  apply (edit_view_hides_secrets (ntfy_channel (lit "s3cret")) (ntfy_channel (lit "other")) eq_refl eq_refl eq_refl).
  - apply Forall_forall. repeat constructor; vm_compute; reflexivity.
  - apply Forall_forall. repeat constructor; vm_compute; try discriminate; reflexivity.
Defined.
