(* ===== verification/Errors.v ===== *)
(** * Errors: [src/error.rs], the application's error and its response *)
From S2P Require Import Prelude Text Config Wire Db.
#[local] Open Scope Z_scope.
#[local] Open Scope pw_scope.

Inductive AppError : Type :=
| AE_NotFound
| AE_Db (e : DbErr)
| AE_Other (text : str).

Definition into_response (e : AppError) : Z * str :=
  match e with
  | AE_NotFound => (404, lit "not found")
  | AE_Db _ => (500, lit "internal error")
  | AE_Other _ => (500, lit "internal error")
  end.

(** [?] on a store call in a handler. *)
Definition db {A} (m : M (res DbErr A)) : M (res AppError A) := map_err AE_Db m.

Lemma total_db {A} (m : M (res DbErr A)) : total m -> total (db m).
Proof. apply total_map_err. Qed.
Lemma preserves_db I {A} (m : M (res DbErr A)) : preserves I m -> preserves I (db m).
Proof. apply preserves_map_err. Qed.
#[export] Hint Resolve total_db preserves_db : pw.

(** [preserves_steps] through [db] and the store's reads, one obligation per write. *)
Ltac handler_steps :=
  repeat first
    [ progress intros
    | solve [auto 2 with pw]
    | apply preserves_db
    | apply preserves_mbind
    | apply preserves_mtry
    | apply preserves_query
    | match goal with
      | |- preserves _ (match ?x with _ => _ end) => destruct x
      end ].

Lemma db_Ok {A} (m : M (res DbErr A)) e w a w' :
  m e w = (Done (Ok a), w') -> db m e w = (Done (Ok a), w').
Proof. intros E. unfold db, map_err. by rewrite (mbind_Done _ _ _ _ _ _ E). Qed.
Lemma db_Err {A} (m : M (res DbErr A)) e w x w' :
  m e w = (Done (Err x), w') -> db m e w = (Done (Err (AE_Db x)), w').
Proof. intros E. unfold db, map_err. by rewrite (mbind_Done _ _ _ _ _ _ E). Qed.

(** ** Inverting a call *)

Lemma mtry_Ok_inv {E A B} (m : M (res E A)) (k : A -> M (res E B)) e w b w' :
  mtry m k e w = (Done (Ok b), w') ->
  exists a w1, m e w = (Done (Ok a), w1) /\ k a e w1 = (Done (Ok b), w').
Proof.
  unfold mtry. intros [[_ [=]]|([a|x] & w1 & E1 & E2)]%mbind_inv; [eauto|done].
Qed.

(** A statement changes nothing, or runs. *)
Lemma map_err_stmt_inv {E A} (f : DbErr -> E) (run : Db -> res DbErr (A * Db)) e w r w' :
  map_err f (stmt run) e w = (r, w') ->
  (w_db w' = w_db w /\ exists x, r = Done (Err x)) \/
  exists a d', run (w_db w) = Ok (a, d') /\ r = Done (Ok a) /\ w_db w' = d'.
Proof.
  unfold map_err, mbind, stmt. destruct (env_fault _ _); [intros [= <- <-]; eauto|].
  destruct (run (w_db w)) as [[a d]|x]; intros [= <- <-]; eauto.
  right. exists a, d. eauto.
Qed.
Lemma db_stmt_inv {A} (run : Db -> res DbErr (A * Db)) e w r w' :
  db (stmt run) e w = (r, w') ->
  (w_db w' = w_db w /\ exists x, r = Done (Err x)) \/
  exists a d', run (w_db w) = Ok (a, d') /\ r = Done (Ok a) /\ w_db w' = d'.
Proof. apply map_err_stmt_inv. Qed.

(** [?] after a read. *)
Lemma mtry_read {A B} (m : M (res DbErr A)) (k : A -> M (res AppError B)) e w r w' :
  (forall r1 w1, m e w = (r1, w1) -> w_db w1 = w_db w) ->
  mtry (db m) k e w = (r, w') ->
  (w_db w' = w_db w /\ forall b, r <> Done (Ok b)) \/
  exists a w1, m e w = (Done (Ok a), w1) /\ w_db w1 = w_db w /\ k a e w1 = (r, w').
Proof.
  intros Hm E. destruct (m e w) as [[[a|x]|] w1] eqn:Em; pose proof (Hm _ _ eq_refl) as D.
  - rewrite (mtry_Ok _ _ _ _ _ _ (db_Ok _ _ _ _ _ Em)) in E. right. eauto.
  - rewrite (mtry_Err _ _ _ _ _ _ (db_Err _ _ _ _ _ Em)) in E. injection E as <- <-. by left.
  - unfold mtry, mbind, db, map_err, mbind in E. rewrite Em in E. injection E as <- <-. by left.
Qed.

Lemma query_same {A} (q : Db -> res DbErr A) e w r w' : query q e w = (r, w') -> w_db w' = w_db w.
Proof. intros E. by apply query_db in E as [-> _]. Qed.
