(* ===== verification/Access.v ===== *)
(** * Access: who may touch what

    The resolvers of [src/web.rs], through which a handler reaches a project, a check or a
    channel: the owner's, which answer 404 for what is another user's, and the
    administrator's, which audit. Then the frame conditions the handlers' theorems are
    built from: what belongs to other users, and that a write on an owned object leaves
    it alone. *)
From S2P Require Import Prelude Text Models Config Wire Chrono Auth Db Rows Store Errors.
#[local] Open Scope Z_scope.
#[local] Open Scope pw_scope.

(** The order in which a [HashSet] yields its elements is unspecified. *)
Class HashOrder := {
  hash_iter : gset Z -> list Z;
  hash_iter_elements : forall s, hash_iter s ≡ₚ elements s;
}.

(** [ok_or(AppError::NotFound)?]. *)
Definition found {A} (o : option A) : res AppError A :=
  match o with Some a => Ok a | None => Err AE_NotFound end.

Section access.
Context `{Cron}.

(** ** The resolvers *)

Definition owned_project (id user_id : Z) : M (res AppError Project) :=
  let? o := db (find_project id) in
  let? p := mret (found o) in
  if p_user_id p =? user_id then mret (Ok p) else mret (Err AE_NotFound).

Definition owned_check (id user_id : Z) : M (res AppError Check) :=
  let? o := db (find_check id) in
  let? check := mret (found o) in
  let? _ := owned_project (c_project_id check) user_id in
  mret (Ok check).

Definition owned_channel (id user_id : Z) : M (res AppError Channel) :=
  let? o := db (find_channel id) in
  let? channel := mret (found o) in
  let? _ := owned_project (ch_project_id channel) user_id in
  mret (Ok channel).

Record RequestLine := mk_RequestLine { rl_method : str; rl_path : str }.

Definition audits_as_mutation (method : str) : bool :=
  negb (eq_ignore_ascii_case method (lit "GET")).

(** The audit row of an administrator's access to an object of another user. *)
Definition audit_access (admin : User) (target : str) (target_id : Z) (owner : option Z)
    (request : RequestLine) : M (res AppError unit) :=
  if audits_as_mutation (rl_method request) then
    do now := utc_now in
    let? _ := db (record_audit {|
      na_actor_user_id := u_id admin;
      na_actor_username := u_username admin;
      na_action := lit "admin.access";
      na_target_type := Some target;
      na_target_id := Some target_id;
      na_target_owner_id := owner;
      na_method := Some (rl_method request);
      na_path := Some (rl_path request);
      na_detail := None |} now) in
    mret (Ok tt)
  else mret (Ok tt).

Definition admin_project (id : Z) (admin : User) (request : RequestLine) : M (res AppError Project) :=
  let? o := db (find_project id) in
  let? p := mret (found o) in
  let? _ := audit_access admin (lit "project") (p_id p) (Some (p_user_id p)) request in
  mret (Ok p).

Definition admin_check (id : Z) (admin : User) (request : RequestLine) : M (res AppError Check) :=
  let? o := db (find_check id) in
  let? c := mret (found o) in
  let? p := db (find_project (c_project_id c)) in
  let? _ := audit_access admin (lit "check") (c_id c) (p_user_id <$> p) request in
  mret (Ok c).

Definition admin_channel (id : Z) (admin : User) (request : RequestLine) : M (res AppError Channel) :=
  let? o := db (find_channel id) in
  let? ch := mret (found o) in
  let? p := db (find_project (ch_project_id ch)) in
  let? _ := audit_access admin (lit "channel") (ch_id ch) (p_user_id <$> p) request in
  mret (Ok ch).

End access.

(** ** Shared by the handlers *)

Definition project_settings (v : str * str * option Z * option Z) : ProjectSettings :=
  let '(name, description, scan, nag) := v in mk_ProjectSettings name description scan nag.

(** A [for] loop whose body ends in [?]. *)
Fixpoint for_each_try {E A} (l : list A) (f : A -> M (res E unit)) : M (res E unit) :=
  match l with
  | [] => mret (Ok tt)
  | x :: l' => let? _ := f x in for_each_try l' f
  end.

(** ** What belongs to another user *)

Definition owns (uid : Z) (d : Db) (pid : Z) : Prop :=
  exists p, t_rows (projects d) !! pid = Some p /\ pr_user_id p = uid.
Definition foreign_project (uid : Z) (d : Db) (pid : Z) (p : ProjectRow) : Prop :=
  t_rows (projects d) !! pid = Some p /\ pr_user_id p <> uid.
Definition foreign_check (uid : Z) (d : Db) (id : Z) (r : CheckRow) : Prop :=
  t_rows (checks d) !! id = Some r /\ exists p, foreign_project uid d (cr_project_id r) p.
Definition foreign_channel (uid : Z) (d : Db) (id : Z) (r : ChannelRow) : Prop :=
  t_rows (channels d) !! id = Some r /\ exists p, foreign_project uid d (chr_project_id r) p.

(** Everything that belongs to other users, and everything that belongs to no project,
    is as it was: their projects, checks and channels neither changed, appeared nor
    disappeared, and so their bindings, pings and notifications. *)
Record untouched (uid : Z) (d d' : Db) : Prop := mk_untouched {
  ut_users : users d' = users d;
  ut_sessions : sessions d' = sessions d;
  ut_settings : settings d' = settings d;
  ut_api_keys : api_keys d' = api_keys d;
  ut_audit : audit_log d' = audit_log d;
  ut_projects : forall i p, foreign_project uid d' i p <-> foreign_project uid d i p;
  ut_checks : forall i r, foreign_check uid d' i r <-> foreign_check uid d i r;
  ut_channels : forall i r, foreign_channel uid d' i r <-> foreign_channel uid d i r;
  ut_bindings : forall i j r s, foreign_check uid d i r -> foreign_channel uid d j s ->
    ((i, j) ∈ check_channels d' <-> (i, j) ∈ check_channels d);
  ut_pings : forall i r c, foreign_check uid d (pgr_check_id r) c ->
    (t_rows (pings d') !! i = Some r <-> t_rows (pings d) !! i = Some r);
  ut_notifications : forall i r c s, foreign_check uid d (nr_check_id r) c ->
    foreign_channel uid d (nr_channel_id r) s ->
    (t_rows (notifications d') !! i = Some r <-> t_rows (notifications d) !! i = Some r);
}.

Lemma untouched_refl uid d : untouched uid d d.
Proof. by split. Qed.

Lemma untouched_trans uid d1 d2 d3 :
  untouched uid d1 d2 -> untouched uid d2 d3 -> untouched uid d1 d3.
Proof.
  intros [U S T K A P C H B G N] [U' S' T' K' A' P' C' H' B' G' N'].
  split; try congruence.
  - intros. by rewrite P', P.
  - intros. by rewrite C', C.
  - intros. by rewrite H', H.
  - intros i j r s Hc Hh. rewrite (B' i j r s), (B i j r s); [done|done|done| |]; [by apply C|by apply H].
  - intros i r c Hc. rewrite (G' i r c), (G i r c); [done|done|]. by apply C.
  - intros i r c s Hc Hh. rewrite (N' i r c s), (N i r c s); [done|done|done| |]; [by apply C|by apply H].
Qed.

(** What an owned project holds is not foreign. *)
Lemma owns_not_foreign uid d pid p : owns uid d pid -> ~ foreign_project uid d pid p.
Proof. intros (q & Hq & Hu) [Hp Hn]. congruence. Qed.
#[local] Hint Resolve owns_not_foreign : core.

(** Row identifiers were given out by the counters. *)
Definition sequenced (d : Db) : Prop :=
  (forall i, is_Some (t_rows (projects d) !! i) -> i <= t_seq (projects d)) /\
  (forall i, is_Some (t_rows (checks d) !! i) -> i <= t_seq (checks d)) /\
  (forall i, is_Some (t_rows (channels d) !! i) -> i <= t_seq (channels d)).

(** ** Bindings stay within a project *)

(** A check is in a project. *)
Definition check_in (d : Db) (id pid : Z) : Prop :=
  exists r, t_rows (checks d) !! id = Some r /\ cr_project_id r = pid.
Definition channel_in (d : Db) (id pid : Z) : Prop :=
  exists r, t_rows (channels d) !! id = Some r /\ chr_project_id r = pid.

(** No check is bound to a channel of another project, so none to a channel of another user. *)
Definition bindings_local (d : Db) : Prop :=
  forall i j, (i, j) ∈ check_channels d -> exists pid, check_in d i pid /\ channel_in d j pid.

(** [d'] has no other bindings, and the bound rows are where they were. *)
Lemma local_within d d' :
  bindings_local d ->
  (forall i j pid, (i, j) ∈ check_channels d' -> check_in d i pid -> channel_in d j pid ->
     check_in d' i pid /\ channel_in d' j pid) ->
  (forall i j, (i, j) ∈ check_channels d' -> (i, j) ∈ check_channels d) -> bindings_local d'.
Proof. intros Hl Hk Hs i j Hij. destruct (Hl i j) as (pid & Hc & Hh); [auto|]. exists pid. by apply Hk. Qed.

Lemma check_in_update f i d j pid :
  (forall r, cr_project_id (f r) = cr_project_id r) -> check_in d j pid -> check_in (update_check f i d) j pid.
Proof.
  intros Hf (r & Hr & Hp). unfold check_in. cbn [checks update_check set_checks]. rewrite update_row_lookup.
  case_decide; [|by exists r]. subst j. rewrite Hr. exists (f r). split; [done|]. by rewrite Hf.
Qed.
Lemma local_update_check f i d :
  (forall r, cr_project_id (f r) = cr_project_id r) -> bindings_local d -> bindings_local (update_check f i d).
Proof. intros Hf Hl. apply (local_within d); [done| |done]. intros j k pid _ Hc Hh. split; [by apply check_in_update|done]. Qed.
Lemma local_update_channel f i d :
  (forall r, chr_project_id (f r) = chr_project_id r) -> bindings_local d ->
  bindings_local (set_channels (update_row f i (channels d)) d).
Proof.
  intros Hf Hl. apply (local_within d); [done| |done]. intros j k pid _ Hc (r & Hr & Hp). split; [done|].
  unfold channel_in. cbn [channels set_channels]. rewrite update_row_lookup. case_decide; [|by exists r].
  subst k. rewrite Hr. exists (f r). split; [done|]. by rewrite Hf.
Qed.
Lemma local_insert_check r d :
  (forall i, is_Some (t_rows (checks d) !! i) -> i <= t_seq (checks d)) -> bindings_local d ->
  bindings_local (set_checks (insert_row r (checks d)).2 d).
Proof.
  intros Hs Hl. apply (local_within d); [done| |done]. intros i j pid _ (q & Hq & Hp) Hh. split; [|done].
  exists q. split; [|done]. cbn. rewrite lookup_insert_ne; [done|]. specialize (Hs i ltac:(eauto)). lia.
Qed.
Lemma local_insert_channel r d :
  (forall i, is_Some (t_rows (channels d) !! i) -> i <= t_seq (channels d)) -> bindings_local d ->
  bindings_local (set_channels (insert_row r (channels d)).2 d).
Proof.
  intros Hs Hl. apply (local_within d); [done| |done]. intros i j pid _ Hc (q & Hq & Hp). split; [done|].
  exists q. split; [|done]. cbn. rewrite lookup_insert_ne; [done|]. specialize (Hs j ltac:(eauto)). lia.
Qed.
Lemma local_cascade_checks gone d : bindings_local d -> bindings_local (cascade_checks gone d).
Proof.
  intros Hl. apply (local_within d); [done| |].
  - intros i j pid [Hg _]%elem_of_filter (r & Hr & Hp) Hh. split; [|done]. exists r. split; [|done].
    cbn. by apply map_lookup_filter_Some.
  - by intros i j [_ ?]%elem_of_filter.
Qed.
Lemma local_cascade_channels gone d : bindings_local d -> bindings_local (cascade_channels gone d).
Proof.
  intros Hl. apply (local_within d); [done| |].
  - intros i j pid [Hg _]%elem_of_filter Hc (r & Hr & Hp). split; [done|]. exists r. split; [|done].
    cbn. by apply map_lookup_filter_Some.
  - by intros i j [_ ?]%elem_of_filter.
Qed.
Lemma local_cascade_projects gone d : bindings_local d -> bindings_local (cascade_projects gone d).
Proof.
  intros Hl. pose proof (local_cascade_channels (fun id => match t_rows (channels d) !! id with
    | Some r => gone (chr_project_id r) | None => false end) _ (local_cascade_checks (fun id =>
    match t_rows (checks d) !! id with Some r => gone (cr_project_id r) | None => false end) d Hl)) as H.
  exact H.
Qed.
Lemma local_fewer s d : s ⊆ check_channels d -> bindings_local d -> bindings_local (set_bindings s d).
Proof. intros Hs Hl. apply (local_within d); [done|done|]. intros i j. apply Hs. Qed.
Lemma local_more s d :
  (forall i j, (i, j) ∈ s -> exists pid, check_in d i pid /\ channel_in d j pid) -> bindings_local d ->
  bindings_local (set_bindings (s ∪ check_channels d) d).
Proof. intros Hs Hl i j [?|?]%elem_of_union; [by apply Hs|by apply Hl]. Qed.

(** ** The statements of the handlers, on an owned object *)

Section statements.
Context (uid : Z).

Lemma untouched_set_checks d t :
  (forall i r, (exists p, foreign_project uid d (cr_project_id r) p) ->
     (t_rows t !! i = Some r <-> t_rows (checks d) !! i = Some r)) ->
  untouched uid d (set_checks t d).
Proof. intros Ht. split; try done. intros i r. unfold foreign_check. simpl. naive_solver. Qed.

Lemma untouched_set_channels d t :
  (forall i r, (exists p, foreign_project uid d (chr_project_id r) p) ->
     (t_rows t !! i = Some r <-> t_rows (channels d) !! i = Some r)) ->
  untouched uid d (set_channels t d).
Proof. intros Ht. split; try done. intros i r. unfold foreign_channel. simpl. naive_solver. Qed.

Lemma untouched_set_projects d t :
  (forall i p, pr_user_id p <> uid ->
     (t_rows t !! i = Some p <-> t_rows (projects d) !! i = Some p)) ->
  untouched uid d (set_projects t d).
Proof.
  intros Ht. assert (forall i p, foreign_project uid (set_projects t d) i p <-> foreign_project uid d i p)
    as Hp. { intros i p. unfold foreign_project. simpl. naive_solver. }
  split; try done; intros i r; unfold foreign_check, foreign_channel; simpl;
    f_equiv; split; intros [p ?]; exists p; by apply Hp.
Qed.

Lemma untouched_set_bindings d s :
  (forall i j r c, foreign_check uid d i r -> foreign_channel uid d j c ->
     ((i, j) ∈ s <-> (i, j) ∈ check_channels d)) ->
  untouched uid d (set_bindings s d).
Proof. intros Hs. split; try done; intros; simpl; by eapply Hs. Qed.

Lemma untouched_set_pings d t :
  (forall i r c, foreign_check uid d (pgr_check_id r) c ->
     (t_rows t !! i = Some r <-> t_rows (pings d) !! i = Some r)) ->
  untouched uid d (set_pings t d).
Proof. intros Ht. split; try done; intros; simpl; by eapply Ht. Qed.

Lemma untouched_set_notifications d t :
  (forall i r c s, foreign_check uid d (nr_check_id r) c -> foreign_channel uid d (nr_channel_id r) s ->
     (t_rows t !! i = Some r <-> t_rows (notifications d) !! i = Some r)) ->
  untouched uid d (set_notifications t d).
Proof. intros Ht. split; try done; intros; simpl; by eapply Ht. Qed.

(** A check of an owned project. *)
Definition owned_row (d : Db) (id : Z) : Prop :=
  exists r, t_rows (checks d) !! id = Some r /\ owns uid d (cr_project_id r).

Lemma owned_row_not_foreign d id r : owned_row d id -> ~ foreign_check uid d id r.
Proof.
  intros (r' & Hr' & Ho) (Hr & p & Hp). assert (r' = r) as -> by congruence.
  by apply (owns_not_foreign uid d _ p Ho).
Qed.

Lemma untouched_update_check g i d :
  (forall r, cr_project_id (g r) = cr_project_id r) -> owned_row d i ->
  untouched uid d (update_check g i d) /\ owned_row (update_check g i d) i.
Proof.
  intros Hg (r & Hr & Ho). split.
  - apply untouched_set_checks. intros j s [p Hp]. rewrite update_row_lookup. case_decide as E; [|done].
    subst j. rewrite Hr. simpl. split; intros [= <-]; exfalso.
    + rewrite Hg in Hp. by apply (owns_not_foreign uid d _ p Ho).
    + by apply (owns_not_foreign uid d _ p Ho).
  - exists (g r). split; [|by rewrite Hg]. unfold update_check. simpl. by rewrite lookup_alter_eq, Hr.
Qed.

(** Deleting checks none of which is foreign, and channels likewise. *)
Lemma untouched_cascade_checks gone d :
  (forall i r, gone i = true -> ~ foreign_check uid d i r) -> untouched uid d (cascade_checks gone d).
Proof.
  intros Hg.
  assert (forall i r, foreign_check uid d i r -> gone i = false) as Hk.
  { intros i r Hf. destruct (gone i) eqn:E; [|done]. by apply Hg in Hf. }
  split; try done; unfold cascade_checks; simpl.
  - intros i r. unfold foreign_check at 1. simpl. rewrite map_lookup_filter_Some.
    split; [intros [[? _] ?]; by split|]. intros Hf. destruct (Hf) as [? ?]. split; [|done].
    split; [done|]. by eapply Hk.
  - intros i j r s Hf _. rewrite elem_of_filter. simpl. pose proof (Hk _ _ Hf). tauto.
  - intros i r c Hf. rewrite map_lookup_filter_Some. pose proof (Hk _ _ Hf). tauto.
  - intros i r c s Hf _. rewrite map_lookup_filter_Some. pose proof (Hk _ _ Hf). tauto.
Qed.

Lemma untouched_cascade_channels gone d :
  (forall i r, gone i = true -> ~ foreign_channel uid d i r) -> untouched uid d (cascade_channels gone d).
Proof.
  intros Hg.
  assert (forall i r, foreign_channel uid d i r -> gone i = false) as Hk.
  { intros i r Hf. destruct (gone i) eqn:E; [|done]. by apply Hg in Hf. }
  split; try done; unfold cascade_channels; simpl.
  - intros i r. unfold foreign_channel at 1. simpl. rewrite map_lookup_filter_Some.
    split; [intros [[? _] ?]; by split|]. intros Hf. destruct (Hf) as [? ?]. split; [|done].
    split; [done|]. by eapply Hk.
  - intros i j r s _ Hf. rewrite elem_of_filter. simpl. pose proof (Hk _ _ Hf). tauto.
  - intros i r c s _ Hf. rewrite map_lookup_filter_Some. pose proof (Hk _ _ Hf). tauto.
Qed.

Lemma untouched_cascade_project pid d :
  owns uid d pid -> untouched uid d (cascade_projects (fun i => i =? pid) d).
Proof.
  intros Ho. unfold cascade_projects.
  set (gone_check := fun id => match t_rows (checks d) !! id with
    | Some r => cr_project_id r =? pid | None => false end).
  set (gone_channel := fun id => match t_rows (channels d) !! id with
    | Some r => chr_project_id r =? pid | None => false end).
  eapply untouched_trans; [apply (untouched_cascade_checks gone_check)|].
  { unfold gone_check. intros i r E [Hr [p Hp]]. rewrite Hr in E. apply Z.eqb_eq in E.
    rewrite E in Hp. by apply (owns_not_foreign uid d pid p Ho). }
  eapply untouched_trans; [apply (untouched_cascade_channels gone_channel)|].
  { unfold gone_channel. intros i r E [Hr [p Hp]]. simpl in Hr. rewrite Hr in E.
    apply Z.eqb_eq in E. rewrite E in Hp. by apply (owns_not_foreign uid d pid p Ho). }
  apply untouched_set_projects. intros i p Hp. simpl. rewrite map_lookup_filter_Some. simpl.
  split; [tauto|]. intros Hi. split; [done|]. apply Z.eqb_neq. intros ->.
  by apply (owns_not_foreign uid d pid p Ho).
Qed.

Lemma untouched_insert_project r d :
  sequenced d -> pr_user_id r = uid -> untouched uid d (set_projects (insert_row r (projects d)).2 d).
Proof.
  intros (Hs & _ & _) Hr. apply untouched_set_projects. intros i p Hp. simpl.
  destruct (decide (i = t_seq (projects d) + 1)) as [->|].
  - rewrite lookup_insert_eq. split; [naive_solver|]. intros Hi. exfalso.
    specialize (Hs _ ltac:(eauto)). lia.
  - by rewrite lookup_insert_ne by done.
Qed.

Lemma untouched_insert_check r d :
  sequenced d -> owns uid d (cr_project_id r) ->
  untouched uid d (set_checks (insert_row r (checks d)).2 d).
Proof.
  intros (_ & Hs & _) Ho. apply untouched_set_checks. intros i c [p Hp]. simpl.
  destruct (decide (i = t_seq (checks d) + 1)) as [->|].
  - rewrite lookup_insert_eq. split.
    + intros [= <-]. exfalso. by apply (owns_not_foreign uid d _ p Ho).
    + intros Hi. exfalso. specialize (Hs _ ltac:(eauto)). lia.
  - by rewrite lookup_insert_ne by done.
Qed.

Lemma untouched_insert_channel r d :
  sequenced d -> owns uid d (chr_project_id r) ->
  untouched uid d (set_channels (insert_row r (channels d)).2 d).
Proof.
  intros (_ & _ & Hs) Ho. apply untouched_set_channels. intros i c [p Hp]. simpl.
  destruct (decide (i = t_seq (channels d) + 1)) as [->|].
  - rewrite lookup_insert_eq. split.
    + intros [= <-]. exfalso. by apply (owns_not_foreign uid d _ p Ho).
    + intros Hi. exfalso. specialize (Hs _ ltac:(eauto)). lia.
  - by rewrite lookup_insert_ne by done.
Qed.

End statements.

(** ** The handlers *)

Section frame.
Context `{Cron} (uid : Z).

(** From the database [d0] on, [m] leaves what is foreign alone and binds nothing across
    projects; [keeps] also keeps [P]. *)
Definition confined (d0 d : Db) : Prop :=
  untouched uid d0 d /\ sequenced d /\ (bindings_local d0 -> bindings_local d).
Definition since (d0 : Db) (P : Db -> Prop) (d : Db) : Prop := confined d0 d /\ P d.
Definition frames {A} (P : Db -> Prop) (m : M A) : Prop :=
  forall d0, hoare (since d0 P) (confined d0) m.
Definition keeps {A} (P : Db -> Prop) (m : M A) : Prop :=
  forall d0, preserves (since d0 P) m.

Lemma confined_trans d0 d d' : confined d0 d -> confined d d' -> confined d0 d'.
Proof. intros (U & _ & L) (U' & S & L'). split; [by eapply untouched_trans|]. auto. Qed.
Lemma confined_refl d : sequenced d -> confined d d.
Proof. intros Hs. split; [apply untouched_refl|done]. Qed.

Lemma frames_mret {A} P (a : A) : frames P (mret a).
Proof. intros d0. apply hoare_mret. by intros d []. Qed.
Lemma keeps_frames {A} P (m : M A) : keeps P m -> frames P m.
Proof. intros Hm d0. eapply hoare_weaken; [exact (Hm d0)|by intros d []]. Qed.
Lemma frames_mtry {E A B} P (m : M (res E A)) (k : A -> M (res E B)) :
  keeps P m -> (forall a, frames P (k a)) -> frames P (mtry m k).
Proof. intros Hm Hk d0. eapply hoare_mtry; [exact (Hm d0)|by intros d []|]. intros a. apply Hk. Qed.
Lemma frames_mbind {A B} P (m : M A) (k : A -> M B) :
  keeps P m -> (forall a, frames P (k a)) -> frames P (mbind m k).
Proof. intros Hm Hk d0. eapply hoare_mbind; [exact (Hm d0)|by intros d []|]. intros a. apply Hk. Qed.

(** [m] only reads. *)
Definition reads {A} (m : M A) : Prop := forall I, preserves I m.
Lemma reads_mret {A} (a : A) : reads (mret a).
Proof. intros I. apply preserves_mret. Qed.
Lemma reads_query {A} (q : Db -> res DbErr A) : reads (query q).
Proof. intros I. apply preserves_query. Qed.
Lemma reads_map_err {E E' A} (f : E -> E') (m : M (res E A)) : reads m -> reads (map_err f m).
Proof. intros Hm I. apply preserves_map_err, Hm. Qed.
Lemma reads_mtry {E A B} (m : M (res E A)) (k : A -> M (res E B)) :
  reads m -> (forall a, reads (k a)) -> reads (mtry m k).
Proof. intros Hm Hk I. apply preserves_mtry; [apply Hm|]. intros a. apply Hk. Qed.

Lemma reads_same {A} (m : M A) e w r w' : reads m -> m e w = (r, w') -> w_db w' = w_db w.
Proof. intros Hm E. symmetry. by apply (Hm (eq (w_db w)) _ _ _ _ eq_refl E). Qed.

(** A last write, and then reads. *)
Lemma frames_stmt {A} P (run : Db -> res DbErr (A * Db)) :
  (forall d a d', P d -> sequenced d -> run d = Ok (a, d') -> confined d d') -> frames P (stmt run).
Proof.
  intros Hr d0. apply hoare_stmt; [by intros d []|].
  intros d a d' [Hd Hp] E. eapply confined_trans; [exact Hd|]. eapply Hr; [done|apply Hd|done].
Qed.
Lemma frames_then {E E' A B} P (f : E -> E') (m : M (res E A)) (k : A -> M (res E' B)) :
  frames P m -> (forall a, reads (k a)) -> frames P (mtry (map_err f m) k).
Proof.
  intros Hm Hk d0. eapply hoare_mtry; [apply hoare_map_err, Hm|done|].
  intros a e w r w' Hw E1. by eapply Hk.
Qed.

Lemma keeps_map_err {E E' A} P (f : E -> E') (m : M (res E A)) : keeps P m -> keeps P (map_err f m).
Proof. intros Hm d0. apply preserves_map_err, Hm. Qed.
Lemma keeps_query {A} P (q : Db -> res DbErr A) : keeps P (query q).
Proof. intros d0. apply preserves_query. Qed.
Lemma keeps_stmt {A} (P : Db -> Prop) (run : Db -> res DbErr (A * Db)) :
  (forall d a d', P d -> sequenced d -> run d = Ok (a, d') -> confined d d' /\ P d') ->
  keeps P (stmt run).
Proof.
  intros Hr d0. apply preserves_stmt. intros d a d' [Hd Hp] E.
  destruct (Hr d a d' Hp (proj1 (proj2 Hd)) E) as [Hu Hp']. split; [by eapply confined_trans|done].
Qed.

Lemma find_project_Ok id e w o w' :
  find_project id e w = (Done (Ok o), w') ->
  w_db w' = w_db w /\ forall p, o = Some p -> owns (p_user_id p) (w_db w) id.
Proof.
  intros E. apply query_db in E as [-> [[=]|[= Eo]]]. split; [done|]. intros p ->.
  symmetry in Eo. destruct (t_rows (projects (w_db w)) !! id) as [r|] eqn:Er; [|done].
  simpl in Eo. apply res_bind_ok in Eo as (p' & Ep & [= ->]).
  exists r. split; [done|]. unfold row_to_project in Ep. by apply res_bind_ok in Ep as (? & _ & [= <-]).
Qed.

(** [m] reads only, and what it yields establishes [P]. *)
Definition resolves {E A} (P : A -> Db -> Prop) (m : M (res E A)) : Prop :=
  forall e w r w', m e w = (r, w') -> w_db w' = w_db w /\ forall a, r = Done (Ok a) -> P a (w_db w).

Lemma resolves_read {E E' A} (f : E -> E') (P : A -> Db -> Prop) (m : M (res E A)) :
  (forall e w r w', m e w = (r, w') -> w_db w' = w_db w /\ forall a, r = Done (Ok a) -> P a (w_db w)) ->
  resolves P (map_err f m).
Proof.
  intros Hm e w r w' Em. unfold map_err in Em. apply mbind_inv in Em as [[Em ->]|(a & w1 & E1 & [= <- <-])].
  - by apply Hm in Em as [-> _].
  - apply Hm in E1 as [-> Ha]. split; [done|]. intros a0 Ea. destruct a; [|done].
    injection Ea as <-. by apply Ha.
Qed.

Lemma resolves_mret {E A} (P : A -> Db -> Prop) (x : res E A) :
  (forall a d, x = Ok a -> P a d) -> resolves P (mret x).
Proof. intros Hx e w r w' [= <- <-]. split; [done|]. intros a [= ->]. by apply Hx. Qed.

Lemma found_Ok {A} (o : option A) a : found o = Ok a -> o = Some a.
Proof. destruct o; naive_solver. Qed.

Lemma resolves_mtry {E A B} (P : A -> Db -> Prop) (Q : B -> Db -> Prop) (m : M (res E A))
    (k : A -> M (res E B)) :
  resolves P m -> (forall a, resolves (fun b d => P a d -> Q b d) (k a)) -> resolves Q (mtry m k).
Proof.
  intros Hm Hk e w r w' Em. unfold mtry in Em. apply mbind_inv in Em as [[Em ->]|(o & w1 & E1 & E2)].
  - by apply Hm in Em as [-> _].
  - apply Hm in E1 as [D Ha]. destruct o as [a|x].
    + apply Hk in E2 as [-> Hb]. split; [done|]. intros b Eb. rewrite <- D. apply Hb; [done|].
      rewrite D. by apply Ha.
    + by injection E2 as <- <-.
Qed.

Lemma resolves_then {E A B} (P : A -> Db -> Prop) (m : M (res E A))
    (k : A -> M (res E B)) e w r w' :
  sequenced (w_db w) -> resolves P m -> (forall a, frames (P a) (k a)) -> mtry m k e w = (r, w') ->
  confined (w_db w) (w_db w').
Proof.
  intros Hs Hm Hk Em. assert (confined (w_db w) (w_db w)) as Hr by by apply confined_refl.
  unfold mtry in Em. apply mbind_inv in Em as [[Em _]|(o & w1 & E1 & E2)].
  - by apply Hm in Em as [-> _].
  - apply Hm in E1 as [D Ha]. destruct o as [a|x].
    + eapply (Hk a); [|exact E2]. rewrite D. split; [done|by apply Ha].
    + injection E2 as _ <-. by rewrite D.
Qed.

(** An object that is not there, or not the user's, is refused. *)
Lemma resolves_refuse {E A B} (P : A -> Db -> Prop) (m : M (res E A))
    (k : A -> M (res E B)) e w r w' :
  resolves P m -> total m -> (forall a, ~ P a (w_db w)) -> mtry m k e w = (r, w') ->
  w_db w' = w_db w /\ exists x, r = Done (Err x).
Proof.
  intros Hm Ht Hn Em. destruct (Ht e w) as (o & w1 & E1). pose proof (Hm _ _ _ _ E1) as [D Ha].
  destruct o as [a|x]; [exfalso; by apply (Hn a), Ha|].
  rewrite (mtry_Err _ _ _ _ _ _ E1) in Em. injection Em as <- <-. eauto.
Qed.

Lemma resolves_find_project {E} (f : DbErr -> E) id :
  resolves (fun o d => forall p, o = Some p -> owns (p_user_id p) d id) (map_err f (find_project id)).
Proof.
  apply resolves_read. intros e w r w' Em. split; [by eapply query_same|]. intros o ->.
  by apply find_project_Ok in Em as [_ ?].
Qed.

Lemma find_project_id {E} (f : DbErr -> E) id :
  resolves (fun o _ => forall p, o = Some p -> p_id p = id) (map_err f (find_project id)).
Proof.
  apply resolves_read. intros e w r w' Em. split; [by eapply query_same|]. intros o ->.
  apply query_db in Em as [_ [[=]|[= Eo]]]. intros p ->. symmetry in Eo.
  destruct (t_rows (projects (w_db w)) !! id) as [row|]; [|done].
  simpl in Eo. apply res_bind_ok in Eo as (p' & Ep & [= ->]).
  unfold row_to_project in Ep. by apply res_bind_ok in Ep as (? & _ & [= <-]).
Qed.

Lemma resolves_find_check {E} (f : DbErr -> E) id :
  resolves (fun o d => forall c, o = Some c -> c_id c = id /\
    exists r, t_rows (checks d) !! id = Some r /\ c_project_id c = cr_project_id r) (map_err f (find_check id)).
Proof.
  apply resolves_read. intros e w r w' Em. split; [by eapply query_same|]. intros o ->.
  apply query_db in Em as [_ [[=]|[= Eo]]]. intros c ->. symmetry in Eo.
  destruct (t_rows (checks (w_db w)) !! id) as [row|] eqn:Er; [|done].
  simpl in Eo. apply res_bind_ok in Eo as (c' & Ec & [= ->]).
  pose proof (row_to_check_Ok _ _ _ Ec) as (? & ? & ?). split; [done|]. by exists row.
Qed.

Lemma resolves_find_channel {E} (f : DbErr -> E) id :
  resolves (fun o d => forall ch, o = Some ch -> ch_id ch = id /\
    exists r, t_rows (channels d) !! id = Some r /\ ch_project_id ch = chr_project_id r)
    (map_err f (find_channel id)).
Proof.
  apply resolves_read. intros e w r w' Em. split; [by eapply query_same|]. intros o ->.
  apply query_db in Em as [_ [[=]|[= Eo]]]. intros c ->. symmetry in Eo.
  destruct (t_rows (channels (w_db w)) !! id) as [row|] eqn:Er; [|done].
  simpl in Eo. apply res_bind_ok in Eo as (c' & Ec & [= ->]).
  apply res_bind_ok in Ec as (k & _ & Ec). apply res_bind_ok in Ec as (? & _ & [= <-]).
  split; [done|]. by exists row.
Qed.

Lemma owned_project_resolves pid : resolves (fun _ d => owns uid d pid) (owned_project pid uid).
Proof.
  eapply resolves_mtry; [apply resolves_find_project|].
  intros o. apply (resolves_mtry (fun p _ => o = Some p)).
  { apply resolves_mret. intros p d E. by apply found_Ok. }
  intros p. destruct (p_user_id p =? uid) eqn:E; apply resolves_mret; [|done].
  intros a d [= <-] Ho Hp. apply Z.eqb_eq in E. rewrite <- E. by apply Hp.
Qed.

Lemma owned_check_resolves id :
  resolves (fun c d => owned_row uid d id /\ c_id c = id /\ owns uid d (c_project_id c) /\
      check_in d id (c_project_id c))
    (owned_check id uid).
Proof.
  eapply resolves_mtry; [apply resolves_find_check|].
  intros o. apply (resolves_mtry (fun c _ => o = Some c)).
  { apply resolves_mret. intros p d E. by apply found_Ok. }
  intros c. eapply resolves_mtry; [apply owned_project_resolves|]. intros p. apply resolves_mret.
  intros c' d [= <-] Ho -> Hc. destruct (Hc c eq_refl) as (Hid & r & Hr & Hp).
  split; [exists r; by rewrite <- Hp|]. split; [done|]. split; [done|]. by exists r.
Qed.

Lemma owned_channel_resolves id :
  resolves (fun ch d => ch_id ch = id /\ owns uid d (ch_project_id ch) /\
      exists r, t_rows (channels d) !! id = Some r /\ owns uid d (chr_project_id r))
    (owned_channel id uid).
Proof.
  eapply resolves_mtry; [apply resolves_find_channel|].
  intros o. apply (resolves_mtry (fun c _ => o = Some c)).
  { apply resolves_mret. intros p d E. by apply found_Ok. }
  intros c. eapply resolves_mtry; [apply owned_project_resolves|]. intros p. apply resolves_mret.
  intros c' d [= <-] Ho -> Hc. destruct (Hc c eq_refl) as (Hid & r & Hr & Hp).
  split; [done|]. split; [done|]. exists r. split; [done|]. by rewrite <- Hp.
Qed.

(** *** The writes *)

Lemma update_row_sequenced {R} (f : R -> R) id (t : Table R) :
  (forall i, is_Some (t_rows t !! i) -> i <= t_seq t) ->
  forall i, is_Some (t_rows (update_row f id t) !! i) -> i <= t_seq (update_row f id t).
Proof.
  intros Ht i Hi. apply Ht. rewrite update_row_lookup in Hi. case_decide; [|done].
  by apply fmap_is_Some in Hi.
Qed.

Lemma delete_where_sequenced {R} (p : Z -> R -> bool) (t : Table R) :
  (forall i, is_Some (t_rows t !! i) -> i <= t_seq t) ->
  forall i, is_Some (t_rows (delete_where p t) !! i) -> i <= t_seq (delete_where p t).
Proof. intros Ht i [r Hi]. apply delete_where_lookup in Hi as [Hi _]. apply Ht. eauto. Qed.

Lemma insert_row_sequenced {R} (r : R) (t : Table R) :
  (forall i, is_Some (t_rows t !! i) -> i <= t_seq t) ->
  forall i, is_Some (t_rows (insert_row r t).2 !! i) -> i <= t_seq (insert_row r t).2.
Proof.
  intros Ht i. simpl. destruct (decide (i = t_seq t + 1)) as [->|]; [lia|].
  rewrite lookup_insert_ne by done. intros Hi%Ht. lia.
Qed.

(** Each table of [sequenced] is the same, or one of these. *)
Ltac sequenced_tables :=
  split; [|split]; first [done | by apply update_row_sequenced | by apply delete_where_sequenced
                         | by apply insert_row_sequenced].

Lemma frames_update_check P (g : CheckRow -> CheckRow) id :
  (forall d, P d -> owned_row uid d id) -> (forall r, cr_project_id (g r) = cr_project_id r) ->
  frames P (execute (update_check g id)).
Proof.
  intros Ho Hg. apply frames_stmt. intros d [] d' Hp (S1 & S2 & S3) [= <-]. split; [|split].
  - by apply untouched_update_check, Ho.
  - sequenced_tables.
  - by apply local_update_check.
Qed.

Lemma frames_regenerate P id uuid :
  (forall d, P d -> owned_row uid d id) ->
  frames P (regenerate_uuid id uuid).
Proof.
  intros Ho. apply frames_stmt. intros d [] d' Hp (S1 & S2 & S3) E. cbv beta in E. destruct (_ && _); [done|].
  injection E as <-. split; [by apply untouched_update_check, Ho|].
  split; [sequenced_tables|by apply local_update_check].
Qed.

Lemma frames_delete_check P id :
  (forall d, P d -> owned_row uid d id) -> frames P (delete_check id).
Proof.
  intros Ho. apply frames_stmt. intros d [] d' Hp (S1 & S2 & S3) [= <-]. split; [|split].
  - apply untouched_cascade_checks. intros i r ->%Z.eqb_eq. by apply owned_row_not_foreign, Ho.
  - sequenced_tables.
  - apply local_cascade_checks.
Qed.

Lemma frames_delete_channel P id :
  (forall d, P d -> exists r, t_rows (channels d) !! id = Some r /\ owns uid d (chr_project_id r)) ->
  frames P (delete_channel id).
Proof.
  intros Ho. apply frames_stmt. intros d [] d' Hp (S1 & S2 & S3) [= <-].
  split; [|split; [sequenced_tables|apply local_cascade_channels]].
  apply untouched_cascade_channels. intros i r ->%Z.eqb_eq [Hr [p Hf]].
  destruct (Ho d Hp) as (r' & Hr' & Hown). assert (r' = r) as -> by congruence.
  by apply (owns_not_foreign uid d _ p Hown).
Qed.

Lemma frames_update_channel P id name cfg :
  (forall d, P d -> exists r, t_rows (channels d) !! id = Some r /\ owns uid d (chr_project_id r)) ->
  frames P (update_channel id name cfg).
Proof.
  intros Ho. apply frames_stmt. intros d [] d' Hp (S1 & S2 & S3) [= <-].
  split; [|split; [sequenced_tables|by apply local_update_channel]].
  apply untouched_set_channels. intros i r [p Hf]. rewrite update_row_lookup. case_decide as E; [|done].
  subst i. destruct (Ho d Hp) as (q & Hq & Hown). rewrite Hq. simpl.
  split; intros [= <-]; exfalso; by apply (owns_not_foreign uid d _ p Hown).
Qed.

Lemma frames_create_channel P c now :
  (forall d, P d -> owns uid d (nch_project_id c)) ->
  frames P (create_channel c now).
Proof.
  intros Ho. apply frames_stmt. intros d id d' Hp Hs E. cbv beta in E. destruct (is_row _ _); [|done].
  injection E as _ <-. split; [by apply untouched_insert_channel, Ho|].
  destruct Hs as (S1 & S2 & S3). split; [sequenced_tables|by apply local_insert_channel].
Qed.

Lemma frames_delete_project P id :
  (forall d, P d -> owns uid d id) -> frames P (delete_project id).
Proof.
  intros Ho. apply frames_stmt. intros d [] d' Hp (S1 & S2 & S3) [= <-].
  split; [by apply untouched_cascade_project, Ho|]. split; [|apply local_cascade_projects].
  unfold cascade_projects. sequenced_tables.
Qed.

Lemma frames_update_project P id s :
  (forall d, P d -> owns uid d id) -> frames P (update_project id s).
Proof.
  intros Ho. apply frames_stmt. intros d [] d' Hp (S1 & S2 & S3) [= <-]. split; [|split; [|done]].
  - apply untouched_set_projects. intros i p Hne. rewrite update_row_lookup. case_decide as E; [|done].
    subst i. destruct (Ho d Hp) as (q & Hq & Hu). rewrite Hq. simpl.
    split; intros [= <-]; simpl in Hne; congruence.
  - sequenced_tables.
Qed.

Lemma frames_create_project P s now : frames P (create_project uid s now).
Proof.
  apply frames_stmt. intros d a d' Hp Hs E. cbv beta in E. destruct (is_row _ _); [|done].
  injection E as _ <-. split; [by apply untouched_insert_project|].
  destruct Hs as (S1 & S2 & S3). split; [sequenced_tables|done].
Qed.

(** [m] leaves what is foreign alone, and what it yields establishes [Q]. *)
Definition yields {E A} (P : Db -> Prop) (Q : A -> Db -> Prop) (m : M (res E A)) : Prop :=
  forall d0 e w r w', since d0 P (w_db w) -> m e w = (r, w') ->
    confined d0 (w_db w') /\ forall a, r = Done (Ok a) -> Q a (w_db w').
Lemma frames_yields {E A B} P (Q : A -> Db -> Prop) (m : M (res E A)) (k : A -> M (res E B)) :
  yields P Q m -> (forall a, frames (Q a) (k a)) -> frames P (mtry m k).
Proof.
  intros Hm Hk d0 e w r w' Hw Em. unfold mtry in Em. apply mbind_inv in Em as [[Em _]|(o & w1 & E1 & E2)].
  - by apply (Hm d0) in Em as [? _].
  - apply (Hm d0) in E1 as [Hc Hq]; [|done]. destruct o as [a|x]; [|by injection E2 as _ <-].
    eapply Hk; [|exact E2]. split; [done|by apply Hq].
Qed.
Lemma yields_query {E A} P (f : DbErr -> E) (q : Db -> res DbErr A) :
  yields P (fun a d => P d /\ q d = Ok a) (map_err f (query q)).
Proof.
  intros d0 e w r w' [Hc Hp] Em. unfold map_err in Em. apply mbind_inv in Em as [[Em ->]|(o & w1 & E1 & [= <- <-])].
  - apply query_db in Em as [-> _]. by split.
  - apply query_db in E1 as [-> Ho]. split; [done|]. intros a Ea. split; [done|].
    destruct o as [b|]; [|done]. injection Ea as ->. by destruct Ho as [[=]|[=]].
Qed.

(** A check is created in its project. *)
Lemma yields_create_check {E} P (f : DbErr -> E) c :
  (forall d, P d -> owns uid d (nc_project_id c)) ->
  yields P (fun id d => owns uid d (nc_project_id c) /\ check_in d id (nc_project_id c))
    (map_err f (create_check c)).
Proof.
  intros Ho d0 e w r w' [Hc Hp] Em. unfold map_err in Em.
  assert (forall o w1, create_check c e w = (o, w1) -> confined d0 (w_db w1) /\ forall id, o = Done (Ok id) ->
    owns uid (w_db w1) (nc_project_id c) /\ check_in (w_db w1) id (nc_project_id c)) as Hm.
  { clear Em. intros o w1 Ec. unfold create_check in Ec. apply mbind_inv in Ec as [[[=] _]|(now & w2 & [= _ <-] & Ec)].
    unfold stmt in Ec. destruct (env_fault _ _); [by injection Ec as <- <-|]. cbn [w_db] in Ec.
    destruct (uuid_taken _ _ _); [by injection Ec as <- <-|].
    destruct (is_row _ _); [|by injection Ec as <- <-]. injection Ec as <- <-.
    pose proof Hc as (_ & (S1 & S2 & S3) & _). split.
    - eapply confined_trans; [exact Hc|]. split; [by apply untouched_insert_check; [done|apply Ho]|].
      split; [sequenced_tables|by apply local_insert_check].
    - intros id Eid. injection Eid as <-. split; [exact (Ho _ Hp)|]. eexists. split; [apply lookup_insert_eq|done]. }
  apply mbind_inv in Em as [[Em ->]|(o & w1 & E1 & [= <- <-])].
  - by apply Hm in Em as [? _].
  - apply Hm in E1 as [? Hq]. split; [done|]. intros id Eid. apply Hq. by destruct o; [injection Eid as ->|].
Qed.

(** The channels listed for a project are in it. *)
Lemma listed_channels_in d pid chs :
  collect row_to_channel (select (fun _ r => chr_project_id r =? pid) (channels d)) = Ok chs ->
  forall ch, ch ∈ chs -> channel_in d (ch_id ch) pid.
Proof.
  intros E. remember (select _ _) as l eqn:Hl. assert (forall x, x ∈ l -> t_rows (channels d) !! x.1 = Some x.2 /\
    chr_project_id x.2 = pid) as Hin.
  { intros [i r]. rewrite Hl. intros [? ?%Z.eqb_eq]%elem_of_select. done. }
  clear Hl. revert chs E. induction l as [|[i r] l IH]; intros chs E; cbn [collect] in E.
  { injection E as <-. by intros ch ?%elem_of_nil. }
  apply res_bind_ok in E as (ch & Ech & E). apply res_bind_ok in E as (chs' & Echs & [= <-]).
  intros ch' [->|Hch]%elem_of_cons.
  - destruct (Hin (i, r)) as [Hr Hp]; [left|]. exists r. split; [|done].
    apply res_bind_ok in Ech as (? & _ & Ech). by apply res_bind_ok in Ech as (? & _ & [= <-]).
  - eapply IH; [|done..]. intros x Hx. apply Hin. by right.
Qed.

Lemma frames_bind_all P id pid :
  (forall d, P d -> owns uid d pid /\ check_in d id pid) ->
  frames P (bind_all_project_channels id pid).
Proof.
  intros Ho. apply frames_stmt. intros d [] d' Hp Hs E. cbv beta zeta in E. destruct (_ || _); [|done].
  destruct (Ho d Hp) as [Hown Hin].
  assert (forall i j, (i, j) ∈ (list_to_set (map (pair id) (map fst
    (select (fun _ r => chr_project_id r =? pid) (channels d)))) : gset (Z * Z)) ->
    i = id /\ channel_in d j pid) as Hnew.
  { intros i j. rewrite elem_of_list_to_set, list_elem_of_fmap. intros (j' & [= -> ->] & Hj).
    apply list_elem_of_fmap in Hj as ([k s] & -> & Hj). apply elem_of_select in Hj as [Hj Hk%Z.eqb_eq].
    split; [done|]. by exists s. }
  injection E as <-. split; [|split; [done|]].
  - apply untouched_set_bindings. intros i j r c _ [Hc [p Hf]]. rewrite elem_of_union.
    split; [|tauto]. intros [(-> & s & Hs' & Hk)%Hnew|]; [|done]. exfalso.
    assert (s = c) as -> by congruence. subst pid. by apply (owns_not_foreign uid d _ p Hown).
  - apply local_more. intros i j [-> Hj]%Hnew. by exists pid.
Qed.

(** Binding what is in the check's own project, and unbinding anything. *)
Lemma keeps_bind P id ch pid :
  (forall d, P d -> owned_row uid d id /\ check_in d id pid /\ channel_in d ch pid) ->
  (forall s d, P d -> P (set_bindings s d)) -> keeps P (bind_channel id ch).
Proof.
  intros Ho Hp. apply keeps_stmt. intros d [] d' Hd Hs E. cbv beta in E. destruct (_ && _); [|done].
  injection E as <-. split; [|by apply Hp]. destruct (Ho d Hd) as (Hown & Hc & Hh). split; [|split; [done|]].
  - apply untouched_set_bindings. intros i j r c Hf _. rewrite elem_of_union, elem_of_singleton.
    split; [|tauto]. intros [[= -> ->]|]; [|done]. by apply owned_row_not_foreign in Hf.
  - apply local_more. intros i j [= -> ->]%elem_of_singleton. by exists pid.
Qed.
Lemma keeps_unbind P id ch :
  (forall d, P d -> owned_row uid d id) ->
  (forall s d, P d -> P (set_bindings s d)) -> keeps P (unbind_channel id ch).
Proof.
  intros Ho Hp. apply keeps_stmt. intros d [] d' Hd Hs E.
  injection E as <-. split; [|by apply Hp]. split; [|split; [done|]].
  - apply untouched_set_bindings. intros i j r c Hf _. rewrite elem_of_difference, elem_of_singleton.
    split; [tauto|]. intros Hb. split; [done|]. intros [= -> ->].
    by apply owned_row_not_foreign in Hf; [|apply Ho].
  - apply local_fewer. intros x [? _]%elem_of_difference. done.
Qed.

Lemma keeps_for_each_try {E A} P (l : list A) (f : A -> M (res E unit)) :
  (forall x, x ∈ l -> keeps P (f x)) -> keeps P (for_each_try l f).
Proof.
  intros Hf d0. induction l as [|x l IH]; simpl; [apply preserves_mret|].
  apply preserves_mtry; [apply Hf; left|]. intros _. apply IH. intros y Hy. apply Hf. by right.
Qed.

(** The channels of the project were listed as [chs]. *)
Definition listed (P : Db -> Prop) (pid : Z) (chs : list Channel) (d : Db) : Prop :=
  P d /\ collect row_to_channel (select (fun _ r => chr_project_id r =? pid) (channels d)) = Ok chs.
Lemma frames_listed {E B} P (f : DbErr -> E) pid (k : list Channel -> M (res E B)) :
  (forall chs, frames (listed P pid chs) (k chs)) ->
  frames P (mtry (map_err f (list_channels_for_project pid)) k).
Proof. apply frames_yields, yields_query. Qed.

(** The boxes ticked are bound if they are the project's own, the others unbound. *)
Lemma keeps_bind_loop {E} `{HashOrder} P (f : DbErr -> E) (id pid : Z) chs (ids : list Z) (current : gset Z) :
  (forall d, P d -> owned_row uid d id /\ check_in d id pid) ->
  (forall s d, P d -> P (set_bindings s d)) ->
  let valid : gset Z := list_to_set (map ch_id chs) in
  let desired : gset Z := list_to_set (List.filter (fun c => bool_decide (c ∈ valid)) ids) in
  keeps (listed P pid chs)
    (for_each_try (hash_iter (desired ∖ current)) (fun add => map_err f (bind_channel id add))).
Proof.
  intros Ho Hp valid desired. apply keeps_for_each_try. intros x Hx. apply keeps_map_err, (keeps_bind _ id x pid).
  - intros d [Hd El]. destruct (Ho d Hd) as [Hown Hin]. split; [done|]. split; [done|].
    rewrite hash_iter_elements, elem_of_elements in Hx. apply elem_of_difference in Hx as [Hx _].
    apply elem_of_list_to_set, list_elem_of_In, filter_In in Hx as [_ Hx%bool_decide_eq_true].
    apply elem_of_list_to_set, list_elem_of_fmap in Hx as (ch & -> & Hch). by eapply listed_channels_in.
  - intros s d [? ?]. split; auto.
Qed.
Lemma keeps_unbind_loop {E} P (f : DbErr -> E) (id pid : Z) chs (l : list Z) :
  (forall d, P d -> owned_row uid d id) -> (forall s d, P d -> P (set_bindings s d)) ->
  keeps (listed P pid chs) (for_each_try l (fun remove => map_err f (unbind_channel id remove))).
Proof.
  intros Ho Hp. apply keeps_for_each_try. intros x _. apply keeps_map_err, keeps_unbind.
  - intros d [Hd _]. by apply Ho.
  - intros s d [? ?]. split; auto.
Qed.
Lemma frames_read_after {E A B} P (m : M (res E A)) (k : A -> M (res E B)) :
  frames P m -> (forall a, reads (k a)) -> frames P (mtry m k).
Proof. intros Hm Hk d0. eapply hoare_mtry; [apply Hm|done|]. intros a e w r w' Hw E1. by eapply Hk. Qed.

End frame.

(** The resolvers do not panic. *)
Section totals.
Context `{Cron}.

Lemma owned_project_total uid id : total (owned_project id uid).
Proof.
  apply total_mtry; [apply total_db, total_query|]. intros o. apply total_mtry; [apply total_mret|].
  intros p. destruct (_ =? _); apply total_mret.
Qed.
Lemma owned_check_total uid id : total (owned_check id uid).
Proof.
  apply total_mtry; [apply total_db, total_query|]. intros o. apply total_mtry; [apply total_mret|].
  intros c. apply total_mtry; [apply owned_project_total|]. intros _. apply total_mret.
Qed.
Lemma owned_channel_total uid id : total (owned_channel id uid).
Proof.
  apply total_mtry; [apply total_db, total_query|]. intros o. apply total_mtry; [apply total_mret|].
  intros c. apply total_mtry; [apply owned_project_total|]. intros _. apply total_mret.
Qed.

End totals.

Lemma for_each_try_spec {E A} (J : Db -> Prop) (G : A -> Db -> Prop) (f : A -> M (res E unit)) l :
  (forall x e w r w', x ∈ l -> J (w_db w) -> f x e w = (r, w') ->
     J (w_db w') /\ (r = Done (Ok tt) -> G x (w_db w')) /\
     (forall y, G y (w_db w) -> G y (w_db w'))) ->
  forall e w r w', J (w_db w) -> for_each_try l f e w = (r, w') ->
    J (w_db w') /\ (r = Done (Ok tt) -> forall x, x ∈ l -> G x (w_db w')) /\
    (forall y, G y (w_db w) -> G y (w_db w')).
Proof.
  induction l as [|x l IH]; intros Hf e w r w' HJ Em; cbn [for_each_try] in Em.
  - injection Em as <- <-. split; [done|]. split; [|done]. by intros _ y ?%elem_of_nil.
  - unfold mtry in Em. apply mbind_inv in Em as [[Em ->]|(o & w1 & E1 & Em)].
    + destruct (Hf x _ _ _ _ ltac:(by left) HJ Em) as (J1 & _ & S1). by split.
    + destruct (Hf x _ _ _ _ ltac:(by left) HJ E1) as (J1 & G1 & S1). destruct o as [[]|err].
      * destruct (IH ltac:(intros; eapply Hf; eauto; by right) _ _ _ _ J1 Em) as (J2 & G2 & S2).
        split; [done|]. split; [|auto]. intros Hr y [->|Hy]%elem_of_cons; auto.
      * injection Em as <- <-. by split.
Qed.

(** ** Audited access *)

(** Exactly one row has been added to the audit log, about [id], by [admin]. *)
Definition audited (admin : User) (action target : str) (id : Z) (d d' : Db) : Prop :=
  exists row, audit_log d' = (insert_row row (audit_log d)).2 /\
    ar_actor_user_id row = u_id admin /\ ar_action row = action /\
    ar_target_type row = Some target /\ ar_target_id row = Some id.

(** Nothing has changed and the answer is an error, or [audited]. *)
Definition refused_or_audited {E A} (admin : User) (action target : str) (id : Z) (w w' : World)
    (r : exec (res E A)) : Prop :=
  (w_db w' = w_db w /\ exists x, r = Done (Err x)) \/ audited admin action target id (w_db w) (w_db w').

(** The rest of a handler does not write the log. *)
Definition keeps_log {A} (m : M A) : Prop := forall t, preserves (fun d => audit_log d = t) m.

Lemma audited_then {E A B} admin action target id (m : M (res E A)) (k : A -> M (res E B)) e w r w' :
  (forall r1 w1, m e w = (r1, w1) ->
     (w_db w1 = w_db w /\ exists x, r1 = Done (Err x)) \/
     (exists a, r1 = Done (Ok a)) /\ audited admin action target id (w_db w) (w_db w1)) ->
  (forall a, keeps_log (k a)) -> mtry m k e w = (r, w') ->
  refused_or_audited admin action target id w w' r.
Proof.
  intros Hm Hk Em. destruct (m e w) as [r1 w1] eqn:E1. destruct (Hm _ _ eq_refl) as [[D [x ->]]|[[a ->] Ha]].
  - rewrite (mtry_Err _ _ _ _ _ _ E1) in Em. injection Em as <- <-. left. eauto.
  - rewrite (mtry_Ok _ _ _ _ _ _ E1) in Em. right. destruct Ha as (row & Hl & Hrow). exists row.
    split; [|done]. rewrite <- Hl. by apply (Hk a _ e w1 r w' eq_refl Em).
Qed.

Section audit_log.
Context `{Chrono}.

Lemma record_audit_inv {E} (f : DbErr -> E) a now e w r w' :
  map_err f (record_audit a now) e w = (r, w') ->
  (w_db w' = w_db w /\ exists x, r = Done (Err x)) \/
  (exists i, r = Done (Ok i)) /\ exists row, audit_log (w_db w') = (insert_row row (audit_log (w_db w))).2 /\
    ar_actor_user_id row = na_actor_user_id a /\ ar_action row = na_action a /\
    ar_target_type row = na_target_type a /\ ar_target_id row = na_target_id a.
Proof.
  intros [?|(i & d' & Er & -> & ->)]%map_err_stmt_inv; [by left|]. right. split; [by exists i|].
  cbv beta in Er. injection Er as _ <-. eexists. split; [reflexivity|done].
Qed.

Lemma keeps_log_stmt {A} (run : Db -> res DbErr (A * Db)) :
  (forall d a d', run d = Ok (a, d') -> audit_log d' = audit_log d) -> keeps_log (stmt run).
Proof. intros Hr t. apply preserves_stmt. intros d a d' <- E. by eapply Hr. Qed.
Lemma keeps_log_execute (u : Db -> Db) :
  (forall d, audit_log (u d) = audit_log d) -> keeps_log (execute u).
Proof. intros Hu t. apply preserves_execute. by intros d <-. Qed.

Lemma keeps_log_for_each_try {E A} (l : list A) (f : A -> M (res E unit)) :
  (forall x, keeps_log (f x)) -> keeps_log (for_each_try l f).
Proof.
  intros Hf t. induction l as [|x l IH]; simpl; [apply preserves_mret|].
  apply preserves_mtry; [apply Hf|]. by intros _.
Qed.

(** The writes of the handlers. *)
Lemma keeps_log_create_check c : keeps_log (create_check c).
Proof.
  intros t. apply preserves_mbind; [apply preserves_utc_now|]. intros now. apply keeps_log_stmt.
  intros d a d' E. destruct (uuid_taken _ _ _); [done|]. destruct (is_row _ _); by simplify_eq/=.
Qed.
Lemma keeps_log_regenerate id uuid : keeps_log (regenerate_uuid id uuid).
Proof. apply keeps_log_stmt. intros d a d' E. destruct (_ && _); by simplify_eq/=. Qed.
Lemma keeps_log_bind id ch : keeps_log (bind_channel id ch).
Proof. apply keeps_log_stmt. intros d a d' E. destruct (_ && _); by simplify_eq/=. Qed.
Lemma keeps_log_bind_all id pid : keeps_log (bind_all_project_channels id pid).
Proof. apply keeps_log_stmt. intros d a d' E. cbv zeta in E. destruct (_ || _); by simplify_eq/=. Qed.
Lemma keeps_log_create_project uid s now : keeps_log (create_project uid s now).
Proof. apply keeps_log_stmt. intros d a d' E. destruct (is_row _ _); by simplify_eq/=. Qed.
Lemma keeps_log_create_channel c now : keeps_log (create_channel c now).
Proof. apply keeps_log_stmt. intros d a d' E. destruct (is_row _ _); by simplify_eq/=. Qed.

End audit_log.

(** [keeps_log], statement by statement. *)
Ltac log_steps :=
  repeat first
    [ progress intros
    | match goal with |- keeps_log _ => intro end
    | solve [auto 2 with pw]
    | apply keeps_log_for_each_try
    | apply keeps_log_create_check
    | apply keeps_log_regenerate
    | apply keeps_log_bind
    | apply keeps_log_bind_all
    | apply keeps_log_create_project
    | apply keeps_log_create_channel
    | solve [apply keeps_log_execute; done]
    | apply preserves_map_err
    | apply preserves_mbind
    | apply preserves_mtry
    | apply preserves_query
    | match goal with
      | |- preserves _ (match ?x with _ => _ end) => destruct x
      end ].
