(* ===== verification/Templates.v ===== *)
(** * Templates: what the handlers of [src/web.rs] hand to Askama

    One record per template, with its fields; the HTML is Askama's. [show_nav] is a
    constant of the handler and is left out. The rows of a listing share their names with
    the rows of the database, so they are in the module [Html]. *)
From S2P Require Import Prelude Text Models Config Wire Chrono Db Rows View Forms Channels Store Keyset Notify.
#[local] Open Scope Z_scope.

(** The [CONFIRM_*] constants, which differ only in the copy a confirmation page shows. *)
Inductive Confirm : Set :=
| CONFIRM_DELETE_PROJECT
| CONFIRM_DELETE_CHECK
| CONFIRM_REGENERATE_URL
| CONFIRM_REVOKE_SESSION
| CONFIRM_REVOKE_OTHER_SESSIONS
| CONFIRM_REVOKE_API_KEY
| CONFIRM_DELETE_USER
| CONFIRM_DEMOTE_ADMIN
| CONFIRM_DISABLE_USER.

(** A row of the account page's sessions and of its API keys, and the page. *)
Record AccountSession := mk_AccountSession {
  as_handle : str;
  as_created_at : option Z;
  as_last_seen_at : option Z;
  as_expires_at : Z;
  as_user_agent : option str;
  as_ip : option str;
  as_current : bool;
  as_sso : bool;
}.
Record AccountKey := mk_AccountKey {
  ak_id : Z;
  ak_name : str;
  ak_prefix : str;
  ak_created_at : Z;
  ak_last_used_at : option Z;
  ak_expires_at : option Z;
  ak_expired : bool;
}.
Record AccountTemplate := mk_AccountTemplate {
  at_csrf : str;
  at_is_admin : bool;
  at_sessions : list AccountSession;
  at_other_count : Z;
  at_has_password : bool;
  at_password_error : option str;
  at_password_flash : option str;
  at_keys : list AccountKey;
  at_new_token : option str;
  at_key_error : option str;
}.

Record ChannelFormTemplate := mk_ChannelFormTemplate {
  cft_csrf : str;
  cft_is_admin : bool;
  cft_admin : bool;
  cft_project_id : Z;
  cft_error : option str;
  cft_smtp_available : bool;
  cft_edit : option ChannelEditView;
}.

(** ** Projects *)

Record ProjectCheckRow := mk_ProjectCheckRow {
  pcr_id : Z;
  pcr_name : str;
  pcr_status : str;
  pcr_schedule : str;
  pcr_description : str;
  pcr_no_channel : bool;
}.
Record ProjectChannelRow := mk_ProjectChannelRow {
  pch_id : Z;
  pch_name : str;
  pch_kind : str;
}.
Record TestResult := mk_TestResult { ts_ok : bool; ts_message : str }.
Record ProjectTemplate := mk_ProjectTemplate {
  pt_csrf : str;
  pt_is_admin : bool;
  pt_admin : bool;
  pt_project : Project;
  pt_description_html : str;
  pt_checks : list ProjectCheckRow;
  pt_channels : list ProjectChannelRow;
  pt_test_result : option TestResult;
}.

(** ** A check and its history *)

(** [time] and [iso]: the instant twice, for a reader with and without script. *)
Module Html.
Record PingRow := mk_PingRow {
  hp_time : str;
  hp_iso : str;
  hp_pill_class : str;
  hp_kind_label : str;
  hp_exit : str;
  hp_duration : str;
  hp_source : str;
  hp_body : str;
}.
Record NotificationRow := mk_NotificationRow {
  hn_created_at : str;
  hn_iso : str;
  hn_event : str;
  hn_event_pill_class : str;
  hn_status : str;
  hn_channel : str;
  hn_error : str;
}.
Record CheckRow := mk_CheckRow {
  hc_id : Z;
  hc_name : str;
  hc_status : str;
  hc_schedule : str;
  hc_last : str;
  hc_bars : list Bar;
  hc_description : str;
  hc_no_channel : bool;
}.
Record AuditRow := mk_AuditRow {
  ha_time : str;
  ha_iso : str;
  ha_actor : str;
  ha_action : str;
  ha_target : str;
  ha_method_path : str;
  ha_detail : str;
  ha_target_owner : str;
  ha_expandable : bool;
}.
Record UserRow := mk_UserRow {
  hu_id : Z;
  hu_username : str;
  hu_is_admin : bool;
  hu_disabled : bool;
  hu_is_self : bool;
}.
End Html.

Record ChannelBox := mk_ChannelBox {
  cb_id : Z;
  cb_name : str;
  cb_kind : str;
  cb_bound : bool;
}.
Record HiddenField := mk_HiddenField { hf_name : str; hf_value : str }.
Record CheckPingsTemplate := mk_CheckPingsTemplate {
  cp_base : str;
  cp_check_id : Z;
  cp_rows : list Html.PingRow;
  cp_empty : bool;
  cp_f_kind : str;
  cp_f_from : str;
  cp_f_to : str;
  cp_filtered : bool;
  cp_carry : list HiddenField;
  cp_clear : str;
  cp_newer : option str;
  cp_older : option str;
}.
Record CheckNotifsTemplate := mk_CheckNotifsTemplate {
  cn_base : str;
  cn_check_id : Z;
  cn_rows : list Html.NotificationRow;
  cn_empty : bool;
  cn_f_event : str;
  cn_f_status : str;
  cn_f_from : str;
  cn_f_to : str;
  cn_filtered : bool;
  cn_carry : list HiddenField;
  cn_clear : str;
  cn_newer : option str;
  cn_older : option str;
}.
Record CheckTemplate := mk_CheckTemplate {
  ct_csrf : str;
  ct_is_admin : bool;
  ct_admin : bool;
  ct_check : Check;
  ct_description_html : str;
  ct_project_name : str;
  ct_status : str;
  ct_since : str;
  ct_next_due : NextDue;
  ct_schedule : str;
  ct_ping_url : str;
  ct_ping_url_hidden : bool;
  ct_bars : list Bar;
  ct_channel_boxes : list ChannelBox;
  ct_pings_partial : CheckPingsTemplate;
  ct_notifs_partial : CheckNotifsTemplate;
  ct_flash : option str;
}.

(** ** The dashboard *)

Record ProjectGroup := mk_ProjectGroup {
  grp_id : Z;
  grp_name : str;
  grp_count : Z;
  grp_checks : list Html.CheckRow;
  grp_description : str;
}.
Record DashboardTemplate := mk_DashboardTemplate {
  dt_csrf : str;
  dt_is_admin : bool;
  dt_total : Z;
  dt_up : Z;
  dt_late : Z;
  dt_down : Z;
  dt_groups : list ProjectGroup;
  dt_q : str;
  dt_status : str;
  dt_forward_auth_logout : option str;
}.

(** ** The administration page *)

Inductive EnvValue : Type :=
| EV_Set (value : str)
| EV_Unset
| EV_Secret (configured : bool).
Record EnvSetting := mk_EnvSetting {
  env_var : str;
  env_value : EnvValue;
  env_default : str;
  env_description : str;
}.
Record AdminAuditTemplate := mk_AdminAuditTemplate {
  aa_rows : list Html.AuditRow;
  aa_empty : bool;
  aa_actors : list str;
  aa_actions : list str;
  aa_f_actor : str;
  aa_f_action : str;
  aa_f_from : str;
  aa_f_to : str;
  aa_filtered : bool;
  aa_newer : option str;
  aa_older : option str;
}.
Record AdminUnlockTemplate := mk_AdminUnlockTemplate {
  aut_csrf : str;
  aut_is_admin : bool;
  aut_applies : bool;
  aut_remaining : option str;
  aut_ttl : str;
  aut_bounced_flash : option str;
  aut_error : option str;
}.
(** [adm_settings]: the six settings fields. *)
Record AdminTemplate := mk_AdminTemplate {
  adm_csrf : str;
  adm_is_admin : bool;
  adm_audit_partial : AdminAuditTemplate;
  adm_user_count : Z;
  adm_project_count : Z;
  adm_checks : Z;
  adm_pings_24h : Z;
  adm_status : CheckStatusCounts;
  adm_down : list (Check * str * str);
  adm_notif_ok : Z;
  adm_notif_err : Z;
  adm_channel_fail : list (str * Z * Z);
  adm_recent_fail : list Notification;
  adm_last_scan_at : option str;
  adm_last_prune_at : option str;
  adm_last_scan_ago : option str;
  adm_last_prune_ago : option str;
  adm_last_scan_utc : option str;
  adm_last_prune_utc : option str;
  adm_settings : SettingsForm;
  adm_settings_error : option str;
  adm_settings_flash : option str;
  adm_users : list Html.UserRow;
  adm_user_flash : option str;
  adm_elevation_flash : option str;
  adm_elevation_applies : bool;
  adm_elevation_remaining : option str;
  adm_elevation_locked : bool;
  adm_password_reset_flash : option str;
  adm_user_error : option str;
  adm_projects : list (Project * str);
  adm_env_rows : list (str * list EnvSetting);
}.

(** The templates the modelled handlers render. *)
Inductive Page : Type :=
| P_None
| P_Setup (csrf : str) (error : option str)
| P_Login (csrf : str) (error : option str)
| P_Confirm (csrf : str) (is_admin : bool) (confirm : Confirm) (action cancel : str)
| P_ProjectForm (csrf heading action : str) (is_admin : bool) (form : ProjectForm)
    (error : option str)
| P_CheckForm (csrf heading action : str) (is_admin : bool) (form : CheckForm) (error : option str)
| P_ChannelForm (t : ChannelFormTemplate)
| P_Project (t : ProjectTemplate)
| P_Check (t : CheckTemplate)
| P_CheckPings (t : CheckPingsTemplate)
| P_CheckNotifs (t : CheckNotifsTemplate)
| P_Dashboard (t : DashboardTemplate)
| P_Account (t : AccountTemplate)
| P_Unlock (t : AdminUnlockTemplate)
| P_AdminAudit (t : AdminAuditTemplate)
| P_Admin (t : AdminTemplate)
| P_Text (body : str)                                 (* plain text or JSON *)
| P_Bytes (body : list Z)                             (* an embedded file *)
| P_Stream (lines : list (option Z) -> list str).     (* server-sent events *)
