(* ===== verification/Web.v ===== *)
(** * Web: cookies, sign-in and the CSRF guard of [src/web.rs]

    A handler is a term of [M] that yields a [Response] or an [AppError]. Rendering a
    template yields its fields, a [Page]; the HTML is Askama's. A jar holds the cookies
    the request sent and those the handler set. Log lines are left out. *)
From S2P Require Import Prelude Text Models Config Wire Secret Chrono Auth Db Rows Store Sessions Sample Errors Templates.
From S2P Require Ratelimit Elevate.
#[local] Open Scope Z_scope.
#[local] Open Scope pw_scope.

(** ** Cookies and responses *)

(** [HttpOnly], [SameSite=Lax] and [Path=/] are common to all. *)
Record Cookie := mk_Cookie {
  ck_name : str;
  ck_value : str;
  ck_secure : bool;
}.

(** A change to the jar: a cookie set, or one removed. *)
Inductive Delta : Type :=
| Set_ (c : Cookie)
| Removed (c : Cookie).
Definition delta_name (d : Delta) : str := match d with Set_ c | Removed c => ck_name c end.

Record CookieJar := mk_CookieJar {
  jar_original : str -> option str;
  jar_delta : list Delta;           (* newest first, one per name *)
}.

Definition put (d : Delta) (jar : CookieJar) : CookieJar := {|
  jar_original := jar_original jar;
  jar_delta := d :: List.filter (fun d' => negb (bool_decide (delta_name d' = delta_name d)))
                      (jar_delta jar);
|}.
Definition jar_add (c : Cookie) : CookieJar -> CookieJar := put (Set_ c).
Definition jar_remove (c : Cookie) : CookieJar -> CookieJar := put (Removed c).
Definition jar_get (jar : CookieJar) (name : str) : option str :=
  match List.find (fun d => bool_decide (delta_name d = name)) (jar_delta jar) with
  | Some (Set_ c) => Some (ck_value c)
  | Some (Removed _) => None
  | None => jar_original jar name
  end.

Record Response := mk_Response {
  rs_status : Z;
  rs_location : option str;
  rs_headers : list (str * str);
  rs_cookies : list Delta;
  rs_page : Page;
}.

Definition status_response (status : Z) : Response := mk_Response status None [] [] P_None.
Definition page_response (p : Page) : Response := mk_Response 200 None [] [] p.
(** [Redirect::to]: 303, with the jar's changes. *)
Definition redirect_to (jar : list Delta) (url : str) : Response :=
  mk_Response 303 (Some url) [] jar P_None.

(** ** The form parser and the requests of the guards *)

Class FormUrl := {
  form_parse : list Z -> list (str * str);     (* [form_urlencoded::parse] *)
}.

Record Request := mk_Request {
  rq_method : str;
  rq_header_lines : HeaderMap;
  rq_cookies : str -> option str;
  rq_bytes : option (list Z);    (* the body, [None] if reading it fails *)
}.

Record Credentials := mk_Credentials {
  crd_username : str;
  crd_password : str;
}.

Section web.
Context `{Chrono} `{Crypto} `{IpText} `{Argon2} `{FormUrl}.

Definition new_session_token : M str := new_v4.

Definition MAX_USER_AGENT_CHARS : nat := 300.
Definition request_user_agent (headers : HeaderMap) : option str :=
  v ← mjoin (header_get headers (lit "user-agent")); Some (take MAX_USER_AGENT_CHARS v).

Definition session_cookie (config : Config) (value : str) : Cookie :=
  mk_Cookie (session_cookie_name (cf_cookie_secure config)) value (cf_cookie_secure config).
Definition session_removal_cookie (config : Config) : Cookie := session_cookie config [].

(** The session id of a jar's cookie, if its signature verifies. *)
Definition jar_session_id (config : Config) (jar : CookieJar) : option str :=
  session_id_from_jar (jar_get jar) (cf_secret config)
    (session_cookie_name (cf_cookie_secure config)).

Record SessionOrigin := mk_SessionOrigin {
  so_user_agent : option str;
  so_ip : option str;
  so_sso : bool;
}.

Definition open_session (config : Config) (user_id : Z) (origin : SessionOrigin)
  : M (res AppError Cookie) :=
  do session_id := new_session_token in
  do now := utc_now in
  do expires := mexec (dt_add now (hours SESSION_IDLE_TTL_HOURS)) in
  do now2 := utc_now in
  let? _ := db (create_session {|
    nse_id := session_id;
    nse_user_id := user_id;
    nse_expires_at := expires;
    nse_user_agent := so_user_agent origin;
    nse_ip := so_ip origin;
    nse_sso := so_sso origin |} now2) in
  mret (Ok (session_cookie config (sign_session (cf_secret config) session_id))).

Definition start_session (config : Config) (jar : CookieJar) (user_id : Z) (origin : SessionOrigin)
  : M (res AppError CookieJar) :=
  let? cookie := open_session config user_id origin in
  mret (Ok (jar_add cookie jar)).

Definition current_csrf (config : Config) (jar : CookieJar) : str :=
  match jar_session_id config jar with
  | Some id => derive_csrf (cf_secret config) id
  | None => []
  end.

(** ** Flash messages *)

Definition FLASH_COOKIE_BASE : str := lit "pingward_flash".
Definition FLASH_COOKIE_HOST_PREFIXED : str := lit "__Host-pingward_flash".
Definition flash_cookie_name (config : Config) : str :=
  if cf_cookie_secure config then FLASH_COOKIE_HOST_PREFIXED else FLASH_COOKIE_BASE.
Definition flash_cookie_raw (config : Config) (raw : str) : Cookie :=
  mk_Cookie (flash_cookie_name config) raw (cf_cookie_secure config).
Definition flash_cookie_value (config : Config) (value : str) : Cookie :=
  flash_cookie_raw config (sign_flash (cf_secret config) value).
Definition flash_cookie (config : Config) (surface : str) : Cookie := flash_cookie_value config surface.
Definition flash_removal_cookie (config : Config) : Cookie := flash_cookie_raw config [].
Definition flash_payload (config : Config) (jar : CookieJar) : option str :=
  c ← jar_get jar (flash_cookie_name config); verify_flash (cf_secret config) c.

(** A redirect that leaves a flash message for the page it leads to. *)
Definition flash_redirect (config : Config) (jar : CookieJar) (surface url : str) : Response :=
  redirect_to (jar_delta (jar_add (flash_cookie config surface) jar)) url.
Definition users_blocked (config : Config) (jar : CookieJar) : Response :=
  flash_redirect config jar (lit "users_blocked") (lit "/admin").
Definition admin_locked (config : Config) (jar : CookieJar) : Response :=
  flash_redirect config jar (lit "admin_locked") (lit "/admin/unlock").

(** ** The CSRF guard *)

Definition CSRF_MAX_BODY_BYTES : Z := 1048576.

Definition is_safe_method (m : str) : bool :=
  bool_decide (m = lit "GET") || bool_decide (m = lit "HEAD") || bool_decide (m = lit "OPTIONS").

(** [next] runs the handler; otherwise the answer is a bare 403. *)
Definition csrf_guard (config : Config) (req : Request) (next : M Response) : M Response :=
  if is_safe_method (rq_method req) then next else
  let secret := cf_secret config in
  match session_id_from_jar (rq_cookies req) secret
          (session_cookie_name (cf_cookie_secure config)) with
  | None => mret (status_response 403)
  | Some session_id =>
      match mjoin (header_get (rq_header_lines req) (lit "x-csrf-token")) with
      | Some submitted =>
          if verify_csrf secret session_id submitted then next else mret (status_response 403)
      | None =>
          match rq_bytes req with
          | None => mret (status_response 403)
          | Some bytes =>
              if CSRF_MAX_BODY_BYTES <? Z.of_nat (length bytes) then mret (status_response 403) else
              match List.find (fun kv => bool_decide (kv.1 = lit "_csrf")) (form_parse bytes) with
              | None => mret (status_response 403)
              | Some (_, submitted) =>
                  if verify_csrf secret session_id submitted then next
                  else mret (status_response 403)
              end
          end
      end
  end.

(** ** The limiters and the elevations, as the handlers call them *)

Definition with_login (l : @Ratelimit.Limiter.RateLimiter IpAddr _ _) (m : Mem) : Mem :=
  mk_Mem l (account_limiter m) (elevations m).
Definition with_account (l : @Ratelimit.Limiter.RateLimiter str _ _) (m : Mem) : Mem :=
  mk_Mem (login_limiter m) l (elevations m).
Definition with_elevations (e : Elevate.Elevations) (m : Mem) : Mem :=
  mk_Mem (login_limiter m) (account_limiter m) e.

Definition login_try_acquire (client : IpAddr) : M bool := on_mem (fun now m =>
  let '(ok, l) := Ratelimit.Limiter.try_acquire now (login_limiter m) client in (ok, with_login l m)).
Definition login_release (client : IpAddr) : M unit := on_mem (fun _ m =>
  (tt, with_login (Ratelimit.Limiter.release (login_limiter m) client) m)).
Definition account_try_acquire (key : str) : M bool := on_mem (fun now m =>
  let '(ok, l) := Ratelimit.Limiter.try_acquire now (account_limiter m) key in
  (ok, with_account l m)).
Definition account_clear (key : str) : M unit := on_mem (fun _ m =>
  (tt, with_account (Ratelimit.Limiter.clear (account_limiter m) key) m)).
Definition elev_grant (handle : str) (user_id : Z) : M unit := on_mem (fun now m =>
  (tt, with_elevations (Elevate.grant now handle user_id (elevations m)) m)).
Definition elev_remaining (handle : str) : M (option Z) := on_mem (fun now m =>
  (Elevate.remaining_secs now handle (elevations m), m)).
Definition elev_revoke (handle : str) : M unit := on_mem (fun _ m =>
  (tt, with_elevations (Elevate.revoke handle (elevations m)) m)).
Definition elev_revoke_user (user_id : Z) (keep : option str) : M unit := on_mem (fun _ m =>
  (tt, with_elevations (Elevate.revoke_user user_id keep (elevations m)) m)).

(** ** Re-authentication and elevation *)

Inductive Reauth : Set := RA_Passed | RA_Failed | RA_Throttled.

Definition reauthenticate (user : User) (submitted : str) : M Reauth :=
  match u_password_hash user with
  | None => mret RA_Passed
  | Some stored =>
      let key := Ratelimit.Limiter.account_key (u_username user) in
      do ok := account_try_acquire key in
      if negb ok then mret RA_Throttled else
      if verify_password submitted stored then
        do _ := account_clear key in mret RA_Passed
      else mret RA_Failed
  end.

Definition current_session_handle (config : Config) (jar : CookieJar) : option str :=
  hash_api_key <$> jar_session_id config jar.

Record Elevation := mk_Elevation {
  el_not_applicable : bool;
  el_remaining_secs : option Z;
}.
Definition allows (e : Elevation) : bool :=
  el_not_applicable e || bool_decide (is_Some (el_remaining_secs e)).

Definition elevation (config : Config) (jar : CookieJar) (user : User) : M Elevation :=
  match u_password_hash user with
  | None => mret (mk_Elevation true None)
  | Some _ =>
      match current_session_handle config jar with
      | None => mret (mk_Elevation false None)
      | Some h => do r := elev_remaining h in mret (mk_Elevation false r)
      end
  end.

Definition grant_elevation (config : Config) (jar : CookieJar) (user_id : Z) : M unit :=
  match current_session_handle config jar with
  | Some handle => elev_grant handle user_id
  | None => mret tt
  end.

(** ** Confirming a destructive action *)

(** [confirmed]: whether the query carries the flag. The page posts [action] again with it. *)
Definition confirmation_page (config : Config) (jar : CookieJar) (is_admin : bool) (confirm : Confirm)
    (action cancel : str) : Response :=
  let sep := if bool_decide (chr "?" ∈ action) then lit "&" else lit "?" in
  page_response (P_Confirm (current_csrf config jar) is_admin confirm
    (action ++ sep ++ lit "confirmed=1") cancel).

(** ** Setting up, signing in and out *)

Definition username_taken (username : str) : str :=
  lit "A user named " ++ dquote ++ username ++ dquote ++ lit " already exists.".

Definition setup_page (config : Config) (jar : CookieJar) : M (res AppError Response) :=
  let? n := db count_users in
  if 0 <? n then mret (Ok (redirect_to [] (lit "/login")))
  else mret (Ok (page_response (P_Setup (current_csrf config jar) None))).

Definition setup_submit (config : Config) (jar : CookieJar) (headers : HeaderMap)
    (conn : option str) (creds : Credentials) : M (res AppError Response) :=
  let page error := page_response (P_Setup (current_csrf config jar) (Some error)) in
  let? n := db count_users in
  if 0 <? n then mret (Ok (redirect_to [] (lit "/login"))) else
  if is_empty (crd_username creds) then
    mret (Ok (page (lit "username and password are required"))) else
  match validate_password (crd_password creds) with
  | Err msg => mret (Ok (page msg))
  | Ok _ =>
      match hash_password (crd_password creds) with
      | Err e => mret (Err (AE_Other e))
      | Ok phc =>
          do now := utc_now in
          do created := create_user (crd_username creds) (Some phc) true now in
          match created with
          | Err UsernameTaken => mret (Ok (page (username_taken (crd_username creds))))
          | Err (CU_Db e) => mret (Err (AE_Db e))
          | Ok uid =>
              let? jar := start_session config jar uid
                            (mk_SessionOrigin (request_user_agent headers) conn false) in
              mret (Ok (redirect_to (jar_delta jar) (lit "/")))
          end
      end
  end.

Definition login_page (config : Config) (jar : CookieJar) (user : option User)
  : M (res AppError Response) :=
  let? n := db count_users in
  if n =? 0 then mret (Ok (redirect_to [] (lit "/setup")))
  else match user with
       | Some _ => mret (Ok (redirect_to [] (lit "/")))
       | None => mret (Ok (page_response (P_Login (current_csrf config jar) None)))
       end.

Definition throttled_login (config : Config) (jar : CookieJar) (retry_after_secs : Z) : Response :=
  mk_Response 429 None [(lit "retry-after", show_Z retry_after_secs)] []
    (P_Login (current_csrf config jar) (Some (lit "too many login attempts — try again later"))).

Definition login_submit (config : Config) (jar : CookieJar) (headers : HeaderMap)
    (conn : option str) (peer_ip : option IpAddr) (creds : Credentials)
  : M (res AppError Response) :=
  let client := rate_limit_key peer_ip headers (cf_trusted_proxies config) in
  do ok := login_try_acquire client in
  if negb ok then mret (Ok (throttled_login config jar Ratelimit.Limiter.WINDOW_SECS)) else
  let account := Ratelimit.Limiter.account_key (crd_username creds) in
  do ok := account_try_acquire account in
  if negb ok then mret (Ok (throttled_login config jar Ratelimit.Limiter.ACCOUNT_WINDOW_SECS)) else
  let? user := db (find_user_by_username (crd_username creds)) in
  let ok := (verify_password_or_dummy (crd_password creds) (user ≫= u_password_hash)).1 in
  let page error := page_response (P_Login (current_csrf config jar) (Some error)) in
  if negb ok then mret (Ok (page (lit "invalid username or password"))) else
  match user with
  | None => mpanic
  | Some user =>
      if u_disabled user then mret (Ok (page (lit "account is disabled"))) else
      let? jar := start_session config jar (u_id user)
                    (mk_SessionOrigin (request_user_agent headers) conn false) in
      do _ := login_release client in
      do _ := account_clear account in
      mret (Ok (redirect_to (jar_delta jar) (lit "/")))
  end.

Definition CLEAR_SITE_DATA : str := dquote ++ lit "cache" ++ dquote.
Definition clear_site_data : str * str := (lit "clear-site-data", CLEAR_SITE_DATA).

Definition logout (config : Config) (jar : CookieJar) (headers : HeaderMap) (peer_ip : option IpAddr)
  : M (res AppError Response) :=
  let? _ := match jar_session_id config jar with
            | Some id =>
                let? _ := db (delete_session id) in
                do _ := elev_revoke (hash_api_key id) in
                mret (Ok tt)
            | None => mret (Ok tt)
            end in
  let jar := jar_remove (session_removal_cookie config) jar in
  let cleared url := mk_Response 303 (Some url) [clear_site_data] (jar_delta jar) P_None in
  match cf_forward_auth_logout_url config with
  | Some url => mret (Ok (cleared url))
  | None =>
      match forward_auth_username headers peer_ip config with
      | Some _ => mret (Ok (flash_redirect config jar (lit "forward_auth_logout") (lit "/")))
      | None => mret (Ok (cleared (lit "/login")))
      end
  end.

End web.

(** ** The guard *)

Section guard.
Context `{Crypto} `{FormUrl}.

(** The token a request presents: the header if it has a readable one, else the first
    [_csrf] field of a body that can be read and is not too long. *)
Definition presented (req : Request) : option str :=
  match mjoin (header_get (rq_header_lines req) (lit "x-csrf-token")) with
  | Some t => Some t
  | None =>
      bytes ← rq_bytes req;
      if CSRF_MAX_BODY_BYTES <? Z.of_nat (length bytes) then None
      else snd <$> List.find (fun kv => bool_decide (kv.1 = lit "_csrf")) (form_parse bytes)
  end.

Definition cookie_session (config : Config) (req : Request) : option str :=
  session_id_from_jar (rq_cookies req) (cf_secret config)
    (session_cookie_name (cf_cookie_secure config)).

Lemma csrf_guard_cases config req next :
  csrf_guard config req next =
    if is_safe_method (rq_method req) then next
    else match cookie_session config req, presented req with
         | Some id, Some t =>
             if verify_csrf (cf_secret config) id t then next else mret (status_response 403)
         | _, _ => mret (status_response 403)
         end.
Proof.
  unfold csrf_guard, cookie_session, presented.
  destruct (is_safe_method _); [done|]. destruct (session_id_from_jar _ _ _) as [id|]; [|done].
  destruct (mjoin _) as [t|]; [done|]. destruct (rq_bytes req) as [bytes|]; [|done].
  simpl. destruct (_ <? _); [done|]. by destruct (List.find _ _) as [[k t]|].
Qed.

Lemma verify_csrf_spec secret id t :
  verify_csrf secret id t = true <-> hex_decode t = Some (mac secret CSRF_DOMAIN id).
Proof.
  unfold verify_csrf. destruct (hex_decode t) as [bytes|]; [|done].
  rewrite bool_decide_eq_true. naive_solver.
Qed.

(** A request that may change state reaches its handler only with a token of its
    own session. For any other method than the three safe ones, the handler runs if and
    only if the request's session cookie verifies and the token it presents decodes to
    the HMAC of that cookie's session id; otherwise the answer is a bare 403 and nothing
    happened. In particular a token derived for another session is refused, unless two
    different session ids have the same HMAC. *)
Theorem csrf_guard_binds_session `{!CryptoLaws} config req next e w :
  is_safe_method (rq_method req) = false ->
  ((exists id t, cookie_session config req = Some id /\ presented req = Some t /\
      hex_decode t = Some (mac (cf_secret config) CSRF_DOMAIN id)) ->
    csrf_guard config req next e w = next e w) /\
  (~ (exists id t, cookie_session config req = Some id /\ presented req = Some t /\
      hex_decode t = Some (mac (cf_secret config) CSRF_DOMAIN id)) ->
    csrf_guard config req next e w = (Done (status_response 403), w)) /\
  (forall id id', cookie_session config req = Some id ->
    presented req = Some (derive_csrf (cf_secret config) id') -> id <> id' ->
    csrf_guard config req next e w = (Done (status_response 403), w) \/
    mac (cf_secret config) CSRF_DOMAIN id = mac (cf_secret config) CSRF_DOMAIN id').
Proof.
  intros Hm. rewrite csrf_guard_cases, Hm. split; [|split].
  - intros (id & t & -> & -> & Ht). by rewrite (proj2 (verify_csrf_spec _ _ _) Ht).
  - intros Hno. destruct (cookie_session config req) as [id|]; [|done].
    destruct (presented req) as [t|]; [|done].
    destruct (verify_csrf _ id t) eqn:Ev; [|done]. exfalso. apply Hno.
    exists id, t. by apply verify_csrf_spec in Ev.
  - intros id id' -> -> _. destruct (verify_csrf _ _ _) eqn:Ev; [right|by left].
    apply verify_csrf_spec in Ev. unfold derive_csrf in Ev.
    rewrite hex_decode_encode in Ev by apply hmac_bytes. congruence.
Qed.

End guard.

(** ** Sign-in *)

Section sign_in.
Context `{Chrono} `{Crypto} `{IpText} `{Argon2}.

(** The row [create_session] writes. *)
Definition session_row (user_id expires now : Z) (origin : SessionOrigin) : SessionRow := {|
  sr_user_id := user_id;
  sr_expires_at := to_rfc3339 expires;
  sr_created_at := to_rfc3339 now;
  sr_last_seen_at := None;
  sr_user_agent := so_user_agent origin;
  sr_ip := so_ip origin;
  sr_sso := Z.b2z (so_sso origin);
|}.

(** Opening a session: nothing in the database, or one row under a fresh id. *)
Lemma open_session_spec config uid origin e w r w' :
  open_session config uid origin e w = (r, w') ->
  w_mem w' = w_mem w /\
  ((w_db w' = w_db w /\ (r = Panic \/ exists x, r = Done (Err x))) \/
   exists id expires now,
     r = Done (Ok (session_cookie config (sign_session (cf_secret config) id))) /\
     id = env_uuid e (w_uuids w) /\ sessions (w_db w) !! id = None /\
     is_Some (t_rows (users (w_db w)) !! uid) /\
     w_db w' = set_session id (session_row uid expires now origin) (w_db w)).
Proof.
  unfold open_session, new_session_token, new_v4. unfold mbind at 1. unfold mbind at 1, utc_now at 1.
  cbn [w_db w_mem w_uuids]. unfold mbind at 1, mexec.
  destruct (dt_add _ _) as [x|]; [|intros [= <- <-]; simpl; auto].
  unfold mbind at 1, utc_now. unfold mtry, mbind at 1, db, map_err, mbind at 1, create_session, stmt.
  cbn [w_db w_stmts nse_id nse_user_id].
  destruct (env_fault _ _). { intros [= <- <-]. simpl. split; [done|]. left. eauto. }
  destruct (bool_decide _) eqn:Ef. { intros [= <- <-]. simpl. split; [done|]. left. eauto. }
  apply bool_decide_eq_false in Ef. rewrite <- eq_None_not_Some in Ef.
  destruct (is_row _ _) eqn:Er; [|intros [= <- <-]; simpl; split; [done|]; left; eauto].
  intros [= <- <-]. split; [done|]. right. do 3 eexists. split; [reflexivity|]. split; [done|].
  split; [done|]. split; [by apply bool_decide_eq_true in Er|]. reflexivity.
Qed.

Lemma find_user_by_username_Ok name e w o w' :
  find_user_by_username name e w = (Done (Ok o), w') ->
  w_db w' = w_db w /\ w_mem w' = w_mem w /\
  forall u, o = Some u -> exists row, t_rows (users (w_db w)) !! u_id u = Some row /\
    ur_username row = name /\ row_to_user (u_id u, row) = Ok u.
Proof.
  intros E. apply query_db in E as [-> [[=]|Eo]]. split; [done|]. split; [done|].
  intros u ->. injection Eo as Eo. symmetry in Eo. unfold transpose in Eo.
  destruct (find_row _ _) as [[i row]|] eqn:Ef; [|done].
  apply res_bind_ok in Eo as (u' & Eu & [= ->]). apply find_row_Some in Ef as [Hi Hn].
  assert (u_id u = i) as ->; [|exists row; by bool_to_prop].
  unfold row_to_user in Eu. by apply res_bind_ok in Eu as (? & _ & [= <-]).
Qed.

(** What signing in may do: nothing to the tables, or one new session for an enabled
    user whose password was verified. *)
Definition signed_in (config : Config) (jar : CookieJar) (creds : Credentials) (d d' : Db)
    (r : exec (res AppError Response)) : Prop :=
  exists u row phc id expires now origin,
    t_rows (users d) !! u_id u = Some row /\ ur_username row = crd_username creds /\
    row_to_user (u_id u, row) = Ok u /\ u_disabled u = false /\
    u_password_hash u = Some phc /\ verify_password (crd_password creds) phc = true /\
    sessions d !! id = None /\ d' = set_session id (session_row (u_id u) expires now origin) d /\
    r = Done (Ok (redirect_to (jar_delta (jar_add
      (session_cookie config (sign_session (cf_secret config) id)) jar)) (lit "/"))).

Definition throttled (retry_after : Z) (config : Config) (jar : CookieJar) (w w' : World)
    (r : exec (res AppError Response)) : Prop :=
  r = Done (Ok (throttled_login config jar retry_after)) /\ w_db w' = w_db w /\
  w_stmts w' = w_stmts w.

Lemma login_try_acquire_step client e w :
  exists w', login_try_acquire client e w =
      (Done (Ratelimit.Limiter.try_acquire (env_instant e (w_instants w))
               (login_limiter (w_mem w)) client).1, w') /\
    w_db w' = w_db w /\ w_stmts w' = w_stmts w /\ w_uuids w' = w_uuids w /\
    w_instants w' = S (w_instants w) /\ account_limiter (w_mem w') = account_limiter (w_mem w).
Proof.
  unfold login_try_acquire, on_mem.
  destruct (Ratelimit.Limiter.try_acquire _ _ _) as [ok l]. by eexists.
Qed.

Lemma account_try_acquire_step key e w :
  exists w', account_try_acquire key e w =
      (Done (Ratelimit.Limiter.try_acquire (env_instant e (w_instants w))
               (account_limiter (w_mem w)) key).1, w') /\
    w_db w' = w_db w /\ w_stmts w' = w_stmts w /\ w_uuids w' = w_uuids w.
Proof.
  unfold account_try_acquire, on_mem.
  destruct (Ratelimit.Limiter.try_acquire _ _ _) as [ok l]. by eexists.
Qed.

(** The part after both limiters. *)
Lemma login_tail config jar headers conn creds client account e w r w' :
  (let? user := db (find_user_by_username (crd_username creds)) in
   let ok := (verify_password_or_dummy (crd_password creds) (user ≫= u_password_hash)).1 in
   let page error := page_response (P_Login (current_csrf config jar) (Some error)) in
   if negb ok then mret (Ok (page (lit "invalid username or password"))) else
   match user with
   | None => mpanic
   | Some user =>
       if u_disabled user then mret (Ok (page (lit "account is disabled"))) else
       let? jar := start_session config jar (u_id user)
                     (mk_SessionOrigin (request_user_agent headers) conn false) in
       do _ := login_release client in
       do _ := account_clear account in
       mret (Ok (redirect_to (jar_delta jar) (lit "/")))
   end)%pw e w = (r, w') ->
  (w_db w' = w_db w /\ forall resp, r = Done (Ok resp) -> rs_cookies resp = []) \/
  signed_in config jar creds (w_db w) (w_db w') r.
Proof.
  destruct (find_user_by_username (crd_username creds) e w) as [[r0|] w1] eqn:Eu.
  2: { by apply query_db in Eu as [_ [[=]|[=]]]. }
  destruct r0 as [o|x].
  2: { rewrite (mtry_Err _ _ _ _ _ _ (db_Err _ _ _ _ _ Eu)). intros [= <- <-].
       apply query_db in Eu as [-> _]. by left. }
  rewrite (mtry_Ok _ _ _ _ _ _ (db_Ok _ _ _ _ _ Eu)).
  apply find_user_by_username_Ok in Eu as (D1 & _ & Hu).
  cbv beta zeta. destruct (negb _) eqn:Ev.
  { intros [= <- <-]. left. split; [done|]. by intros resp [= <-]. }
  apply negb_false_iff in Ev. destruct o as [u|]; [|done].
  change (Some u ≫= u_password_hash) with (u_password_hash u) in Ev.
  destruct (u_password_hash u) as [phc|] eqn:Ep; [|done]. cbn in Ev.
  destruct (u_disabled u) eqn:Ed.
  { intros [= <- <-]. left. split; [done|]. by intros resp [= <-]. }
  destruct (Hu u eq_refl) as (row & Hrow & Hname & Hdec).
  unfold start_session.
  destruct (open_session config (u_id u) (mk_SessionOrigin (request_user_agent headers) conn false) e w1)
    as [r2 w2] eqn:Eo.
  pose proof Eo as Es.
  apply open_session_spec in Eo as (_ & [(D2 & Hr)|(id & x & t & -> & _ & Hid & _ & D2)]).
  - intros E. left.
    assert (w_db w' = w_db w2 /\ (r = Panic \/ exists x, r = Done (Err x))) as [-> Hr'].
    { destruct Hr as [->|[x ->]]; unfold mtry, mbind in E; rewrite Es in E; cbn in E;
        injection E as <- <-; eauto. }
    split; [congruence|]. intros resp ->. by destruct Hr' as [[=]|[? [=]]].
  - unfold mtry at 1, mbind at 1. rewrite (mtry_Ok _ _ _ _ _ _ Es). cbn.
    intros [= <- <-]. right. exists u, row, phc, id, x, t, (mk_SessionOrigin (request_user_agent headers) conn false).
    rewrite <- D1. repeat split; try done. by rewrite D1.
Qed.

(** C11: only a verified password opens a session. Whatever fails, a login either leaves
    the tables alone and sets no cookie, or adds exactly one session, for the enabled
    user of the submitted name whose stored hash verifies the submitted password, and
    sets its signed cookie. When the address or the account has used up its window the
    answer is 429 with the time to wait, before any statement is executed. *)
Theorem login_submit_effect config jar headers conn peer creds e w r w' :
  login_submit config jar headers conn peer creds e w = (r, w') ->
  let client := rate_limit_key peer headers (cf_trusted_proxies config) in
  let account := Ratelimit.Limiter.account_key (crd_username creds) in
  let by_address := (Ratelimit.Limiter.try_acquire (env_instant e (w_instants w))
                       (login_limiter (w_mem w)) client).1 in
  let by_account := (Ratelimit.Limiter.try_acquire (env_instant e (S (w_instants w)))
                       (account_limiter (w_mem w)) account).1 in
  (by_address = false -> throttled Ratelimit.Limiter.WINDOW_SECS config jar w w' r) /\
  (by_address = true -> by_account = false ->
     throttled Ratelimit.Limiter.ACCOUNT_WINDOW_SECS config jar w w' r) /\
  ((w_db w' = w_db w /\ forall resp, r = Done (Ok resp) -> rs_cookies resp = []) \/
   (by_address = true /\ by_account = true /\
    signed_in config jar creds (w_db w) (w_db w') r)).
Proof.
  intros E client account by_address by_account. unfold login_submit in E.
  fold client account in E.
  destruct (login_try_acquire_step client e w) as (w1 & E1 & D1 & S1 & U1 & I1 & A1).
  fold by_address in E1. rewrite (mbind_Done _ _ _ _ _ _ E1) in E.
  destruct by_address; cbn [negb] in E.
  2: { injection E as <- <-. split; [done|]. split; [done|]. left. split; [done|].
       by intros resp [= <-]. }
  destruct (account_try_acquire_step account e w1) as (w2 & E2 & D2 & S2 & U2).
  rewrite I1, A1 in E2. fold by_account in E2.
  rewrite (mbind_Done _ _ _ _ _ _ E2) in E. split; [done|].
  destruct by_account; cbn [negb] in E.
  2: { injection E as <- <-. split.
       - intros _ _. split; [done|]. split; congruence.
       - left. split; [congruence|]. by intros resp [= <-]. }
  split; [done|]. apply login_tail in E as [[D3 C3]|Hs]; [left|right].
  - split; [congruence|done].
  - split; [done|]. split; [done|]. by rewrite D2, D1 in Hs.
Qed.

End sign_in.

(** ** Concrete parameters and witnesses *)

Module SampleWeb.

#[export] Instance sample_ip_text : IpText := {|
  parse_ip s := if decide (s = lit "10.0.0.1") then Some (V4 [10; 0; 0; 1]) else None;
  show_ip _ := lit "10.0.0.1";
|}.
#[export] Instance sample_argon2 : Argon2 := {|
  hash_password p := Ok (lit "$" ++ p);
  verify_password p h := bool_decide (h = lit "$" ++ p);
  dummy_password_hash := lit "$";
|}.
(** One field per body, its value the bytes after the equals sign. *)
#[export] Instance sample_form_url : FormUrl := {|
  form_parse bytes := match split_once 61 bytes with Some (k, v) => [(k, v)] | None => [] end;
|}.

End SampleWeb.

#[local] Existing Instance SampleChrono.sample_chrono.
#[local] Existing Instance SampleChrono.sample_chrono_laws.
#[local] Existing Instance SampleCrypto.sample_crypto.
#[local] Existing Instance SampleCrypto.sample_crypto_laws.
#[local] Existing Instance SampleWeb.sample_ip_text.
#[local] Existing Instance SampleWeb.sample_argon2.
#[local] Existing Instance SampleWeb.sample_form_url.

Definition sample_password : str := lit "correct horse battery".
(** [sample_db] with a second, non-admin user that has a password. *)
Definition web_db : Db :=
  w_db (create_user (lit "bob") (Some (lit "$" ++ sample_password)) false 0 (calm_env 0)
          (world_of sample_db)).2.

Definition sample_request (token : str) : Request :=
  mk_Request (lit "POST") [(lit "X-CSRF-Token", Some token)]
    (fun name => if decide (name = SESSION_COOKIE_HOST_PREFIXED)
                 then Some (sign_session [] (lit "sid")) else None) None.

Lemma csrf_guard_binds_session_witness :
  let next : M Response := mret (status_response 200) in
  let w := world_of empty_db in
  csrf_guard sample_config (sample_request (derive_csrf [] (lit "sid"))) next (calm_env 0) w
    = (Done (status_response 200), w) /\
  csrf_guard sample_config (sample_request (derive_csrf [] (lit "other"))) next (calm_env 0) w
    = (Done (status_response 403), w).
Proof.
  intros next w. split.
  - destruct (csrf_guard_binds_session sample_config (sample_request (derive_csrf [] (lit "sid")))
      next (calm_env 0) w eq_refl) as (H & _ & _).
    apply H. exists (lit "sid"), (derive_csrf [] (lit "sid")). split; [reflexivity|].
    split; vm_compute; reflexivity.
  - destruct (csrf_guard_binds_session sample_config (sample_request (derive_csrf [] (lit "other")))
      next (calm_env 0) w eq_refl) as (_ & _ & H).
    destruct (H (lit "sid") (lit "other")) as [E|E].
    + vm_compute. reflexivity.
    + vm_compute. reflexivity.
    + intros E. vm_compute in E. discriminate E.
    + exact E.
    + vm_compute in E. discriminate E.
Defined.

Definition sample_jar : CookieJar := mk_CookieJar (fun _ => None) [].

Lemma login_submit_effect_witness :
  exists r w',
    login_submit sample_config sample_jar [] None None
      (mk_Credentials (lit "bob") sample_password) (calm_env 0) (world_of web_db) = (r, w') /\
    signed_in sample_config sample_jar (mk_Credentials (lit "bob") sample_password)
      web_db (w_db w') r.
Proof.
  assert (match (login_submit sample_config sample_jar [] None None
      (mk_Credentials (lit "bob") sample_password) (calm_env 0) (world_of web_db)).1 with
    | Done (Ok resp) => length (rs_cookies resp)
    | _ => 0%nat
    end = 1%nat) as N by (vm_compute; reflexivity).
  destruct (login_submit sample_config sample_jar [] None None
    (mk_Credentials (lit "bob") sample_password) (calm_env 0) (world_of web_db)) as [r w'] eqn:E.
  exists r, w'. split; [reflexivity|].
  destruct (login_submit_effect sample_config sample_jar [] None None
    (mk_Credentials (lit "bob") sample_password) (calm_env 0) (world_of web_db) r w' E)
    as (_ & _ & [[D C]|(_ & _ & H)]); [|rewrite world_of_db in H; exact H]. exfalso.
  cbn [fst] in N. destruct r as [[resp|x]|]; [|discriminate N|discriminate N].
  rewrite (C resp eq_refl) in N. discriminate N.
Defined.
