(* ===== verification/Middleware.v ===== *)
(** * Middleware: the layers around the routes of [src/web.rs], as [src/lib.rs] stacks them

    A layer runs what is inside it and may change the request on the way in and the
    response on the way out. The session layers make sure that a handler sees a session
    cookie that verifies, which is what the CSRF guard relies on. *)
From S2P Require Import Prelude Text Models Config Wire Secret Chrono Auth Db Rows Store Sessions Sample Errors Templates Web.
#[local] Open Scope Z_scope.
#[local] Open Scope pw_scope.

(** [CookieJar::from_headers]: what the jar answers for a name. *)
Class CookieParse := { cookies_from : HeaderMap -> str -> option str }.

(** A request as it arrives, with the address it came from. *)
Record Incoming := mk_Incoming {
  in_method : str;
  in_headers : HeaderMap;
  in_bytes : option (list Z);
  in_peer : option IpAddr;
}.

(** ** Headers *)

Definition is_header (name : str) (h : str * option str) : bool := eq_ignore_ascii_case h.1 name.

(** [HeaderValue::from_str], then what its [to_str] yields. *)
Definition header_char (c : char) : bool := ((32 <=? c) && negb (c =? 127)) || (c =? 9).
Definition visible_char (c : char) : bool := ((32 <=? c) && (c <? 127)) || (c =? 9).
Definition header_value (s : str) : option (option str) :=
  if forallb header_char s then Some (if forallb visible_char s then Some s else None) else None.

(** [HeaderMap::insert]: the only value of its name from then on. *)
Definition header_insert (name : str) (value : option str) (headers : HeaderMap) : HeaderMap :=
  List.filter (fun h => negb (is_header name h)) headers ++ [(name, value)].

(** The pairs of the [Cookie] lines that can be read. *)
Definition cookie_pairs (headers : HeaderMap) : list str :=
  map trim (flat_map (fun v => split_on (chr ";") v)
    (omap snd (List.filter (is_header (lit "cookie")) headers))).

Definition replace_request_cookie (headers : HeaderMap) (cookie : Cookie) : HeaderMap :=
  let prefix := ck_name cookie ++ lit "=" in
  let kept := List.filter (fun pair => negb (is_empty pair) && negb (starts_with prefix pair))
                (cookie_pairs headers) ++ [prefix ++ ck_value cookie] in
  match header_value (join (lit "; ") kept) with
  | Some value => header_insert (lit "cookie") value headers
  | None => headers
  end.

(** A response's header, set unless the handler has set it. *)
Definition has_header (name : str) (resp : Response) : bool :=
  existsb (fun h => eq_ignore_ascii_case h.1 name) (rs_headers resp).
Definition set_default (name value : str) (resp : Response) : Response :=
  if has_header name resp then resp
  else mk_Response (rs_status resp) (rs_location resp) (rs_headers resp ++ [(name, value)])
         (rs_cookies resp) (rs_page resp).
Definition set_header (name value : str) (resp : Response) : Response :=
  mk_Response (rs_status resp) (rs_location resp)
    (List.filter (fun h => negb (eq_ignore_ascii_case h.1 name)) (rs_headers resp) ++ [(name, value)])
    (rs_cookies resp) (rs_page resp).
(** Another [Set-Cookie] line. *)
Definition append_cookie (cookie : Cookie) (resp : Response) : Response :=
  mk_Response (rs_status resp) (rs_location resp) (rs_headers resp)
    (rs_cookies resp ++ [Set_ cookie]) (rs_page resp).

Definition mmap {A B} (f : A -> B) (m : M A) : M B := do a := m in mret (f a).

(** ** The layers *)

Definition CONTENT_SECURITY_POLICY : str :=
  lit "default-src 'self'; script-src 'self'; style-src 'self' 'unsafe-inline'; img-src 'self' data:; font-src 'self'; connect-src 'self'; object-src 'none'; base-uri 'none'; form-action 'self'; frame-ancestors 'none'".
Definition STATIC_SECURITY_HEADERS : list (str * str) := [
  (lit "x-content-type-options", lit "nosniff");
  (lit "x-frame-options", lit "DENY");
  (lit "referrer-policy", lit "same-origin");
  (lit "permissions-policy", lit "geolocation=(), camera=(), microphone=(), payment=(), usb=()")].

Abbreviation Layer := ((Incoming -> M Response) -> Incoming -> M Response).

Definition no_store : Layer := fun next req =>
  mmap (set_default (lit "cache-control") (lit "no-store")) (next req).
Definition content_security_policy : Layer := fun next req =>
  mmap (set_default (lit "content-security-policy") CONTENT_SECURITY_POLICY) (next req).
Definition security_headers : Layer := fun next req =>
  mmap (fun resp => fold_left (fun r h => set_default h.1 h.2 r) STATIC_SECURITY_HEADERS resp) (next req).
Definition hsts (config : Config) : Layer := fun next req =>
  mmap (fun resp =>
    if 0 <? cf_hsts_max_age_secs config then
      set_header (lit "strict-transport-security")
        (lit "max-age=" ++ show_Z (cf_hsts_max_age_secs config)) resp
    else resp) (next req).

Section layers.
Context `{Chrono} `{Crypto} `{IpText} `{Argon2} `{FormUrl} `{CookieParse}.

(** The request the guard and the handlers read. *)
Definition request_of (req : Incoming) : Request :=
  mk_Request (in_method req) (in_headers req) (cookies_from (in_headers req)) (in_bytes req).
Definition incoming_session (config : Config) (req : Incoming) : option str :=
  session_id_from_jar (cookies_from (in_headers req)) (cf_secret config)
    (session_cookie_name (cf_cookie_secure config)).
Definition with_cookie (cookie : Cookie) (req : Incoming) : Incoming :=
  mk_Incoming (in_method req) (replace_request_cookie (in_headers req) cookie) (in_bytes req)
    (in_peer req).

(** Run inside with a cookie that the answer then sets. *)
Definition run_with_cookie (cookie : Cookie) (next : Incoming -> M Response) (req : Incoming)
  : M Response :=
  mmap (append_cookie cookie) (next (with_cookie cookie req)).

Definition anonymous_session (config : Config) : Layer := fun next req =>
  match incoming_session config req with
  | Some _ => next req
  | None =>
      do token := new_session_token in
      run_with_cookie (session_cookie config (sign_session (cf_secret config) token)) next req
  end.

(** Whether the request's session is alive: signed, and found in the store. *)
Definition live_session (config : Config) (req : Incoming) (now : Z) : M bool :=
  match incoming_session config req with
  | None => mret false
  | Some id =>
      do r := find_session_user id now in
      mret (match r with Ok (Some _) => true | _ => false end)
  end.

Definition forward_auth_session (config : Config) : Layer := fun next req =>
  match cf_forward_auth_header config with
  | None => next req
  | Some _ =>
      do now := utc_now in
      do live := live_session config req now in
      if (live : bool) then next req else
      do found := forward_auth_user config (in_headers req) (in_peer req) now in
      match found with
      | None => next req
      | Some user =>
          do opened := open_session config (u_id user)
            (mk_SessionOrigin (request_user_agent (in_headers req))
               (client_ip (in_headers req) (in_peer req) config) true) in
          match opened with
          | Err _ => next req
          | Ok cookie => run_with_cookie cookie next req
          end
      end
  end.

Definition csrf_layer (config : Config) : Layer := fun next req =>
  csrf_guard config (request_of req) (next req).

(** The layers of [web::routes()], and those of the whole application: in [app] the last
    layer added is the outermost. *)
Definition web_layers (config : Config) : Layer := fun routes =>
  content_security_policy (no_store (forward_auth_session config
    (anonymous_session config (csrf_layer config routes)))).
Definition app_layers (config : Config) : Layer := fun routes =>
  security_headers (hsts config routes).
End layers.

(** ** What the jar is documented to do *)

(** Letters, digits and ['-'], ['_'], ['.']: text a cookie carries as it is. *)
Definition plain_char (c : char) : bool :=
  ((97 <=? c) && (c <=? 122)) || is_ascii_upper c || is_ascii_digit c || (c =? chr "-") || (c =? chr "_") || (c =? chr ".").
Abbreviation plain := (forallb plain_char).

(** A pair spelt [name=value] in plain text is found, when it is the last one and no other
    is spelt with that name. *)
Class CookieParseLaws `{CookieParse} := {
  cookies_from_pair : forall headers pairs name value, plain name = true -> plain value = true ->
    List.filter (starts_with (name ++ lit "=")) pairs = [] ->
    cookie_pairs headers = pairs ++ [name ++ lit "=" ++ value] ->
    cookies_from headers name = Some value;
}.

(** The values of the headers that can be read are what [to_str] yields. *)
Definition readable (headers : HeaderMap) : Prop :=
  forall n v, (n, Some v) ∈ headers -> forallb visible_char v = true.

(** ** Cookie lines *)

Lemma split_on_pieces c s p : p ∈ split_on c s -> (c ∉ p) /\ (forall d, d ∈ p -> d ∈ s).
Proof.
  revert p. induction s as [|d s IH]; intros p.
  - intros ->%list_elem_of_singleton. split; [apply not_elem_of_nil|by intros ? ?%elem_of_nil].
  - simpl. destruct (Z.eqb_spec d c) as [->|Hd].
    + intros [->|Hp]%elem_of_cons; [split; [apply not_elem_of_nil|by intros ? ?%elem_of_nil]|].
      destruct (IH p Hp) as [A B]. split; [done|]. intros; right; auto.
    + destruct (split_on c s) as [|q l] eqn:E; [by apply split_on_nonempty in E|].
      intros [->|Hp]%elem_of_cons.
      * destruct (IH q) as [A B]; [left|]. split.
        { intros [->|?]%elem_of_cons; [done|]. done. }
        intros x [->|Hx]%elem_of_cons; [left|right; auto].
      * destruct (IH p) as [A B]; [by right|]. split; [done|]. intros; right; auto.
Qed.

Lemma trim_elem c s : c ∈ trim s -> c ∈ s.
Proof.
  unfold trim, trim_end. destruct (trim_end_matches_prefix is_whitespace (trim_start s)) as [k ->].
  unfold trim_start. destruct (drop_while_suffix is_whitespace s) as [j ->].
  rewrite <- (take_drop j s) at 2. intros Hc. apply elem_of_app. right.
  rewrite <- (take_drop k (drop j s)). apply elem_of_app. by left.
Qed.

Lemma trim_space s : trim (32 :: s) = trim s.
Proof. done. Qed.

Lemma split_on_space s : map trim (split_on (chr ";") (32 :: s)) = map trim (split_on (chr ";") s).
Proof.
  simpl. destruct (split_on (chr ";") s) as [|p l] eqn:E; [by apply split_on_nonempty in E|].
  cbn [map]. by rewrite trim_space.
Qed.

(** Splitting what was joined gives the pairs back. *)
Lemma split_joined_pairs l :
  l <> [] -> (forall p, p ∈ l -> (chr ";" ∉ p) /\ trim p = p) ->
  map trim (split_on (chr ";") (join (lit "; ") l)) = l.
Proof.
  induction l as [|p l IH]; [done|]. intros _ Hl.
  destruct (Hl p) as [Hp Ht]; [left|]. destruct l as [|q l].
  { cbn [join]. rewrite split_on_none by done. unfold map. by rewrite Ht. }
  change (join (lit "; ") (p :: q :: l)) with (p ++ chr ";" :: (32 :: join (lit "; ") (q :: l))).
  rewrite split_on_app, (split_on_none _ p) by done.
  rewrite map_app. change (map trim [p]) with [trim p]. rewrite Ht. apply (f_equal (cons p)).
  etransitivity; [apply split_on_space|]. apply IH; [done|]. intros r Hr. apply Hl. by right.
Qed.

Lemma plain_char_facts c :
  plain_char c = true -> visible_char c = true /\ is_whitespace c = false /\ c <> chr ";" /\ c <> chr "=".
Proof.
  unfold plain_char, is_ascii_upper, is_ascii_digit. vm_compute (chr _). intros Hc.
  assert (33 <= c <= 126 /\ c <> 59 /\ c <> 61) as (B & ? & ?).
  { rewrite !orb_true_iff, !andb_true_iff, !Z.leb_le, !Z.eqb_eq in Hc. lia. }
  split_and!; [| |done|done].
  - unfold visible_char. rewrite orb_true_iff, andb_true_iff, Z.leb_le, Z.ltb_lt. lia.
  - apply not_true_is_false. unfold is_whitespace.
    rewrite !orb_true_iff, !andb_true_iff, !Z.leb_le, !Z.eqb_eq. lia.
Qed.

Lemma header_value_visible s : forallb visible_char s = true -> header_value s = Some (Some s).
Proof.
  intros Hs. unfold header_value. rewrite Hs. replace (forallb header_char s) with true; [done|].
  symmetry. apply forallb_forall. intros c Hc. rewrite forallb_forall in Hs. apply Hs in Hc.
  unfold visible_char in Hc. unfold header_char.
  rewrite !orb_true_iff, !andb_true_iff, negb_true_iff, Z.leb_le, Z.eqb_neq, Z.eqb_eq.
  rewrite !orb_true_iff, !andb_true_iff, Z.leb_le, Z.ltb_lt, Z.eqb_eq in Hc. lia.
Qed.

(** The pairs of readable lines are visible text without [';'] or blanks around. *)
Lemma cookie_pairs_clean headers p :
  readable headers -> p ∈ cookie_pairs headers ->
  forallb visible_char p = true /\ (chr ";" ∉ p) /\ trim p = p.
Proof.
  intros Hr Hp. unfold cookie_pairs in Hp.
  apply list_elem_of_In, in_map_iff in Hp as (q & <- & Hq).
  apply in_flat_map in Hq as (v & Hv & Hq). apply list_elem_of_In in Hv, Hq.
  apply list_elem_of_omap in Hv as ([n o] & Hin & Ho). simpl in Ho. subst o.
  apply list_elem_of_In, filter_In in Hin as [Hin _]. apply list_elem_of_In in Hin.
  apply Hr in Hin. apply split_on_pieces in Hq as [Hsep Hsub]. split_and!.
  - apply forallb_forall. intros c Hc%list_elem_of_In%trim_elem%Hsub.
    rewrite forallb_forall in Hin. apply Hin. by apply list_elem_of_In.
  - intros Hc%trim_elem. done.
  - apply trim_trim.
Qed.

Lemma visible_join sep l :
  forallb visible_char sep = true -> (forall p, p ∈ l -> forallb visible_char p = true) ->
  forallb visible_char (join sep l) = true.
Proof.
  intros Hsep. induction l as [|p l IH]; [done|]. intros Hl. destruct l as [|q l].
  { apply Hl. left. }
  change (join sep (p :: q :: l)) with (p ++ sep ++ join sep (q :: l)).
  rewrite !forallb_app, Hsep, (Hl p), IH; [done| |left]. intros r Hr. apply Hl. by right.
Qed.

Lemma cookie_pairs_insert v headers :
  cookie_pairs (header_insert (lit "cookie") (Some v) headers) = map trim (split_on (chr ";") v).
Proof.
  unfold cookie_pairs, header_insert. rewrite List.filter_app.
  replace (List.filter (is_header (lit "cookie")) (List.filter _ headers)) with (@nil (str * option str)).
  - simpl. by rewrite app_nil_r.
  - induction headers as [|h hs IH]; [done|]. simpl. destruct (is_header (lit "cookie") h) eqn:E; simpl; [done|].
    by rewrite E.
Qed.

Section cookies.
Context `{CryptoLaws} `{CookieParseLaws}.

Lemma hex_encode_plain bs : forallb is_byte bs = true -> plain (hex_encode bs) = true.
Proof.
  induction bs as [|b bs IH]; [done|]. cbn [forallb]. intros Hb; bool_to_prop.
  rewrite hex_encode_cons. cbn [forallb]. destruct (byte_nibbles b) as [B1 B2]; [done|].
  assert (forall d, 0 <= d < 16 -> plain_char (hex_digit d) = true) as Hd.
  { intros d Hd. unfold hex_digit, plain_char, is_ascii_digit.
    rewrite !orb_true_iff, !andb_true_iff, !Z.leb_le. case_match; bool_to_prop; lia. }
  by rewrite !Hd, IH.
Qed.

Lemma sign_session_plain secret id : plain id = true -> plain (sign_session secret id) = true.
Proof.
  intros Hid. unfold sign_session, sign. rewrite !forallb_app, Hid, hex_encode_plain; [done|].
  apply hmac_bytes.
Qed.

Lemma session_cookie_name_plain secure : plain (session_cookie_name secure) = true.
Proof. by destruct secure. Qed.

(** What [replace_request_cookie] is for: the jar of the changed request has the cookie. *)
Lemma replaced_cookie_found headers cookie :
  readable headers -> plain (ck_name cookie) = true -> plain (ck_value cookie) = true ->
  readable (replace_request_cookie headers cookie) /\
  cookies_from (replace_request_cookie headers cookie) (ck_name cookie) = Some (ck_value cookie).
Proof.
  intros Hr Hn Hv. unfold replace_request_cookie.
  set (prefix := ck_name cookie ++ lit "="). set (keep := fun p : str => _).
  set (kept := List.filter keep (cookie_pairs headers)).
  assert (forall p, p ∈ kept ++ [prefix ++ ck_value cookie] ->
    forallb visible_char p = true /\ (chr ";" ∉ p) /\ trim p = p) as Hkept.
  { intros p [Hp|Hp%list_elem_of_singleton]%elem_of_app.
    - apply list_elem_of_In, filter_In in Hp as [Hp _]. apply list_elem_of_In in Hp.
      by apply cookie_pairs_clean in Hp.
    - subst p prefix. assert (forall c, c ∈ (ck_name cookie ++ lit "=") ++ ck_value cookie ->
        visible_char c = true /\ is_whitespace c = false /\ c <> chr ";") as Hc.
      { intros c [[Hc|Hc]%elem_of_app|Hc]%elem_of_app.
        - rewrite forallb_forall in Hn. apply list_elem_of_In, Hn, plain_char_facts in Hc. naive_solver.
        - apply list_elem_of_singleton in Hc as ->. done.
        - rewrite forallb_forall in Hv. apply list_elem_of_In, Hv, plain_char_facts in Hc. naive_solver. }
      split_and!.
      + apply forallb_forall. intros c Hin%list_elem_of_In. by apply Hc.
      + intros Hin%Hc. naive_solver.
      + apply trim_no_blanks, forallb_forall. intros c Hin%list_elem_of_In%Hc.
        destruct Hin as (_ & -> & _). done. }
  rewrite header_value_visible.
  2: { apply visible_join; [done|]. intros p Hp. by apply Hkept in Hp as [? _]. }
  split.
  - intros n v [Hin|Hin%list_elem_of_singleton]%elem_of_app.
    + apply list_elem_of_In, filter_In in Hin as [Hin _]. apply list_elem_of_In in Hin. by eapply Hr.
    + simplify_eq. apply visible_join; [done|]. intros p Hp. by apply Hkept in Hp as [? _].
  - eapply (cookies_from_pair _ kept); [done|done| |].
    + subst kept. generalize (cookie_pairs headers) as l. intros l.
      induction l as [|p l IH]; [done|]. simpl. destruct (keep p) eqn:Ek; simpl; [|done].
      subst keep. simpl in Ek. apply andb_true_iff in Ek as [_ Ek%negb_true_iff].
      fold prefix. by rewrite Ek.
    + rewrite cookie_pairs_insert, split_joined_pairs; [by rewrite (assoc_L (++))|by destruct kept|].
      intros p Hp. by apply Hkept in Hp as (_ & ? & ?).
Qed.

Lemma with_session_cookie config id req :
  readable (in_headers req) -> plain id = true ->
  let req' := with_cookie (session_cookie config (sign_session (cf_secret config) id)) req in
  readable (in_headers req') /\ incoming_session config req' = Some id.
Proof.
  intros Hr Hid. destruct (replaced_cookie_found (in_headers req)
    (session_cookie config (sign_session (cf_secret config) id))) as [A B];
    [done|apply session_cookie_name_plain|by apply sign_session_plain|].
  split; [exact A|]. unfold incoming_session, session_id_from_jar. simpl in *. rewrite B. simpl.
  apply verify_sign.
Qed.
End cookies.

(** ** What reaches the routes *)

(** The tables apart from who is known and signed in. *)
Definition apart_from_identity (d : Db) : Db := set_users empty_table (set_sessions ∅ d).

(** The answer of the routes as the layers send it on. *)
Definition answer (added : option Cookie) (resp : Response) : Response :=
  set_default (lit "content-security-policy") CONTENT_SECURITY_POLICY
    (set_default (lit "cache-control") (lit "no-store")
      (match added with Some c => append_cookie c resp | None => resp end)).

Lemma mmap_inv {A B} (f : A -> B) (m : M A) e w r w' :
  mmap f m e w = (r, w') ->
  exists r0, m e w = (r0, w') /\ r = match r0 with Done a => Done (f a) | Panic => Panic end.
Proof. unfold mmap, mbind, mret. destruct (m e w) as [[a|] w1]; intros [= <- <-]; eauto. Qed.

Lemma set_default_more name name' value resp :
  has_header name resp = true -> has_header name (set_default name' value resp) = true.
Proof.
  intros Hn. unfold set_default. destruct (has_header name' resp); [done|].
  unfold has_header in *. simpl. by rewrite existsb_app, Hn.
Qed.

Lemma set_default_has name value resp :
  has_header name (set_default name value resp) = true.
Proof.
  unfold set_default. destruct (has_header name resp) eqn:E; [done|].
  unfold has_header, eq_ignore_ascii_case. simpl. rewrite existsb_app. simpl.
  by rewrite bool_decide_eq_true_2, orb_true_r.
Qed.

Section layers_theorems.
Context `{Chrono} `{CryptoLaws} `{IpText} `{Argon2} `{FormUrl} `{CookieParseLaws}.

Lemma identity_kept I :
  (forall d t, I (set_users t d) <-> I d) -> (forall d t, I (set_sessions t d) <-> I d) ->
  (forall id now, preserves I (find_session_user id now)) /\
  (forall config headers peer now, preserves I (forward_auth_user config headers peer now)).
Proof.
  intros Hu Hs. split.
  - intros id now. unfold find_session_user. preserves_steps.
    all: apply preserves_execute; intros d Hd; by apply Hs.
  - intros config headers peer now.
    unfold forward_auth_user, find_user_by_username, find_user_by_id, create_user. preserves_steps.
    intros y. apply preserves_stmt. intros d a d' Hd. destruct (existsb _ _); [done|].
    intros [= <- <-]. by apply Hu.
Qed.

Definition identity_only {A} (m : M A) : Prop := forall e w r w',
  m e w = (r, w') -> apart_from_identity (w_db w') = apart_from_identity (w_db w).

Lemma identity_only_preserves {A} (m : M A) :
  (forall c, preserves (fun d => apart_from_identity d = c) m) -> identity_only m.
Proof. intros Hm e w r w' E. exact (Hm _ e w r w' eq_refl E). Qed.

Lemma open_session_identity config uid origin : identity_only (open_session config uid origin).
Proof.
  intros e w r w' E. apply open_session_spec in E as [_ [[-> _]|(? & ? & ? & _ & _ & _ & _ & ->)]]; done.
Qed.

(** The forward-auth layer runs what is inside it on the request as it came, or on one
    with the cookie of a session it has just opened. Before, it has only looked who is
    calling: what these calls keep is kept. *)
Lemma forward_auth_session_steps (I : Db -> Prop) config next req e w r w' :
  (forall id now, preserves I (find_session_user id now)) ->
  (forall headers peer now, preserves I (forward_auth_user config headers peer now)) ->
  (forall uid origin, preserves I (open_session config uid origin)) ->
  I (w_db w) -> forward_auth_session config next req e w = (r, w') ->
  exists w0, I (w_db w0) /\
    ((r = Panic /\ w' = w0) \/ next req e w0 = (r, w') \/
     exists n, run_with_cookie (session_cookie config
       (sign_session (cf_secret config) (env_uuid e n))) next req e w0 = (r, w')).
Proof.
  intros Hfind Hfwd Hopen Hw E. unfold forward_auth_session in E.
  assert (forall now, preserves I (live_session config req now)) as Hlive.
  { intros now. unfold live_session. destruct (incoming_session _ _); [|apply preserves_mret].
    apply preserves_mbind; [apply Hfind|]. intros x. apply preserves_mret. }
  destruct (cf_forward_auth_header config) as [h|]; [|by exists w; auto].
  apply mbind_inv in E as [[[=] _]|(now & w1 & En & E)]. injection En as <- <-.
  apply mbind_inv in E as [[E ->]|(live & w2 & D2 & E)].
  { exists w'. split; [by eapply Hlive; [|exact E]|auto]. }
  assert (I (w_db w2)) as Hw2 by (by eapply Hlive; [|exact D2]). destruct live; [by exists w2; auto|].
  apply mbind_inv in E as [[E ->]|(found & w3 & D3 & E)].
  { exists w'. split; [by eapply Hfwd; [|exact E]|auto]. }
  assert (I (w_db w3)) as Hw3 by (by eapply Hfwd; [|exact D3]). destruct found as [user|]; [|by exists w3; auto].
  apply mbind_inv in E as [[E ->]|(opened & w4 & E4 & E)].
  { exists w'. split; [by eapply Hopen; [|exact E]|auto]. }
  exists w4. split; [by eapply Hopen; [|exact E4]|]. right.
  apply open_session_spec in E4 as [_ [[_ [?|[x Hx]]]|(id & x & t & Ho & Hid & _)]]; [done| |].
  - simplify_eq. by left.
  - simplify_eq. right. by eexists.
Qed.

Lemma forward_auth_session_inv config next req e w r w' :
  forward_auth_session config next req e w = (r, w') ->
  exists w0, apart_from_identity (w_db w0) = apart_from_identity (w_db w) /\
    ((r = Panic /\ w' = w0) \/ next req e w0 = (r, w') \/
     exists n, run_with_cookie (session_cookie config
       (sign_session (cf_secret config) (env_uuid e n))) next req e w0 = (r, w')).
Proof.
  destruct (identity_kept (fun d => apart_from_identity d = apart_from_identity (w_db w))) as [Hfind Hfwd];
    [done|done|].
  apply (forward_auth_session_steps (fun d => apart_from_identity d = apart_from_identity (w_db w)));
    [done|done| |done].
  intros uid origin e0 w0 r0 w0' Hw E. apply open_session_identity in E. congruence.
Qed.

(** What the session layers do with a request and with the answer of [guard]. *)
Definition session_given (config : Config) (guard : Incoming -> M Response) (req : Incoming)
    (e : Env) (w0 : World) (r : exec Response) (w' : World) : Prop :=
  exists req' id added, in_method req' = in_method req /\ in_bytes req' = in_bytes req /\
    in_peer req' = in_peer req /\ incoming_session config req' = Some id /\
    match added with
    | Some c => c = session_cookie config (sign_session (cf_secret config) id)
    | None => req' = req
    end /\
    exists r0, guard req' e w0 = (r0, w') /\
      r = match r0 with
          | Done resp => Done (match added with Some c => append_cookie c resp | None => resp end)
          | Panic => Panic
          end.

Lemma run_with_cookie_inv config id guard req e w r w' :
  readable (in_headers req) -> plain id = true ->
  run_with_cookie (session_cookie config (sign_session (cf_secret config) id)) guard req e w = (r, w') ->
  session_given config guard req e w r w'.
Proof.
  intros Hr Hid E. apply mmap_inv in E as (r0 & E & ->).
  destruct (with_session_cookie config id req Hr Hid) as [_ Ei].
  eexists _, id, (Some _). split_and!; [| | |exact Ei|reflexivity|exists r0; split; [exact E|done]]; done.
Qed.

(** Inside both session layers every request has a session, and its cookie is in the
    answer unless the browser has it already. *)
Lemma session_layers_inv config guard req e w r w' :
  readable (in_headers req) -> (forall n, plain (env_uuid e n) = true) ->
  forward_auth_session config (anonymous_session config guard) req e w = (r, w') ->
  exists w0, apart_from_identity (w_db w0) = apart_from_identity (w_db w) /\
    ((r = Panic /\ w' = w0) \/ session_given config guard req e w0 r w').
Proof.
  intros Hr Hid E. apply forward_auth_session_inv in E as (w1 & D1 & [[-> ->]|[E|[n E]]]).
  - exists w1. auto.
  - unfold anonymous_session in E. destruct (incoming_session config req) as [id|] eqn:Ei.
    + exists w1. split; [done|]. right. exists req, id, None. split_and!; try done.
      exists r. split; [done|]. by destruct r.
    + apply mbind_inv in E as [[[=] _]|(token & w2 & [= <- <-] & E)].
      apply (run_with_cookie_inv config (env_uuid e (w_uuids w1))) in E; [|done|done].
      eexists. split; [|right; exact E]. done.
  - unfold run_with_cookie in E. apply mmap_inv in E as (r0 & E & Er).
    destruct (with_session_cookie config (env_uuid e n) req Hr (Hid n)) as [_ Ei].
    unfold anonymous_session in E. rewrite Ei in E. exists w1. split; [done|]. right.
    apply (run_with_cookie_inv config (env_uuid e n)); [done|done|].
    unfold run_with_cookie, mmap, mbind, mret. rewrite E, Er. by destruct r0.
Qed.

(** Every handler behind the layers sees its own session, and a request that may change
    state presents that session's token. Whatever the browser sent, the routes run (if at
    all) on a request with the same method, body and peer, whose cookie verifies to a
    session id; either that is the request as it came, or the answer sets that cookie, so
    the next form posted by the browser carries a token of the session its page was drawn
    for. If the method is not a safe one and the token presented is not the one of that
    session, the answer is a bare 403 and the routes did not run. Before the routes, only
    users and sessions may have changed (forward auth). Every answer says how it may be
    cached and what scripts it may run. *)
Theorem handlers_see_their_session config routes req e w r w' :
  readable (in_headers req) -> (forall n, plain (env_uuid e n) = true) ->
  web_layers config routes req e w = (r, w') ->
  (exists w0, apart_from_identity (w_db w0) = apart_from_identity (w_db w) /\
    ((r = Panic /\ w' = w0) \/
     exists req' id added, in_method req' = in_method req /\ in_bytes req' = in_bytes req /\
       in_peer req' = in_peer req /\ incoming_session config req' = Some id /\
       match added with
       | Some c => c = session_cookie config (sign_session (cf_secret config) id)
       | None => req' = req
       end /\
       let permitted := is_safe_method (in_method req) = true \/
         exists t, presented (request_of req') = Some t /\
           hex_decode t = Some (mac (cf_secret config) CSRF_DOMAIN id) in
       ((permitted /\ exists r0, routes req' e w0 = (r0, w') /\
           r = match r0 with Done resp => Done (answer added resp) | Panic => Panic end) \/
        (~ permitted /\ r = Done (answer added (status_response 403)) /\ w' = w0)))) /\
  (forall resp, r = Done resp -> has_header (lit "cache-control") resp = true /\
     has_header (lit "content-security-policy") resp = true).
Proof.
  intros Hr Hid E. apply mmap_inv in E as (r1 & E & ->). apply mmap_inv in E as (r2 & E & ->).
  split.
  2: { intros resp. destruct r2 as [resp'|]; [|done]. intros [= <-].
       split; [apply set_default_more|]; by apply set_default_has. }
  apply session_layers_inv in E as (w0 & D & E); [|done..]. exists w0. split; [done|].
  destruct E as [[-> ->]|(req' & id & added & Hm & Hb & Hp & Hi & Ha & r0 & E & ->)]; [by left|].
  right. exists req', id, added. split_and!; try done. intros permitted.
  assert (permitted \/ ~ permitted) as [Hp'|Hp'].
  { destruct (is_safe_method (in_method req)) eqn:Es; [by left; left|].
    destruct (presented (request_of req')) as [t|] eqn:Et.
    - destruct (decide (hex_decode t = Some (mac (cf_secret config) CSRF_DOMAIN id))) as [Ed|Ed].
      + left. right. by exists t.
      + right. intros [?|(t' & [= <-] & Ht)]; [congruence|done].
    - right. intros [?|(t' & ? & _)]; congruence. }
  - left. split; [done|]. unfold csrf_layer in E. rewrite csrf_guard_cases in E.
    change (rq_method (request_of req')) with (in_method req') in E. rewrite Hm in E.
    change (cookie_session config (request_of req')) with (incoming_session config req') in E.
    rewrite Hi in E. destruct Hp' as [Hs|(t & Ht & Hd)].
    + rewrite Hs in E. exists r0. split; [done|]. by destruct r0.
    + rewrite Ht, (proj2 (verify_csrf_spec _ _ _) Hd) in E.
      exists r0. split; [by destruct (is_safe_method _)|]. by destruct r0.
  - right. split; [done|]. unfold csrf_layer in E. rewrite csrf_guard_cases in E.
    change (rq_method (request_of req')) with (in_method req') in E. rewrite Hm in E.
    change (cookie_session config (request_of req')) with (incoming_session config req') in E.
    rewrite Hi in E. destruct (is_safe_method (in_method req)) eqn:Es; [by destruct Hp'; left|].
    destruct (presented (request_of req')) as [t|] eqn:Et; [|by injection E as <- <-].
    destruct (verify_csrf _ id t) eqn:Ev; [|by injection E as <- <-].
    apply verify_csrf_spec in Ev. destruct Hp'. right. by exists t.
Qed.
End layers_theorems.

(** ** A sample jar, and witnesses *)

Module SampleCookies.
#[export] Instance sample_cookies : CookieParse := {|
  cookies_from headers name :=
    let prefix := name ++ lit "=" in
    drop (length prefix) <$> last (List.filter (starts_with prefix) (cookie_pairs headers));
|}.
#[export] Instance sample_cookies_laws : CookieParseLaws.
Proof.
  constructor. intros headers pairs name value _ _ Hf Hp. simpl. rewrite Hp, List.filter_app, Hf.
  rewrite (assoc_L (++)). simpl.
  rewrite (proj2 (starts_with_spec (name ++ lit "=") _)) by eauto. simpl. by rewrite drop_app_length.
Qed.
End SampleCookies.

#[local] Existing Instance SampleChrono.sample_chrono.
#[local] Existing Instance SampleCrypto.sample_crypto.
#[local] Existing Instance SampleCrypto.sample_crypto_laws.
#[local] Existing Instance SampleWeb.sample_ip_text.
#[local] Existing Instance SampleWeb.sample_argon2.
#[local] Existing Instance SampleWeb.sample_form_url.
#[local] Existing Instance SampleCookies.sample_cookies.
#[local] Existing Instance SampleCookies.sample_cookies_laws.

Lemma calm_env_plain now n : plain (env_uuid (calm_env now) n) = true.
Proof.
  simpl. unfold show_Z. replace (Z.of_nat n <? 0) with false by (symmetry; apply Z.ltb_ge; lia).
  destruct (show_nonneg_spec (Z.of_nat n)) as (_ & Hd & _); [lia|].
  apply forallb_forall. intros c Hc. rewrite forallb_forall in Hd. apply Hd in Hc.
  unfold plain_char. by rewrite Hc, !orb_true_r.
Qed.

(** A form posted with a stale cookie and no token: a fresh session, and a 403. *)
Definition stale_post : Incoming :=
  mk_Incoming (lit "POST") [(lit "Cookie", Some (lit "theme=dark; __Host-pingward_session=old.00"))] (Some []) None.

Lemma handlers_see_their_session_witness :
  let routes := fun _ => mret (status_response 200) in
  let w := world_of empty_db in
  let '(r, w') := web_layers sample_config routes stale_post (calm_env 0) w in
  r = Done (answer (Some (session_cookie sample_config (sign_session [] (lit "0")))) (status_response 403)) /\
  exists w0, apart_from_identity (w_db w0) = apart_from_identity empty_db /\
    ((r = Panic /\ w' = w0) \/
     exists req' id, in_method req' = lit "POST" /\ incoming_session sample_config req' = Some id).
Proof.
  cbn zeta. destruct (web_layers _ _ _ _ _) as [r w'] eqn:E. split.
  - apply (f_equal fst) in E. simpl in E. rewrite <- E. vm_compute. reflexivity.
  - destruct (handlers_see_their_session sample_config (fun _ => mret (status_response 200)) stale_post
      (calm_env 0) (world_of empty_db) r w') as [(w0 & D & Hc) _]; [|apply calm_env_plain|exact E|].
    + intros n v Hv%list_elem_of_singleton. by injection Hv as -> ->.
    + exists w0. split; [exact D|]. destruct Hc as [?|(req' & id & added & Hm & _ & _ & Hi & _)]; [by left|].
      right. by exists req', id.
Defined.
