(* ===== verification/Assets.v ===== *)
(** * Assets: [src/assets.rs], the embedded files

    The names and types of the files the binary embeds, how the stylesheet is completed
    with the version of the fonts, and the handlers that serve them. The bytes of the
    files and the hash of the standard library are parameters. *)
From S2P Require Import Prelude Text Markdown Models Config Wire Secret Auth Db Errors Templates Web.
#[local] Open Scope Z_scope.

Class Embedded := {
  include_bytes : str -> list Z;              (* by the file's name *)
  include_str : str -> str;
  APP_CSS_TEMPLATE : str;
  hash_parts : list (str + list Z) -> Z;      (* [DefaultHasher] fed with texts and bytes *)
  show_hex : Z -> str;                        (* [{:x}] *)
}.

Definition FONT_PLACEHOLDER : str := lit "{{FONT_V}}".
Definition FONTS : list str := map lit [
  "inter-400.woff2"; "inter-500.woff2"; "inter-600.woff2"; "inter-700.woff2";
  "ibm-plex-mono-400.woff2"; "ibm-plex-mono-500.woff2"; "ibm-plex-mono-600.woff2"]%string.
Definition SCRIPTS : list str := map lit ["app.js"; "theme-init.js"]%string.
Definition ICONS : list (str * str) := [
  (lit "favicon.svg", lit "image/svg+xml");
  (lit "apple-touch-icon.png", lit "image/png")].
Definition IMMUTABLE_CACHE : str := lit "public, max-age=31536000, immutable".

Section assets.
Context `{Embedded}.

(** Each name is hashed, then its file. *)
Definition files_version (names : list str) : str :=
  show_hex (hash_parts (flat_map (fun n => [inl n; inr (include_bytes n)]) names)).
Definition FONT_VERSION : str := files_version FONTS.
Definition APP_CSS : str := replace FONT_PLACEHOLDER FONT_VERSION APP_CSS_TEMPLATE.
Definition css_version : str := show_hex (hash_parts [inl APP_CSS]).
Definition js_version : str :=
  show_hex (hash_parts (flat_map (fun n => [inl n; inl (include_str n)]) SCRIPTS)).
Definition icon_version : str := files_version (map fst ICONS).

Definition asset (mime : str) (body : Page) : Response :=
  mk_Response 200 None [(lit "content-type", mime); (lit "cache-control", IMMUTABLE_CACHE)] [] body.
Definition no_asset : Response := mk_Response 404 None [] [] P_None.

Definition app_css : Response := asset (lit "text/css; charset=utf-8") (P_Text APP_CSS).

Definition icon (path : str) : Response :=
  let name := drop_while (fun c => c =? chr "/") path in
  match List.find (fun i => bool_decide (i.1 = name)) ICONS with
  | Some (n, mime) => asset mime (P_Bytes (include_bytes n))
  | None => no_asset
  end.

Definition script (file : str) : Response :=
  match List.find (fun n => bool_decide (n = file)) SCRIPTS with
  | Some n => asset (lit "text/javascript; charset=utf-8") (P_Text (include_str n))
  | None => no_asset
  end.

Definition font (file : str) : Response :=
  match List.find (fun n => bool_decide (n = file)) FONTS with
  | Some n => asset (lit "font/woff2") (P_Bytes (include_bytes n))
  | None => no_asset
  end.

(** ** Only the embedded files are served *)

Lemma find_name (names : list str) file :
  List.find (fun n => bool_decide (n = file)) names = if bool_decide (file ∈ names) then Some file else None.
Proof.
  induction names as [|n names IH]; [done|]. cbn [List.find].
  destruct (bool_decide_reflect (n = file)) as [->|E].
  - by rewrite bool_decide_eq_true_2 by left.
  - rewrite IH. rewrite (bool_decide_ext (file ∈ n :: names) (file ∈ names)); [done|].
    rewrite elem_of_cons. naive_solver.
Qed.

Lemma font_served file :
  font file = if bool_decide (file ∈ FONTS) then asset (lit "font/woff2") (P_Bytes (include_bytes file))
              else no_asset.
Proof. unfold font. rewrite find_name. by case_bool_decide. Qed.

Lemma script_served file :
  script file = if bool_decide (file ∈ SCRIPTS)
                then asset (lit "text/javascript; charset=utf-8") (P_Text (include_str file))
                else no_asset.
Proof. unfold script. rewrite find_name. by case_bool_decide. Qed.

Lemma icons_served n mime : (n, mime) ∈ ICONS -> icon (lit "/" ++ n) = asset mime (P_Bytes (include_bytes n)).
Proof. rewrite list_elem_of_In. intros [[= <- <-]|[[= <- <-]|[]]]; reflexivity. Qed.

End assets.
