(* ===== verification/Account.v ===== *)
(** * Account: flashes, and the account page of [src/web.rs]

    A signed-in user's password, sessions and API keys. A session is named in the page by
    the digest of its id, the handle, never by the id. *)
From S2P Require Import Prelude Text Models Duration Config Wire Secret Chrono Auth Db Rows Store Sessions Sample Forms Errors Templates Web.
From S2P Require Ratelimit Elevate.
#[local] Open Scope Z_scope.
#[local] Open Scope pw_scope.

(** [uuid::fmt::Simple]: the hyphenated text without its hyphens. *)
Definition simple (uuid : str) : str := List.filter (fun c => negb (c =? chr "-")) uuid.

Section account.
Context `{Chrono} `{Crypto} `{IpText} `{Argon2}.

(** ** Reading a flash *)

Definition flash_message (surface : str) : option str :=
  if bool_decide (surface = lit "channels") then Some (lit "Notify channels saved.")
  else if bool_decide (surface = lit "settings") then Some (lit "Settings saved.")
  else if bool_decide (surface = lit "users_blocked") then
    Some (lit "That action was refused: you cannot remove your own access, and the last enabled admin cannot be removed.")
  else if bool_decide (surface = lit "password_changed") then
    Some (lit "Password changed. Any other signed-in sessions were signed out; API keys are unaffected.")
  else if bool_decide (surface = lit "admin_locked") then
    Some (lit "That action wasn't performed — it grants access, so it needs confirming first.")
  else if bool_decide (surface = lit "admin_unlocked") then
    Some (lit "Confirmed. If an action was refused a moment ago it was not performed — do it again now.")
  else if bool_decide (surface = lit "forward_auth_logout") then
    Some (lit "Signed out locally, but you're authenticated through your reverse proxy — this app can't end that session. To sign out completely, log out at your proxy or SSO provider.")
  else None.

Definition take_flash (config : Config) (jar : CookieJar) (surface : str) : CookieJar * option str :=
  match flash_payload config jar with
  | None => (jar, None)
  | Some value =>
      if negb (bool_decide (value = surface)) then (jar, None) else
      match flash_message surface with
      | None => (jar, None)
      | Some message => (jar_remove (flash_removal_cookie config) jar, Some message)
      end
  end.

(** ** The page *)

Record AccountRender := mk_AccountRender {
  ar_new_token : option str;
  ar_key_error : option str;
  ar_password_error : option str;
  ar_password_flash : option str;
}.
Definition key_error (msg : str) : AccountRender := mk_AccountRender None (Some msg) None None.
Definition password_error (msg : str) : AccountRender := mk_AccountRender None None (Some msg) None.

Definition session_view (current_handle : option str) (s : Session) : AccountSession :=
  let handle := hash_api_key (s_id s) in
  mk_AccountSession handle (s_created_at s) (s_last_seen_at s) (s_expires_at s) (s_user_agent s)
    (s_ip s) (bool_decide (current_handle = Some handle)) (s_sso s).

Definition from_key (now : Z) (k : ApiKey) : AccountKey :=
  mk_AccountKey (k_id k) (k_name k) (k_prefix k) (k_created_at k) (k_last_used_at k) (k_expires_at k)
    (match k_expires_at k with Some t => t <=? now | None => false end).

(** [sort_by_key(|r| !r.current)] is stable: the current ones, then the others. *)
Definition current_first (l : list AccountSession) : list AccountSession :=
  List.filter as_current l ++ List.filter (fun r => negb (as_current r)) l.

Definition render_account (config : Config) (jar : CookieJar) (user : User) (parts : AccountRender)
  : M (res AppError Response) :=
  do now := utc_now in
  let current_handle := current_session_handle config jar in
  let? _ := db (delete_capped_sessions_for_user (u_id user) now) in
  let? listed := db (list_sessions_for_user (u_id user) now) in
  let sessions := current_first (map (session_view current_handle) listed) in
  let? keys := db (list_api_keys_for_user (u_id user)) in
  mret (Ok (page_response (P_Account {|
    at_csrf := current_csrf config jar;
    at_is_admin := u_is_admin user;
    at_sessions := sessions;
    at_other_count := Z.of_nat (length (List.filter (fun r => negb (as_current r)) sessions));
    at_has_password := bool_decide (is_Some (u_password_hash user));
    at_password_error := ar_password_error parts;
    at_password_flash := ar_password_flash parts;
    at_keys := map (from_key now) keys;
    at_new_token := ar_new_token parts;
    at_key_error := ar_key_error parts |}))).

(** The response with the jar's changes. *)
Definition with_jar (jar : CookieJar) (r : Response) : Response :=
  mk_Response (rs_status r) (rs_location r) (rs_headers r) (jar_delta jar ++ rs_cookies r) (rs_page r).

Definition account_page (config : Config) (jar : CookieJar) (user : User) : M (res AppError Response) :=
  let '(jar, password_flash) := take_flash config jar (lit "password_changed") in
  let? resp := render_account config jar user (mk_AccountRender None None None password_flash) in
  mret (Ok (with_jar jar resp)).

(** ** Password *)

Record ChangePasswordForm := mk_ChangePasswordForm {
  cpf_current_password : str;
  cpf_new_password : str;
  cpf_confirm_password : str;
}.

(** An audit row about the user themselves. *)
Definition audit_self (user : User) (action detail : str) : M (res AppError unit) :=
  do now := utc_now in
  let? _ := db (record_audit {|
    na_actor_user_id := u_id user;
    na_actor_username := u_username user;
    na_action := action;
    na_target_type := Some (lit "user");
    na_target_id := Some (u_id user);
    na_target_owner_id := None;
    na_method := None;
    na_path := None;
    na_detail := Some detail |} now) in
  mret (Ok tt).

(** Once the new password has been accepted. *)
Definition change_password (config : Config) (jar : CookieJar) (user : User) (phc : str)
  : M (res AppError Response) :=
  let? _ := db (set_user_password (u_id user) phc) in
  let keep := jar_session_id config jar in
  let? revoked := match keep with
                  | Some current => db (delete_other_sessions_for_user (u_id user) current)
                  | None => db (delete_sessions_for_user (u_id user))
                  end in
  do _ := elev_revoke_user (u_id user) (hash_api_key <$> keep) in
  let? _ := audit_self user (lit "user.password_change") (lit "sessions_revoked=" ++ show_Z revoked) in
  mret (Ok (flash_redirect config jar (lit "password_changed") (lit "/account"))).

Definition account_password (config : Config) (jar : CookieJar) (user : User)
    (form : ChangePasswordForm) : M (res AppError Response) :=
  let refuse msg := render_account config jar user (password_error msg) in
  match u_password_hash user with
  | None => mret (Ok (status_response 403))
  | Some _ =>
      do outcome := reauthenticate user (cpf_current_password form) in
      match outcome with
      | RA_Failed => refuse (lit "Current password is incorrect.")
      | RA_Throttled => refuse (lit "Too many attempts — try again later.")
      | RA_Passed =>
          match validate_password (cpf_new_password form) with
          | Err msg => refuse msg
          | Ok _ =>
              if negb (bool_decide (cpf_new_password form = cpf_confirm_password form)) then
                refuse (lit "The new passwords do not match.") else
              match hash_password (cpf_new_password form) with
              | Err e => mret (Err (AE_Other e))
              | Ok phc => change_password config jar user phc
              end
          end
      end
  end.

(** ** API keys *)

Record NewApiKeyForm := mk_NewApiKeyForm {
  nkf_name : str;
  nkf_expires_in : str;
  nkf_current_password : str;
}.

(** Blank is never; [Utc::now() + Duration::seconds(secs)] may panic. *)
Definition key_expiry (raw : str) : M (res str (option Z)) :=
  let raw := trim raw in
  if is_empty raw then mret (Ok None) else
  let bad := mret (Err (lit "expiry must be a duration like 30d, or blank for never")) in
  match parse_duration raw with
  | Some secs =>
      if 0 <? secs then
        do now := utc_now in
        do d := mexec (td_seconds secs) in
        do t := mexec (dt_add now d) in
        mret (Ok (Some t))
      else bad
  | None => bad
  end.

Definition new_api_key : M (str * str * str) :=
  do u1 := new_v4 in
  do u2 := new_v4 in
  mexec (generate_api_key (simple u1) (simple u2)).

Definition api_keys_create (config : Config) (jar : CookieJar) (user : User) (form : NewApiKeyForm)
  : M (res AppError Response) :=
  let refuse msg := render_account config jar user (key_error msg) in
  do outcome := reauthenticate user (nkf_current_password form) in
  match outcome with
  | RA_Failed => refuse (lit "Current password is incorrect.")
  | RA_Throttled => refuse (lit "Too many attempts — try again later.")
  | RA_Passed =>
      let name := trim (nkf_name form) in
      if is_empty name then refuse (lit "a name is required") else
      do expiry := key_expiry (nkf_expires_in form) in
      match expiry with
      | Err msg => refuse msg
      | Ok expires_at =>
          do key := new_api_key in
          let '(full, prefix, hash) := key in
          do now := utc_now in
          let? _ := db (insert_api_key (mk_NewApiKey (u_id user) name hash prefix expires_at) now) in
          render_account config jar user (mk_AccountRender (Some full) None None None)
      end
  end.

Definition api_keys_delete (config : Config) (jar : CookieJar) (user : User) (id : Z)
    (confirmed : bool) : M (res AppError Response) :=
  if negb confirmed then
    mret (Ok (confirmation_page config jar (u_is_admin user) CONFIRM_REVOKE_API_KEY
      (lit "/account/api-keys/" ++ show_Z id ++ lit "/delete") (lit "/account")))
  else
    let? _ := db (delete_api_key id (u_id user)) in
    mret (Ok (redirect_to [] (lit "/account"))).

(** ** Sessions *)

Definition sessions_revoke (config : Config) (jar : CookieJar) (user : User) (handle : str)
    (confirmed : bool) : M (res AppError Response) :=
  do now := utc_now in
  let? sessions := db (list_sessions_for_user (u_id user) now) in
  match List.find (fun s => bool_decide (hash_api_key (s_id s) = handle)) sessions with
  | None => mret (Ok (redirect_to (jar_delta jar) (lit "/account")))
  | Some target =>
      if negb confirmed then
        mret (Ok (confirmation_page config jar (u_is_admin user) CONFIRM_REVOKE_SESSION
          (lit "/account/sessions/" ++ handle ++ lit "/revoke") (lit "/account")))
      else
        let is_current := bool_decide (jar_session_id config jar = Some (s_id target)) in
        let? _ := db (delete_session_owned (s_id target) (u_id user)) in
        do _ := elev_revoke handle in
        if is_current then
          let jar := jar_remove (session_removal_cookie config) jar in
          mret (Ok (redirect_to (jar_delta jar) (lit "/login")))
        else mret (Ok (redirect_to (jar_delta jar) (lit "/account")))
  end.

Definition sessions_revoke_others (config : Config) (jar : CookieJar) (user : User)
    (confirmed : bool) : M (res AppError Response) :=
  if negb confirmed then
    mret (Ok (confirmation_page config jar (u_is_admin user) CONFIRM_REVOKE_OTHER_SESSIONS
      (lit "/account/sessions/revoke-others") (lit "/account")))
  else
    let? _ := match jar_session_id config jar with
              | Some id =>
                  let? _ := db (delete_other_sessions_for_user (u_id user) id) in
                  do _ := elev_revoke_user (u_id user) (Some (hash_api_key id)) in
                  mret (Ok tt)
              | None => mret (Ok tt)
              end in
    mret (Ok (redirect_to [] (lit "/account"))).

(** The requests of the account page. *)
Inductive AccountRequest : Type :=
| AR_Page
| AR_Password (form : ChangePasswordForm)
| AR_KeyCreate (form : NewApiKeyForm)
| AR_KeyDelete (id : Z) (confirmed : bool)
| AR_Revoke (handle : str) (confirmed : bool)
| AR_RevokeOthers (confirmed : bool).

Definition account_handle (config : Config) (jar : CookieJar) (user : User) (rq : AccountRequest)
  : M (res AppError Response) :=
  match rq with
  | AR_Page => account_page config jar user
  | AR_Password form => account_password config jar user form
  | AR_KeyCreate form => api_keys_create config jar user form
  | AR_KeyDelete id confirmed => api_keys_delete config jar user id confirmed
  | AR_Revoke handle confirmed => sessions_revoke config jar user handle confirmed
  | AR_RevokeOthers confirmed => sessions_revoke_others config jar user confirmed
  end.

End account.

(** ** What belongs to other users *)

(** Nothing outside the user's own rows has changed: of the users only this one's
    password may have, of the sessions only this one's may have ended and none is new, of
    the keys only this one's may have gone or come; the audit log only grew. *)
Record own_rows_only (uid : Z) (d d' : Db) : Prop := mk_own_rows_only {
  or_projects : projects d' = projects d;
  or_checks : checks d' = checks d;
  or_channels : channels d' = channels d;
  or_bindings : check_channels d' = check_channels d;
  or_pings : pings d' = pings d;
  or_notifications : notifications d' = notifications d;
  or_settings : settings d' = settings d;
  or_users : forall i, i <> uid -> t_rows (users d') !! i = t_rows (users d) !! i;
  or_user : forall r', t_rows (users d') !! uid = Some r' ->
    exists r phc, t_rows (users d) !! uid = Some r /\
      r' = mk_UserRow (ur_username r) phc (ur_is_admin r) (ur_disabled r) (ur_created_at r);
  or_sessions : forall k s, sessions d' !! k = Some s -> sessions d !! k = Some s;
  or_sessions_kept : forall k s, sr_user_id s <> uid -> sessions d !! k = Some s ->
    sessions d' !! k = Some s;
  or_keys : forall i r, kr_user_id r <> uid -> t_rows (api_keys d') !! i = Some r ->
    t_rows (api_keys d) !! i = Some r;
  or_keys_kept : forall i r, kr_user_id r <> uid -> i <= t_seq (api_keys d) ->
    t_rows (api_keys d) !! i = Some r -> t_rows (api_keys d') !! i = Some r;
  or_key_seq : t_seq (api_keys d) <= t_seq (api_keys d');
  or_audit : forall i, i <= t_seq (audit_log d) ->
    t_rows (audit_log d') !! i = t_rows (audit_log d) !! i;
  or_audit_seq : t_seq (audit_log d) <= t_seq (audit_log d');
}.

Lemma own_rows_only_refl uid d : own_rows_only uid d d.
Proof. split; try done. intros r Hr. exists r, (ur_password_hash r). split; [done|]. by destruct r. Qed.

Section confined.
Context `{Chrono} `{Crypto} `{IpText} `{Argon2} (uid : Z) (d0 : Db).

Lemma own_rows_password phc :
  preserves (own_rows_only uid d0) (set_user_password uid phc).
Proof.
  apply preserves_execute. intros d []. split; try done; unfold update_user; cbn [users set_users].
  - intros i Hi. rewrite update_row_lookup, decide_False by done. auto.
  - intros r'. rewrite update_row_lookup, decide_True by done.
    intros (r1 & Hr1 & ->)%fmap_Some. destruct (or_user0 r1 Hr1) as (r & p & Hr & ->).
    exists r, (Some phc). by split.
Qed.

Lemma own_rows_sessions p :
  (forall k s, p k s = true -> sr_user_id s = uid) ->
  preserves (own_rows_only uid d0) (delete_sessions_where p).
Proof.
  intros Hp. apply preserves_stmt. intros d n d' [] [= _ <-]. split; try done; cbn [sessions set_sessions].
  - intros k s [Hs _]%map_lookup_filter_Some. auto.
  - intros k s Hs Hk. apply map_lookup_filter_Some. split; [auto|]. simpl.
    destruct (p k s) eqn:E; [|done]. by apply Hp in E.
Qed.

Lemma own_rows_insert_key k now :
  nk_user_id k = uid -> preserves (own_rows_only uid d0) (insert_api_key k now).
Proof.
  intros Hk. apply preserves_stmt. intros d i d' [] E. cbv beta in E.
  destruct (existsb _ _); [done|]. destruct (is_row _ _); [|done].
  injection E as _ <-. split; try done; cbn [api_keys set_api_keys t_rows t_seq insert_row fst snd].
  - intros j r Hr. destruct (decide (j = t_seq (api_keys d) + 1)) as [->|].
    + rewrite lookup_insert_eq. by intros [= <-].
    + rewrite lookup_insert_ne by done. auto.
  - intros j r Hr Hj Hl. rewrite lookup_insert_ne by lia. auto.
  - lia.
Qed.

Lemma own_rows_delete_key id : preserves (own_rows_only uid d0) (delete_api_key id uid).
Proof.
  apply preserves_stmt. intros d n d' [] [= _ <-]. split; try done; cbn [api_keys set_api_keys].
  - intros i r Hr [Hi _]%delete_where_lookup. auto.
  - intros i r Hr Hi Hl. apply delete_where_lookup. split; [auto|].
    apply andb_false_intro2. by apply Z.eqb_neq.
Qed.

Lemma own_rows_audit a now : preserves (own_rows_only uid d0) (record_audit a now).
Proof.
  apply preserves_stmt. intros d i d' [] E. cbv beta in E. injection E as _ <-.
  split; try done; cbn [audit_log set_audit_log t_rows t_seq insert_row fst snd].
  - intros j Hj. rewrite lookup_insert_ne by lia. auto.
  - lia.
Qed.

End confined.
#[export] Hint Resolve own_rows_password own_rows_audit own_rows_delete_key own_rows_insert_key : pw.

Section account_theorems.
Context `{Chrono} `{Crypto} `{IpText} `{Argon2}.

Lemma own_rows_render uid d0 config jar user parts :
  u_id user = uid -> preserves (own_rows_only uid d0) (render_account config jar user parts).
Proof.
  intros Hu. unfold render_account, delete_capped_sessions_for_user, list_sessions_for_user,
    list_api_keys_for_user. handler_steps. apply own_rows_sessions. intros k s. rewrite andb_true_iff.
  intros [E%Z.eqb_eq _]. congruence.
Qed.

(** The account page acts on the signed-in user's own rows. Whatever the request
    and whatever fails, projects, checks, channels, settings and every other user are as
    they were, no other user's session has ended, none has appeared, no other user's API
    key has gone, come or changed, nothing of this user but the password has changed, and
    the audit log has kept its rows. *)
Theorem account_requests_confined config jar user rq e w r w' :
  account_handle config jar user rq e w = (r, w') ->
  own_rows_only (u_id user) (w_db w) (w_db w').
Proof.
  set (I := own_rows_only (u_id user) (w_db w)).
  assert (I (w_db w)) as Hw by apply own_rows_only_refl.
  pose proof (fun parts => own_rows_render (u_id user) (w_db w) config jar user parts eq_refl) as Hr.
  assert (forall jar parts, preserves I (render_account config jar user parts)) as Hr'
    by (intros; by apply own_rows_render).
  apply (fun P : preserves I _ => P e w r w' Hw). clear Hw.
  destruct rq; cbn [account_handle];
    unfold account_page, account_password, change_password, audit_self, api_keys_create, api_keys_delete,
      sessions_revoke, sessions_revoke_others, reauthenticate, account_try_acquire, account_clear,
      new_api_key, key_expiry, list_sessions_for_user, elev_revoke, elev_revoke_user,
      delete_other_sessions_for_user, delete_sessions_for_user, delete_session_owned; cbv zeta.
  all: handler_steps; subst I; auto with pw.
  all: apply own_rows_sessions; intros k1 s1; rewrite ?andb_true_iff, Z.eqb_eq; tauto.
Qed.

(** Re-authenticating writes no table, and passes only a right password. *)
Lemma reauthenticate_inv user submitted e w a w' :
  reauthenticate user submitted e w = (Done a, w') ->
  w_db w' = w_db w /\
  (a = RA_Passed -> forall stored, u_password_hash user = Some stored ->
     verify_password submitted stored = true).
Proof.
  unfold reauthenticate. destruct (u_password_hash user) as [stored|]; [|by intros [= <- <-]].
  destruct (account_try_acquire_step (Ratelimit.Limiter.account_key (u_username user)) e w)
    as (w1 & E1 & D1 & _). rewrite (mbind_Done _ _ _ _ _ _ E1).
  destruct (_.1); cbn [negb]; [|intros [= <- <-]; by split].
  destruct (verify_password submitted stored) eqn:V; [|intros [= <- <-]; by split].
  intros [= <- <-]. split; [done|]. by intros _ ? [= <-].
Qed.

Lemma users_render config jar user parts t0 :
  preserves (fun d => users d = t0) (render_account config jar user parts).
Proof.
  unfold render_account, delete_capped_sessions_for_user, list_sessions_for_user,
    list_api_keys_for_user, delete_sessions_where. handler_steps. apply preserves_stmt.
  by intros d n d' <- [= _ <-].
Qed.

Lemma render_account_page config jar user parts e w resp w' :
  render_account config jar user parts e w = (Done (Ok resp), w') ->
  rs_location resp = None /\ users (w_db w') = users (w_db w).
Proof.
  intros E. split; [|by apply (users_render config jar user parts (users (w_db w)) e w _ w' eq_refl E)].
  unfold render_account in E. apply mbind_inv in E as [[_ [=]]|(now & w1 & _ & E)].
  apply mtry_Ok_inv in E as (? & w2 & _ & E). apply mtry_Ok_inv in E as (? & w3 & _ & E).
  apply mtry_Ok_inv in E as (? & w4 & _ & E). by injection E as <- _.
Qed.

(** The sessions left when those of a user are deleted, but perhaps for one. *)
Lemma delete_sessions_inv p e w n w' :
  db (delete_sessions_where p) e w = (Done (Ok n), w') ->
  users (w_db w') = users (w_db w) /\
  forall k s, sessions (w_db w') !! k = Some s <-> sessions (w_db w) !! k = Some s /\ p k s = false.
Proof.
  intros [[_ [x [=]]]|(a & d' & [= _ <-] & _ & ->)]%db_stmt_inv. split; [done|].
  intros k s. cbn [sessions set_sessions]. by rewrite map_lookup_filter_Some.
Qed.

Definition with_password (phc : str) (r : UserRow) : UserRow :=
  mk_UserRow (ur_username r) (Some phc) (ur_is_admin r) (ur_disabled r) (ur_created_at r).

Lemma change_password_inv config jar user phc e w resp w' :
  change_password config jar user phc e w = (Done (Ok resp), w') ->
  rs_location resp = Some (lit "/account") /\
  users (w_db w') = update_row (with_password phc) (u_id user) (users (w_db w)) /\
  forall k s, sessions (w_db w') !! k = Some s <->
    sessions (w_db w) !! k = Some s /\
    (sr_user_id s = u_id user -> jar_session_id config jar = Some k).
Proof.
  intros E. unfold change_password in E. apply mtry_Ok_inv in E as (u1 & w1 & E1 & E). cbv zeta in E.
  apply db_stmt_inv in E1 as [[_ [x [=]]]|(? & d1 & [= _ <-] & _ & D1)].
  apply mtry_Ok_inv in E as (n & w2 & E2 & E).
  apply mbind_inv in E as [[_ [=]]|([] & w3 & E3 & E)].
  unfold elev_revoke_user, on_mem in E3. injection E3 as <-.
  apply mtry_Ok_inv in E as ([] & w4 & E4 & E). unfold audit_self in E4.
  apply mbind_inv in E4 as [[_ [=]]|(now & w5 & E5 & E4)]. unfold utc_now in E5. injection E5 as _ <-.
  apply mtry_Ok_inv in E4 as (i & w6 & E6 & E4). injection E4 as <-.
  apply db_stmt_inv in E6 as [[_ [x1 [=]]]|(? & d6 & E6 & _ & D6)]. cbv beta in E6. injection E6 as _ <-.
  injection E as <- <-. split; [done|]. rewrite D6. cbn [users sessions set_audit_log w_db].
  destruct (jar_session_id config jar) as [cur|]; apply delete_sessions_inv in E2 as [-> HS];
    rewrite D1 in HS |- *; (split; [done|]); intros k s; rewrite HS; cbn [sessions update_user set_users];
    apply and_iff_compat_l.
  - rewrite andb_false_iff, negb_false_iff, bool_decide_eq_true, Z.eqb_neq.
    split; [intros [?| ->]; [done|done]|]. intros Hk. destruct (decide (sr_user_id s = u_id user)) as [E|]; [right|by left].
    by apply Hk in E as [= ->].
  - rewrite Z.eqb_neq. split; [done|]. intros Hk E. by apply Hk in E.
Qed.

(** C37: changing the password takes the current one and ends every other session.
    When the handler answers with a page, no user has changed. When it answers with the
    redirect, the submitted current password verified against the stored hash, the new
    one is acceptable and was confirmed, the user's row and no other has the new hash,
    and of the sessions exactly those of other users and the request's own are left. *)
Theorem password_change_effect config jar user form e w resp w' :
  account_password config jar user form e w = (Done (Ok resp), w') ->
  (rs_location resp = None /\ users (w_db w') = users (w_db w)) \/
  (rs_location resp = Some (lit "/account") /\
   exists stored phc,
     u_password_hash user = Some stored /\
     verify_password (cpf_current_password form) stored = true /\
     validate_password (cpf_new_password form) = Ok tt /\
     cpf_new_password form = cpf_confirm_password form /\
     hash_password (cpf_new_password form) = Ok phc /\
     users (w_db w') = update_row (with_password phc) (u_id user) (users (w_db w)) /\
     forall k s, sessions (w_db w') !! k = Some s <->
       sessions (w_db w) !! k = Some s /\
       (sr_user_id s = u_id user -> jar_session_id config jar = Some k)).
Proof.
  unfold account_password. destruct (u_password_hash user) as [stored|] eqn:Ep.
  2: { intros [= <- <-]. by left. }
  intros [[_ [=]]|(a & w1 & E1 & E)]%mbind_inv. cbv zeta in E.
  apply reauthenticate_inv in E1 as [D1 V]. rewrite <- D1.
  destruct a; [|by left; apply render_account_page in E..]. specialize (V eq_refl stored Ep).
  destruct (validate_password _) as [[]|msg] eqn:Ev; [|left; by apply render_account_page in E].
  destruct (bool_decide _) eqn:Ec; cbn [negb] in E; [|left; by apply render_account_page in E].
  apply bool_decide_eq_true in Ec. destruct (hash_password _) as [phc|x] eqn:Eh; [|done].
  apply change_password_inv in E as (? & ? & ?). right. split; [done|]. by exists stored, phc.
Qed.

(** ** A new key *)

Lemma keys_render config jar user parts t0 :
  preserves (fun d => api_keys d = t0) (render_account config jar user parts).
Proof.
  unfold render_account, delete_capped_sessions_for_user, list_sessions_for_user,
    list_api_keys_for_user, delete_sessions_where. handler_steps. apply preserves_stmt.
  by intros d n d' <- [= _ <-].
Qed.

(** The token a page shows is the one it was given to show. *)
Lemma render_account_token config jar user parts e w resp w' t :
  render_account config jar user parts e w = (Done (Ok resp), w') -> rs_page resp = P_Account t ->
  at_new_token t = ar_new_token parts.
Proof.
  intros E. unfold render_account in E. apply mbind_inv in E as [[_ [=]]|(now & w1 & _ & E)].
  apply mtry_Ok_inv in E as (? & w2 & _ & E). apply mtry_Ok_inv in E as (? & w3 & _ & E).
  apply mtry_Ok_inv in E as (? & w4 & _ & E). injection E as <- _. by intros [= <-].
Qed.

Lemma insert_api_key_inv k now e w i w' :
  db (insert_api_key k now) e w = (Done (Ok i), w') ->
  exists row, kr_user_id row = nk_user_id k /\ kr_token_hash row = nk_token_hash k /\
    kr_last_used_at row = None /\ kr_expires_at row = to_rfc3339 <$> nk_expires_at k /\
    t_rows (api_keys (w_db w')) !! i = Some row /\
    forall j r, t_rows (api_keys (w_db w')) !! j = Some r -> kr_token_hash r = nk_token_hash k -> j = i.
Proof.
  intros [[_ [x [=]]]|(a & d' & E & [= <-] & ->)]%db_stmt_inv. cbv beta in E.
  destruct (existsb _ _) eqn:Ex; [done|]. destruct (is_row _ _); [|done].
  injection E as <- <-. exists (mk_ApiKeyRow (nk_user_id k) (nk_name k) (nk_token_hash k) (nk_prefix k) (to_rfc3339 now) None (to_rfc3339 <$> nk_expires_at k)).
  cbn [api_keys set_api_keys t_rows insert_row fst snd].
  rewrite lookup_insert_eq. repeat (split; [reflexivity|]). intros j r.
  destruct (decide (j = t_seq (api_keys (w_db w)) + 1)) as [->|Hne]; [done|].
  rewrite lookup_insert_ne by done. intros Hj Hh. exfalso.
  apply not_true_iff_false in Ex. apply Ex, existsb_exists. exists (j, r).
  rewrite <- list_elem_of_In, elem_of_rows. split; [done|]. by apply bool_decide_eq_true.
Qed.

(** What is stored of a key whose token was shown. *)
Lemma api_keys_create_inv config jar user form e w resp w' t token :
  api_keys_create config jar user form e w = (Done (Ok resp), w') ->
  rs_page resp = P_Account t -> at_new_token t = Some token ->
  exists expires i row,
    (expires = None <-> trim (nkf_expires_in form) = []) /\
    kr_user_id row = u_id user /\ kr_token_hash row = hash_api_key token /\
    kr_last_used_at row = None /\ kr_expires_at row = to_rfc3339 <$> expires /\
    t_rows (api_keys (w_db w')) !! i = Some row /\
    forall j r, t_rows (api_keys (w_db w')) !! j = Some r -> kr_token_hash r = hash_api_key token -> j = i.
Proof.
  unfold api_keys_create. intros [[_ [=]]|(a & w1 & _ & E)]%mbind_inv Hp Ht. cbv zeta in E.
  assert (forall msg w, render_account config jar user (key_error msg) e w = (Done (Ok resp), w') -> False)
    as Hrefuse by (intros msg w0 Er; by rewrite (render_account_token _ _ _ _ _ _ _ _ t Er Hp) in Ht).
  destruct a; [|by apply Hrefuse in E..].
  destruct (is_empty (trim (nkf_name form))); [by apply Hrefuse in E|].
  apply mbind_inv in E as [[_ [=]]|(x & w2 & Ex & E)]. destruct x as [expires|msg]; [|by apply Hrefuse in E].
  apply mbind_inv in E as [[_ [=]]|([[full prefix] hash] & w3 & Ek & E)].
  apply mbind_inv in E as [[_ [=]]|(now & w4 & _ & E)].
  apply mtry_Ok_inv in E as (i & w5 & Ei & E).
  pose proof (render_account_token _ _ _ _ _ _ _ _ t E Hp) as Hfull. rewrite Ht in Hfull.
  cbn in Hfull. injection Hfull as ->.
  assert (hash = hash_api_key full) as ->.
  { unfold new_api_key, new_v4 in Ek. apply mbind_inv in Ek as [[_ [=]]|(u1 & ? & _ & Ek)].
    apply mbind_inv in Ek as [[_ [=]]|(u2 & ? & _ & Ek)]. apply mexec_inv in Ek as [Ek _].
    unfold generate_api_key in Ek. destruct (slice_to _ _); [|done]. by injection Ek as <- _ <-. }
  apply insert_api_key_inv in Ei as (row & Hu & Hh & Hl & Hexp & Hi & Huniq).
  pose proof (keys_render _ _ _ _ _ _ _ _ _ eq_refl E) as ->.
  exists expires, i, row. split; [|done].
  unfold key_expiry in Ex. cbv zeta in Ex. destruct (trim (nkf_expires_in form)) as [|c0 l0]; cbn [is_empty] in Ex.
  - by injection Ex as <- _.
  - split; [|done]. intros ->. destruct (parse_duration _) as [secs|]; [|done].
    destruct (0 <? secs); [|done]. apply mbind_inv in Ex as [[_ [=]]|(? & ? & _ & Ex)].
    apply mbind_inv in Ex as [[_ [=]]|(? & ? & _ & Ex)]. by apply mbind_inv in Ex as [[_ [=]]|(? & ? & _ & [=])].
Qed.

(** An API key with a far expiry is answered by a panic. The form accepts any
    positive duration, up to [i64::MAX] seconds; beyond what chrono can represent, a
    re-authenticated request with a name panics before anything is written, where a bad
    expiry is answered by the refusal. *)
Theorem api_key_expiry_panics `{!ChronoLaws} config jar user form secs e w w1 :
  reauthenticate user (nkf_current_password form) e w = (Done RA_Passed, w1) ->
  trim (nkf_name form) <> [] ->
  parse_duration (trim (nkf_expires_in form)) = Some secs -> i64_max < secs * 1000 ->
  exists w', api_keys_create config jar user form e w = (Panic, w') /\ w_db w' = w_db w.
Proof.
  intros E1 Hn Hd Hbig. assert (0 < secs) as Hpos by (unfold i64_max in Hbig; lia).
  unfold api_keys_create. rewrite (mbind_Done _ _ _ _ _ _ E1). cbv zeta.
  destruct (trim (nkf_name form)); [done|]. cbn [is_empty].
  destruct (trim (nkf_expires_in form)) as [|c0 l0] eqn:Et; [discriminate Hd|].
  apply reauthenticate_inv in E1 as [D1 _]. unfold key_expiry. rewrite Et. cbn [is_empty]. cbv zeta.
  rewrite Hd. apply Z.ltb_lt in Hpos as ->. unfold mbind at 1 2, utc_now. unfold mbind at 1, mexec at 1.
  rewrite (td_seconds_panic secs Hbig). eexists. split; [reflexivity|done].
Qed.

End account_theorems.

(** ** Witnesses *)

#[local] Existing Instance SampleChrono.sample_chrono.
#[local] Existing Instance SampleChrono.sample_chrono_laws.
#[local] Existing Instance SampleCrypto.sample_crypto.
#[local] Existing Instance SampleWeb.sample_ip_text.
#[local] Existing Instance SampleWeb.sample_argon2.

(** [web_db] with a session of each user and an API key of the first. *)
Definition account_db : Db :=
  w_db ((do _ := create_session (mk_NewSession (lit "sid") 1 (hours 24) None None false) 0 in
         do _ := create_session (mk_NewSession (lit "bobs") 2 (hours 24) None None false) 0 in
         do _ := create_session (mk_NewSession (lit "laptop") 2 (hours 24) None None false) 0 in
         do _ := insert_api_key (mk_NewApiKey 1 (lit "ci") (lit "h") (lit "p") None) 0 in
         mret tt) (calm_env 0) (world_of web_db)).2.
Definition bob_account : User :=
  mk_User 2 (lit "bob") (Some (lit "$" ++ sample_password)) false false 0.
Definition bob_jar : CookieJar :=
  mk_CookieJar (fun name => if decide (name = SESSION_COOKIE_HOST_PREFIXED)
                            then Some (sign_session [] (lit "bobs")) else None) [].

(** Bob asks for the revocation of Ann's key and gets nothing. *)
Lemma account_requests_confined_witness :
  exists r w', account_handle sample_config bob_jar bob_account (AR_KeyDelete 1 true) (calm_env 0)
      (world_of account_db) = (r, w') /\
    own_rows_only 2 account_db (w_db w') /\ is_Some (t_rows (api_keys (w_db w')) !! 1).
Proof.
  destruct (account_handle sample_config bob_jar bob_account (AR_KeyDelete 1 true) (calm_env 0)
      (world_of account_db)) as [r w'] eqn:E.
  exists r, w'. split; [reflexivity|].
  pose proof (account_requests_confined sample_config bob_jar bob_account (AR_KeyDelete 1 true)
    (calm_env 0) (world_of account_db) r w' E) as H.
  rewrite world_of_db in H. change (u_id bob_account) with 2 in H. split; [exact H|].
  assert (match t_rows (api_keys account_db) !! 1 with
          | Some k => (kr_user_id k =? 1) && (1 <=? t_seq (api_keys account_db))
          | None => false end = true) as F by (vm_compute; reflexivity).
  destruct (t_rows (api_keys account_db) !! 1) as [k|] eqn:Ek; [|discriminate F].
  apply andb_true_iff in F as [F1%Z.eqb_eq F2%Z.leb_le].
  exists k. refine (or_keys_kept _ _ _ H 1 k _ F2 Ek). rewrite F1. lia.
Defined.

Definition bob_new_password : ChangePasswordForm :=
  mk_ChangePasswordForm sample_password (lit "a much better one") (lit "a much better one").

(** Bob changes his password: his laptop is signed out. *)
Lemma password_change_effect_witness :
  exists resp w', account_password sample_config bob_jar bob_account bob_new_password (calm_env 0)
      (world_of account_db) = (Done (Ok resp), w') /\
    sessions (w_db w') !! lit "laptop" = None.
Proof.
  assert (match (account_password sample_config bob_jar bob_account bob_new_password (calm_env 0)
      (world_of account_db)).1 with
    | Done (Ok resp) => bool_decide (is_Some (rs_location resp)) | _ => false end = true) as N
    by (vm_compute; reflexivity).
  destruct (account_password sample_config bob_jar bob_account bob_new_password (calm_env 0)
      (world_of account_db)) as [r w'] eqn:E.
  cbn [fst] in N. destruct r as [[resp|x]|]; [|discriminate N|discriminate N].
  exists resp, w'. split; [reflexivity|]. apply bool_decide_eq_true in N.
  destruct (password_change_effect sample_config bob_jar bob_account bob_new_password (calm_env 0)
    (world_of account_db) resp w' E) as [[L _]|(_ & stored & phc & _ & _ & _ & _ & _ & _ & HS)].
  { rewrite L in N. destruct N as [? N]. discriminate N. }
  rewrite world_of_db in HS.
  destruct (sessions (w_db w') !! lit "laptop") as [s|] eqn:El; [|reflexivity]. exfalso.
  apply HS in El as [El Hcur].
  assert (sr_user_id <$> sessions account_db !! lit "laptop" = Some 2) as F by (vm_compute; reflexivity).
  rewrite El in F. injection F as F. apply Hcur in F. vm_compute in F. discriminate F.
Defined.

Lemma api_key_expiry_panics_witness :
  exists w', api_keys_create sample_config bob_jar bob_account
      (mk_NewApiKeyForm (lit "ci") (lit "9223372036854775807s") sample_password)
      (calm_env 0) (world_of account_db) = (Panic, w') /\ w_db w' = account_db.
Proof.
  destruct (reauthenticate bob_account sample_password (calm_env 0) (world_of account_db)) as [r w1] eqn:E.
  assert ((reauthenticate bob_account sample_password (calm_env 0) (world_of account_db)).1
    = Done RA_Passed) as N by (vm_compute; reflexivity). rewrite E in N. cbn [fst] in N. subst r.
  destruct (api_key_expiry_panics sample_config bob_jar bob_account
    (mk_NewApiKeyForm (lit "ci") (lit "9223372036854775807s") sample_password) 9223372036854775807
    (calm_env 0) (world_of account_db) w1 E) as (w' & E' & D).
  - intros F. vm_compute in F. discriminate F.
  - vm_compute. reflexivity.
  - reflexivity.
  - exists w'. split; [exact E'|]. rewrite world_of_db in D. exact D.
Defined.
