(* ===== verification/Listing.v ===== *)
(** * Listing: what the pages of [src/web.rs] show, without the store

    Labels, the dashboard's filters and order, the query of a check's history with the
    links that carry it on, and the forms an edit page opens with. *)
From S2P Require Import Prelude Text Markdown Models Duration Config Wire Chrono Auth Db Rows Store Keyset Notify Scheduler View Forms Errors Templates Web.
#[local] Open Scope Z_scope.
#[local] Open Scope pw_scope.

(** Unicode case folding, whose tables are those of the standard library, and two formats
    of [chrono]. *)
Class PageText := {
  to_lowercase : str -> str;             (* [str::to_lowercase] *)
  to_rfc3339_secs : Z -> str;            (* [to_rfc3339_opts(SecondsFormat::Secs, true)] *)
  parse_naive : str -> str -> option Z;  (* [NaiveDateTime::parse_from_str(s, fmt)], as UTC *)
}.

(** What a missing value is shown as. *)
Definition dash : str := lit "—".

(** ** Labels *)

Definition schedule_label (c : Check) : str :=
  let grace := fmt_duration (c_grace_secs c) ++ lit " grace" in
  match c_schedule_kind c with
  | SK_Period =>
      match c_period_secs c with
      | Some s => lit "every " ++ fmt_duration s ++ lit " · " ++ grace
      | None => grace
      end
  | SK_Cron =>
      match c_cron_expr c with
      | Some expr => expr ++ lit " · " ++ grace
      | None => grace
      end
  end.

Definition ping_pill_class (k : PingKind) : str :=
  match k with
  | PK_Success | PK_Exitcode => lit "ok"
  | PK_Fail => lit "fail"
  | PK_Start => lit "start"
  | PK_Log => lit "log"
  end.
Definition notif_event_pill_class (e : EventKind) : str :=
  match e with
  | EK_Up => lit "ok"
  | EK_Down => lit "fail"
  | EK_Reminder => lit "start"
  | EK_Test => lit "log"
  end.

(** [Ord::max] on options of instants: [None] is below every instant. *)
Definition option_max (a b : option Z) : option Z := if option_gtb a b then a else b.
Definition last_activity_at (c : Check) : option Z := option_max (c_last_ping_at c) (c_last_start_at c).

(** ** The dashboard's filters and order *)

Inductive StatusFilter : Set := SF_Up | SF_Late | SF_Down.
Definition StatusFilter_parse (s : str) : option StatusFilter :=
  if bool_decide (s = lit "up") then Some SF_Up
  else if bool_decide (s = lit "late") then Some SF_Late
  else if bool_decide (s = lit "down") then Some SF_Down
  else None.
Definition StatusFilter_as_str (f : StatusFilter) : str :=
  match f with SF_Up => lit "up" | SF_Late => lit "late" | SF_Down => lit "down" end.
Definition StatusFilter_matches (f : StatusFilter) (ds : DisplayStatus) : bool :=
  match f, ds with
  | SF_Up, (DS_Up | DS_Running) => true
  | SF_Late, DS_Late => true
  | SF_Down, DS_Down => true
  | _, _ => false
  end.

Record StatusTally := mk_StatusTally { tl_total : Z; tl_up : Z; tl_late : Z; tl_down : Z }.
Definition no_tally : StatusTally := mk_StatusTally 0 0 0 0.
Definition tally_count (t : StatusTally) (ds : DisplayStatus) : StatusTally :=
  let total := tl_total t + 1 in
  match ds with
  | DS_Up | DS_Running => mk_StatusTally total (tl_up t + 1) (tl_late t) (tl_down t)
  | DS_Late => mk_StatusTally total (tl_up t) (tl_late t + 1) (tl_down t)
  | DS_Down => mk_StatusTally total (tl_up t) (tl_late t) (tl_down t + 1)
  | _ => mk_StatusTally total (tl_up t) (tl_late t) (tl_down t)
  end.

(** [last_activity_at(b).cmp(&last_activity_at(a)).then(a.id.cmp(&b.id))]. *)
Definition activity_le (a b : Check) : Prop :=
  option_gtb (last_activity_at a) (last_activity_at b) = true \/
  last_activity_at a = last_activity_at b /\ c_id a <= c_id b.
#[export] Instance activity_le_dec : RelDecision activity_le.
Proof. intros a b. unfold activity_le. apply _. Defined.
Definition sort_checks_by_activity : list Check -> list Check := merge_sort activity_le.

Section listing.
Context `{Chrono} `{PageText}.

(** [haystack.to_lowercase().contains(needle)]. *)
Definition matches_term (haystack needle : str) : bool :=
  bool_decide (is_Some (find_str needle (to_lowercase haystack))).

Definition name_le (a b : Project) : Prop :=
  str_ltb (to_lowercase (p_name a)) (to_lowercase (p_name b)) = true \/
  to_lowercase (p_name a) = to_lowercase (p_name b) /\ p_id a <= p_id b.
#[export] Instance name_le_dec : RelDecision name_le.
Proof. intros a b. unfold name_le. apply _. Defined.
Definition sort_projects_by_name : list Project -> list Project := merge_sort name_le.

(** The map of checks loses each project's as they are taken. *)
Fixpoint filter_project_checks (projects : list Project) (checks_by_project : gmap Z (list Check))
    (needle : str) : list (Project * list Check) :=
  match projects with
  | [] => []
  | project :: rest =>
      let checks := sort_checks_by_activity (default [] (checks_by_project !! p_id project)) in
      let project_hit := is_empty needle || matches_term (p_name project) needle
                         || matches_term (p_description project) needle in
      let checks := if project_hit then checks
                    else List.filter (fun c => matches_term (c_name c) needle
                                               || matches_term (c_description c) needle) checks in
      let later := filter_project_checks rest (delete (p_id project) checks_by_project) needle in
      if negb project_hit && is_empty checks then later else (project, checks) :: later
  end.

(** ** The query of a check's history *)

Record CheckPageQuery := mk_CheckPageQuery {
  q_pb : option Z;
  q_pa : option Z;
  q_nb : option Z;
  q_na : option Z;
  q_pk : option str;
  q_pfrom : option str;
  q_pto : option str;
  q_ne : option str;
  q_ns : option str;
  q_nfrom : option str;
  q_nto : option str;
}.

(** [v.map(str::trim).filter(|s| !s.is_empty())]. *)
Definition nonblank_text (v : option str) : option str :=
  s ← v; let t := trim s in if is_empty t then None else Some t.
Definition parse_filter_enum {T} `{StrEnum T} (v : option str) : list T :=
  match nonblank_text v with
  | Some s => match from_str s with Ok t => [t] | Err _ => [] end
  | None => []
  end.
Definition parse_filter_text (v : option str) : option str := nonblank_text v.

Definition parse_date_bound (v : option str) : option Z :=
  s ← nonblank_text v;
  match parse_from_rfc3339 s with
  | Some dt => Some dt
  | None =>
      match parse_naive s (lit "%Y-%m-%dT%H:%M:%S") with
      | Some ndt => Some ndt
      | None => parse_naive s (lit "%Y-%m-%dT%H:%M")
      end
  end.

Definition ping_filter_from (page : CheckPageQuery) : PingFilter := {|
  pf_kinds := parse_filter_enum (q_pk page);
  pf_from := parse_date_bound (q_pfrom page);
  pf_to := parse_date_bound (q_pto page) |}.
Definition notif_filter_from (page : CheckPageQuery) : NotifFilter := {|
  nf_events := parse_filter_enum (q_ne page);
  nf_statuses := parse_filter_enum (q_ns page);
  nf_from := parse_date_bound (q_nfrom page);
  nf_to := parse_date_bound (q_nto page) |}.

Definition page_cursor (before after : option Z) : PageCursor :=
  match before, after with
  | Some b, _ => PC_Before b
  | None, Some a => PC_After a
  | None, None => PC_Latest
  end.

Definition first_token {T} (values : list T) (as_token : T -> str) : str :=
  match values with v :: _ => as_token v | [] => [] end.
Definition date_bound_token (dt : option Z) : str :=
  match dt with Some d => to_rfc3339_secs d | None => [] end.

Definition neighbour_ids {T} (page : Keyset.Page T) (id_of : T -> Z) : option Z * option Z :=
  let older := if pa_has_older page then last (pa_items page) else None in
  let newer := if pa_has_newer page then head (pa_items page) else None in
  (id_of <$> older, id_of <$> newer).

(** [path?key=id], then the carried pairs that are not empty. *)
Definition history_href (path : str) (cursor : str * Z) (carry : list (str * str)) : str :=
  path ++ lit "?" ++ cursor.1 ++ lit "=" ++ show_Z cursor.2
  ++ flat_map (fun kv => if is_empty kv.2 then [] else lit "&" ++ kv.1 ++ lit "=" ++ kv.2) carry.

Record FilterTokens := mk_FilterTokens {
  ft_kind : str; ft_p_from : str; ft_p_to : str;
  ft_event : str; ft_status : str; ft_n_from : str; ft_n_to : str }.
Definition check_page_filter_tokens (t : FilterTokens) : list (str * str) := [
  (lit "pk", ft_kind t); (lit "pfrom", ft_p_from t); (lit "pto", ft_p_to t);
  (lit "ne", ft_event t); (lit "ns", ft_status t); (lit "nfrom", ft_n_from t);
  (lit "nto", ft_n_to t)].
(** The tokens of both histories' filters. *)
Definition tokens_of (f : PingFilter) (n : NotifFilter) : FilterTokens := {|
  ft_kind := first_token (pf_kinds f) as_str;
  ft_p_from := date_bound_token (pf_from f);
  ft_p_to := date_bound_token (pf_to f);
  ft_event := first_token (nf_events n) as_str;
  ft_status := first_token (nf_statuses n) as_str;
  ft_n_from := date_bound_token (nf_from n);
  ft_n_to := date_bound_token (nf_to n) |}.
Definition PINGS_FILTER_KEYS : list str := [lit "pk"; lit "pfrom"; lit "pto"].
Definition NOTIFS_FILTER_KEYS : list str := [lit "ne"; lit "ns"; lit "nfrom"; lit "nto"].

Definition carry_fields (all : list (str * str)) (mine : list str) : list HiddenField :=
  map (fun kv => mk_HiddenField kv.1 kv.2)
    (List.filter (fun kv => negb (is_empty kv.2) && negb (bool_decide (kv.1 ∈ mine))) all).

(** The first field after a [?], the others after a [&]. *)
Definition clear_href (path : str) (carry : list HiddenField) : str :=
  path ++ concat (imap (fun i f =>
    (match i with O => lit "?" | S _ => lit "&" end) ++ hf_name f ++ lit "=" ++ hf_value f) carry).

Definition wants_fragment (headers : HeaderMap) : bool :=
  match header_get headers (lit "x-requested-with") with
  | Some (Some v) => bool_decide (v = lit "fetch")
  | _ => false
  end.
Definition fragment_page_redirect (path anchor : str) (query : option str) : Response :=
  let q := default [] query in
  redirect_to [] (path ++ (if is_empty q then [] else lit "?") ++ q ++ lit "#" ++ anchor).

(** ** The rows of a history *)

Definition ping_row (durations : gmap Z Z) (p : Ping) : Html.PingRow := {|
  Html.hp_time := format_utc (pg_created_at p);
  Html.hp_iso := to_rfc3339 (pg_created_at p);
  Html.hp_pill_class := ping_pill_class (pg_kind p);
  Html.hp_kind_label := as_str (pg_kind p);
  Html.hp_exit := match pg_exit_code p with Some c => lit "exit " ++ show_Z c | None => dash end;
  Html.hp_duration := match durations !! pg_id p with Some d => fmt_secs d | None => dash end;
  Html.hp_source := default dash (pg_source_ip p);
  Html.hp_body := pg_body p |}.
Definition ping_rows (pings : list Ping) (durations : gmap Z Z) : list Html.PingRow :=
  map (ping_row durations) pings.

Definition notification_row (channel_names : gmap Z str) (n : Notification) : Html.NotificationRow := {|
  Html.hn_created_at := format_utc (n_created_at n);
  Html.hn_iso := to_rfc3339 (n_created_at n);
  Html.hn_event := as_str (n_event n);
  Html.hn_event_pill_class := notif_event_pill_class (n_event n);
  Html.hn_status := as_str (n_status n);
  Html.hn_channel := default (lit "(deleted)") (channel_names !! n_channel_id n);
  Html.hn_error := default [] (n_error n) |}.
Definition notification_rows (notifications : list Notification) (channel_names : gmap Z str)
  : list Html.NotificationRow :=
  map (notification_row channel_names) notifications.

(** ** The forms an edit page opens with *)

Definition opt_duration (v : option Z) : str :=
  match v with Some s => fmt_duration s | None => [] end.

Definition empty_project_form : ProjectForm := mk_ProjectForm [] [] [] [].
Definition project_form_of (p : Project) : ProjectForm := {|
  pf_name := p_name p;
  pf_description := p_description p;
  pf_scan_interval_secs := opt_duration (p_scan_interval_secs p);
  pf_nag_interval_secs := opt_duration (p_nag_interval_secs p) |}.

Definition empty_check_fields : CheckForm := {|
  ckf_name := [];
  ckf_description := [];
  ckf_schedule_kind := lit "period";
  ckf_period_secs := [];
  ckf_cron_expr := [];
  ckf_grace_secs := lit "5m";
  ckf_timezone := lit "UTC";
  ckf_scan_interval_secs := [];
  ckf_max_runtime_secs := [];
  ckf_nag_interval_secs := [] |}.
Definition empty_check_form (heading action : str) (is_admin : bool) (csrf : str) : Page :=
  P_CheckForm csrf heading action is_admin empty_check_fields None.
Definition check_form_of (c : Check) : CheckForm := {|
  ckf_name := c_name c;
  ckf_description := c_description c;
  ckf_schedule_kind := as_str (c_schedule_kind c);
  ckf_period_secs := opt_duration (c_period_secs c);
  ckf_cron_expr := default [] (c_cron_expr c);
  ckf_grace_secs := fmt_duration (c_grace_secs c);
  ckf_timezone := c_timezone c;
  ckf_scan_interval_secs := opt_duration (c_scan_interval_secs c);
  ckf_max_runtime_secs := opt_duration (c_max_runtime_secs c);
  ckf_nag_interval_secs := opt_duration (c_nag_interval_secs c) |}.
End listing.

Section status_label.
Context `{Cron}.

Definition status_since_label (check : Check) (now : Z) : exec str :=
  let* ds := display_status check now in
  let relative missing := match c_last_ping_at check with
                          | Some t => fmt_relative t now
                          | None => missing
                          end in
  Done (match ds with
        | DS_Down =>
            lit "down · " ++ relative (lit "no pings yet") ++ lit " · "
            ++ (if c_acknowledged check then lit "acknowledged" else lit "not acknowledged")
        | _ => lit "updated " ++ relative (lit "never")
        end).

Definition dashboard_check_row (c : Check) (pings : list PingSummary) (no_channel : bool) (now : Z)
  : exec Html.CheckRow :=
  let bars := heartbeat pings (c_max_runtime_secs c) (bool_decide (c_status c = CS_Paused)) 6 in
  let* ds := display_status c now in
  Done {|
    Html.hc_id := c_id c;
    Html.hc_name := c_name c;
    Html.hc_status := DisplayStatus_as_str ds;
    Html.hc_schedule := schedule_label c;
    Html.hc_last := match c_last_ping_at c with Some t => fmt_relative t now | None => dash end;
    Html.hc_bars := bars;
    Html.hc_description := truncate_plain (c_description c) 120;
    Html.hc_no_channel := no_channel |}.
End status_label.

(** ** Opening and saving an edit form *)

Lemma parse_shown_duration s : 0 <= s <= i64_max -> parse_duration (fmt_duration s) = Some s.
Proof.
  intros Hs. rewrite parse_fmt_duration by (unfold i64_min, i64_max in *; lia). f_equal. lia.
Qed.

Lemma trim_fmt_duration s : trim (fmt_duration s) = fmt_duration s /\ is_empty (fmt_duration s) = false.
Proof.
  destruct (fmt_duration_no_blanks s) as [Hb Hn]. split; [by apply trim_no_blanks|].
  by destruct (fmt_duration s).
Qed.

Lemma reparse_opt_duration s field v :
  parse_opt_positive_duration s field = Ok v ->
  parse_opt_positive_duration (opt_duration v) field = Ok v.
Proof.
  intros E. destruct v as [v|]; [|done]. apply parse_opt_positive_duration_pos in E as Hv.
  unfold parse_opt_positive_duration, opt_duration. destruct (trim_fmt_duration v) as [-> ->].
  rewrite parse_shown_duration by lia. by rewrite (proj2 (Z.ltb_lt 0 v)) by lia.
Qed.

Lemma validate_description_again s d : validate_description s = Ok d -> validate_description d = Ok d.
Proof.
  unfold validate_description. intros E. destruct (_ <? _) eqn:F in E; [done|]. injection E as <-.
  by rewrite trim_trim, F.
Qed.

(** What a validated form is stored as. *)
Definition stored_project (v : str * str * option Z * option Z) (p : Project) : Prop :=
  v = (p_name p, p_description p, p_scan_interval_secs p, p_nag_interval_secs p).
Definition stored_check (v : ValidatedCheck) (c : Check) : Prop :=
  v = {| vc_name := c_name c; vc_description := c_description c; vc_kind := c_schedule_kind c;
         vc_period_secs := c_period_secs c; vc_grace := c_grace_secs c;
         vc_cron_expr := c_cron_expr c; vc_timezone := c_timezone c;
         vc_scan_interval_secs := c_scan_interval_secs c;
         vc_max_runtime_secs := c_max_runtime_secs c;
         vc_nag_interval_secs := c_nag_interval_secs c |}.

Lemma project_form_again form v p :
  validate_project form = Ok v -> stored_project v p -> validate_project (project_form_of p) = Ok v.
Proof.
  intros E ->. unfold validate_project in E. destruct (is_empty (trim (pf_name form))) eqn:En; [done|].
  apply res_bind_ok in E as (d & Ed & E). apply res_bind_ok in E as (scan & Es & E).
  apply res_bind_ok in E as (nag & Eg & E). injection E as Hn Hd Hs Hg.
  unfold validate_project. cbn [project_form_of pf_name pf_description pf_scan_interval_secs pf_nag_interval_secs].
  rewrite <- Hn, <- Hd, <- Hs, <- Hg, trim_trim, En.
  rewrite (validate_description_again _ _ Ed). cbn [res_bind].
  rewrite (reparse_opt_duration _ _ _ Es). cbn [res_bind].
  by rewrite (reparse_opt_duration _ _ _ Eg).
Qed.

Section edit_forms.
Context `{CronLaws} `{!ChronoLaws}.

Lemma validate_timezone_again raw tz : validate_timezone raw = Ok tz -> validate_timezone tz = Ok tz.
Proof.
  assert (forall z, tz_parse (tz_name z) = Some z -> validate_timezone (tz_name z) = Ok (tz_name z)) as Hn.
  { intros z Hz. destruct (tz_name_plain z) as [Hne Hb]. unfold validate_timezone.
    rewrite (trim_no_blanks _ Hb). destruct (is_empty (tz_name z)) eqn:Ez; [by destruct (tz_name z)|].
    by rewrite Hz. }
  unfold validate_timezone at 1. intros E. destruct (is_empty (trim raw)).
  - injection E as <-. rewrite <- tz_name_utc. apply Hn. rewrite tz_name_utc. apply tz_parse_utc.
  - destruct (tz_parse (trim raw)) as [z|] eqn:Ez; [|done]. injection E as <-.
    apply Hn. by eapply tz_parse_name.
Qed.

(** The schedule again, from the form of a check that was stored with it. *)
Lemma validate_schedule_again kind form c :
  validate_schedule kind form = Ok (c_period_secs c, c_cron_expr c) ->
  validate_schedule kind (check_form_of c) = Ok (c_period_secs c, c_cron_expr c).
Proof.
  intros E. pose proof E as E0. apply validate_schedule_Ok in E0. destruct kind.
  - destruct E0 as (p & Es & Hp). injection Es as Ep Ex. unfold validate_schedule.
    cbn [check_form_of ckf_period_secs]. rewrite Ep, Ex. cbn [opt_duration].
    destruct (trim_fmt_duration p) as [-> ->]. rewrite parse_shown_duration by lia.
    cbn [ok_or_else res_bind]. by rewrite (proj2 (Z.leb_gt p 0)) by lia.
  - destruct E0 as (x & sch & Es & Hx). injection Es as Ep Ex. unfold validate_schedule in *.
    cbn [check_form_of ckf_cron_expr]. rewrite Ep, Ex in *. change (default [] (Some x)) with x.
    destruct (is_empty (trim (ckf_cron_expr form))) eqn:En; [done|].
    destruct (schedule_from_str (trim (ckf_cron_expr form))) eqn:Eq; [|done]. injection E as Ex'.
    rewrite <- Ex', trim_trim, En, Eq. done.
Qed.

Lemma check_form_again form v c :
  validate_check form = Ok v -> stored_check v c -> validate_check (check_form_of c) = Ok v.
Proof.
  intros E ->. apply validate_check_Ok in E as (Hn & Hne & Hd & Hlen & Hg & Hs & Hz & Hscan & Hmax & Hnag).
  cbn [vc_name vc_description vc_grace vc_kind vc_period_secs vc_cron_expr vc_timezone
    vc_scan_interval_secs vc_max_runtime_secs vc_nag_interval_secs] in *.
  unfold validate_check.
  cbn [check_form_of ckf_name ckf_description ckf_schedule_kind ckf_grace_secs ckf_timezone
    ckf_scan_interval_secs ckf_max_runtime_secs ckf_nag_interval_secs].
  assert (trim (c_name c) = c_name c) as -> by (rewrite Hn; apply trim_trim). destruct (is_empty (c_name c)) eqn:En; [by destruct (c_name c)|].
  assert (validate_description (c_description c) = Ok (c_description c)) as ->.
  { assert (trim (c_description c) = c_description c) as Ht by (rewrite Hd; apply trim_trim).
    unfold validate_description. rewrite Ht. by rewrite (proj2 (Z.ltb_ge _ _)) by lia. }
  cbn [res_bind]. rewrite parse_shown_duration by lia. cbn [ok_or_else res_bind].
  rewrite (proj2 (Z.ltb_ge _ _)) by lia.
  rewrite from_str_as_str. cbn [res_bind].
  rewrite (validate_schedule_again _ _ _ Hs). cbn [res_bind].
  rewrite (validate_timezone_again _ _ Hz). cbn [res_bind].
  rewrite (reparse_opt_duration _ _ _ Hscan). cbn [res_bind].
  rewrite (reparse_opt_duration _ _ _ Hmax). cbn [res_bind].
  rewrite (reparse_opt_duration _ _ _ Hnag). done.
Qed.
End edit_forms.

(** ** The links of a page keep its filters *)

(** The query a browser sends for a list of fields: an absent one is [None]. *)
Definition field_of (fields : list (str * str)) (name : str) : option str :=
  snd <$> List.find (fun kv => bool_decide (kv.1 = name)) fields.
Definition query_of (fields : list (str * str)) : CheckPageQuery := {|
  q_pb := None; q_pa := None; q_nb := None; q_na := None;
  q_pk := field_of fields (lit "pk");
  q_pfrom := field_of fields (lit "pfrom");
  q_pto := field_of fields (lit "pto");
  q_ne := field_of fields (lit "ne");
  q_ns := field_of fields (lit "ns");
  q_nfrom := field_of fields (lit "nfrom");
  q_nto := field_of fields (lit "nto") |}.

(** The fields a link or a form sends: those that are not empty. *)
Definition sent (fields : list (str * str)) : list (str * str) :=
  List.filter (fun kv => negb (is_empty kv.2)) fields.

(** An instant at the start of its second, as [to_rfc3339_secs] writes it. *)
Definition whole_second (t : Z) : Z := t / ns * ns.

Class PageTextLaws `{ChronoLaws} `{PageText} := {
  parse_secs : forall t, text_ok t -> parse_from_rfc3339 (to_rfc3339_secs t) = Some (whole_second t);
  secs_plain : forall t, to_rfc3339_secs t <> [] /\
    forallb (fun c => negb (is_whitespace c)) (to_rfc3339_secs t) = true;
  lowercase_nil : to_lowercase [] = [];
}.

Section carried.
Context `{PageTextLaws}.

Definition bound_ok (b : option Z) : Prop := forall t, b = Some t -> text_ok t.

Lemma nonblank_text_Some v s : nonblank_text v = Some s -> trim s = s /\ s <> [].
Proof.
  unfold nonblank_text. intros E. apply bind_Some in E as (r & _ & E).
  destruct (is_empty (trim r)) eqn:Er; [done|]. injection E as <-. rewrite trim_trim.
  split; [done|]. by destruct (trim r).
Qed.
Lemma nonblank_text_again s : trim s = s -> s <> [] -> nonblank_text (Some s) = Some s.
Proof.
  intros Ht Hn. unfold nonblank_text. cbn. rewrite Ht. by destruct s.
Qed.

(** A token is read back as what it was written from, and an absent one as no filter. *)
Lemma parse_filter_enum_cases {T} `{StrEnumLaws T} v :
  (parse_filter_enum v : list T) = [] \/
  exists x : T, parse_filter_enum v = [x] /\ trim (as_str x) = as_str x /\ as_str x <> [].
Proof.
  unfold parse_filter_enum. destruct (nonblank_text v) as [s|] eqn:E; [|by left].
  destruct (from_str s) as [x|] eqn:Ex; [|by left]. apply nonblank_text_Some in E as [Ht Hn].
  apply from_str_Ok in Ex. subst s. right. eauto.
Qed.
Lemma enum_token_again {T} `{StrEnumLaws T} v (l : list T) :
  parse_filter_enum v = l ->
  parse_filter_enum (Some (first_token l as_str)) = l /\ (first_token l as_str = [] -> l = []).
Proof.
  intros <-. destruct (parse_filter_enum_cases (T:=T) v) as [->|(x & -> & Ht & Hn)]; [done|].
  cbn [first_token]. split; [|done]. unfold parse_filter_enum.
  rewrite nonblank_text_again by done. by rewrite from_str_as_str.
Qed.
Lemma date_token_again b :
  bound_ok b -> parse_date_bound (Some (date_bound_token b)) = whole_second <$> b /\
  (date_bound_token b = [] -> b = None).
Proof.
  intros Hb. destruct b as [t|]; [|done]. cbn [date_bound_token].
  destruct (secs_plain t) as [Hn Hp]. split; [|done]. unfold parse_date_bound.
  rewrite nonblank_text_again by (done || by apply trim_no_blanks). cbn.
  by rewrite parse_secs by by apply Hb.
Qed.

(** A field that was sent or left out, and how it is then read. *)
Lemma field_of_sent fields name v :
  field_of fields name = Some v -> NoDup (map fst fields) ->
  field_of (sent fields) name = if is_empty v then None else Some v.
Proof.
  unfold field_of, sent. induction fields as [|[k w] fields IH]; [done|].
  cbn [List.find List.filter map fst snd]. intros E Hnd. apply NoDup_cons in Hnd as [Hk Hnd].
  destruct (bool_decide_reflect (k = name)) as [->|Hne].
  - injection E as <-. destruct (is_empty w) eqn:Ew; cbn [negb].
    + clear IH. destruct (List.find _ _) as [[k' w']|] eqn:F; [|done]. exfalso.
      apply find_some in F as [F Fn]. apply filter_In in F as [F _]. bool_to_prop. cbn in Fn. subst k'.
      apply Hk, list_elem_of_In, in_map_iff. by exists (name, w').
    + cbn [List.find fst]. by rewrite bool_decide_true.
  - destruct (negb (is_empty w)); [|by apply IH]. cbn [List.find fst].
    rewrite bool_decide_false by done. by apply IH.
Qed.

Lemma token_keys_nodup tk : NoDup (map fst (check_page_filter_tokens tk)).
Proof. apply (bool_decide_eq_true_1 (NoDup _)). vm_compute. reflexivity. Qed.

(** A filter with its bounds at the start of their seconds. *)
Definition whole_ping_filter (f : PingFilter) : PingFilter :=
  mk_PingFilter (pf_kinds f) (whole_second <$> pf_from f) (whole_second <$> pf_to f).
Definition whole_notif_filter (f : NotifFilter) : NotifFilter :=
  mk_NotifFilter (nf_events f) (nf_statuses f) (whole_second <$> nf_from f) (whole_second <$> nf_to f).

Lemma enum_field_again {T} `{StrEnumLaws T} v (l : list T) fields name :
  parse_filter_enum v = l -> NoDup (map fst fields) ->
  field_of fields name = Some (first_token l as_str) ->
  parse_filter_enum (field_of (sent fields) name) = l.
Proof.
  intros El Hnd Hf. apply enum_token_again in El as [E1 E2].
  rewrite (field_of_sent _ _ _ Hf Hnd). destruct (is_empty _) eqn:Ee; [|done].
  symmetry. apply E2. by destruct (first_token l as_str).
Qed.
Lemma date_field_again b fields name :
  bound_ok b -> NoDup (map fst fields) -> field_of fields name = Some (date_bound_token b) ->
  parse_date_bound (field_of (sent fields) name) = whole_second <$> b.
Proof.
  intros Hb Hnd Hf. apply date_token_again in Hb as [E1 E2].
  rewrite (field_of_sent _ _ _ Hf Hnd). destruct (is_empty _) eqn:Ee; [|done].
  by rewrite E2 by by destruct (date_bound_token b).
Qed.

(** Paging through a check's history keeps both filters. The tokens a page writes into
    its links and forms, empty ones left out, are read back as the same filters, with their
    bounds cut to the start of their second. *)
Theorem links_keep_filters page :
  let f := ping_filter_from page in
  let n := notif_filter_from page in
  bound_ok (pf_from f) -> bound_ok (pf_to f) -> bound_ok (nf_from n) -> bound_ok (nf_to n) ->
  let page' := query_of (sent (check_page_filter_tokens (tokens_of f n))) in
  ping_filter_from page' = whole_ping_filter f /\ notif_filter_from page' = whole_notif_filter n.
Proof.
  intros f n Hpf Hpt Hnf Hnt page'.
  pose proof (token_keys_nodup (tokens_of f n)) as Hnd.
  unfold page', ping_filter_from at 1, notif_filter_from at 1, whole_ping_filter, whole_notif_filter.
  cbn [query_of q_pk q_pfrom q_pto q_ne q_ns q_nfrom q_nto].
  split; f_equal.
  all: first [by eapply enum_field_again|by apply date_field_again].
Qed.
End carried.

(** ** A witness *)

Module SamplePageText.
Import SampleChrono.
#[local] Existing Instances sample_chrono sample_chrono_laws.
#[export] Instance sample_page_text : PageText := {|
  to_lowercase := to_ascii_lowercase;
  to_rfc3339_secs t := to_rfc3339 (whole_second t);
  parse_naive _ _ := None;
|}.

Lemma whole_second_ok t : text_ok t -> text_ok (whole_second t).
Proof.
  unfold text_ok, whole_second, text_min, text_max, ns. intros Ht.
  Z.to_euclidean_division_equations. lia.
Qed.

#[export] Instance sample_page_text_laws : PageTextLaws.
Proof.
  split.
  - intros t Ht. cbn [to_rfc3339_secs sample_page_text]. by apply parse_to_rfc3339, whole_second_ok.
  - intros t. cbn [to_rfc3339_secs sample_page_text]. split; [apply to_rfc3339_nonempty|].
    cbn [to_rfc3339 sample_chrono]. unfold print. case_decide as Ht; [|done].
    destruct (fixed_width_digits width (whole_second t - text_min)) as [Hd _]; [by apply text_ok_width|].
    revert Hd. rewrite !forallb_forall. intros Hd c Hc. apply Hd, digit_not_blank in Hc. by rewrite Hc.
  - done.
Qed.
End SamplePageText.

#[local] Existing Instances SampleChrono.sample_chrono SampleChrono.sample_chrono_laws.
#[local] Existing Instances SamplePageText.sample_page_text SamplePageText.sample_page_text_laws.

(** A day of the year 2027, to the half second, and failures only. *)
Definition sample_instant : Z := 1800000000 * ns + 500000000.
Definition sample_query : CheckPageQuery := {|
  q_pb := Some 40; q_pa := None; q_nb := None; q_na := None;
  q_pk := Some (lit " fail ");
  q_pfrom := Some (SampleChrono.print sample_instant);
  q_pto := None;
  q_ne := Some (lit "nonsense");
  q_ns := None;
  q_nfrom := None;
  q_nto := None |}.

Lemma links_keep_filters_witness :
  ping_filter_from (query_of (sent (check_page_filter_tokens
    (tokens_of (ping_filter_from sample_query) (notif_filter_from sample_query)))))
  = mk_PingFilter [PK_Fail] (Some (1800000000 * ns)) None.
Proof.
  destruct (links_keep_filters sample_query) as [H _].
  - assert (pf_from (ping_filter_from sample_query) = Some sample_instant) as E
      by (vm_compute; reflexivity).
    rewrite E. intros t [= <-]. unfold text_ok, text_min, text_max, sample_instant, ns. lia.
  - assert (pf_to (ping_filter_from sample_query) = None) as E by (vm_compute; reflexivity).
    rewrite E. intros t [=].
  - assert (nf_from (notif_filter_from sample_query) = None) as E by (vm_compute; reflexivity).
    rewrite E. intros t [=].
  - assert (nf_to (notif_filter_from sample_query) = None) as E by (vm_compute; reflexivity).
    rewrite E. intros t [=].
  - rewrite H. vm_compute. reflexivity.
Defined.
