(* ===== verification/Owner.v ===== *)
(** * Owner: the handlers of [src/web.rs] on projects, checks and channel bindings

    Each handler takes the user its extractor let in. On the owner's surface the object
    is resolved by [owned_*], on the administrator's by [admin_*], which audits what is
    not a GET; the work behind both is the same. *)
From S2P Require Import Prelude Text Models Config Wire Secret Chrono Auth Db Rows Store Sessions Sample Notify Scheduler Forms Channels Errors Access Templates Web.
#[local] Open Scope Z_scope.
#[local] Open Scope pw_scope.

(** A link below [/] or [/admin], and the object it names. *)
Definition admin_prefix (admin : bool) : str := if admin then lit "/admin" else [].
Definition project_url (admin : bool) (id : Z) : str :=
  admin_prefix admin ++ lit "/projects/" ++ show_Z id.
Definition check_url (admin : bool) (id : Z) : str :=
  admin_prefix admin ++ lit "/checks/" ++ show_Z id.
Definition see (url : str) : M (res AppError Response) := mret (Ok (redirect_to [] url)).

Record PageSession := mk_PageSession { ps_is_admin : bool; ps_csrf : str }.
Record PageContext := mk_PageContext { pc_admin : bool; pc_session : PageSession }.
Definition owner_context (is_admin : bool) (csrf : str) : PageContext :=
  mk_PageContext false (mk_PageSession is_admin csrf).
Definition admin_context (csrf : str) : PageContext := mk_PageContext true (mk_PageSession true csrf).

Section owner.
Context `{Cron} `{Crypto} `{HashOrder} `{NotifyDeps} `{!JsonText}.

(** ** The work behind both surfaces *)

Definition project_update_core (admin : bool) (id : Z) (form : ProjectForm) (session : PageSession)
  : M (res AppError Response) :=
  match validate_project form with
  | Err msg => mret (Ok (page_response (P_ProjectForm (ps_csrf session) (lit "Edit project")
                 (project_url admin id) (ps_is_admin session) form (Some msg))))
  | Ok v =>
      let? _ := db (update_project id (project_settings v)) in
      see (project_url admin id)
  end.

Definition check_create_core (pid : Z) (form : CheckForm) (ctx : PageContext)
  : M (res AppError Response) :=
  let admin := pc_admin ctx in
  match validate_check form with
  | Err msg => mret (Ok (page_response (P_CheckForm (ps_csrf (pc_session ctx)) (lit "New check")
                 (project_url admin pid ++ lit "/checks") (ps_is_admin (pc_session ctx)) form
                 (Some msg))))
  | Ok v =>
      do uuid := new_v4 in
      let? id := db (create_check {|
        nc_project_id := pid;
        nc_name := vc_name v;
        nc_description := vc_description v;
        nc_ping_uuid := uuid;
        nc_kind := vc_kind v;
        nc_period_secs := vc_period_secs v;
        nc_grace_secs := vc_grace v;
        nc_cron_expr := vc_cron_expr v;
        nc_timezone := vc_timezone v;
        nc_scan_interval_secs := vc_scan_interval_secs v;
        nc_max_runtime_secs := vc_max_runtime_secs v;
        nc_nag_interval_secs := vc_nag_interval_secs v |}) in
      let? _ := db (bind_all_project_channels id pid) in
      see (check_url admin id)
  end.

(** What a validated form is stored as. *)
Definition stored_as (v : ValidatedCheck) : UpdateCheck := {|
  uc_name := vc_name v;
  uc_description := vc_description v;
  uc_kind := vc_kind v;
  uc_period_secs := vc_period_secs v;
  uc_grace_secs := vc_grace v;
  uc_cron_expr := vc_cron_expr v;
  uc_timezone := vc_timezone v;
  uc_scan_interval_secs := vc_scan_interval_secs v;
  uc_max_runtime_secs := vc_max_runtime_secs v;
  uc_nag_interval_secs := vc_nag_interval_secs v |}.

Definition check_update_core (id : Z) (form : CheckForm) (ctx : PageContext)
  : M (res AppError Response) :=
  let admin := pc_admin ctx in
  match validate_check form with
  | Err msg => mret (Ok (page_response (P_CheckForm (ps_csrf (pc_session ctx)) (lit "Edit check")
                 (check_url admin id) (ps_is_admin (pc_session ctx)) form (Some msg))))
  | Ok v =>
      let? _ := db (update_check_schedule id (stored_as v)) in
      see (check_url admin id)
  end.

(** [channel_ids]: the boxes ticked in the form. *)
Definition bind_channels (check : Check) (channel_ids : list Z) : M (res AppError unit) :=
  let id := c_id check in
  let? channels := db (list_channels_for_project (c_project_id check)) in
  let valid : gset Z := list_to_set (map ch_id channels) in
  let? bound := db (bound_channel_ids id) in
  let current : gset Z := list_to_set bound in
  let desired : gset Z := list_to_set (List.filter (fun c => bool_decide (c ∈ valid)) channel_ids) in
  let? _ := for_each_try (hash_iter (desired ∖ current)) (fun add => db (bind_channel id add)) in
  for_each_try (hash_iter (current ∖ desired)) (fun remove => db (unbind_channel id remove)).

Definition channels_saved_response (config : Config) (admin : bool) (check_id : Z) (jar : CookieJar)
  : Response :=
  flash_redirect config jar (lit "channels") (check_url admin check_id).

(** What the channel form shows beyond its page context. *)
Record ChannelFormInput := mk_ChannelFormInput {
  cfi_error : option str;
  cfi_edit : option ChannelEditView;
}.

Definition channel_form_template (config : Config) (project_id : Z) (ctx : PageContext)
    (input : ChannelFormInput) : ChannelFormTemplate := {|
  cft_csrf := ps_csrf (pc_session ctx);
  cft_is_admin := ps_is_admin (pc_session ctx);
  cft_admin := pc_admin ctx;
  cft_project_id := project_id;
  cft_error := cfi_error input;
  cft_smtp_available := bool_decide (is_Some (cf_smtp config));
  cft_edit := cfi_edit input;
|}.

Definition channel_create_core (config : Config) (pid : Z) (form : ChannelForm) (ctx : PageContext)
  : M (res AppError Response) :=
  match validate_channel form with
  | Err msg => mret (Ok (page_response (P_ChannelForm
                 (channel_form_template config pid ctx (mk_ChannelFormInput (Some msg) None)))))
  | Ok (kind, name, cfg) =>
      do now := utc_now in
      let? _ := db (create_channel (mk_NewChannel pid kind name cfg) now) in
      see (project_url (pc_admin ctx) pid)
  end.

(** On an error the form is drawn again from the stored channel. *)
Definition channel_update_core (config : Config) (channel : Channel) (form : ChannelForm)
    (ctx : PageContext) : M (res AppError Response) :=
  let pid := ch_project_id channel in
  match validate_channel_update form (Some channel) with
  | Err msg => mret (Ok (page_response (P_ChannelForm (channel_form_template config pid ctx
                 (mk_ChannelFormInput (Some msg) (Some (ChannelEditView_new channel)))))))
  | Ok (_, name, cfg) =>
      let? _ := db (update_channel (ch_id channel) name cfg) in
      see (project_url (pc_admin ctx) pid)
  end.

(** Run [act] if the query is confirmed, else ask. *)
Definition confirming (config : Config) (jar : CookieJar) (is_admin : bool) (confirm : Confirm)
    (action cancel : str) (confirmed : bool) (act : M (res AppError Response))
  : M (res AppError Response) :=
  if confirmed then act
  else mret (Ok (confirmation_page config jar is_admin confirm action cancel)).

(** ** The owner's surface *)

Definition project_create (config : Config) (jar : CookieJar) (user : User) (form : ProjectForm)
  : M (res AppError Response) :=
  match validate_project form with
  | Err msg => mret (Ok (page_response (P_ProjectForm (current_csrf config jar) (lit "New project")
                 (lit "/projects") (u_is_admin user) form (Some msg))))
  | Ok v =>
      do now := utc_now in
      let? id := db (create_project (u_id user) (project_settings v) now) in
      see (project_url false id)
  end.

Definition project_update (config : Config) (jar : CookieJar) (user : User) (id : Z)
    (form : ProjectForm) : M (res AppError Response) :=
  let? _ := owned_project id (u_id user) in
  project_update_core false id form (mk_PageSession (u_is_admin user) (current_csrf config jar)).

Definition project_delete (config : Config) (jar : CookieJar) (user : User) (id : Z)
    (confirmed : bool) : M (res AppError Response) :=
  let? _ := owned_project id (u_id user) in
  confirming config jar (u_is_admin user) CONFIRM_DELETE_PROJECT
    (project_url false id ++ lit "/delete") (project_url false id) confirmed (
    let? _ := db (delete_project id) in see (lit "/")).

Definition check_create (config : Config) (jar : CookieJar) (user : User) (pid : Z)
    (form : CheckForm) : M (res AppError Response) :=
  let? _ := owned_project pid (u_id user) in
  check_create_core pid form (owner_context (u_is_admin user) (current_csrf config jar)).

Definition check_update (config : Config) (jar : CookieJar) (user : User) (id : Z)
    (form : CheckForm) : M (res AppError Response) :=
  let? _ := owned_check id (u_id user) in
  check_update_core id form (owner_context (u_is_admin user) (current_csrf config jar)).

Definition check_pause (user : User) (id : Z) : M (res AppError Response) :=
  let? _ := owned_check id (u_id user) in
  let? _ := db (set_status id CS_Paused) in see (check_url false id).
Definition check_resume (user : User) (id : Z) : M (res AppError Response) :=
  let? _ := owned_check id (u_id user) in
  let? _ := db (set_status id CS_New) in see (check_url false id).
Definition check_ack (user : User) (id : Z) : M (res AppError Response) :=
  let? _ := owned_check id (u_id user) in
  let? _ := db (acknowledge id) in see (check_url false id).

Definition check_regenerate (config : Config) (jar : CookieJar) (user : User) (id : Z)
    (confirmed : bool) : M (res AppError Response) :=
  let? _ := owned_check id (u_id user) in
  confirming config jar (u_is_admin user) CONFIRM_REGENERATE_URL
    (check_url false id ++ lit "/regenerate") (check_url false id) confirmed (
    do uuid := new_v4 in
    let? _ := db (regenerate_uuid id uuid) in see (check_url false id)).

Definition check_delete (config : Config) (jar : CookieJar) (user : User) (id : Z)
    (confirmed : bool) : M (res AppError Response) :=
  let? check := owned_check id (u_id user) in
  confirming config jar (u_is_admin user) CONFIRM_DELETE_CHECK
    (check_url false id ++ lit "/delete") (check_url false id) confirmed (
    let? _ := db (delete_check id) in see (project_url false (c_project_id check))).

Definition check_set_channels (config : Config) (jar : CookieJar) (user : User) (id : Z)
    (channel_ids : list Z) : M (res AppError Response) :=
  let? check := owned_check id (u_id user) in
  let? _ := bind_channels check channel_ids in
  mret (Ok (channels_saved_response config false id jar)).

Definition channel_delete (user : User) (id : Z) : M (res AppError Response) :=
  let? channel := owned_channel id (u_id user) in
  let? _ := db (delete_channel id) in see (project_url false (ch_project_id channel)).

Definition channel_create (config : Config) (jar : CookieJar) (user : User) (pid : Z)
    (form : ChannelForm) : M (res AppError Response) :=
  let? _ := owned_project pid (u_id user) in
  channel_create_core config pid form (owner_context (u_is_admin user) (current_csrf config jar)).

Definition channel_update (config : Config) (jar : CookieJar) (user : User) (id : Z)
    (form : ChannelForm) : M (res AppError Response) :=
  let? channel := owned_channel id (u_id user) in
  channel_update_core config channel form (owner_context (u_is_admin user) (current_csrf config jar)).

(** ** The administrator's surface *)

Definition admin_project_update (config : Config) (jar : CookieJar) (admin : User)
    (request : RequestLine) (id : Z) (form : ProjectForm) : M (res AppError Response) :=
  let? _ := admin_project id admin request in
  project_update_core true id form (mk_PageSession true (current_csrf config jar)).

Definition admin_project_delete (config : Config) (jar : CookieJar) (admin : User)
    (request : RequestLine) (id : Z) (confirmed : bool) : M (res AppError Response) :=
  let? _ := admin_project id admin request in
  confirming config jar true CONFIRM_DELETE_PROJECT
    (project_url true id ++ lit "/delete") (project_url true id) confirmed (
    let? _ := db (delete_project id) in see (lit "/admin")).

Definition admin_check_create (config : Config) (jar : CookieJar) (admin : User)
    (request : RequestLine) (pid : Z) (form : CheckForm) : M (res AppError Response) :=
  let? _ := admin_project pid admin request in
  check_create_core pid form (admin_context (current_csrf config jar)).

Definition admin_check_update (config : Config) (jar : CookieJar) (admin : User)
    (request : RequestLine) (id : Z) (form : CheckForm) : M (res AppError Response) :=
  let? _ := admin_check id admin request in
  check_update_core id form (admin_context (current_csrf config jar)).

Definition admin_check_pause (admin : User) (request : RequestLine) (id : Z)
  : M (res AppError Response) :=
  let? _ := admin_check id admin request in
  let? _ := db (set_status id CS_Paused) in see (check_url true id).
Definition admin_check_resume (admin : User) (request : RequestLine) (id : Z)
  : M (res AppError Response) :=
  let? _ := admin_check id admin request in
  let? _ := db (set_status id CS_New) in see (check_url true id).
Definition admin_check_ack (admin : User) (request : RequestLine) (id : Z)
  : M (res AppError Response) :=
  let? _ := admin_check id admin request in
  let? _ := db (acknowledge id) in see (check_url true id).

Definition admin_check_regenerate (config : Config) (jar : CookieJar) (admin : User)
    (request : RequestLine) (id : Z) (confirmed : bool) : M (res AppError Response) :=
  let? _ := admin_check id admin request in
  confirming config jar true CONFIRM_REGENERATE_URL
    (check_url true id ++ lit "/regenerate") (check_url true id) confirmed (
    do uuid := new_v4 in
    let? _ := db (regenerate_uuid id uuid) in see (check_url true id)).

Definition admin_check_delete (config : Config) (jar : CookieJar) (admin : User)
    (request : RequestLine) (id : Z) (confirmed : bool) : M (res AppError Response) :=
  let? check := admin_check id admin request in
  confirming config jar true CONFIRM_DELETE_CHECK
    (check_url true id ++ lit "/delete") (check_url true id) confirmed (
    let? _ := db (delete_check id) in see (project_url true (c_project_id check))).

Definition admin_check_set_channels (config : Config) (jar : CookieJar) (admin : User)
    (request : RequestLine) (id : Z) (channel_ids : list Z) : M (res AppError Response) :=
  let? check := admin_check id admin request in
  let? _ := bind_channels check channel_ids in
  mret (Ok (channels_saved_response config true id jar)).

Definition admin_channel_create (config : Config) (jar : CookieJar) (admin : User)
    (request : RequestLine) (pid : Z) (form : ChannelForm) : M (res AppError Response) :=
  let? _ := admin_project pid admin request in
  channel_create_core config pid form (admin_context (current_csrf config jar)).

Definition admin_channel_update (config : Config) (jar : CookieJar) (admin : User)
    (request : RequestLine) (id : Z) (form : ChannelForm) : M (res AppError Response) :=
  let? channel := admin_channel id admin request in
  channel_update_core config channel form (admin_context (current_csrf config jar)).

Definition admin_channel_delete (admin : User) (request : RequestLine) (id : Z)
  : M (res AppError Response) :=
  let? channel := admin_channel id admin request in
  let? _ := db (delete_channel id) in see (project_url true (ch_project_id channel)).

End owner.

(** ** Requests of a signed-in user *)

Inductive OwnerRequest : Type :=
| OR_ProjectCreate (form : ProjectForm)
| OR_ProjectUpdate (id : Z) (form : ProjectForm)
| OR_ProjectDelete (id : Z) (confirmed : bool)
| OR_CheckCreate (pid : Z) (form : CheckForm)
| OR_CheckUpdate (id : Z) (form : CheckForm)
| OR_CheckPause (id : Z)
| OR_CheckResume (id : Z)
| OR_CheckAck (id : Z)
| OR_CheckRegenerate (id : Z) (confirmed : bool)
| OR_CheckDelete (id : Z) (confirmed : bool)
| OR_CheckSetChannels (id : Z) (channel_ids : list Z)
| OR_ChannelCreate (pid : Z) (form : ChannelForm)
| OR_ChannelUpdate (id : Z) (form : ChannelForm)
| OR_ChannelDelete (id : Z).

Section requests.
Context `{Cron} `{Crypto} `{HashOrder} `{NotifyDeps} `{!JsonText}.

Definition owner_handle (config : Config) (jar : CookieJar) (user : User) (rq : OwnerRequest)
  : M (res AppError Response) :=
  match rq with
  | OR_ProjectCreate form => project_create config jar user form
  | OR_ProjectUpdate id form => project_update config jar user id form
  | OR_ProjectDelete id confirmed => project_delete config jar user id confirmed
  | OR_CheckCreate pid form => check_create config jar user pid form
  | OR_CheckUpdate id form => check_update config jar user id form
  | OR_CheckPause id => check_pause user id
  | OR_CheckResume id => check_resume user id
  | OR_CheckAck id => check_ack user id
  | OR_CheckRegenerate id confirmed => check_regenerate config jar user id confirmed
  | OR_CheckDelete id confirmed => check_delete config jar user id confirmed
  | OR_CheckSetChannels id ids => check_set_channels config jar user id ids
  | OR_ChannelCreate pid form => channel_create config jar user pid form
  | OR_ChannelUpdate id form => channel_update config jar user id form
  | OR_ChannelDelete id => channel_delete user id
  end.

(** The request names an object of the user's, or none. *)
Definition names_own (uid : Z) (d : Db) (rq : OwnerRequest) : Prop :=
  match rq with
  | OR_ProjectCreate _ => True
  | OR_ProjectUpdate id _ | OR_ProjectDelete id _ | OR_CheckCreate id _ | OR_ChannelCreate id _ =>
      owns uid d id
  | OR_CheckUpdate id _ | OR_CheckPause id | OR_CheckResume id | OR_CheckAck id
  | OR_CheckRegenerate id _ | OR_CheckDelete id _ | OR_CheckSetChannels id _ => owned_row uid d id
  | OR_ChannelUpdate id _ | OR_ChannelDelete id =>
      exists r, t_rows (channels d) !! id = Some r /\ owns uid d (chr_project_id r)
  end.

Lemma frames_bind_channels uid P check ids :
  (forall d, P d -> owned_row uid d (c_id check) /\ check_in d (c_id check) (c_project_id check)) ->
  (forall s d, P d -> P (set_bindings s d)) -> frames uid P (bind_channels check ids).
Proof.
  intros Ho Hp. unfold bind_channels. apply frames_listed. intros chs.
  apply frames_mtry; [apply keeps_map_err, keeps_query|]. intros bound.
  apply frames_mtry; [by apply keeps_bind_loop|]. intros _.
  apply keeps_frames, keeps_unbind_loop; [|done]. intros d Hd. by apply Ho.
Qed.

Lemma frames_confirming uid P config jar is_admin confirm action cancel confirmed act :
  frames uid P act -> frames uid P (confirming config jar is_admin confirm action cancel confirmed act).
Proof. intros Ha. unfold confirming. destruct confirmed; [done|apply frames_mret]. Qed.

Lemma frames_check_create_core uid pid form ctx :
  frames uid (fun d => owns uid d pid) (check_create_core pid form ctx).
Proof.
  unfold check_create_core. destruct (validate_check form); [|apply frames_mret].
  apply frames_mbind; [intros d0; apply preserves_new_v4|]. intros uuid.
  eapply frames_yields; [by apply yields_create_check|]. intros id.
  apply frames_then; [by apply frames_bind_all|intros; apply reads_mret].
Qed.

Lemma project_create_confined config jar user form e w r w' :
  sequenced (w_db w) -> project_create config jar user form e w = (r, w') ->
  confined (u_id user) (w_db w) (w_db w').
Proof.
  intros Hs E. assert (frames (u_id user) (fun _ => True) (project_create config jar user form)) as Hf.
  { unfold project_create. destruct (validate_project form); [|apply frames_mret].
    apply frames_mbind; [intros d0; apply preserves_utc_now|]. intros now.
    apply frames_then; [apply frames_create_project|intros; apply reads_mret]. }
  eapply Hf; [|exact E]. split; [by apply confined_refl|done].
Qed.

(** C9: what a user does never touches what is another user's. Whatever fails, a
    request on the owner's surface leaves the users, sessions, settings, keys and the
    audit log alone, and every project, check and channel of other users, with their
    bindings, pings and notifications, exactly as they were: none changed, none gone,
    none added. It binds no check to a channel of another project, whatever boxes the form
    says were ticked, so alerts cannot be routed through someone else's channel. A request
    whose path names an object that does not exist or belongs to someone else is answered
    with an error and changes nothing at all. *)
Theorem owner_requests_confined config jar user rq e w r w' :
  sequenced (w_db w) -> owner_handle config jar user rq e w = (r, w') ->
  untouched (u_id user) (w_db w) (w_db w') /\ sequenced (w_db w') /\
  (bindings_local (w_db w) -> bindings_local (w_db w')) /\
  (~ names_own (u_id user) (w_db w) rq -> w_db w' = w_db w /\ exists x, r = Done (Err x)).
Proof.
  intros Hs E.
  assert (confined (u_id user) (w_db w) (w_db w') /\
    (~ names_own (u_id user) (w_db w) rq -> w_db w' = w_db w /\ exists x, r = Done (Err x)))
    as [(? & ? & ?) ?]; [|done].
  assert (forall {A} (P : A -> Db -> Prop) (m : M (res AppError A)) k,
    resolves P m -> total m -> (forall a, frames (u_id user) (P a) (k a)) ->
    mtry m k e w = (r, w') ->
    (forall a d, P a d -> names_own (u_id user) d rq) ->
    confined (u_id user) (w_db w) (w_db w') /\
    (~ names_own (u_id user) (w_db w) rq -> w_db w' = w_db w /\ exists x, r = Done (Err x))) as Hstep.
  { intros A P m k Hm Ht Hk Em Hn. split; [by eapply resolves_then|].
    intros Hno. eapply resolves_refuse; [done..| |exact Em]. intros a Ha. by eapply Hno, Hn. }
  destruct rq as [form|id form|id ok|pid form|id form|id|id|id|id ok|id ok|id ids|pid form|id form|id];
    cbn [owner_handle] in E.
  { split; [by eapply project_create_confined|]. intros []. done. }
  all: eapply (Hstep _ _ _ _); [| | |exact E|];
    [first [apply owned_project_resolves|apply owned_check_resolves|apply owned_channel_resolves]
    |first [apply owned_project_total|apply owned_check_total|apply owned_channel_total]
    | |cbn; tauto]; intros a; cbn beta.
  - unfold project_update_core. destruct (validate_project form); [|apply frames_mret].
    apply frames_then; [by apply frames_update_project|intros; apply reads_mret].
  - apply frames_confirming, frames_then; [by apply frames_delete_project|intros; apply reads_mret].
  - apply frames_check_create_core.
  - unfold check_update_core. destruct (validate_check form); [|apply frames_mret].
    apply frames_then; [|intros; apply reads_mret]. apply frames_update_check; [tauto|done].
  - apply frames_then; [|intros; apply reads_mret]. apply frames_update_check; [tauto|done].
  - apply frames_then; [|intros; apply reads_mret]. apply frames_update_check; [tauto|done].
  - apply frames_then; [|intros; apply reads_mret]. apply frames_update_check; [tauto|done].
  - apply frames_confirming, frames_mbind; [intros d0; apply preserves_new_v4|]. intros uuid.
    apply frames_then; [|intros; apply reads_mret]. apply frames_regenerate. tauto.
  - apply frames_confirming, frames_then; [|intros; apply reads_mret]. apply frames_delete_check. tauto.
  - apply frames_read_after; [|intros; apply reads_mret]. apply (frames_bind_channels (u_id user) _ a ids); [|done].
    intros d (Ho & <- & _ & Hin). by split.
  - unfold channel_create_core. destruct (validate_channel form) as [[[kind name] cfg]|]; [|apply frames_mret].
    apply frames_mbind; [intros d0; apply preserves_utc_now|]. intros now.
    apply frames_then; [by apply frames_create_channel|intros; apply reads_mret].
  - unfold channel_update_core. destruct (validate_channel_update form (Some a)) as [[[kind name] cfg]|];
      [|apply frames_mret]. apply frames_then; [|intros; apply reads_mret].
    apply frames_update_channel. by intros d (-> & _ & ?).
  - apply frames_then; [|intros; apply reads_mret]. apply frames_delete_channel. tauto.
Qed.

End requests.

(** ** Requests of an administrator *)

Inductive AdminRequest : Type :=
| AMR_ProjectUpdate (id : Z) (form : ProjectForm)
| AMR_ProjectDelete (id : Z) (confirmed : bool)
| AMR_CheckCreate (pid : Z) (form : CheckForm)
| AMR_CheckUpdate (id : Z) (form : CheckForm)
| AMR_CheckPause (id : Z)
| AMR_CheckResume (id : Z)
| AMR_CheckAck (id : Z)
| AMR_CheckRegenerate (id : Z) (confirmed : bool)
| AMR_CheckDelete (id : Z) (confirmed : bool)
| AMR_CheckSetChannels (id : Z) (channel_ids : list Z)
| AMR_ChannelCreate (pid : Z) (form : ChannelForm)
| AMR_ChannelUpdate (id : Z) (form : ChannelForm)
| AMR_ChannelDelete (id : Z).

(** What a request is on. *)
Definition admin_target (rq : AdminRequest) : str * Z :=
  match rq with
  | AMR_ProjectUpdate id _ | AMR_ProjectDelete id _ | AMR_CheckCreate id _ | AMR_ChannelCreate id _ =>
      (lit "project", id)
  | AMR_CheckUpdate id _ | AMR_CheckPause id | AMR_CheckResume id | AMR_CheckAck id
  | AMR_CheckRegenerate id _ | AMR_CheckDelete id _ | AMR_CheckSetChannels id _ => (lit "check", id)
  | AMR_ChannelUpdate id _ | AMR_ChannelDelete id => (lit "channel", id)
  end.

Section admin_requests.
Context `{Cron} `{Crypto} `{HashOrder} `{NotifyDeps} `{!JsonText}.

Definition admin_handle (config : Config) (jar : CookieJar) (admin : User) (request : RequestLine)
    (rq : AdminRequest) : M (res AppError Response) :=
  match rq with
  | AMR_ProjectUpdate id form => admin_project_update config jar admin request id form
  | AMR_ProjectDelete id confirmed => admin_project_delete config jar admin request id confirmed
  | AMR_CheckCreate pid form => admin_check_create config jar admin request pid form
  | AMR_CheckUpdate id form => admin_check_update config jar admin request id form
  | AMR_CheckPause id => admin_check_pause admin request id
  | AMR_CheckResume id => admin_check_resume admin request id
  | AMR_CheckAck id => admin_check_ack admin request id
  | AMR_CheckRegenerate id confirmed => admin_check_regenerate config jar admin request id confirmed
  | AMR_CheckDelete id confirmed => admin_check_delete config jar admin request id confirmed
  | AMR_CheckSetChannels id ids => admin_check_set_channels config jar admin request id ids
  | AMR_ChannelCreate pid form => admin_channel_create config jar admin request pid form
  | AMR_ChannelUpdate id form => admin_channel_update config jar admin request id form
  | AMR_ChannelDelete id => admin_channel_delete admin request id
  end.

(** The resolvers find the row of the identifier, and audit before they yield it. *)
Lemma audit_access_inv admin target id owner request e w r w' :
  audits_as_mutation (rl_method request) = true ->
  audit_access admin target id owner request e w = (r, w') ->
  (w_db w' = w_db w /\ exists x, r = Done (Err x)) \/
  r = Done (Ok tt) /\ audited admin (lit "admin.access") target id (w_db w) (w_db w').
Proof.
  intros Hm E. unfold audit_access in E. rewrite Hm in E.
  apply mbind_inv in E as [[[=] _]|(now & w1 & E1 & E)]. unfold utc_now in E1. injection E1 as _ <-.
  apply mbind_inv in E as [[E ->]|(o & w2 & E2 & E)].
  { by apply record_audit_inv in E as [[_ [x [=]]]|[[i [=]] _]]. }
  apply record_audit_inv in E2 as [[D [x [= ->]]]|[[i [= ->]] Ha]]; injection E as <- <-; [left; eauto|right].
  split; [done|]. exact Ha.
Qed.

(** A resolver: a read that yields what has the identifier, perhaps other reads, the audit. *)
Definition audits {A} (admin : User) (target : str) (id : Z) (m : M (res AppError A)) : Prop :=
  forall e w r w', m e w = (r, w') ->
    (w_db w' = w_db w /\ exists x, r = Done (Err x)) \/
    (exists a, r = Done (Ok a)) /\ audited admin (lit "admin.access") target id (w_db w) (w_db w').

Lemma audits_access {A} admin target id id' owner request (a : A) :
  audits_as_mutation (rl_method request) = true -> id' = id ->
  audits admin target id (mtry (audit_access admin target id' owner request) (fun _ => mret (Ok a))).
Proof.
  intros Hm -> e w r w' E.
  destruct (audit_access admin target id owner request e w) as [r1 w1] eqn:E1. pose proof E1 as Ea.
  apply audit_access_inv in Ea as [[D [x ->]]|[-> Ha]]; [| |done].
  - rewrite (mtry_Err _ _ _ _ _ _ E1) in E. injection E as <- <-. left. eauto.
  - rewrite (mtry_Ok _ _ _ _ _ _ E1) in E. injection E as <- <-. right. eauto.
Qed.

Lemma audits_read {A B} admin target id (P : A -> Prop) (m : M (res AppError A))
    (k : A -> M (res AppError B)) :
  total m -> resolves (fun a _ => P a) m -> (forall a, P a -> audits admin target id (k a)) ->
  audits admin target id (mtry m k).
Proof.
  intros Ht Hm Hk e w r w' E. destruct (Ht e w) as (o & w1 & E1). pose proof (Hm _ _ _ _ E1) as [D Ha].
  destruct o as [a|x].
  - rewrite (mtry_Ok _ _ _ _ _ _ E1) in E. rewrite <- D. by eapply Hk; [apply Ha|].
  - rewrite (mtry_Err _ _ _ _ _ _ E1) in E. injection E as <- <-. left. eauto.
Qed.

Lemma resolves_weaken {E A} (P Q : A -> Db -> Prop) (m : M (res E A)) :
  resolves P m -> (forall a d, P a d -> Q a d) -> resolves Q m.
Proof. intros Hm Hq e w r w' E1. apply Hm in E1 as [D Ha]. split; [done|]. auto. Qed.

(** Looking a row up, and then the row. *)
Lemma audits_found {A B} admin target id (P : A -> Prop) (q : Db -> res DbErr (option A))
    (k : A -> M (res AppError B)) :
  resolves (fun o _ => forall a, o = Some a -> P a) (db (query q)) ->
  (forall a, P a -> audits admin target id (k a)) ->
  audits admin target id (mtry (db (query q)) (fun o => mtry (mret (found o)) k)).
Proof.
  intros Hq Hk. eapply audits_read; [apply total_db, total_query|exact Hq|]. intros o Ho.
  apply (audits_read _ _ _ (fun a => o = Some a)); [apply total_mret| |auto].
  apply resolves_mret. intros a d E. by apply found_Ok.
Qed.

Lemma admin_project_audits id admin request :
  audits_as_mutation (rl_method request) = true ->
  audits admin (lit "project") id (admin_project id admin request).
Proof.
  intros Hm. eapply audits_found; [apply find_project_id|]. intros p Hp. by apply audits_access.
Qed.
Lemma admin_check_audits id admin request :
  audits_as_mutation (rl_method request) = true ->
  audits admin (lit "check") id (admin_check id admin request).
Proof.
  intros Hm. eapply (audits_found _ _ _ (fun c => c_id c = id)).
  { eapply resolves_weaken; [apply resolves_find_check|]. intros o d Ho c ->. by apply Ho. }
  intros c Hc. apply (audits_read _ _ _ (fun _ => True)); [apply total_db, total_query| |].
  - eapply resolves_weaken; [apply resolves_find_project|done].
  - intros p _. by apply audits_access.
Qed.
Lemma admin_channel_audits id admin request :
  audits_as_mutation (rl_method request) = true ->
  audits admin (lit "channel") id (admin_channel id admin request).
Proof.
  intros Hm. eapply (audits_found _ _ _ (fun c => ch_id c = id)).
  { eapply resolves_weaken; [apply resolves_find_channel|]. intros o d Ho c ->. by apply Ho. }
  intros c Hc. apply (audits_read _ _ _ (fun _ => True)); [apply total_db, total_query| |].
  - eapply resolves_weaken; [apply resolves_find_project|done].
  - intros p _. by apply audits_access.
Qed.

(** C33: an administrator does nothing to what is another user's unseen. Whatever the
    request on the administrator's surface and whatever fails, for any method but GET
    either nothing has changed and the answer is an error, or the audit log has gained
    exactly one row, which names the administrator and the object. *)
Theorem admin_requests_audited config jar admin request rq e w r w' :
  audits_as_mutation (rl_method request) = true ->
  admin_handle config jar admin request rq e w = (r, w') ->
  refused_or_audited admin (lit "admin.access") (admin_target rq).1 (admin_target rq).2 w w' r.
Proof.
  intros Hm E. destruct rq; cbn [admin_handle admin_target fst snd] in *.
  all: refine (audited_then _ _ _ _ _ _ e w r w' _ _ E);
    [first [by apply admin_project_audits|by apply admin_check_audits|by apply admin_channel_audits]|].
  all: intros a t; unfold project_update_core, check_create_core, check_update_core, channel_create_core,
    channel_update_core, bind_channels, confirming, see, db; cbv zeta; log_steps.
Qed.
End admin_requests.

(** ** Binding channels *)

Section binding.
Context `{Cron} `{HashOrder}.

Definition bound_to (d : Db) (id ch : Z) : Prop := (id, ch) ∈ check_channels d.

(** The bindings of [d] are those of [d0] but for pairs of [id] with channels in [l]. *)
Definition only_adds (id : Z) (l : list Z) (d0 d : Db) : Prop :=
  d = set_bindings (check_channels d) d0 /\
  forall i ch, bound_to d i ch -> bound_to d0 i ch \/ (i = id /\ ch ∈ l).
Definition only_removes (id : Z) (l : list Z) (d0 d : Db) : Prop :=
  d = set_bindings (check_channels d) d0 /\
  (forall i ch, bound_to d i ch -> bound_to d0 i ch) /\
  forall i ch, bound_to d0 i ch -> bound_to d i ch \/ (i = id /\ ch ∈ l).

Lemma set_bindings_twice s s' d d0 :
  d = set_bindings s' d0 -> set_bindings s d = set_bindings s d0.
Proof. by intros ->. Qed.

Lemma set_bindings_id d : d = set_bindings (check_channels d) d.
Proof. by destruct d. Qed.

Lemma bind_loop {E} (f : DbErr -> E) id l e w r w' :
  for_each_try l (fun add => map_err f (bind_channel id add)) e w = (r, w') ->
  only_adds id l (w_db w) (w_db w') /\
  (forall i ch, bound_to (w_db w) i ch -> bound_to (w_db w') i ch) /\
  (r = Done (Ok tt) -> forall ch, ch ∈ l -> bound_to (w_db w') id ch).
Proof.
  intros Em. set (J d := only_adds id l (w_db w) d /\
    forall i ch, bound_to (w_db w) i ch -> bound_to d i ch).
  edestruct (for_each_try_spec (E := E) J (fun ch d => bound_to d id ch)) as ([HJ HK] & HG & _);
    [| |exact Em|by split; [|split]].
  - intros ch e1 w1 r1 w2 Hch [[Hd Hb] Hk] E1. apply map_err_stmt_inv in E1 as [[-> [x ->]]|([] & d' & Er & -> & ->)].
    + by repeat split.
    + cbv beta in Er. destruct (_ && _); [|done]. injection Er as <-. unfold J, only_adds, bound_to in *.
      cbn [check_channels set_bindings].
      split; [split; [split; [by eapply set_bindings_twice|]|]|split].
      * intros i c. rewrite elem_of_union, elem_of_singleton. intros [[= -> ->]|Hic]; [by right|].
        by apply Hb.
      * intros i c Hic. apply elem_of_union. right. by apply Hk.
      * intros _. set_solver.
      * intros y Hy. set_solver.
  - unfold J, only_adds. split; [|done]. split; [apply set_bindings_id|]. tauto.
Qed.

Lemma unbind_loop {E} (f : DbErr -> E) id l e w r w' :
  for_each_try l (fun remove => map_err f (unbind_channel id remove)) e w = (r, w') ->
  only_removes id l (w_db w) (w_db w') /\
  (r = Done (Ok tt) -> forall ch, ch ∈ l -> ~ bound_to (w_db w') id ch).
Proof.
  intros Em. set (J d := only_removes id l (w_db w) d).
  edestruct (for_each_try_spec (E := E) J (fun ch d => ~ bound_to d id ch)) as (HJ & HG & _);
    [| |exact Em|by split].
  - intros ch e1 w1 r1 w2 Hch (Hd & Hb & Hk) E1. apply map_err_stmt_inv in E1 as [[-> [x ->]]|([] & d' & Er & -> & ->)].
    + by repeat split.
    + injection Er as <-. unfold J, only_removes, bound_to in *.
      cbn [check_channels set_bindings].
      split; [split; [by eapply set_bindings_twice|split]|split].
      * intros i c. rewrite elem_of_difference. intros [? _]. by apply Hb.
      * intros i c Hic. destruct (decide ((i, c) = (id, ch))) as [[= -> ->]|Hne]; [by right|].
        destruct (Hk i c Hic) as [?|?]; [left|by right]. set_solver.
      * intros _. set_solver.
      * intros y Hy. set_solver.
  - unfold J, only_removes. split; [apply set_bindings_id|]. tauto.
Qed.

Lemma collect_channel_ids l cs : collect row_to_channel l = Ok cs -> map ch_id cs = map fst l.
Proof.
  revert cs. induction l as [|[i r] l IH]; intros cs E; simpl in E; [by injection E as <-|].
  apply res_bind_ok in E as (c & Ec & E). apply res_bind_ok in E as (cs' & Ecs & [= <-]).
  simpl. rewrite (IH _ Ecs). f_equal. apply res_bind_ok in Ec as (k & _ & Ec).
  by apply res_bind_ok in Ec as (? & _ & [= <-]).
Qed.

(** A channel of the project. *)
Definition channel_of (d : Db) (pid ch : Z) : Prop :=
  exists r, t_rows (channels d) !! ch = Some r /\ chr_project_id r = pid.

Lemma list_channels_ids pid e w cs w' :
  list_channels_for_project pid e w = (Done (Ok cs), w') ->
  forall ch, ch ∈ map ch_id cs <-> channel_of (w_db w) pid ch.
Proof.
  intros E ch. apply query_db in E as [_ [[=]|[= E]]].
  rewrite (collect_channel_ids _ _ (eq_sym E)), list_elem_of_fmap. unfold channel_of. split.
  - intros ([i r] & -> & Hi). apply elem_of_select in Hi as [Hi Hp]. exists r. by apply Z.eqb_eq in Hp.
  - intros (r & Hr & Hp). exists (ch, r). split; [done|]. apply elem_of_select.
    split; [done|]. by apply Z.eqb_eq.
Qed.

Lemma bound_channel_ids_elem id e w l w' :
  bound_channel_ids id e w = (Done (Ok l), w') -> forall ch, ch ∈ l <-> bound_to (w_db w) id ch.
Proof.
  intros E ch. apply query_db in E as [_ [[=]|[= ->]]].
  rewrite merge_sort_Permutation, list_elem_of_fmap. unfold bound_to. split.
  - intros ([i c] & -> & Hi). rewrite list_elem_of_In, filter_In, <- list_elem_of_In in Hi.
    destruct Hi as [Hi Hp]. apply Z.eqb_eq in Hp. simpl in *. subst. by apply elem_of_elements in Hi.
  - intros Hch. exists (id, ch). split; [done|].
    rewrite list_elem_of_In, filter_In, <- list_elem_of_In. split; [by apply elem_of_elements|].
    apply Z.eqb_refl.
Qed.

Lemma elem_of_hash_iter s x : x ∈ hash_iter s <-> x ∈ s.
Proof. by rewrite hash_iter_elements, elem_of_elements. Qed.

(** Saving a check's channels binds exactly the ticked ones of its own project.
    Whatever fails, only bindings of that check change, a binding is only ever added for
    a ticked channel of the check's project, and one is only ever removed if its channel
    is not both. When it answers without an error, the channels bound to the check are
    exactly the ticked channels of its project: an identifier of another project's
    channel, or of none, is ignored. *)
Theorem bind_channels_exact check ids e w r w' :
  bind_channels check ids e w = (r, w') ->
  let wanted ch := ch ∈ ids /\ channel_of (w_db w) (c_project_id check) ch in
  w_db w' = set_bindings (check_channels (w_db w')) (w_db w) /\
  (forall i ch, bound_to (w_db w') i ch -> bound_to (w_db w) i ch \/ (i = c_id check /\ wanted ch)) /\
  (forall i ch, bound_to (w_db w) i ch -> bound_to (w_db w') i ch \/ (i = c_id check /\ ~ wanted ch)) /\
  (r = Done (Ok tt) -> forall ch, bound_to (w_db w') (c_id check) ch <-> wanted ch).
Proof.
  intros E wanted. set (d := w_db w) in *. unfold bind_channels in E. cbv zeta in E.
  apply mtry_read in E as [[D Hr]|(cs & w1 & E1 & D1 & E)]; [| |intros; by eapply query_same].
  { rewrite D. split; [apply set_bindings_id|]. split; [by left|]. split; [by left|].
    intros Hok. by apply Hr in Hok. }
  apply mtry_read in E as [[D Hr]|(bound & w2 & E2 & D2 & E)]; [| |intros; by eapply query_same].
  { rewrite D, D1. split; [apply set_bindings_id|]. split; [by left|]. split; [by left|].
    intros Hok. by apply Hr in Hok. }
  set (desired := list_to_set _ : gset Z) in E. set (current := list_to_set bound : gset Z) in E.
  assert (forall ch, ch ∈ desired <-> wanted ch) as Hdes.
  { intros ch. unfold desired, wanted.
    rewrite elem_of_list_to_set, list_elem_of_In, filter_In, <- list_elem_of_In, bool_decide_eq_true,
      elem_of_list_to_set, (list_channels_ids _ _ _ _ _ E1). done. }
  assert (forall ch, ch ∈ current <-> bound_to d (c_id check) ch) as Hcur.
  { intros ch. unfold current. rewrite elem_of_list_to_set, (bound_channel_ids_elem _ _ _ _ _ E2).
    by rewrite D1. }
  unfold mtry in E. apply mbind_inv in E as [[E ->]|(o & w3 & E3 & E)];
    [apply bind_loop in E as ([F A] & K & _)|apply bind_loop in E3 as ([F A] & K & L)];
    rewrite D2, D1 in *; fold d in F, A, K;
    assert (forall i ch, bound_to d i ch -> i = c_id check -> ch ∈ current) as Hc
      by (intros i ch Hb ->; by apply Hcur).
  { split; [done|]. split; [|by split; [intros i ch Hb; left; auto|]].
    intros i ch [?|[-> Hch%elem_of_hash_iter]]%A; [by left|right]. set_solver. }
  destruct o as [[]|x].
  2: { injection E as <- <-. split; [done|]. split; [|by split; [intros i ch Hb; left; auto|]].
       intros i ch [?|[-> Hch%elem_of_hash_iter]]%A; [by left|right]. set_solver. }
  specialize (L eq_refl). apply unbind_loop in E as ((F' & A' & K') & L').
  split; [rewrite F'; by eapply set_bindings_twice|]. split; [|split].
  - intros i ch [?|[-> Hch%elem_of_hash_iter]]%A'%A; [by left|right]. set_solver.
  - intros i ch [?|[-> Hch%elem_of_hash_iter]]%K%K'; [by left|right]. set_solver.
  - intros Hr ch. specialize (L' Hr). split.
    + intros Hb. destruct (decide (ch ∈ desired)) as [?|Hn]; [by apply Hdes|]. exfalso.
      apply (L' ch); [|done]. apply elem_of_hash_iter.
      destruct (A _ _ (A' _ _ Hb)) as [Hd|[_ Hch%elem_of_hash_iter]]; set_solver.
    + intros Hw%Hdes. assert (bound_to (w_db w3) (c_id check) ch) as Hb.
      { destruct (decide (ch ∈ current)) as [Hi%Hcur|Hn]; [by apply K|].
        apply L, elem_of_hash_iter. set_solver. }
      destruct (K' _ _ Hb) as [?|[_ Hch%elem_of_hash_iter]]; [done|set_solver].
Qed.

End binding.

(** ** A witness *)

#[local] Existing Instance SampleChrono.sample_chrono.
#[local] Existing Instance SampleChrono.sample_cron.
#[local] Existing Instance SampleCrypto.sample_crypto.
#[local] Existing Instances SampleJson.sample_deps SampleJson.sample_json.

#[export] Instance sample_hash_order : HashOrder := {|
  hash_iter s := elements s;
  hash_iter_elements _ := Permutation_refl _;
|}.

Definition sequencedb (d : Db) : bool :=
  forallb (fun kr => kr.1 <=? t_seq (projects d)) (rows (t_rows (projects d)))
  && forallb (fun kr => kr.1 <=? t_seq (checks d)) (rows (t_rows (checks d)))
  && forallb (fun kr => kr.1 <=? t_seq (channels d)) (rows (t_rows (channels d))).

Lemma sequencedb_sequenced d : sequencedb d = true -> sequenced d.
Proof.
  unfold sequencedb. rewrite !andb_true_iff, !forallb_forall. intros [[Hp Hc] Hh].
  split; [|split]; intros i [r Hr]; apply elem_of_rows, list_elem_of_In in Hr;
    (apply Hp in Hr || apply Hc in Hr || apply Hh in Hr); by apply Z.leb_le in Hr.
Qed.

(** The second user of [web_db], to whom no project belongs. *)
Definition bob : User := mk_User 2 (lit "bob") None false false 0.

Lemma owner_requests_confined_witness :
  exists r w', owner_handle sample_config sample_jar bob (OR_CheckDelete 1 true) (calm_env 0)
      (world_of web_db) = (r, w') /\
    untouched 2 web_db (w_db w') /\ w_db w' = web_db /\ exists x, r = Done (Err x).
Proof.
  destruct (owner_handle sample_config sample_jar bob (OR_CheckDelete 1 true) (calm_env 0)
    (world_of web_db)) as [r w'] eqn:E.
  exists r, w'. split; [reflexivity|].
  assert (sequenced web_db) as Hs by (apply sequencedb_sequenced; vm_compute; reflexivity).
  assert (~ owned_row 2 web_db 1) as Hn.
  { intros (row & Hrow & p & Hp & Hu).
    assert (pr_user_id <$> (row ← t_rows (checks web_db) !! 1; t_rows (projects web_db) !! cr_project_id row)
            = Some 1) as F by (vm_compute; reflexivity).
    rewrite Hrow in F. change (Some row ≫= ?f) with (f row) in F. cbv beta in F.
    rewrite Hp in F. injection F as F. rewrite Hu in F. discriminate F. }
  destruct (owner_requests_confined sample_config sample_jar bob (OR_CheckDelete 1 true) (calm_env 0)
    (world_of web_db) r w') as (U & _ & _ & N); [rewrite world_of_db; exact Hs|exact E|].
  rewrite world_of_db in U, N. split; [exact U|]. exact (N Hn).
Defined.

(** Ticking channel 2 and an unknown one leaves the first check bound to channel 2 alone. *)
Lemma bind_channels_exact_witness :
  exists w', bind_channels sample_scheduled [2; 77] (calm_env 0) (world_of sample_db)
      = (Done (Ok tt), w') /\
    bound_to (w_db w') 1 2 /\ ~ bound_to (w_db w') 1 77 /\ ~ bound_to (w_db w') 1 1.
Proof.
  destruct (bind_channels sample_scheduled [2; 77] (calm_env 0) (world_of sample_db)) as [r w'] eqn:E.
  assert (match (bind_channels sample_scheduled [2; 77] (calm_env 0) (world_of sample_db)).1 with
          | Done (Ok _) => true | _ => false end = true) as N by (vm_compute; reflexivity).
  rewrite E in N. cbn [fst] in N. destruct r as [[[]|x]|]; [|discriminate N|discriminate N].
  exists w'. split; [reflexivity|].
  destruct (bind_channels_exact sample_scheduled [2; 77] (calm_env 0) (world_of sample_db) _ w' E)
    as (_ & _ & _ & H).
  rewrite world_of_db in H. specialize (H eq_refl). change (c_id sample_scheduled) with 1 in H.
  assert (t_rows (channels sample_db) !! 77 = None) as F77 by (vm_compute; reflexivity).
  assert (chr_project_id <$> t_rows (channels sample_db) !! 2 = Some 1) as F2
    by (vm_compute; reflexivity).
  split; [|split].
  - apply H. split; [left|]. destruct (t_rows (channels sample_db) !! 2) as [row|] eqn:R; [|discriminate F2].
    exists row. split; [exact R|]. injection F2 as F2. rewrite F2. reflexivity.
  - intros [_ (row & Hrow & _)]%H. rewrite F77 in Hrow. discriminate Hrow.
  - intros [Hi _]%H. apply list_elem_of_In in Hi. simpl in Hi. clear - Hi. lia.
Defined.

(** An administrator, to whom no project belongs, pauses the first check. *)
Definition eve : User := mk_User 9 (lit "eve") None true false 0.
Definition pause_request : RequestLine := mk_RequestLine (lit "POST") (lit "/admin/checks/1/pause").

Lemma admin_requests_audited_witness :
  exists w', (admin_handle sample_config sample_jar eve pause_request (AMR_CheckPause 1) (calm_env 0)
      (world_of web_db)).2 = w' /\
    audited eve (lit "admin.access") (lit "check") 1 web_db (w_db w').
Proof.
  assert (match (admin_handle sample_config sample_jar eve pause_request (AMR_CheckPause 1) (calm_env 0)
      (world_of web_db)).1 with Done (Ok _) => true | _ => false end = true) as N
    by (vm_compute; reflexivity).
  destruct (admin_handle sample_config sample_jar eve pause_request (AMR_CheckPause 1) (calm_env 0)
    (world_of web_db)) as [r w'] eqn:E.
  exists w'. split; [reflexivity|].
  destruct (admin_requests_audited sample_config sample_jar eve pause_request (AMR_CheckPause 1)
    (calm_env 0) (world_of web_db) r w') as [[_ [x Hx]]|H].
  - vm_compute. reflexivity.
  - exact E.
  - cbn [fst] in N. rewrite Hx in N. discriminate N.
  - rewrite world_of_db in H. exact H.
Defined.
