(* ===== verification/Pages.v ===== *)
(** * Pages: the handlers of [src/web.rs] that show

    The pages of a project and of a check, the fragments of a check's history, its event
    stream, the forms and the test of a channel, on the owner's surface and on the
    administrator's. *)
From S2P Require Import Prelude Text Markdown Models Duration Config Wire Secret Chrono Auth Db Rows Store Sessions Keyset Sample Notify Scheduler View Forms Channels Errors Access Templates Web Account Listing Owner.
#[local] Open Scope Z_scope.
#[local] Open Scope pw_scope.

(** [Iterator::map] with a function that may panic. *)
Fixpoint exec_map {A B} (f : A -> exec B) (l : list A) : exec (list B) :=
  match l with
  | [] => Done []
  | x :: l' => let* y := f x in let* ys := exec_map f l' in Done (y :: ys)
  end.

Definition page (p : Page) : M (res AppError Response) := mret (Ok (page_response p)).

(** Who looks at a check page, which is also where: an administrator's page prints the
    ping URL, a credential, only of their own checks or once it is revealed. *)
Inductive CheckPageViewer : Type :=
| CPV_Owner
| CPV_Admin (viewer_id : Z) (ping_url_revealed : bool).
Definition is_admin_route (v : CheckPageViewer) : bool :=
  match v with CPV_Owner => false | CPV_Admin _ _ => true end.
Definition shows_url (v : CheckPageViewer) (owner_id : Z) : bool :=
  match v with
  | CPV_Owner => true
  | CPV_Admin viewer_id revealed => revealed || (viewer_id =? owner_id)
  end.
Record CheckPageRequest := mk_CheckPageRequest {
  cpr_flash : option str;
  cpr_page : CheckPageQuery;
  cpr_viewer : CheckPageViewer;
}.

Record PartialScope := mk_PartialScope { sc_check_id : Z; sc_base : str }.
Definition owner_scope (check_id : Z) : PartialScope := mk_PartialScope check_id [].
Definition admin_scope (check_id : Z) : PartialScope := mk_PartialScope check_id (lit "/admin").

Definition HEARTBEAT_BARS : nat := 120.
Definition HEARTBEAT_WINDOW : Z := 300.

Section pages.
Context `{Cron} `{Crypto} `{NotifyDeps} `{PageText}.

(** ** The history of a check *)

Definition window_durations (check_id : Z) (recent : option (list PingSummary))
  : M (res AppError (gmap Z Z)) :=
  match recent with
  | Some recent => mret (Ok (run_durations recent))
  | None =>
      let? fetched := db (list_recent_ping_summaries check_id HEARTBEAT_WINDOW) in
      mret (Ok (run_durations fetched))
  end.

(** The latest unfiltered page pairs runs over the heartbeat's window, any other over itself. *)
Definition build_pings_partial (scope : PartialScope) (q : CheckPageQuery)
    (recent : option (list PingSummary)) : M (res AppError CheckPingsTemplate) :=
  let check_id := sc_check_id scope in
  let filter := ping_filter_from q in
  let cursor := page_cursor (q_pb q) (q_pa q) in
  let? ping_page := db (list_pings_page check_id cursor 20 filter) in
  let? durations :=
    match cursor, PingFilter_is_empty filter with
    | PC_Latest, true => window_durations check_id recent
    | _, _ => mret (Ok (run_durations (map PingSummary_from (pa_items ping_page))))
    end in
  let rows := ping_rows (pa_items ping_page) durations in
  let f_kind := first_token (pf_kinds filter) as_str in
  let f_from := date_bound_token (pf_from filter) in
  let f_to := date_bound_token (pf_to filter) in
  let carry := [(lit "pk", f_kind); (lit "pfrom", f_from); (lit "pto", f_to)] in
  let endpoint := sc_base scope ++ lit "/checks/" ++ show_Z check_id ++ lit "/pings" in
  let '(older_id, newer_id) := neighbour_ids ping_page pg_id in
  let hidden := carry_fields (check_page_filter_tokens (tokens_of filter (notif_filter_from q)))
                  PINGS_FILTER_KEYS in
  mret (Ok {|
    cp_base := sc_base scope;
    cp_check_id := check_id;
    cp_rows := rows;
    cp_empty := is_empty rows;
    cp_f_kind := f_kind;
    cp_f_from := f_from;
    cp_f_to := f_to;
    cp_filtered := negb (PingFilter_is_empty filter);
    cp_carry := hidden;
    cp_clear := clear_href endpoint hidden;
    cp_newer := (fun id => history_href endpoint (lit "pa", id) carry) <$> newer_id;
    cp_older := (fun id => history_href endpoint (lit "pb", id) carry) <$> older_id |}).

Definition build_notifs_partial (scope : PartialScope) (q : CheckPageQuery)
    (channel_names : gmap Z str) : M (res AppError CheckNotifsTemplate) :=
  let check_id := sc_check_id scope in
  let filter := notif_filter_from q in
  let cursor := page_cursor (q_nb q) (q_na q) in
  let? notif_page := db (list_notifications_page check_id cursor 20 filter) in
  let rows := notification_rows (pa_items notif_page) channel_names in
  let f_event := first_token (nf_events filter) as_str in
  let f_status := first_token (nf_statuses filter) as_str in
  let f_from := date_bound_token (nf_from filter) in
  let f_to := date_bound_token (nf_to filter) in
  let carry := [(lit "ne", f_event); (lit "ns", f_status); (lit "nfrom", f_from); (lit "nto", f_to)] in
  let endpoint := sc_base scope ++ lit "/checks/" ++ show_Z check_id ++ lit "/notifications" in
  let '(older_id, newer_id) := neighbour_ids notif_page n_id in
  let hidden := carry_fields (check_page_filter_tokens (tokens_of (ping_filter_from q) filter))
                  NOTIFS_FILTER_KEYS in
  mret (Ok {|
    cn_base := sc_base scope;
    cn_check_id := check_id;
    cn_rows := rows;
    cn_empty := is_empty rows;
    cn_f_event := f_event;
    cn_f_status := f_status;
    cn_f_from := f_from;
    cn_f_to := f_to;
    cn_filtered := negb (NotifFilter_is_empty filter);
    cn_carry := hidden;
    cn_clear := clear_href endpoint hidden;
    cn_newer := (fun id => history_href endpoint (lit "na", id) carry) <$> newer_id;
    cn_older := (fun id => history_href endpoint (lit "nb", id) carry) <$> older_id |}).

Definition channel_name_map (project_id : Z) : M (res AppError (gmap Z str)) :=
  let? channels := db (list_channels_for_project project_id) in
  mret (Ok (list_to_map (map (fun c => (ch_id c, ch_name c)) channels))).

(** ** The page of a check *)

Definition channel_box (bound : list Z) (c : Channel) : ChannelBox :=
  mk_ChannelBox (ch_id c) (ch_name c) (as_str (ch_kind c)) (bool_decide (ch_id c ∈ bound)).

Definition ping_url (config : Config) (check : Check) : str :=
  trim_end_matches (fun c => c =? chr "/") (cf_base_url config) ++ lit "/ping/" ++ c_ping_uuid check.

Definition render_check_page (config : Config) (check : Check) (session : PageSession)
    (request : CheckPageRequest) : M (res AppError Response) :=
  let id := c_id check in
  let admin := is_admin_route (cpr_viewer request) in
  let scope := mk_PartialScope id (admin_prefix admin) in
  let? o := db (find_project (c_project_id check)) in
  let? project := mret (found o) in
  do now := utc_now in
  let show_ping_url := shows_url (cpr_viewer request) (p_user_id project) in
  let? bound := db (bound_channel_ids id) in
  let? project_channels := db (list_channels_for_project (c_project_id check)) in
  let channel_names : gmap Z str :=
    list_to_map (map (fun c => (ch_id c, ch_name c)) project_channels) in
  let channel_boxes := map (channel_box bound) project_channels in
  let? recent := db (list_recent_ping_summaries id HEARTBEAT_WINDOW) in
  let bars := heartbeat recent (c_max_runtime_secs check)
                (bool_decide (c_status check = CS_Paused)) HEARTBEAT_BARS in
  do status := mexec (display_status check now) in
  do since := mexec (status_since_label check now) in
  do due := mexec (next_due check now) in
  let? pings_partial := build_pings_partial scope (cpr_page request) (Some recent) in
  let? notifs_partial := build_notifs_partial scope (cpr_page request) channel_names in
  page (P_Check {|
    ct_csrf := ps_csrf session;
    ct_is_admin := ps_is_admin session;
    ct_admin := admin;
    ct_check := check;
    ct_description_html := render (c_description check);
    ct_project_name := p_name project;
    ct_status := DisplayStatus_as_str status;
    ct_since := since;
    ct_next_due := due;
    ct_schedule := schedule_label check;
    ct_ping_url := if show_ping_url then ping_url config check else [];
    ct_ping_url_hidden := negb show_ping_url;
    ct_bars := bars;
    ct_channel_boxes := channel_boxes;
    ct_pings_partial := pings_partial;
    ct_notifs_partial := notifs_partial;
    ct_flash := cpr_flash request |}).

(** ** The page of a project *)

Definition project_check_row (with_channels : gset Z) (now : Z) (c : Check) : exec ProjectCheckRow :=
  let* status := display_status c now in
  Done {|
    pcr_id := c_id c;
    pcr_name := c_name c;
    pcr_status := DisplayStatus_as_str status;
    pcr_schedule := schedule_label c;
    pcr_description := truncate_plain (c_description c) 120;
    pcr_no_channel := bool_decide (c_id c ∉ with_channels) |}.
Definition project_channel_row (c : Channel) : ProjectChannelRow :=
  mk_ProjectChannelRow (ch_id c) (ch_name c) (as_str (ch_kind c)).

Definition render_project_page (project : Project) (test_result : option TestResult)
    (ctx : PageContext) : M (res AppError Response) :=
  do now := utc_now in
  let? listed := db (list_checks_for_project (p_id project)) in
  let? with_channels := db (checks_with_channels (map c_id listed)) in
  do check_rows := mexec (exec_map (project_check_row with_channels now) listed) in
  let? channels := db (list_channels_for_project (p_id project)) in
  page (P_Project {|
    pt_csrf := ps_csrf (pc_session ctx);
    pt_is_admin := ps_is_admin (pc_session ctx);
    pt_admin := pc_admin ctx;
    pt_project := project;
    pt_description_html := render (p_description project);
    pt_checks := check_rows;
    pt_channels := map project_channel_row channels;
    pt_test_result := test_result |}).

Definition project_edit_form (project : Project) (admin is_admin : bool) (csrf : str) : Page :=
  P_ProjectForm csrf (lit "Edit project") (project_url admin (p_id project)) is_admin
    (project_form_of project) None.
Definition check_edit_form (check : Check) (admin is_admin : bool) (csrf : str) : Page :=
  P_CheckForm csrf (lit "Edit check") (check_url admin (c_id check)) is_admin
    (check_form_of check) None.

(** ** Testing a channel *)

(** Sends once, and records nothing. *)
Definition run_channel_test (config : Config) (channel : Channel) : M TestResult :=
  do found := find_project (ch_project_id channel) in
  let project_name := match found with Ok (Some p) => Some (p_name p) | _ => None end in
  do now := utc_now in
  do tz := display_timezone in
  let ev := {|
    ev_check_id := 0;
    ev_check_name := ch_name channel;
    ev_event := EK_Test;
    ev_at := now;
    ev_project_id := ch_project_id channel;
    ev_detail := with_display_timezone tz (mk_EventDetail project_name None None None None None) |} in
  match notifier_for channel (cf_smtp config) with
  | None => mret (mk_TestResult false (lit "channel configuration is incomplete"))
  | Some n =>
      do r := send n ev in
      mret (match r with
            | Ok _ => mk_TestResult true
                        (lit "Test notification sent to " ++ dquote ++ ch_name channel ++ dquote)
            | Err e => mk_TestResult false (lit "Test notification failed: " ++ notify_error_text e)
            end)
  end.
End pages.

(** ** The owner's pages *)

Section owner_pages.
Context `{Cron} `{Crypto} `{NotifyDeps} `{PageText}.

Definition project_new (config : Config) (jar : CookieJar) (user : User) : M (res AppError Response) :=
  page (P_ProjectForm (current_csrf config jar) (lit "New project") (lit "/projects") (u_is_admin user)
    empty_project_form None).

Definition project_show (config : Config) (jar : CookieJar) (user : User) (id : Z)
  : M (res AppError Response) :=
  let? project := owned_project id (u_id user) in
  render_project_page project None (owner_context (u_is_admin user) (current_csrf config jar)).

Definition project_edit (config : Config) (jar : CookieJar) (user : User) (id : Z)
  : M (res AppError Response) :=
  let? project := owned_project id (u_id user) in
  page (project_edit_form project false (u_is_admin user) (current_csrf config jar)).

Definition check_new (config : Config) (jar : CookieJar) (user : User) (pid : Z)
  : M (res AppError Response) :=
  let? _ := owned_project pid (u_id user) in
  page (empty_check_form (lit "New check") (project_url false pid ++ lit "/checks") (u_is_admin user)
    (current_csrf config jar)).

Definition check_show (config : Config) (jar : CookieJar) (user : User) (id : Z) (q : CheckPageQuery)
  : M (res AppError Response) :=
  let? check := owned_check id (u_id user) in
  let csrf := current_csrf config jar in
  let '(jar, flash) := take_flash config jar (lit "channels") in
  let? resp := render_check_page config check (mk_PageSession (u_is_admin user) csrf)
                 (mk_CheckPageRequest flash q CPV_Owner) in
  mret (Ok (with_jar jar resp)).

Definition check_edit (config : Config) (jar : CookieJar) (user : User) (id : Z)
  : M (res AppError Response) :=
  let? check := owned_check id (u_id user) in
  page (check_edit_form check false (u_is_admin user) (current_csrf config jar)).

(** [query]: the query of the URI as it was sent. *)
Definition check_pings (user : User) (headers : HeaderMap) (query : option str) (id : Z)
    (q : CheckPageQuery) : M (res AppError Response) :=
  let? check := owned_check id (u_id user) in
  if negb (wants_fragment headers) then
    mret (Ok (fragment_page_redirect (check_url false (c_id check)) (lit "pings-section") query))
  else
    let? t := build_pings_partial (owner_scope (c_id check)) q None in
    page (P_CheckPings t).

Definition check_notifications (user : User) (headers : HeaderMap) (query : option str) (id : Z)
    (q : CheckPageQuery) : M (res AppError Response) :=
  let? check := owned_check id (u_id user) in
  if negb (wants_fragment headers) then
    mret (Ok (fragment_page_redirect (check_url false (c_id check)) (lit "notifs-section") query))
  else
    let? names := channel_name_map (c_project_id check) in
    let? t := build_notifs_partial (owner_scope (c_id check)) q names in
    page (P_CheckNotifs t).

(** The items of the broadcast, [None] where the subscriber lagged; the events sent. *)
Definition sse_for_check (check_id : Z) (items : list (option Z)) : list str :=
  omap (fun item => match item with
                    | Some id => if id =? check_id then Some (lit "changed") else None
                    | None => Some (lit "changed")
                    end) items.
Definition check_events (user : User) (id : Z) : M (res AppError (list (option Z) -> list str)) :=
  let? check := owned_check id (u_id user) in
  mret (Ok (sse_for_check (c_id check))).

Definition channel_new (config : Config) (jar : CookieJar) (user : User) (pid : Z)
  : M (res AppError Response) :=
  let? _ := owned_project pid (u_id user) in
  page (P_ChannelForm (channel_form_template config pid
    (owner_context (u_is_admin user) (current_csrf config jar)) (mk_ChannelFormInput None None))).

Definition channel_edit (config : Config) (jar : CookieJar) (user : User) (id : Z)
  : M (res AppError Response) :=
  let? channel := owned_channel id (u_id user) in
  page (P_ChannelForm (channel_form_template config (ch_project_id channel)
    (owner_context (u_is_admin user) (current_csrf config jar))
    (mk_ChannelFormInput None (Some (ChannelEditView_new channel))))).

Definition channel_test (config : Config) (jar : CookieJar) (user : User) (id : Z)
  : M (res AppError Response) :=
  let? o := db (find_channel id) in
  let? channel := mret (found o) in
  let? project := owned_project (ch_project_id channel) (u_id user) in
  do result := run_channel_test config channel in
  render_project_page project (Some result)
    (owner_context (u_is_admin user) (current_csrf config jar)).

(** The requests for the owner's pages. *)
Inductive PageRequest : Type :=
| PR_ProjectNew
| PR_ProjectShow (id : Z)
| PR_ProjectEdit (id : Z)
| PR_CheckNew (pid : Z)
| PR_CheckShow (id : Z) (q : CheckPageQuery)
| PR_CheckEdit (id : Z)
| PR_CheckPings (headers : HeaderMap) (query : option str) (id : Z) (q : CheckPageQuery)
| PR_CheckNotifications (headers : HeaderMap) (query : option str) (id : Z) (q : CheckPageQuery)
| PR_ChannelNew (pid : Z)
| PR_ChannelEdit (id : Z)
| PR_ChannelTest (id : Z).

Definition page_handle (config : Config) (jar : CookieJar) (user : User) (rq : PageRequest)
  : M (res AppError Response) :=
  match rq with
  | PR_ProjectNew => project_new config jar user
  | PR_ProjectShow id => project_show config jar user id
  | PR_ProjectEdit id => project_edit config jar user id
  | PR_CheckNew pid => check_new config jar user pid
  | PR_CheckShow id q => check_show config jar user id q
  | PR_CheckEdit id => check_edit config jar user id
  | PR_CheckPings headers query id q => check_pings user headers query id q
  | PR_CheckNotifications headers query id q => check_notifications user headers query id q
  | PR_ChannelNew pid => channel_new config jar user pid
  | PR_ChannelEdit id => channel_edit config jar user id
  | PR_ChannelTest id => channel_test config jar user id
  end.

(** ** The administrator's pages *)

Definition admin_project_show (config : Config) (jar : CookieJar) (admin : User) (request : RequestLine)
    (id : Z) : M (res AppError Response) :=
  let? project := admin_project id admin request in
  render_project_page project None (admin_context (current_csrf config jar)).

Definition admin_project_edit (config : Config) (jar : CookieJar) (admin : User) (request : RequestLine)
    (id : Z) : M (res AppError Response) :=
  let? project := admin_project id admin request in
  page (project_edit_form project true true (current_csrf config jar)).

Definition admin_check_new (config : Config) (jar : CookieJar) (admin : User) (request : RequestLine)
    (pid : Z) : M (res AppError Response) :=
  let? _ := admin_project pid admin request in
  page (empty_check_form (lit "New check") (project_url true pid ++ lit "/checks") true
    (current_csrf config jar)).

Definition admin_check_show (config : Config) (jar : CookieJar) (admin : User) (request : RequestLine)
    (id : Z) (q : CheckPageQuery) : M (res AppError Response) :=
  let? check := admin_check id admin request in
  let csrf := current_csrf config jar in
  let '(jar, flash) := take_flash config jar (lit "channels") in
  let? resp := render_check_page config check (mk_PageSession true csrf)
                 (mk_CheckPageRequest flash q (CPV_Admin (u_id admin) false)) in
  mret (Ok (with_jar jar resp)).

(** The one audited read. *)
Definition admin_check_reveal_ping_url (config : Config) (jar : CookieJar) (admin : User) (id : Z)
    (q : CheckPageQuery) : M (res AppError Response) :=
  let? o := db (find_check id) in
  let? check := mret (found o) in
  let? p := db (find_project (c_project_id check)) in
  let owner := p_user_id <$> p in
  let? _ := if bool_decide (owner = Some (u_id admin)) then mret (Ok tt) else
            do now := utc_now in
            let? _ := db (record_audit {|
              na_actor_user_id := u_id admin;
              na_actor_username := u_username admin;
              na_action := lit "admin.ping_url_reveal";
              na_target_type := Some (lit "check");
              na_target_id := Some (c_id check);
              na_target_owner_id := owner;
              na_method := Some (lit "POST");
              na_path := Some (lit "/admin/checks/" ++ show_Z id ++ lit "/ping-url");
              na_detail := None |} now) in
            mret (Ok tt) in
  render_check_page config check (mk_PageSession true (current_csrf config jar))
    (mk_CheckPageRequest None q (CPV_Admin (u_id admin) true)).

Definition admin_check_edit (config : Config) (jar : CookieJar) (admin : User) (request : RequestLine)
    (id : Z) : M (res AppError Response) :=
  let? check := admin_check id admin request in
  page (check_edit_form check true true (current_csrf config jar)).

Definition admin_check_pings (admin : User) (headers : HeaderMap) (request : RequestLine)
    (query : option str) (id : Z) (q : CheckPageQuery) : M (res AppError Response) :=
  let? check := admin_check id admin request in
  if negb (wants_fragment headers) then
    mret (Ok (fragment_page_redirect (check_url true (c_id check)) (lit "pings-section") query))
  else
    let? t := build_pings_partial (admin_scope (c_id check)) q None in
    page (P_CheckPings t).

Definition admin_check_notifications (admin : User) (headers : HeaderMap) (request : RequestLine)
    (query : option str) (id : Z) (q : CheckPageQuery) : M (res AppError Response) :=
  let? check := admin_check id admin request in
  if negb (wants_fragment headers) then
    mret (Ok (fragment_page_redirect (check_url true (c_id check)) (lit "notifs-section") query))
  else
    let? names := channel_name_map (c_project_id check) in
    let? t := build_notifs_partial (admin_scope (c_id check)) q names in
    page (P_CheckNotifs t).

Definition admin_check_events (admin : User) (request : RequestLine) (id : Z)
  : M (res AppError (list (option Z) -> list str)) :=
  let? check := admin_check id admin request in
  mret (Ok (sse_for_check (c_id check))).

Definition admin_channel_new (config : Config) (jar : CookieJar) (admin : User) (request : RequestLine)
    (pid : Z) : M (res AppError Response) :=
  let? _ := admin_project pid admin request in
  page (P_ChannelForm (channel_form_template config pid (admin_context (current_csrf config jar))
    (mk_ChannelFormInput None None))).

Definition admin_channel_edit (config : Config) (jar : CookieJar) (admin : User) (request : RequestLine)
    (id : Z) : M (res AppError Response) :=
  let? channel := admin_channel id admin request in
  page (P_ChannelForm (channel_form_template config (ch_project_id channel)
    (admin_context (current_csrf config jar))
    (mk_ChannelFormInput None (Some (ChannelEditView_new channel))))).

Definition admin_channel_test (config : Config) (jar : CookieJar) (admin : User) (request : RequestLine)
    (id : Z) : M (res AppError Response) :=
  let? channel := admin_channel id admin request in
  let? o := db (find_project (ch_project_id channel)) in
  let? project := mret (found o) in
  do result := run_channel_test config channel in
  render_project_page project (Some result) (admin_context (current_csrf config jar)).

(** The requests that answer with a check's page, by whom they are made. *)
Inductive CheckPage : Type :=
| CP_Owner (id : Z) (q : CheckPageQuery)
| CP_Admin (request : RequestLine) (id : Z) (q : CheckPageQuery)
| CP_Reveal (id : Z) (q : CheckPageQuery).
Definition check_page (config : Config) (jar : CookieJar) (viewer : User) (rq : CheckPage)
  : M (res AppError Response) :=
  match rq with
  | CP_Owner id q => check_show config jar viewer id q
  | CP_Admin request id q => admin_check_show config jar viewer request id q
  | CP_Reveal id q => admin_check_reveal_ping_url config jar viewer id q
  end.
End owner_pages.

(** ** Pages only read *)

Section reading.
Context `{Cron} `{Crypto} `{NotifyDeps} `{PageText}.

Lemma send_reads n ev : reads (send n ev).
Proof.
  intros I. unfold send, post, smtp_relay. destruct n; preserves_steps; auto with pw.
Qed.
Lemma display_timezone_reads : reads display_timezone.
Proof. intros I. unfold display_timezone, get_setting. preserves_steps. Qed.
Lemma channel_test_reads config ch : reads (run_channel_test config ch).
Proof.
  intros I. unfold run_channel_test. handler_steps; try apply display_timezone_reads; try apply send_reads.
Qed.
Lemma audit_access_get_reads admin target id owner request :
  audits_as_mutation (rl_method request) = false -> reads (audit_access admin target id owner request).
Proof. intros Hm I. unfold audit_access. rewrite Hm. apply preserves_mret. Qed.
Lemma render_check_page_reads config check session rq : reads (render_check_page config check session rq).
Proof.
  intros I. unfold render_check_page, build_pings_partial, build_notifs_partial, window_durations,
    list_pings_page, list_notifications_page, keyset_page, page. handler_steps.
Qed.
End reading.

(** ** The ping URL of another user's check *)

Section reveal.
Context `{Cron} `{Crypto} `{NotifyDeps} `{PageText}.

(** What a check's page was drawn from. *)
Lemma render_check_page_inv config check session rq e w resp w' t :
  render_check_page config check session rq e w = (Done (Ok resp), w') -> rs_page resp = P_Check t ->
  w_db w' = w_db w /\ ct_check t = check /\
  exists uid, owns uid (w_db w) (c_project_id check) /\
    ct_ping_url t = (if shows_url (cpr_viewer rq) uid then ping_url config check else []).
Proof.
  intros E Hp. split; [eapply reads_same; [apply render_check_page_reads|exact E]|].
  unfold render_check_page in E.
  apply mtry_Ok_inv in E as (o & w1 & E1 & E).
  apply resolves_find_project in E1 as [D1 Ho]. specialize (Ho o eq_refl).
  apply mtry_Ok_inv in E as (p & w2 & [= Hf <-] & E). apply found_Ok in Hf as ->.
  specialize (Ho p eq_refl).
  apply mbind_inv in E as [[[=] _]|(now & w3 & _ & E)].
  do 3 (apply mtry_Ok_inv in E as (? & ? & _ & E)).
  do 3 (apply mbind_inv in E as [[_ [=]]|(? & ? & _ & E)]).
  do 2 (apply mtry_Ok_inv in E as (? & ? & _ & E)).
  injection E as <- _. cbn [rs_page page_response] in Hp. injection Hp as <-.
  split; [done|]. exists (p_user_id p). by split.
Qed.

Lemma record_audit_projects T a now : preserves (fun d => projects d = T) (record_audit a now).
Proof. apply preserves_stmt. by intros d i d' <- [= _ <-]. Qed.

Lemma admin_check_projects id admin request T :
  preserves (fun d => projects d = T) (admin_check id admin request).
Proof. unfold admin_check, audit_access. handler_steps. apply record_audit_projects. Qed.

Lemma owns_projects uid d d' pid : projects d' = projects d -> owns uid d' pid -> owns uid d pid.
Proof. unfold owns. by intros ->. Qed.

(** What the reveal leaves: the viewer owns the check, or it is in the log. *)
Lemma reveal_inv config jar admin id q e w resp w' :
  admin_check_reveal_ping_url config jar admin id q e w = (Done (Ok resp), w') ->
  exists check w1, c_id check = id /\
    (owns (u_id admin) (w_db w) (c_project_id check) \/
     audited admin (lit "admin.ping_url_reveal") (lit "check") id (w_db w) (w_db w1)) /\
    render_check_page config check (mk_PageSession true (current_csrf config jar))
      (mk_CheckPageRequest None q (CPV_Admin (u_id admin) true)) e w1 = (Done (Ok resp), w').
Proof.
  unfold admin_check_reveal_ping_url. intros E.
  apply mtry_Ok_inv in E as (o & w1 & E1 & E). apply resolves_find_check in E1 as [D1 Ho].
  apply mtry_Ok_inv in E as (check & w2 & [= Hf <-] & E). apply found_Ok in Hf as ->.
  destruct (Ho _ eq_refl check eq_refl) as [Hid _].
  apply mtry_Ok_inv in E as (p & w3 & E3 & E). apply resolves_find_project in E3 as [D3 Hp].
  apply mtry_Ok_inv in E as (u & w4 & E4 & E). exists check, w4. split; [done|]. split; [|exact E].
  rewrite <- D1. destruct (bool_decide_reflect (p_user_id <$> p = Some (u_id admin))) as [Eo|_].
  - left. destruct p as [p|]; [|done]. injection Eo as <-. by eapply Hp.
  - right. apply mbind_inv in E4 as [[[=] _]|(now & w5 & [= _ <-] & E4)].
    apply mtry_Ok_inv in E4 as (i & w6 & E5 & [= _ <-]).
    apply record_audit_inv in E5 as [[_ [x [=]]]|[_ (row & Hl & Ha)]].
    exists row. cbn [w_db] in Hl. rewrite D3 in Hl. split; [exact Hl|].
    cbn [na_actor_user_id na_action na_target_type na_target_id] in Ha. by rewrite Hid in Ha.
Qed.

Lemma rs_page_with_jar jar resp : rs_page (with_jar jar resp) = rs_page resp.
Proof. done. Qed.

(** C12: the ping URL of a check, with which anyone can ping it, is shown to its owner only;
    to an administrator once the audit log says that it was. Whichever way a check's page
    is reached, if it prints the URL then the viewer owns the check's project or the
    request has written the row that names the viewer and the check. *)
Theorem ping_url_shown_or_audited config jar viewer rq e w resp w' t :
  check_page config jar viewer rq e w = (Done (Ok resp), w') -> rs_page resp = P_Check t ->
  ct_ping_url t <> [] ->
  owns (u_id viewer) (w_db w) (c_project_id (ct_check t)) \/
  audited viewer (lit "admin.ping_url_reveal") (lit "check") (c_id (ct_check t)) (w_db w) (w_db w').
Proof.
  intros E Ht Hu. destruct rq as [id q|request id q|id q]; cbn [check_page] in E.
  - left. unfold check_show in E. apply mtry_Ok_inv in E as (check & w1 & E1 & E).
    apply owned_check_resolves in E1 as [D Hc]. destruct (Hc check eq_refl) as (_ & _ & Ho & _).
    destruct (take_flash _ _ _) as [jar' flash]. apply mtry_Ok_inv in E as (r0 & w2 & E2 & [= <- _]).
    rewrite rs_page_with_jar in Ht.
    by destruct (render_check_page_inv _ _ _ _ _ _ _ _ _ E2 Ht) as (_ & -> & _).
  - left. unfold admin_check_show in E. apply mtry_Ok_inv in E as (check & w1 & E1 & E).
    apply (admin_check_projects _ _ _ (projects (w_db w)) _ _ _ _ eq_refl) in E1.
    destruct (take_flash _ _ _) as [jar' flash]. apply mtry_Ok_inv in E as (r0 & w2 & E2 & [= <- _]).
    rewrite rs_page_with_jar in Ht.
    destruct (render_check_page_inv _ _ _ _ _ _ _ _ _ E2 Ht) as (_ & -> & uid & Ho & Eu).
    rewrite Eu in Hu. cbn [cpr_viewer shows_url orb] in Hu.
    destruct (Z.eqb_spec (u_id viewer) uid) as [->|_]; [|done]. by eapply owns_projects.
  - apply reveal_inv in E as (check & w1 & Hid & Hor & E).
    destruct (render_check_page_inv _ _ _ _ _ _ _ _ _ E Ht) as (D & -> & _).
    by rewrite Hid, D.
Qed.
End reveal.

(** ** Opening and saving the edit form *)

Section resave.
Context `{CronLaws} `{!ChronoLaws} `{Crypto} `{HashOrder} `{NotifyDeps} `{PageText}.

(** The row holds what the form [v] came from was stored as. *)
Definition holds (v : ValidatedCheck) (r : CheckRow) : Prop := with_schedule (stored_as v) r = r.

Lemma holds_stored v id r c : holds v r -> row_to_check (id, r) = Ok c -> stored_check v c.
Proof.
  unfold holds, stored_check. intros Hr E. pose proof (row_to_check_Ok _ _ _ E) as (_ & _ & _ & _ & Hk & _).
  apply res_bind_ok in E as (k & _ & E). apply res_bind_ok in E as (s & _ & E).
  apply res_bind_ok in E as (ts & _ & [= <-]). cbn [c_schedule_kind] in Hk.
  destruct r, v. unfold with_schedule in Hr. cbn in Hr, Hk |- *. subst.
  injection Hr as -> -> Hkind -> -> -> -> -> -> ->. f_equal. by apply as_str_inj.
Qed.

Lemma update_row_same (v : ValidatedCheck) id d :
  (forall r, t_rows (checks d) !! id = Some r -> holds v r) ->
  Store.update_check (with_schedule (stored_as v)) id d = d.
Proof.
  intros Hr. unfold Store.update_check, update_row. rewrite alter_id by apply Hr.
  by destruct d as [us ps [m n] chs cc pgs nts ss st ks al].
Qed.

Lemma owned_check_inv id uid e w c w' :
  owned_check id uid e w = (Done (Ok c), w') ->
  w_db w' = w_db w /\ exists row, t_rows (checks (w_db w)) !! id = Some row /\ row_to_check (id, row) = Ok c.
Proof.
  unfold owned_check. intros E. apply mtry_Ok_inv in E as (o & w1 & E1 & E).
  apply map_err_stmt_inv in E1 as [[_ [x [=]]]|(a & d & Er & [= <-] & D1)].
  destruct (t_rows (checks (w_db w)) !! id) as [row|] eqn:Hrow.
  2: { cbn in Er. injection Er as <- <-. by apply mtry_Ok_inv in E as (? & ? & [=] & _). }
  destruct (row_to_check (id, row)) as [c0|] eqn:Ec; cbn in Er, Ec; rewrite Ec in Er; [|done].
  injection Er as <- <-. apply mtry_Ok_inv in E as (c1 & w2 & [= <- <-] & E).
  apply mtry_Ok_inv in E as (p & w3 & E3 & [= <- <-]). apply owned_project_resolves in E3 as [D3 _].
  rewrite D3. split; [done|]. by exists row.
Qed.

(** C35: opening a check's edit form and saving it as it is changes nothing. For a row stored
    from any form the validator accepted, whatever its durations, its zone or its cron
    expression, the form the edit page opens with is accepted and writes the row it was
    drawn from: the database is the same, whatever fails. *)
Theorem resaved_edit_form_changes_nothing config jar user id e w resp w1 csrf heading action ia form
    form0 v e2 r w2 :
  validate_check form0 = Ok v ->
  (forall row, t_rows (checks (w_db w)) !! id = Some row -> holds v row) ->
  check_edit config jar user id e w = (Done (Ok resp), w1) ->
  rs_page resp = P_CheckForm csrf heading action ia form None ->
  check_update config jar user id form e2 w1 = (r, w2) ->
  w_db w2 = w_db w.
Proof.
  intros Hv Hh E Hp E2. unfold check_edit in E. apply mtry_Ok_inv in E as (c & wc & E & Er).
  apply owned_check_inv in E as (D & row & Hrow & Hc). injection Er as <- <-.
  cbn [rs_page page_response check_edit_form] in Hp. injection Hp as _ _ _ _ <-.
  pose proof (check_form_again _ _ c Hv (holds_stored _ _ _ _ (Hh row Hrow) Hc)) as Hform.
  assert (preserves (fun d => d = w_db w)
    (check_update config jar user id (check_form_of c))) as Hpres; [|by apply (Hpres e2 wc r w2)].
  unfold check_update, check_update_core. rewrite Hform. unfold owned_check, owned_project, see. handler_steps.
  apply preserves_execute. intros d ->. by apply update_row_same.
Qed.
End resave.

(** ** Witnesses *)

#[local] Existing Instances SampleChrono.sample_chrono SampleChrono.sample_chrono_laws.
#[local] Existing Instances SampleChrono.sample_cron SampleChrono.sample_cron_laws.
#[local] Existing Instances SampleCrypto.sample_crypto SamplePageText.sample_page_text.
#[local] Existing Instances SampleJson.sample_deps SampleJson.sample_json sample_hash_order.

Definition no_query : CheckPageQuery :=
  mk_CheckPageQuery None None None None None None None None None None None.

(** The administrator of another project's check has its URL shown. *)
Lemma ping_url_shown_or_audited_witness :
  exists resp w' t, check_page sample_config sample_jar eve (CP_Reveal 1 no_query) (calm_env 0)
      (world_of web_db) = (Done (Ok resp), w') /\ rs_page resp = P_Check t /\
    ct_ping_url t = lit "https://p.example/ping/u1" /\
    audited eve (lit "admin.ping_url_reveal") (lit "check") 1 web_db (w_db w').
Proof.
  destruct (check_page sample_config sample_jar eve (CP_Reveal 1 no_query) (calm_env 0)
    (world_of web_db)) as [r w'] eqn:E.
  assert (match (check_page sample_config sample_jar eve (CP_Reveal 1 no_query) (calm_env 0)
      (world_of web_db)).1 with
    | Done (Ok resp) => match rs_page resp with
        | P_Check t => (ct_ping_url t, c_id (ct_check t), c_project_id (ct_check t))
        | _ => ([], 0, 0) end
    | _ => ([], 0, 0) end = (lit "https://p.example/ping/u1", 1, 1)) as N by (vm_compute; reflexivity).
  rewrite E in N. cbn [fst] in N. destruct r as [[resp|x]|]; [|discriminate N|discriminate N].
  destruct (rs_page resp) as [| | | | | | | | t | | | | | | | | | | ] eqn:Hp; try discriminate N.
  injection N as Nu Nc Np. exists resp, w', t. split; [reflexivity|]. split; [exact Hp|]. split; [exact Nu|].
  destruct (ping_url_shown_or_audited sample_config sample_jar eve (CP_Reveal 1 no_query) (calm_env 0)
    (world_of web_db) resp w' t) as [(p & Hrow & Hu)|Ha].
  - exact E.
  - exact Hp.
  - rewrite Nu. discriminate.
  - exfalso. rewrite Np, world_of_db in Hrow.
    assert (pr_user_id <$> t_rows (projects web_db) !! 1 = Some 1) as F by (vm_compute; reflexivity).
    rewrite Hrow in F. injection F as F. rewrite Hu in F. discriminate F.
  - rewrite Nc, world_of_db in Ha. exact Ha.
Defined.

(** The first check of [sample_db], as a form could have stored it. *)
Definition backup_form : CheckForm := {|
  ckf_name := lit " backup ";
  ckf_description := [];
  ckf_schedule_kind := lit "period";
  ckf_period_secs := lit "1 M";
  ckf_cron_expr := [];
  ckf_grace_secs := lit "10";
  ckf_timezone := lit "UTC";
  ckf_scan_interval_secs := [];
  ckf_max_runtime_secs := lit "5s";
  ckf_nag_interval_secs := lit "0h30s" |}.
Definition backup : ValidatedCheck :=
  mk_ValidatedCheck (lit "backup") [] SK_Period (Some 60) 10 None (lit "UTC") None (Some 5) (Some 30).

Lemma resaved_edit_form_changes_nothing_witness :
  exists resp w1 form, check_edit sample_config sample_jar ann_user 1 (calm_env 0) (world_of sample_db)
      = (Done (Ok resp), w1) /\
    (exists csrf heading action ia, rs_page resp = P_CheckForm csrf heading action ia form None) /\
    w_db (check_update sample_config sample_jar ann_user 1 form (calm_env 7) w1).2 = sample_db.
Proof.
  destruct (check_edit sample_config sample_jar ann_user 1 (calm_env 0) (world_of sample_db))
    as [r w1] eqn:E.
  assert (match (check_edit sample_config sample_jar ann_user 1 (calm_env 0) (world_of sample_db)).1 with
    | Done (Ok resp) => match rs_page resp with P_CheckForm _ _ _ _ _ None => true | _ => false end
    | _ => false end = true) as N by (vm_compute; reflexivity).
  rewrite E in N. cbn [fst] in N. destruct r as [[resp|x]|]; [|discriminate N|discriminate N].
  destruct (rs_page resp) as [| | | | |csrf heading action ia form err| | | | | | | | | | | | | ] eqn:Hp;
    try discriminate N.
  destruct err as [err|]; [discriminate N|].
  exists resp, w1, form. split; [reflexivity|]. split; [exists csrf, heading, action, ia; exact Hp|].
  destruct (check_update sample_config sample_jar ann_user 1 form (calm_env 7) w1) as [r2 w2] eqn:E2.
  cbn [snd]. rewrite <- (world_of_db sample_db).
  apply (resaved_edit_form_changes_nothing sample_config sample_jar ann_user 1 (calm_env 0)
    (world_of sample_db) resp w1 csrf heading action ia form backup_form backup (calm_env 7) r2 w2).
  - vm_compute. reflexivity.
  - intros row Hrow. rewrite world_of_db in Hrow. vm_compute in Hrow. injection Hrow as <-.
    vm_compute. reflexivity.
  - exact E.
  - exact Hp.
  - exact E2.
Defined.
