(* ===== verification/Dashboard.v ===== *)
(** * Dashboard: the first page of [src/web.rs]

    The checks of a user, by project, with the filters of the query; that without a filter
    it shows every check of the user once. *)
From S2P Require Import Prelude Text Markdown Models Config Wire Secret Chrono Auth Db Rows Store Sessions Keyset Sample Notify View Forms Errors Access Templates Web Account Listing Owner Pages.
#[local] Open Scope Z_scope.
#[local] Open Scope pw_scope.

(** The query of the dashboard. *)
Record DashboardQuery := mk_DashboardQuery { dq_q : option str; dq_status : option str }.

(** ** The dashboard *)

Section dashboard.
Context `{Cron} `{Crypto} `{PageText}.

(** One check in the loop over a group's checks: the tally counts it whatever the status
    filter, which drops it or draws its row. *)
Definition dashboard_step (status_filter : option StatusFilter)
    (pings_by_check : gmap Z (list PingSummary)) (with_channels : gset Z) (now : Z)
    (st : StatusTally * list Html.CheckRow) (c : Check) : exec (StatusTally * list Html.CheckRow) :=
  let '(tally, rows) := st in
  let* ds := display_status c now in
  let tally := tally_count tally ds in
  if match status_filter with Some sf => negb (StatusFilter_matches sf ds) | None => false end then
    Done (tally, rows)
  else
    let* row := dashboard_check_row c (default [] (pings_by_check !! c_id c))
                  (bool_decide (c_id c ∉ with_channels)) now in
    Done (tally, rows ++ [row]).

Fixpoint exec_fold {S A} (f : S -> A -> exec S) (s : S) (l : list A) : exec S :=
  match l with
  | [] => Done s
  | x :: l' => let* s' := f s x in exec_fold f s' l'
  end.

(** One project in the loop: a project whose checks are all filtered out is left out. *)
Definition dashboard_group (status_filter : option StatusFilter)
    (pings_by_check : gmap Z (list PingSummary)) (with_channels : gset Z) (now : Z)
    (st : StatusTally * list ProjectGroup) (pc : Project * list Check)
  : exec (StatusTally * list ProjectGroup) :=
  let '(tally, groups) := st in
  let '(project, checks) := pc in
  let* counted := exec_fold (dashboard_step status_filter pings_by_check with_channels now)
                    (tally, []) checks in
  let '(tally, rows) := counted in
  if bool_decide (is_Some status_filter) && is_empty rows then Done (tally, groups)
  else Done (tally, groups ++ [{|
    grp_id := p_id project;
    grp_name := p_name project;
    grp_count := Z.of_nat (length rows);
    grp_checks := rows;
    grp_description := truncate_plain (p_description project) 120 |}]).

Definition dashboard (config : Config) (jar : CookieJar) (user : option User) (query : DashboardQuery)
  : M (res AppError Response) :=
  let? n := db count_users in
  if n =? 0 then see (lit "/setup") else
  match user with
  | None => see (lit "/login")
  | Some user =>
      let '(jar, forward_auth_logout) := take_flash config jar (lit "forward_auth_logout") in
      do now := utc_now in
      let q := trim (default [] (dq_q query)) in
      let needle := to_lowercase q in
      let status_filter := StatusFilter_parse (default [] (dq_status query)) in
      let status := match status_filter with Some f => StatusFilter_as_str f | None => [] end in
      let? listed := db (list_projects_for_user (u_id user)) in
      let projects := sort_projects_by_name listed in
      let? checks_by_project := db (list_checks_for_projects (map p_id projects)) in
      let project_checks := filter_project_checks projects checks_by_project needle in
      let check_ids := flat_map (fun pc => map c_id pc.2) project_checks in
      let? pings_by_check := db (list_recent_ping_summaries_for_checks check_ids 40) in
      let? with_channels := db (checks_with_channels check_ids) in
      do drawn := mexec (exec_fold (dashboard_group status_filter pings_by_check with_channels now)
                           (no_tally, []) project_checks) in
      let '(tally, groups) := drawn in
      mret (Ok (with_jar jar (page_response (P_Dashboard {|
        dt_csrf := current_csrf config jar;
        dt_is_admin := u_is_admin user;
        dt_total := tl_total tally;
        dt_up := tl_up tally;
        dt_late := tl_late tally;
        dt_down := tl_down tally;
        dt_groups := groups;
        dt_q := q;
        dt_status := status;
        dt_forward_auth_logout := forward_auth_logout |}))))
  end.
End dashboard.

(** ** What the listings yield *)

Lemma collect_map {A B C} (f : A -> res DbErr B) (g : A -> C) (h : B -> C) l ys :
  (forall x y, f x = Ok y -> h y = g x) -> collect f l = Ok ys -> map h ys = map g l.
Proof.
  intros Hf. revert ys. induction l as [|x l IH]; intros ys E; simpl in E; [by injection E as <-|].
  apply res_bind_ok in E as (y & Ey & E). apply res_bind_ok in E as (ys' & Eys & [= <-]).
  simpl. by rewrite (IH _ Eys), (Hf _ _ Ey).
Qed.
Lemma collect_elem {A B} (f : A -> res DbErr B) l ys :
  collect f l = Ok ys ->
  (forall x, x ∈ l -> exists y, y ∈ ys /\ f x = Ok y) /\ (forall y, y ∈ ys -> exists x, x ∈ l /\ f x = Ok y).
Proof.
  revert ys. induction l as [|x l IH]; intros ys E; simpl in E.
  { injection E as <-. split; intros ? []%not_elem_of_nil. }
  apply res_bind_ok in E as (y & Ey & E). apply res_bind_ok in E as (ys' & Eys & [= <-]).
  destruct (IH _ Eys) as [Hl Hr]. split.
  - intros z [->|Hz]%elem_of_cons; [exists y; split; [by left|done]|].
    destruct (Hl z Hz) as (v & ? & ?). exists v. split; [by right|done].
  - intros z [->|Hz]%elem_of_cons; [exists x; split; [by left|done]|].
    destruct (Hr z Hz) as (v & ? & ?). exists v. split; [by right|done].
Qed.

Lemma group_by_lookup {A} (key : A -> Z) l k :
  default [] (group_by key l !! k) = List.filter (fun x => key x =? k) l.
Proof.
  unfold group_by.
  assert (forall m : gmap Z (list A), default [] (fold_left (fun m x => <[key x := default [] (m !! key x) ++ [x]]> m) l m !! k)
    = default [] (m !! k) ++ List.filter (fun x => key x =? k) l) as Hg.
  { induction l as [|x l IH]; intros m; cbn [fold_left List.filter]; [by rewrite app_nil_r|].
    rewrite IH. destruct (Z.eqb_spec (key x) k) as [->|Hne].
    - rewrite lookup_insert_eq. cbn. by rewrite <- app_assoc.
    - by rewrite lookup_insert_ne. }
  rewrite Hg. by rewrite lookup_empty.
Qed.

Lemma NoDup_flat_map {A B} (f : A -> list B) l :
  NoDup l -> (forall x, x ∈ l -> NoDup (f x)) ->
  (forall x y b, x ∈ l -> y ∈ l -> b ∈ f x -> b ∈ f y -> x = y) -> NoDup (flat_map f l).
Proof.
  induction 1 as [|x l Hx Hl IH]; intros Hf Hd; simpl; [constructor|].
  apply NoDup_app. split; [apply Hf; by left|]. split.
  - intros b Hb Hb'. apply list_elem_of_In, in_flat_map in Hb' as (y & Hy & Hb'%list_elem_of_In).
    apply list_elem_of_In in Hy. assert (x = y) as <- by (eapply Hd; [by left|by right|done|done]). done.
  - apply IH; [intros; apply Hf; by right|]. intros; eapply Hd; [by right|by right|done|done].
Qed.

Lemma elem_of_flat_map {A B} (f : A -> list B) l b : b ∈ flat_map f l <-> exists x, x ∈ l /\ b ∈ f x.
Proof.
  rewrite list_elem_of_In, in_flat_map. by setoid_rewrite <- list_elem_of_In.
Qed.

(** ** The checks drawn *)

Section drawn.
Context `{Cron} `{PageText}.

(** The check ids of what is listed, before and after drawing. *)
Definition listed_ids (l : list (Project * list Check)) : list Z := flat_map (fun pc => map c_id pc.2) l.
Definition shown_ids (groups : list ProjectGroup) : list Z :=
  flat_map (fun g => map Html.hc_id (grp_checks g)) groups.

Lemma shown_ids_length groups : length (shown_ids groups) = length (flat_map grp_checks groups).
Proof.
  unfold shown_ids. induction groups as [|g groups IH]; [done|]. cbn [flat_map].
  by rewrite !length_app, length_map, IH.
Qed.

(** How many rows are drawn with one of these labels. *)
Definition labelled (labels : list String.string) (rows : list Html.CheckRow) : Z :=
  Z.of_nat (length (List.filter (fun row => bool_decide (Html.hc_status row ∈ map lit labels)) rows)).
(** [t'] is [t] with the rows counted: a running check as up, a paused or a new one only in
    the total. *)
Record adds (t t' : StatusTally) (rows : list Html.CheckRow) : Prop := mk_adds {
  ad_total : tl_total t' = tl_total t + Z.of_nat (length rows);
  ad_up : tl_up t' = tl_up t + labelled ["up"; "running"]%string rows;
  ad_late : tl_late t' = tl_late t + labelled ["late"]%string rows;
  ad_down : tl_down t' = tl_down t + labelled ["down"]%string rows;
}.

Lemma labelled_app ls rows rows' : labelled ls (rows ++ rows') = labelled ls rows + labelled ls rows'.
Proof. unfold labelled. rewrite List.filter_app, length_app. lia. Qed.
Lemma adds_nil t : adds t t [].
Proof. split; symmetry; apply Z.add_0_r. Qed.
Lemma adds_app t1 t2 t3 rows rows' : adds t1 t2 rows -> adds t2 t3 rows' -> adds t1 t3 (rows ++ rows').
Proof. intros [? ? ? ?] [? ? ? ?]. split; rewrite ?labelled_app, ?length_app; lia. Qed.
Lemma adds_row t ds row : Html.hc_status row = DisplayStatus_as_str ds -> adds t (tally_count t ds) [row].
Proof.
  intros Hs.
  assert (forall ls, labelled ls [row] = if bool_decide (DisplayStatus_as_str ds ∈ map lit ls) then 1 else 0) as Hl.
  { intros ls. unfold labelled. cbn [List.filter]. rewrite Hs. by destruct (bool_decide _). }
  split; rewrite ?Hl; [by destruct ds|..];
    destruct ds; (match goal with |- context [bool_decide ?P] => destruct (bool_decide P) eqn:E end);
    vm_compute in E; try discriminate E; cbn [tally_count tl_up tl_late tl_down]; lia.
Qed.

Lemma dashboard_step_fold sf ps wc now l tally rows tally' rows' :
  exec_fold (dashboard_step sf ps wc now) (tally, rows) l = Done (tally', rows') ->
  exists new, rows' = rows ++ new /\ sublist (map Html.hc_id new) (map c_id l) /\
    (sf = None -> map Html.hc_id new = map c_id l /\ adds tally tally' new).
Proof.
  revert tally rows. induction l as [|c l IH]; intros tally rows E; cbn [exec_fold] in E.
  { injection E as <- <-. exists []. rewrite app_nil_r. split; [done|]. split; [constructor|]. split; [done|apply adds_nil]. }
  apply exec_bind_done in E as ([tally1 rows1] & E1 & E). apply IH in E as (new & -> & Hs & Hn).
  unfold dashboard_step in E1. apply exec_bind_done in E1 as (ds & Eds & E1).
  destruct (match sf with Some _ => _ | None => _ end) eqn:Ef.
  - injection E1 as <- <-. exists new. split; [done|]. split; [by constructor|]. intros ->. done.
  - apply exec_bind_done in E1 as (row & Er & [= <- <-]).
    assert (Html.hc_id row = c_id c /\ Html.hc_status row = DisplayStatus_as_str ds) as [Hid Hst].
    { unfold dashboard_check_row in Er. rewrite Eds in Er. by injection Er as <-. }
    exists (row :: new). cbn [map]. split; [by rewrite <- app_assoc|]. rewrite Hid. split; [by constructor|].
    intros Hsf. destruct (Hn Hsf) as [-> Ha]. split; [done|]. eapply (adds_app _ _ _ [row]); [by apply adds_row|done].
Qed.

Lemma dashboard_group_fold sf ps wc now l tally groups tally' groups' :
  exec_fold (dashboard_group sf ps wc now) (tally, groups) l = Done (tally', groups') ->
  exists new, groups' = groups ++ new /\ sublist (shown_ids new) (listed_ids l) /\
    (sf = None -> shown_ids new = listed_ids l /\ adds tally tally' (flat_map grp_checks new)).
Proof.
  revert tally groups. induction l as [|[p cs] l IH]; intros tally groups E; cbn [exec_fold] in E.
  { injection E as <- <-. exists []. rewrite app_nil_r. split; [done|]. split; [constructor|]. split; [done|apply adds_nil]. }
  apply exec_bind_done in E as ([tally1 groups1] & E1 & E). apply IH in E as (new & -> & Hs & Hn).
  unfold dashboard_group in E1. apply exec_bind_done in E1 as ([tally2 rows] & E2 & E1).
  apply dashboard_step_fold in E2 as (drawn & -> & Hs2 & Hn2). cbn [app] in *.
  unfold listed_ids, shown_ids in *. cbn [flat_map snd].
  destruct (bool_decide (is_Some sf) && is_empty drawn) eqn:Eb; injection E1 as <- <-.
  - exists new. split; [done|]. split.
    + apply (sublist_app [] (map c_id cs)); [apply sublist_nil_l|done].
    + intros ->. by rewrite bool_decide_false in Eb by by intros [? [=]].
  - eexists. split; [rewrite <- app_assoc; reflexivity|]. cbn [app flat_map grp_checks].
    split; [by apply sublist_app|]. intros Hsf. destruct (Hn2 Hsf) as [-> Ha2], (Hn Hsf) as [-> Ha].
    split; [done|]. by eapply adds_app.
Qed.
End drawn.

(** ** The checks listed *)

Section listed.
Context `{ChronoLaws} `{!Cron} `{PageText}.

Lemma merge_sort_elem {A} (R : relation A) `{!RelDecision R} l x : x ∈ merge_sort R l <-> x ∈ l.
Proof. by rewrite merge_sort_Permutation. Qed.

(** The lists of [l] by project. *)
Definition by_project (l : list Check) (p : Project) : list Check :=
  sort_checks_by_activity (List.filter (fun c => c_project_id c =? p_id p) l).

Lemma filter_project_checks_spec projects m l needle :
  NoDup (map p_id projects) ->
  (forall p, p ∈ projects -> default [] (m !! p_id p) = List.filter (fun c => c_project_id c =? p_id p) l) ->
  sublist (listed_ids (filter_project_checks projects m needle))
    (listed_ids (map (fun p => (p, by_project l p)) projects)) /\
  (needle = [] -> filter_project_checks projects m needle = map (fun p => (p, by_project l p)) projects).
Proof.
  revert m. induction projects as [|p projects IH]; intros m Hnd Hm; [split; [constructor|done]|].
  cbn [map] in Hnd. apply NoDup_cons in Hnd as [Hp Hnd]. cbn [filter_project_checks map].
  rewrite (Hm p) by by left. fold (by_project l p).
  destruct (IH (delete (p_id p) m)) as [IHs IHn]; [done| |].
  { intros p' Hp'. rewrite lookup_delete_ne; [by apply Hm; right|]. intros E. apply Hp. rewrite E.
    by apply list_elem_of_fmap_2. }
  set (hit := is_empty needle || matches_term (p_name p) needle || matches_term (p_description p) needle).
  set (kept := if hit then by_project l p else _). split.
  - assert (sublist (map c_id kept) (map c_id (by_project l p))) as Hk.
    { unfold kept. destruct hit; [done|]. apply sublist_map_filter. }
    unfold listed_ids in *. destruct (negb hit && is_empty kept); cbn [flat_map snd].
    + apply (sublist_app [] (map c_id (by_project l p))); [apply sublist_nil_l|done].
    + by apply sublist_app.
  - intros ->. unfold kept, hit. cbn. by rewrite IHn.
Qed.

Lemma row_to_project_Ok x p :
  row_to_project x = Ok p -> p_id p = x.1 /\ p_user_id p = pr_user_id x.2.
Proof. destruct x as [i r]. intros E. by apply res_bind_ok in E as (? & _ & [= <-]). Qed.

(** The projects of a user, and the checks of a list of projects. *)
Lemma projects_listed uid d ps :
  collect row_to_project (select (fun _ r => pr_user_id r =? uid) (projects d)) = Ok ps ->
  NoDup (map p_id ps) /\ forall pid, pid ∈ map p_id ps <-> owns uid d pid.
Proof.
  intros E. pose proof (collect_map _ fst p_id _ _ (fun x p Hx => proj1 (row_to_project_Ok x p Hx)) E) as Em.
  rewrite Em. split; [apply select_NoDup|]. intros pid. rewrite list_elem_of_fmap. split.
  - intros ([i r] & -> & Hi). apply elem_of_select in Hi as [Hi Hu]. apply Z.eqb_eq in Hu. by exists r.
  - intros (r & Hr & Hu). exists (pid, r). split; [done|]. apply elem_of_select. split; [done|].
    by apply Z.eqb_eq.
Qed.

Definition rows_of (d : Db) (pids : list Z) : list (Z * CheckRow) :=
  concat (map (fun pid => select (fun _ r => cr_project_id r =? pid) (checks d)) (distinct_sorted pids)).

Lemma elem_of_rows_of d pids i r :
  (i, r) ∈ rows_of d pids <-> t_rows (checks d) !! i = Some r /\ cr_project_id r ∈ pids.
Proof.
  unfold rows_of. rewrite <- flat_map_concat_map, elem_of_flat_map. unfold distinct_sorted.
  setoid_rewrite elem_of_select. setoid_rewrite merge_sort_elem. setoid_rewrite elem_of_remove_dups.
  setoid_rewrite Z.eqb_eq. split; [intros (? & ? & ? & ->); done|]. intros [? ?]. eauto.
Qed.
Lemma rows_of_NoDup d pids : NoDup (map fst (rows_of d pids)).
Proof.
  unfold rows_of. rewrite <- flat_map_concat_map.
  assert (forall l, map fst (flat_map (fun pid => select (fun _ r => cr_project_id r =? pid) (checks d)) l)
    = flat_map (fun pid => map fst (select (fun _ r => cr_project_id r =? pid) (checks d))) l) as ->.
  { intros l. induction l as [|x l IH]; simpl; [done|]. by rewrite map_app, IH. }
  apply NoDup_flat_map.
  - unfold distinct_sorted. rewrite merge_sort_Permutation. apply NoDup_remove_dups.
  - intros pid _. apply select_NoDup.
  - intros x y b _ _ Hx Hy. apply list_elem_of_fmap in Hx as ([i r] & -> & Hx).
    apply list_elem_of_fmap in Hy as ([j s] & E & Hy). cbn in E. subst j.
    apply elem_of_select in Hx as [Hx Ex]. apply elem_of_select in Hy as [Hy Ey].
    rewrite Hx in Hy. injection Hy as <-. apply Z.eqb_eq in Ex, Ey. congruence.
Qed.

(** A key without duplicates names its element. *)
Lemma NoDup_map_inj {A B} (f : A -> B) l x y :
  NoDup (map f l) -> x ∈ l -> y ∈ l -> f x = f y -> x = y.
Proof.
  intros Hnd Hx Hy E. apply list_elem_of_lookup in Hx as [i Hi]. apply list_elem_of_lookup in Hy as [j Hj].
  assert (i = j) as <-; [|congruence]. apply (NoDup_lookup (map f l) i j (f x)); [done| |].
  - by rewrite list_lookup_fmap, Hi.
  - by rewrite list_lookup_fmap, Hj, E.
Qed.

Lemma elem_of_by_project cs p id :
  id ∈ map c_id (by_project cs p) <-> exists c, c ∈ cs /\ c_id c = id /\ c_project_id c = p_id p.
Proof.
  rewrite list_elem_of_fmap. unfold by_project, sort_checks_by_activity.
  setoid_rewrite merge_sort_elem. setoid_rewrite list_elem_of_In. setoid_rewrite filter_In.
  setoid_rewrite Z.eqb_eq. naive_solver.
Qed.

Lemma checks_listed d pids cs ps :
  collect row_to_check (rows_of d pids) = Ok cs -> NoDup (map p_id ps) ->
  (forall pid, pid ∈ map p_id ps <-> pid ∈ pids) ->
  let ids := listed_ids (map (fun p => (p, by_project cs p)) ps) in
  NoDup ids /\ forall id, id ∈ ids <-> exists r, t_rows (checks d) !! id = Some r /\ cr_project_id r ∈ pids.
Proof.
  intros E Hnd Hps ids. pose proof (collect_elem _ _ _ E) as [Hl Hr].
  assert (NoDup (map c_id cs)) as Hcs.
  { rewrite (collect_map _ fst c_id _ _ (fun x c Hx => proj1 (row_to_check_Ok x.1 x.2 c ltac:(by destruct x))) E).
    apply rows_of_NoDup. }
  assert (ids = flat_map (fun p => map c_id (by_project cs p)) ps) as Eids.
  { unfold ids, listed_ids. clear. induction ps as [|p ps IH]; simpl; [done|]. by rewrite IH. }
  rewrite Eids. split.
  - apply NoDup_flat_map.
    + by eapply NoDup_fmap_1.
    + intros p _. unfold by_project, sort_checks_by_activity. rewrite merge_sort_Permutation.
      eapply sublist_NoDup; [exact Hcs|]. apply sublist_map_filter.
    + intros p q id Hp Hq (c & Hc & <- & Ep)%elem_of_by_project (c' & Hc' & Ec & Eq)%elem_of_by_project.
      apply (NoDup_map_inj c_id cs) in Ec as ->; [|done..].
      apply (NoDup_map_inj p_id ps); [done..|congruence].
  - intros id. rewrite elem_of_flat_map. setoid_rewrite elem_of_by_project. split.
    + intros (p & Hp & c & Hc & <- & Ep). destruct (Hr c Hc) as ([i r] & Hi & Ei).
      apply row_to_check_Ok in Ei as (-> & Epr & _). apply elem_of_rows_of in Hi as [Hi Hpid].
      exists r. by split.
    + intros (r & Hid & Hpid). destruct (Hl (id, r)) as (c & Hc & Ec); [by apply elem_of_rows_of|].
      apply row_to_check_Ok in Ec as (Eid & Epr & _).
      apply Hps, list_elem_of_fmap in Hpid as (p & Ep & Hp). exists p. split; [done|].
      exists c. split; [done|]. split; [done|]. congruence.
Qed.
End listed.

(** ** The dashboard shows every check once *)

Section complete.
Context `{PageTextLaws} `{!Cron} `{!Crypto}.

Lemma list_checks_for_projects_inv pids e w m w' :
  db (list_checks_for_projects pids) e w = (Done (Ok m), w') ->
  w_db w' = w_db w /\
  exists cs, collect row_to_check (rows_of (w_db w) pids) = Ok cs /\ m = group_by c_project_id cs.
Proof.
  unfold list_checks_for_projects. destruct (is_empty pids) eqn:Ee.
  - intros [= <- <-]. split; [done|]. exists []. destruct pids; [|done]. by split.
  - intros E. apply map_err_stmt_inv in E as [[_ [x [=]]]|(a & d' & Er & [= <-] & ->)].
    destruct (res_bind _ _) as [m'|] eqn:Em in Er; [|done]. injection Er as <- <-.
    apply res_bind_ok in Em as (cs & Ecs & [= <-]). split; [done|]. by exists cs.
Qed.

(** C36: the dashboard shows every check once, and only the user's own. Whatever the filters,
    no check is drawn twice and every one drawn is in a project of the user. Without a
    filter every check of the user is drawn, and the four tallies on top are the numbers of
    rows below: all of them, those labelled up or running, those late, those down. *)
Theorem dashboard_shows_every_check config jar user query e w resp w' t :
  dashboard config jar (Some user) query e w = (Done (Ok resp), w') -> rs_page resp = P_Dashboard t ->
  let shown := shown_ids (dt_groups t) in
  NoDup shown /\ (forall id, id ∈ shown -> owned_row (u_id user) (w_db w) id) /\
  (trim (default [] (dq_q query)) = [] -> StatusFilter_parse (default [] (dq_status query)) = None ->
   dt_total t = Z.of_nat (length shown) /\
   (let rows := flat_map grp_checks (dt_groups t) in
    dt_up t = labelled ["up"; "running"]%string rows /\ dt_late t = labelled ["late"]%string rows /\
    dt_down t = labelled ["down"]%string rows) /\
   forall id, owned_row (u_id user) (w_db w) id -> id ∈ shown).
Proof.
  intros E Ht shown. unfold dashboard in E.
  apply mtry_Ok_inv in E as (n & w1 & E1 & E). apply reads_same in E1 as D1; [|intros I; handler_steps].
  destruct (n =? 0); [by injection E as <- _|].
  destruct (take_flash _ _ _) as [jar' flash].
  apply mbind_inv in E as [[[=] _]|(now & w2 & [= _ <-] & E)].
  apply mtry_Ok_inv in E as (listed & w3 & E3 & E).
  apply map_err_stmt_inv in E3 as [[_ [x [=]]]|(a & d' & Er & [= <-] & D3)].
  cbn [w_db] in Er, D3. destruct (collect _ _) as [ps|] eqn:Eps in Er; [|done]. injection Er as <- <-.
  apply mtry_Ok_inv in E as (m & w4 & E4 & E). apply list_checks_for_projects_inv in E4 as [D4 (cs & Ecs & ->)].
  apply mtry_Ok_inv in E as (pings & w5 & _ & E). apply mtry_Ok_inv in E as (wc & w6 & _ & E).
  apply mbind_inv in E as [[_ [=]]|([tally groups] & w7 & Ed & E)]. apply mexec_inv in Ed as [Ed _].
  injection E as <- _. cbn [rs_page with_jar page_response] in Ht. injection Ht as <-.
  unfold shown. cbn [dt_groups dt_total]. clear shown.
  rewrite D3, D1 in Ecs. rewrite D1 in Eps.
  destruct (projects_listed _ _ _ Eps) as [Hnd Hown]. set (sorted := sort_projects_by_name ps) in *.
  assert (map p_id sorted ≡ₚ map p_id ps) as Hsort by (unfold sorted, sort_projects_by_name; by rewrite merge_sort_Permutation).
  assert (NoDup (map p_id sorted)) as Hnd' by by rewrite Hsort.
  destruct (checks_listed _ _ _ sorted Ecs Hnd') as [Hids Hmem]; [done|].
  destruct (filter_project_checks_spec sorted (group_by c_project_id cs) cs
    (to_lowercase (trim (default [] (dq_q query))))) as [Hsub Hall]; [done|by intros; apply group_by_lookup|].
  apply dashboard_group_fold in Ed as (new & -> & Hs & Hn). cbn [app] in *.
  assert (forall id, id ∈ listed_ids (map (fun p => (p, by_project cs p)) sorted) <->
    owned_row (u_id user) (w_db w) id) as Howned.
  { intros id. rewrite Hmem. setoid_rewrite Hsort. unfold owned_row. by setoid_rewrite Hown. }
  split; [|split].
  - eapply sublist_NoDup; [exact Hids|]. by etrans.
  - intros id Hid. apply Howned. eapply elem_of_submseteq; [exact Hid|]. apply sublist_submseteq. by etrans.
  - intros Eq Ef. rewrite Eq, lowercase_nil in *. destruct (Hn Ef) as [Hshown [Ht Hup Hlate Hdown]].
    cbn [dt_up dt_late dt_down]. cbn [no_tally tl_total tl_up tl_late tl_down] in *. split; [|split; [by rewrite Hup, Hlate, Hdown|]].
    + rewrite Ht, <- shown_ids_length. done.
    + rewrite Hshown, (Hall eq_refl). intros id. apply Howned.
Qed.
End complete.

(** ** A witness *)

#[local] Existing Instances SampleChrono.sample_chrono SampleChrono.sample_chrono_laws.
#[local] Existing Instances SampleChrono.sample_cron SampleCrypto.sample_crypto.
#[local] Existing Instances SamplePageText.sample_page_text SamplePageText.sample_page_text_laws.

Definition no_filter : DashboardQuery := mk_DashboardQuery (Some (lit "  ")) None.

Lemma dashboard_shows_every_check_witness :
  exists resp w' t, dashboard sample_config sample_jar (Some ann_user) no_filter (calm_env 0)
      (world_of sample_db) = (Done (Ok resp), w') /\ rs_page resp = P_Dashboard t /\
    dt_total t = Z.of_nat (length (shown_ids (dt_groups t))) /\ 2 ∈ shown_ids (dt_groups t).
Proof.
  destruct (dashboard sample_config sample_jar (Some ann_user) no_filter (calm_env 0)
    (world_of sample_db)) as [r w'] eqn:E.
  assert (match (dashboard sample_config sample_jar (Some ann_user) no_filter (calm_env 0)
      (world_of sample_db)).1 with
    | Done (Ok resp) => match rs_page resp with P_Dashboard _ => true | _ => false end
    | _ => false end = true) as N by (vm_compute; reflexivity).
  rewrite E in N. cbn [fst] in N. destruct r as [[resp|x]|]; [|discriminate N|discriminate N].
  destruct (rs_page resp) as [| | | | | | | | | | |t| | | | | | | ] eqn:Hp; try discriminate N.
  exists resp, w', t. split; [reflexivity|]. split; [exact Hp|].
  destruct (dashboard_shows_every_check sample_config sample_jar ann_user no_filter (calm_env 0)
    (world_of sample_db) resp w' t E Hp) as (_ & _ & Hall).
  destruct Hall as (Htot & (Hup & Hlate & Hdown) & Hin); [vm_compute; reflexivity|vm_compute; reflexivity|].
  split; [exact Htot|]. apply Hin. rewrite world_of_db.
  destruct (t_rows (checks sample_db) !! 2) as [row|] eqn:Hrow; [|vm_compute in Hrow; discriminate Hrow].
  exists row. split; [exact Hrow|]. vm_compute in Hrow. injection Hrow as <-.
  eexists. split; vm_compute; reflexivity.
Defined.
