(* ===== verification/Admin.v ===== *)
(** * Admin: the administration page of [src/web.rs]

    The environment card with its redactions, the audit trail with its filters, the page
    and its flashes, and the saving of the settings. *)
From S2P Require Import Prelude Text Models Duration Config Wire Secret Chrono Auth Db Rows Store Sessions Keyset Sample View Forms Errors Access Templates Web Account Listing.
From S2P Require Elevate.
#[local] Open Scope Z_scope.
#[local] Open Scope pw_scope.

(** ** The environment card *)

(** [url.find("://")]: the text up to the end of the first one, and the rest. *)
Fixpoint scheme_split (url : str) : option (str * str) :=
  match strip_prefix (lit "://") url with
  | Some rest => Some (lit "://", rest)
  | None =>
      match url with
      | [] => None
      | c :: url' => match scheme_split url' with
                     | Some (head, rest) => Some (c :: head, rest)
                     | None => None
                     end
      end
  end.
(** What follows the first ['@'], if no ['/'], ['?'] or ['#'] comes before it. *)
Fixpoint after_userinfo (rest : str) : option str :=
  match rest with
  | [] => None
  | c :: rest' =>
      if c =? chr "@" then Some rest'
      else if (c =? chr "/") || (c =? chr "?") || (c =? chr "#") then None
      else after_userinfo rest'
  end.
Definition redact_db_url (url : str) : str :=
  match scheme_split url with
  | None => url
  | Some (head, rest) =>
      match after_userinfo rest with
      | Some host => head ++ lit "***@" ++ host
      | None => url
      end
  end.

Definition set_or_unset (v : option str) : EnvValue :=
  match v with Some s => EV_Set s | None => EV_Unset end.
Definition log_format_name (f : LogFormat) : str :=
  match f with
  | LF_Full => lit "full"
  | LF_Compact => lit "compact"
  | LF_Pretty => lit "pretty"
  | LF_Json => lit "json"
  end.
Definition smtp_tls_name (t : SmtpTls) : str :=
  match t with ST_Starttls => lit "starttls" | ST_Tls => lit "tls" | ST_None => lit "none" end.

Definition server_env_settings (config : Config) : list EnvSetting :=
  let log_format := log_format_name (cf_log_format config) in [
  mk_EnvSetting (lit "DATABASE_URL")
    (EV_Set (redact_db_url (cf_database_url config)))
    (lit "sqlite://pingward.sqlite3?mode=rwc")
    (lit "The database connection string (SQLite or Postgres).");
  mk_EnvSetting (lit "PINGWARD_BIND")
    (EV_Set (cf_bind config))
    (lit "127.0.0.1:8080")
    (lit "The socket address the server listens on.");
  mk_EnvSetting (lit "PINGWARD_BASE_URL")
    (EV_Set (cf_base_url config))
    (lit "http://localhost:8080")
    (lit "Used to render absolute ping URLs.");
  mk_EnvSetting (lit "PINGWARD_LOG_FORMAT")
    (EV_Set log_format)
    (lit "full")
    (lit "Log line format (full, compact, pretty or json); applied at process startup — changing it requires a restart.");
  mk_EnvSetting (lit "PINGWARD_HSTS_MAX_AGE")
    (EV_Set (show_Z (cf_hsts_max_age_secs config)))
    (lit "0 (off)")
    (lit "Strict-Transport-Security max-age in seconds; 0 sends no header. Prefer setting this on the reverse proxy — see README.")].

Definition scheduling_env_settings (config : Config) : list EnvSetting := [
  mk_EnvSetting (lit "PINGWARD_SCAN_INTERVAL")
    (EV_Set (show_Z (cf_scan_interval_secs config)))
    (lit "30")
    (lit "Fallback scan interval — only used when no check, project, or global setting overrides it (check → project → global setting → env cascade).");
  mk_EnvSetting (lit "PINGWARD_PRUNE_INTERVAL_SECS")
    (EV_Set (show_Z (cf_prune_interval_secs config)))
    (lit "3600")
    (lit "How often old pings/notifications are deleted.")].

Definition auth_env_settings (config : Config) : list EnvSetting := [
  mk_EnvSetting (lit "PINGWARD_FORWARD_AUTH_HEADER")
    (set_or_unset (cf_forward_auth_header config))
    (lit "(unset)")
    (lit "Header name for the trusted-proxy forward-auth mechanism.");
  mk_EnvSetting (lit "PINGWARD_TRUSTED_PROXIES")
    (if is_empty (cf_trusted_proxies config) then EV_Unset
     else EV_Set (join (lit ", ") (cf_trusted_proxies config)))
    (lit "(unset)")
    (lit "Proxy addresses trusted to set the forward-auth header.");
  mk_EnvSetting (lit "PINGWARD_FORWARD_AUTH_LOGOUT_URL")
    (set_or_unset (cf_forward_auth_logout_url config))
    (lit "(unset)")
    (lit "Where logging out sends the browser — point it at the gateway's sign-out endpoint to end the SSO session too. Unset means /login.");
  mk_EnvSetting (lit "PINGWARD_COOKIE_SECURE")
    (EV_Set (if cf_cookie_secure config then lit "true" else lit "false"))
    (lit "derived from PINGWARD_BASE_URL's scheme")
    (lit "Whether the session cookie carries `Secure`. Leave unset unless TLS terminates upstream and PINGWARD_BASE_URL cannot say so.")].

Definition email_env_settings (config : Config) : list EnvSetting :=
  let smtp := cf_smtp config in [
  mk_EnvSetting (lit "PINGWARD_SMTP_HOST")
    (set_or_unset (sm_host <$> smtp))
    (lit "(unset)")
    (lit "Instance SMTP server host.");
  mk_EnvSetting (lit "PINGWARD_SMTP_PORT")
    (set_or_unset (show_Z ∘ sm_port <$> smtp))
    (lit "(unset)")
    (lit "Instance SMTP server port.");
  mk_EnvSetting (lit "PINGWARD_SMTP_FROM")
    (set_or_unset (sm_from <$> smtp))
    (lit "(unset)")
    (lit "The From address used for outgoing email notifications.");
  mk_EnvSetting (lit "PINGWARD_SMTP_TLS")
    (set_or_unset ((fun s => smtp_tls_name (sm_tls s)) <$> smtp))
    (lit "(unset)")
    (lit "SMTP transport security mode (starttls, tls, or none).");
  mk_EnvSetting (lit "PINGWARD_SMTP_USERNAME")
    (set_or_unset (s ← smtp; sm_username s))
    (lit "(unset)")
    (lit "SMTP AUTH username (an identity, not a credential — shown verbatim).");
  mk_EnvSetting (lit "PINGWARD_SMTP_PASSWORD")
    (EV_Secret (match smtp with Some s => bool_decide (is_Some (sm_password s)) | None => false end))
    (lit "(unset)")
    (lit "SMTP AUTH password — never displayed, only whether it's configured.")].

Definition env_settings (config : Config) : list (str * list EnvSetting) := [
  (lit "Server", server_env_settings config);
  (lit "Scheduling", scheduling_env_settings config);
  (lit "Auth", auth_env_settings config);
  (lit "Email (SMTP)", email_env_settings config)].

(** ** The page *)

Record AdminAuditQuery := mk_AdminAuditQuery {
  aq_ab : option Z;
  aq_aa : option Z;
  aq_aactor : option str;
  aq_aaction : option str;
  aq_afrom : option str;
  aq_ato : option str;
}.
Definition default_audit_query : AdminAuditQuery := mk_AdminAuditQuery None None None None None None.

Record AdminRender := mk_AdminRender {
  ar_settings : SettingsForm;
  ar_settings_error : option str;
  ar_settings_flash : option str;
  ar_user_flash : option str;
  ar_elevation_flash : option str;
  ar_password_reset_flash : option str;
  ar_user_error : option str;
}.

Definition readable_setting_duration (raw : str) : str :=
  match parse_i64 (trim raw) with
  | Some v => if 0 <? v then fmt_duration v else raw
  | None => raw
  end.

Definition user_row (admin_id : Z) (u : User) : Html.UserRow := {|
  Html.hu_id := u_id u;
  Html.hu_username := u_username u;
  Html.hu_is_admin := u_is_admin u;
  Html.hu_disabled := u_disabled u;
  Html.hu_is_self := u_id u =? admin_id |}.

(** The same readable form the duration fields use. *)
Definition fmt_elevation_secs (secs : Z) : str := fmt_duration (if secs <=? i64_max then secs else i64_max).

Definition PASSWORD_RESET_KEYS_PREFIX : str := lit "password_reset_keys:".
Definition password_reset_message (revoked keys : Z) : str :=
  let sessions_word := if revoked =? 1 then lit "session" else lit "sessions" in
  let '(keys_word, keys_verb) := if keys =? 1 then (lit "key", lit "continues")
                                 else (lit "keys", lit "continue") in
  lit "Password reset revoked " ++ show_Z revoked ++ lit " " ++ sessions_word
  ++ lit ", but this account still has " ++ show_Z keys ++ lit " API " ++ keys_word ++ lit " that "
  ++ keys_verb ++ lit " to work. An API key can only be revoked from its owner's own /account page — to cut off another user's access immediately, disable their account instead.".

Section admin.
Context `{Cron} `{Crypto} `{PageText}.

(** [DateTime::parse_from_rfc3339(raw?).ok()?]. *)
Definition relative_setting (raw : option str) (now : Z) : option str :=
  r ← raw; at_ ← parse_from_rfc3339 r; Some (fmt_relative at_ now).
Definition absolute_setting (raw : option str) : option str :=
  r ← raw; at_ ← parse_from_rfc3339 r; Some (format_utc at_).

Definition setting_or_blank (key : str) : M (res AppError str) :=
  let? v := db (get_setting key) in mret (Ok (default [] v)).

Definition load_settings_fields : M (res AppError SettingsForm) :=
  let? scan_interval := setting_or_blank (lit "scan_interval") in
  let? nag_interval := setting_or_blank (lit "nag_interval") in
  let? pings_retention_days := setting_or_blank (lit "pings_retention_days") in
  let? notifications_retention_days := setting_or_blank (lit "notifications_retention_days") in
  let? audit_retention_days := setting_or_blank (lit "audit_retention_days") in
  let? display_timezone := setting_or_blank (lit "display_timezone") in
  mret (Ok (mk_SettingsForm (readable_setting_duration scan_interval)
    (readable_setting_duration nag_interval) pings_retention_days notifications_retention_days
    audit_retention_days display_timezone)).

(** ** The audit trail *)

Definition audit_row (a : AuditLog) : Html.AuditRow := {|
  Html.ha_time := format_utc (a_created_at a);
  Html.ha_iso := to_rfc3339 (a_created_at a);
  Html.ha_actor := a_actor_username a;
  Html.ha_action := a_action a;
  Html.ha_target := match a_target_type a, a_target_id a with
                    | Some t, Some id => t ++ lit " #" ++ show_Z id
                    | Some t, None => t
                    | None, _ => dash
                    end;
  Html.ha_method_path := match a_method a, a_path a with
                         | Some m, Some p => m ++ lit " " ++ p
                         | Some m, None => m
                         | None, Some p => p
                         | None, None => dash
                         end;
  Html.ha_detail := default [] (a_detail a);
  Html.ha_target_owner := match a_target_owner_id a with
                          | Some id => lit "user #" ++ show_Z id
                          | None => dash
                          end;
  Html.ha_expandable := bool_decide (is_Some (a_method a)) || bool_decide (is_Some (a_path a))
    || bool_decide (is_Some (a_detail a)) || bool_decide (is_Some (a_target_owner_id a)) |}.

Definition audit_filter_from (q : AdminAuditQuery) : AuditFilter := {|
  af_actor := parse_filter_text (aq_aactor q);
  af_action := parse_filter_text (aq_aaction q);
  af_from := parse_date_bound (aq_afrom q);
  af_to := parse_date_bound (aq_ato q) |}.

Definition build_audit_partial (q : AdminAuditQuery) : M (res AppError AdminAuditTemplate) :=
  let filter := audit_filter_from q in
  let cursor := page_cursor (aq_ab q) (aq_aa q) in
  let? page := db (list_audit_page cursor 20 filter) in
  let? options := db audit_filter_options in
  let rows := map audit_row (pa_items page) in
  let f_actor := default [] (af_actor filter) in
  let f_action := default [] (af_action filter) in
  let f_from := date_bound_token (af_from filter) in
  let f_to := date_bound_token (af_to filter) in
  let carry := [(lit "aactor", f_actor); (lit "aaction", f_action); (lit "afrom", f_from);
                (lit "ato", f_to)] in
  let '(older, newer) := neighbour_ids page a_id in
  mret (Ok {|
    aa_rows := rows;
    aa_empty := is_empty rows;
    aa_actors := options.1;
    aa_actions := options.2;
    aa_f_actor := f_actor;
    aa_f_action := f_action;
    aa_f_from := f_from;
    aa_f_to := f_to;
    aa_filtered := negb (AuditFilter_is_empty filter);
    aa_newer := (fun id => history_href (lit "/admin/audit") (lit "aa", id) carry) <$> newer;
    aa_older := (fun id => history_href (lit "/admin/audit") (lit "ab", id) carry) <$> older |}).

(** [query]: the query of the URI as it was sent. *)
Definition admin_audit_fragment (headers : HeaderMap) (query : option str) (q : AdminAuditQuery)
  : M (res AppError Response) :=
  if negb (wants_fragment headers) then
    mret (Ok (fragment_page_redirect (lit "/admin") (lit "audit-section") query))
  else
    let? t := build_audit_partial q in mret (Ok (page_response (P_AdminAudit t))).

(** ** Rendering *)

Definition render_admin (config : Config) (jar : CookieJar) (admin : User) (r : AdminRender)
    (audit : AdminAuditQuery) : M (res AppError Response) :=
  do now := utc_now in
  do day_ago := mexec (dt_add now (- days 1)) in
  let? audit_partial := build_audit_partial audit in
  let? last_scan_at := db (get_setting (lit "last_scan_at")) in
  let? last_prune_at := db (get_setting (lit "last_prune_at")) in
  let? notifs := db (notification_counts_since day_ago) in
  do el := elevation config jar admin in
  let? user_count := db count_users in
  let? project_count := db count_projects in
  let? checks := db count_checks in
  let? pings_24h := db (count_pings_since day_ago) in
  let? status := db count_checks_by_status in
  let? down := db list_down_checks_with_owner in
  let? channel_fail := db (channel_failure_counts_since day_ago) in
  let? recent_fail := db (recent_failed_notifications 10) in
  let? users := db list_users in
  let? projects := db list_all_projects_with_owner in
  mret (Ok (page_response (P_Admin {|
    adm_csrf := current_csrf config jar;
    adm_is_admin := true;
    adm_audit_partial := audit_partial;
    adm_user_count := user_count;
    adm_project_count := project_count;
    adm_checks := checks;
    adm_pings_24h := pings_24h;
    adm_status := status;
    adm_down := down;
    adm_notif_ok := notifs.1;
    adm_notif_err := notifs.2;
    adm_channel_fail := channel_fail;
    adm_recent_fail := recent_fail;
    adm_last_scan_at := last_scan_at;
    adm_last_prune_at := last_prune_at;
    adm_last_scan_ago := relative_setting last_scan_at now;
    adm_last_prune_ago := relative_setting last_prune_at now;
    adm_last_scan_utc := absolute_setting last_scan_at;
    adm_last_prune_utc := absolute_setting last_prune_at;
    adm_settings := ar_settings r;
    adm_settings_error := ar_settings_error r;
    adm_settings_flash := ar_settings_flash r;
    adm_users := map (user_row (u_id admin)) users;
    adm_user_flash := ar_user_flash r;
    adm_elevation_flash := ar_elevation_flash r;
    adm_elevation_applies := negb (el_not_applicable el);
    adm_elevation_remaining := fmt_elevation_secs <$> el_remaining_secs el;
    adm_elevation_locked := negb (el_not_applicable el) && bool_decide (el_remaining_secs el = None);
    adm_password_reset_flash := ar_password_reset_flash r;
    adm_user_error := ar_user_error r;
    adm_projects := projects;
    adm_env_rows := env_settings config |}))).

Definition render_admin_user_error (config : Config) (jar : CookieJar) (admin : User) (error : str)
  : M (res AppError Response) :=
  let? settings := load_settings_fields in
  render_admin config jar admin (mk_AdminRender settings None None None None None (Some error))
    default_audit_query.

(** Like [take_flash], but decodes the two counts. *)
Definition take_password_reset_keys_flash (config : Config) (jar : CookieJar)
  : CookieJar * option str :=
  match
    value ← flash_payload config jar;
    rest ← strip_prefix PASSWORD_RESET_KEYS_PREFIX value;
    '(revoked, keys) ← split_once (chr ":") rest;
    revoked ← parse_unsigned u64_max revoked; keys ← parse_unsigned u64_max keys;
    Some (password_reset_message revoked keys)
  with
  | Some message => (jar_remove (flash_removal_cookie config) jar, Some message)
  | None => (jar, None)
  end.

Definition admin_page (config : Config) (jar : CookieJar) (admin : User) (audit : AdminAuditQuery)
  : M (res AppError Response) :=
  let? settings := load_settings_fields in
  let '(jar, settings_flash) := take_flash config jar (lit "settings") in
  let '(jar, user_flash) := take_flash config jar (lit "users_blocked") in
  let '(jar, elevation_flash) := take_flash config jar (lit "admin_unlocked") in
  let '(jar, password_reset_flash) := take_password_reset_keys_flash config jar in
  let? resp := render_admin config jar admin
    (mk_AdminRender settings None settings_flash user_flash elevation_flash password_reset_flash None)
    audit in
  mret (Ok (with_jar jar resp)).

(** ** The unlock page *)

Definition render_admin_unlock (config : Config) (jar : CookieJar) (admin : User)
    (bounced_flash error : option str) : M (res AppError Response) :=
  do el := elevation config jar admin in
  mret (Ok (page_response (P_Unlock {|
    aut_csrf := current_csrf config jar;
    aut_is_admin := true;
    aut_applies := negb (el_not_applicable el);
    aut_remaining := fmt_elevation_secs <$> el_remaining_secs el;
    aut_ttl := fmt_elevation_secs Elevate.ELEVATION_TTL_SECS;
    aut_bounced_flash := bounced_flash;
    aut_error := error |}))).

Definition admin_unlock_page (config : Config) (jar : CookieJar) (admin : User)
  : M (res AppError Response) :=
  let '(jar, bounced) := take_flash config jar (lit "admin_locked") in
  let? resp := render_admin_unlock config jar admin bounced None in
  mret (Ok (with_jar jar resp)).

(** ** Saving the settings *)

Definition shown_setting (value : str) : str := if is_empty value then lit "unset" else value.

(** [key=value] for each setting whose stored value differs. *)
Fixpoint changed_settings (parsed : list (str * str)) : M (res AppError (list str)) :=
  match parsed with
  | [] => mret (Ok [])
  | (key, value) :: parsed' =>
      let? v := db (get_setting key) in
      let previous := default [] v in
      let? rest := changed_settings parsed' in
      mret (Ok (if bool_decide (previous = value) then rest
                else (key ++ lit "=" ++ shown_setting value) :: rest))
  end.

Definition audit_settings (admin : User) (changed : list str) : M (res AppError unit) :=
  do now := utc_now in
  let? _ := db (record_audit {|
    na_actor_user_id := u_id admin;
    na_actor_username := u_username admin;
    na_action := lit "settings.update";
    na_target_type := None;
    na_target_id := None;
    na_target_owner_id := None;
    na_method := Some (lit "POST");
    na_path := Some (lit "/admin/settings");
    na_detail := Some (join (lit " ") changed) |} now) in
  mret (Ok tt).

Definition settings_save (config : Config) (jar : CookieJar) (admin : User) (form : SettingsForm)
  : M (res AppError Response) :=
  match validate_settings form with
  | Err msg =>
      render_admin config jar admin (mk_AdminRender form (Some msg) None None None None None)
        default_audit_query
  | Ok parsed =>
      let? changed := changed_settings parsed in
      let? _ := for_each_try parsed (fun kv => db (set_setting kv.1 kv.2)) in
      let? _ := if is_empty changed then mret (Ok tt) else audit_settings admin changed in
      mret (Ok (flash_redirect config jar (lit "settings") (lit "/admin")))
  end.
End admin.

(** ** What rendering leaves alone *)

Section reads.
Context `{Cron} `{Crypto} `{PageText}.

Lemma elevation_reads config jar admin : reads (elevation config jar admin).
Proof. intros I. unfold elevation, elev_remaining. handler_steps. Qed.

Lemma build_audit_partial_reads q : reads (build_audit_partial q).
Proof.
  intros I. unfold build_audit_partial, list_audit_page, keyset_page, audit_filter_options. handler_steps.
Qed.

Lemma load_settings_reads : reads load_settings_fields.
Proof. intros I. unfold load_settings_fields, setting_or_blank. handler_steps. Qed.

Lemma render_admin_reads config jar admin r audit : reads (render_admin config jar admin r audit).
Proof.
  intros I. unfold render_admin, notification_counts_since, count_checks_by_status.
  pose proof (elevation_reads config jar admin I). pose proof (build_audit_partial_reads audit I).
  handler_steps.
Qed.

Lemma render_admin_user_error_reads config jar admin msg :
  reads (render_admin_user_error config jar admin msg).
Proof.
  intros I. unfold render_admin_user_error. pose proof (load_settings_reads I).
  pose proof (fun r => render_admin_reads config jar admin r default_audit_query I). handler_steps.
Qed.

Lemma changed_settings_reads parsed : reads (changed_settings parsed).
Proof.
  intros I. induction parsed as [|[k v] parsed IH]; cbn [changed_settings]; [apply preserves_mret|].
  handler_steps.
Qed.

(** Showing the page, with whatever filter, flash and cursor, changes no table. *)
Lemma admin_page_reads config jar admin audit : reads (admin_page config jar admin audit).
Proof.
  intros I. unfold admin_page. pose proof (load_settings_reads I).
  pose proof (fun j r => render_admin_reads config j admin r audit I). handler_steps.
Qed.
End reads.

(** ** The settings *)

(** The settings once [kvs] are written one after the other, and what differs from [m]. *)
Definition stored (kvs : list (str * str)) (m : gmap str str) : gmap str str :=
  fold_left (fun m kv => <[kv.1 := kv.2]> m) kvs m.
Definition differing (m : gmap str str) (kvs : list (str * str)) : list str :=
  omap (fun kv => if bool_decide (default [] (m !! kv.1) = kv.2) then None
                  else Some (kv.1 ++ lit "=" ++ shown_setting kv.2)) kvs.

Lemma stored_other kvs m k : k ∉ map fst kvs -> stored kvs m !! k = m !! k.
Proof.
  revert m. induction kvs as [|[k' v'] kvs IH]; [done|]. intros m Hk.
  cbn [map] in Hk. apply not_elem_of_cons in Hk as [Hne Hk].
  change (stored ((k', v') :: kvs) m) with (stored kvs (<[k' := v']> m)).
  rewrite IH by done. by rewrite lookup_insert_ne.
Qed.

Lemma stored_lookup kvs m k v :
  NoDup (map fst kvs) -> (k, v) ∈ kvs -> stored kvs m !! k = Some v.
Proof.
  revert m. induction kvs as [|[k' v'] kvs IH]; [by intros m _ ?%elem_of_nil|].
  intros m [Hk Hnd]%NoDup_cons. change (stored ((k', v') :: kvs) m) with (stored kvs (<[k' := v']> m)).
  intros [[= -> ->]|Hin]%elem_of_cons; [|by apply IH].
  rewrite stored_other by done. apply lookup_insert_eq.
Qed.

Lemma validated_keys `{Cron} form kvs : validate_settings form = Ok kvs -> NoDup (map fst kvs).
Proof.
  assert (forall fields kvs, validate_fields fields = Ok kvs -> map fst kvs = map (fun f => f.1.1.1) fields) as Hk.
  { induction fields as [|[[[key raw] label] kind] fields IH]; intros out E; cbn [validate_fields] in E.
    - by injection E as <-.
    - apply res_bind_ok in E as (value & _ & E). apply res_bind_ok in E as (rest & Er & [= <-]).
      cbn [map]. by rewrite (IH _ Er). }
  intros E. rewrite (Hk _ _ E). apply (bool_decide_eq_true_1 _). vm_compute. reflexivity.
Qed.

Section saving.
Context `{Cron} `{Crypto} `{PageText}.

Lemma changed_settings_inv kvs e w r w' :
  changed_settings kvs e w = (r, w') ->
  w_db w' = w_db w /\
  (r = Done (Ok (differing (settings (w_db w)) kvs)) \/ exists x, r = Done (Err x)).
Proof.
  revert w r w'. induction kvs as [|[k v] kvs IH]; intros w r w'; cbn [changed_settings].
  { intros [= <- <-]. eauto. }
  unfold mtry at 1. intros [[E _]|(o & w1 & E1 & E)]%mbind_inv.
  { by apply map_err_stmt_inv in E as [[_ [? [=]]]|(? & ? & _ & [=] & _)]. }
  apply map_err_stmt_inv in E1 as [[D [x [= ->]]]|(a & d & Er & [= ->] & D)].
  { injection E as <- <-. split; [done|]. eauto. }
  cbv beta in Er. injection Er as <- <-. unfold mtry in E.
  apply mbind_inv in E as [[E _]|(o & w2 & E2 & E)].
  { apply IH in E as [_ [[=]|[x [=]]]]. }
  apply IH in E2 as [D2 Hr]. rewrite D in D2, Hr. destruct Hr as [[= ->]|[x [= ->]]].
  - injection E as <- <-. split; [done|]. left. unfold differing. cbn [omap list_omap fst snd].
    by destruct (bool_decide _).
  - injection E as <- <-. split; [done|]. eauto.
Qed.

Lemma set_all_inv kvs e w r w' :
  for_each_try kvs (fun kv => db (set_setting kv.1 kv.2)) e w = (r, w') ->
  exists k, w_db w' = set_settings (stored (take k kvs) (settings (w_db w))) (w_db w) /\
    ((r = Done (Ok tt) /\ take k kvs = kvs) \/ exists x, r = Done (Err x)).
Proof.
  revert w r w'. induction kvs as [|[k v] kvs IH]; intros w r w'; cbn [for_each_try].
  { intros [= <- <-]. exists 0%nat. split; [by destruct (w_db w)|]. by left. }
  unfold mtry. intros [[E _]|(o & w1 & E1 & E)]%mbind_inv.
  { by apply map_err_stmt_inv in E as [[_ [? [=]]]|(? & ? & _ & [=] & _)]. }
  apply map_err_stmt_inv in E1 as [[D [x [= ->]]]|(a & d & Er & [= ->] & D)].
  { injection E as <- <-. exists 0%nat. split; [rewrite D; by destruct (w_db w)|]. eauto. }
  cbv beta in Er. injection Er as <- <-. apply IH in E as (n & D' & Hr).
  exists (S n). rewrite D', D. split; [done|]. destruct Hr as [[-> Hn]|?]; [left|by right].
  split; [done|]. cbn [firstn]. by rewrite Hn.
Qed.

Lemma audit_settings_inv admin changed e w r w' :
  audit_settings admin changed e w = (r, w') ->
  (w_db w' = w_db w /\ exists x, r = Done (Err x)) \/
  (r = Done (Ok tt) /\ exists row,
     w_db w' = set_audit_log (insert_row row (audit_log (w_db w))).2 (w_db w) /\
     ar_actor_user_id row = u_id admin /\ ar_action row = lit "settings.update" /\
     ar_detail row = Some (join (lit " ") changed)).
Proof.
  intros [[[=] _]|(now & w1 & [= _ <-] & E)]%mbind_inv. unfold mtry in E.
  apply mbind_inv in E as [[E _]|(o & w2 & E2 & E)].
  { by apply map_err_stmt_inv in E as [[_ [? [=]]]|(? & ? & _ & [=] & _)]. }
  apply map_err_stmt_inv in E2 as [[D [x [= ->]]]|(i & d & Er & [= ->] & D)].
  - injection E as <- <-. left. eauto.
  - injection E as <- <-. right. split; [done|]. cbv beta in Er. injection Er as _ <-.
    eexists. by rewrite D.
Qed.

(** C24: saving the settings is what its form and its audit row say. Whatever fails, no table
    but the settings and the audit log changes and nothing panics. If the answer is the
    redirect, every submitted setting is stored as validated, any other is as it was, and
    the log has gained one row exactly if a value changed, which names the administrator
    and spells the changes. If it is an error, the settings written are the first ones of
    the form, and the log is as it was. *)
Theorem settings_save_effect config jar admin form kvs e w r w' :
  validate_settings form = Ok kvs -> settings_save config jar admin form e w = (r, w') ->
  let d := w_db w in
  let changes := differing (settings d) kvs in
  (exists k x, r = Done (Err x) /\ w_db w' = set_settings (stored (take k kvs) (settings d)) d) \/
  (r = Done (Ok (flash_redirect config jar (lit "settings") (lit "/admin"))) /\
   (forall k v, (k, v) ∈ kvs -> settings (w_db w') !! k = Some v) /\
   (forall k, k ∉ map fst kvs -> settings (w_db w') !! k = settings d !! k) /\
   let d' := set_settings (settings (w_db w')) d in
   ((changes = [] /\ w_db w' = d') \/
    (changes <> [] /\ exists row, w_db w' = set_audit_log (insert_row row (audit_log d)).2 d' /\
       ar_actor_user_id row = u_id admin /\ ar_action row = lit "settings.update" /\
       ar_detail row = Some (join (lit " ") changes)))).
Proof.
  intros Hv E d changes. unfold settings_save in E. rewrite Hv in E. unfold mtry in E.
  apply mbind_inv in E as [[E _]|(o & w1 & E1 & E)]; [by apply changed_settings_inv in E as [_ [[=]|[? [=]]]]|].
  apply changed_settings_inv in E1 as [D1 [[= ->]|[x [= ->]]]].
  2: { injection E as <- <-. left. exists 0%nat, x. split; [done|]. rewrite D1. subst d. by destruct (w_db w). }
  fold d in D1, E. fold changes in E.
  apply mbind_inv in E as [[E _]|(o & w2 & E2 & E)]; [by apply set_all_inv in E as (? & _ & [[[=] _]|[? [=]]])|].
  apply set_all_inv in E2 as (k & D2 & Hr). rewrite D1 in D2.
  destruct Hr as [[[= ->] Hk]|[x [= ->]]].
  2: { injection E as <- <-. left. by exists k, x. }
  pose proof (validated_keys form kvs Hv) as Hnd.
  assert (forall d', settings d' = stored kvs (settings d) ->
    (forall k v, (k, v) ∈ kvs -> settings d' !! k = Some v) /\
    (forall k, k ∉ map fst kvs -> settings d' !! k = settings d !! k)) as Hs.
  { intros d' ->. split; [intros; by apply stored_lookup|intros; by apply stored_other]. }
  destruct (is_empty changes) eqn:Ec.
  - assert (changes = []) as Hc by by destruct changes.
    injection E as <- <-. right. split; [done|]. rewrite Hk in D2.
    destruct (Hs (w_db w2)) as [S1 S2]; [by rewrite D2|]. split_and!; [done|done|].
    left. split; [done|]. rewrite D2 at 1. by rewrite D2.
  - apply mbind_inv in E as [[E _]|(o & w3 & E3 & E)].
    { by apply audit_settings_inv in E as [[_ [? [=]]]|[[=] _]]. }
    apply audit_settings_inv in E3 as [[D3 [x [= ->]]]|([= ->] & row & D3 & Ha)].
    { injection E as <- <-. left. exists k, x. by rewrite D3. }
    injection E as <- <-. right. split; [done|]. rewrite Hk in D2.
    destruct (Hs (w_db w3)) as [S1 S2]; [by rewrite D3, D2|]. split_and!; [done|done|].
    right. split; [by intros Hn; rewrite Hn in Ec|]. exists row. split; [|done].
    rewrite D3 at 1. rewrite D3, D2. done.
Qed.
End saving.

(** ** The environment card hides what it should *)

(** Text that can be the user and password of a URL as they are. *)
Definition userinfo_char (c : char) : bool :=
  negb ((c =? chr "@") || (c =? chr "/") || (c =? chr "?") || (c =? chr "#")).

Lemma scheme_split_exact scheme rest :
  (chr ":" ∉ scheme) -> scheme_split (scheme ++ lit "://" ++ rest) = Some (scheme ++ lit "://", rest).
Proof.
  induction scheme as [|c scheme IH]; [by destruct rest|].
  intros [Hc Hs]%not_elem_of_cons. specialize (IH Hs). cbn [app scheme_split].
  change (lit "://") with (chr ":" :: lit "//") at 1. cbn [strip_prefix].
  destruct (Z.eqb_spec (chr ":") c) as [E|_]; [done|]. by rewrite IH.
Qed.

Lemma after_userinfo_exact user host :
  forallb userinfo_char user = true -> after_userinfo (user ++ chr "@" :: host) = Some host.
Proof.
  induction user as [|c user IH]; [done|]. cbn [app forallb after_userinfo]. intros [Hc Hu]%andb_true_iff.
  unfold userinfo_char in Hc. apply negb_true_iff in Hc.
  apply orb_false_iff in Hc as [[[H1 H2]%orb_false_iff H3]%orb_false_iff H4].
  rewrite H1, H2, H3, H4. by apply IH.
Qed.

Lemma redact_db_url_exact scheme user host :
  (chr ":" ∉ scheme) -> forallb userinfo_char user = true ->
  redact_db_url (scheme ++ lit "://" ++ user ++ chr "@" :: host) = scheme ++ lit "://" ++ lit "***@" ++ host.
Proof.
  intros Hs Hu. unfold redact_db_url. rewrite scheme_split_exact by done.
  rewrite after_userinfo_exact by done. by rewrite <- (assoc_L (++)).
Qed.

(** An ['@'] written as it is in a password ends what is hidden. *)
Example redact_db_url_first_at :
  redact_db_url (lit "postgres://app:p@ss@db.internal/pw") = lit "postgres://***@ss@db.internal/pw".
Proof. vm_compute. reflexivity. Qed.

(** Two database URLs that differ in their user and password only. *)
Definition same_but_userinfo (u1 u2 : str) : Prop :=
  u1 = u2 \/ exists scheme p1 p2 host, (chr ":" ∉ scheme) /\
    forallb userinfo_char p1 = true /\ forallb userinfo_char p2 = true /\
    u1 = scheme ++ lit "://" ++ p1 ++ chr "@" :: host /\
    u2 = scheme ++ lit "://" ++ p2 ++ chr "@" :: host.

(** A configuration without its database URL, its signing secret and its mail password, of
    which it is kept whether there is one. *)
Definition public_part (c : Config) : Config := {|
  cf_database_url := [];
  cf_bind := cf_bind c;
  cf_base_url := cf_base_url c;
  cf_scan_interval_secs := cf_scan_interval_secs c;
  cf_prune_interval_secs := cf_prune_interval_secs c;
  cf_forward_auth_header := cf_forward_auth_header c;
  cf_forward_auth_logout_url := cf_forward_auth_logout_url c;
  cf_trusted_proxies := cf_trusted_proxies c;
  cf_smtp := (fun s => mk_SmtpConfig (sm_host s) (sm_port s) (sm_username s)
                         ((fun _ => []) <$> sm_password s) (sm_from s) (sm_tls s)) <$> cf_smtp c;
  cf_log_format := cf_log_format c;
  cf_secret := [];
  cf_secret_source := SS_Generated;
  cf_cookie_secure := cf_cookie_secure c;
  cf_hsts_max_age_secs := cf_hsts_max_age_secs c |}.

(** C23: the environment card is the same for two configurations that differ only in the
    signing secret, in the mail password (whether there is one apart) and in the user and
    password of the database URL, when these are written the way a URL wants them, with
    [@], [/], [?] and [#] percent-encoded. The restriction is needed: of a password with a
    raw [@] the card shows what follows it ([redact_db_url_first_at]), though drivers accept
    such a URL. *)
Theorem env_card_hides_secrets c1 c2 :
  public_part c1 = public_part c2 -> same_but_userinfo (cf_database_url c1) (cf_database_url c2) ->
  env_settings c1 = env_settings c2.
Proof.
  intros Hp Hu. assert (redact_db_url (cf_database_url c1) = redact_db_url (cf_database_url c2)) as Hr.
  { destruct Hu as [->|(scheme & p1 & p2 & host & Hs & H1 & H2 & -> & ->)]; [done|].
    by rewrite !redact_db_url_exact. }
  unfold public_part in Hp. injection Hp as E1 E2 E3 E4 E5 E6 E7 E8 E9 E10 E11.
  unfold env_settings, server_env_settings, scheduling_env_settings, auth_env_settings, email_env_settings.
  rewrite Hr, E1, E2, E3, E4, E5, E6, E7, E9, E10, E11.
  destruct (cf_smtp c1) as [s1|], (cf_smtp c2) as [s2|]; try discriminate E8; [|done].
  destruct s1 as [h1 p1 n1 pw1 f1 t1], s2 as [h2 p2 n2 pw2 f2 t2].
  injection E8 as -> -> -> Hpw -> ->. by destruct pw1, pw2.
Qed.

(** ** A reset's flash is read back *)

Section flash.
Context `{CryptoLaws}.

Lemma flash_payload_set config jar value :
  flash_payload config (jar_add (flash_cookie_value config value) jar) = Some value.
Proof.
  unfold flash_payload, jar_get, jar_add, put. cbn [jar_delta List.find delta_name ck_name flash_cookie_value flash_cookie_raw].
  rewrite bool_decide_eq_true_2 by done. apply verify_sign.
Qed.
End flash.

Lemma digits_plain n :
  0 <= n -> forallb is_ascii_digit (show_Z n) = true /\ show_Z n <> [] /\ digits_val (show_Z n) = n.
Proof.
  intros Hn. unfold show_Z. replace (n <? 0) with false by (symmetry; apply Z.ltb_ge; lia).
  destruct (show_nonneg_spec n Hn) as (? & ? & ?). auto.
Qed.

Lemma parse_unsigned_show hi n : 0 <= n <= hi -> parse_unsigned hi (show_Z n) = Some n.
Proof.
  intros Hn. destruct (digits_plain n) as (Hd & Hne & Hv); [lia|]. unfold parse_unsigned.
  destruct (show_Z n) as [|c s] eqn:E; [done|]. cbn [forallb] in Hd. pose proof Hd as [Hc _]%andb_true_iff.
  replace (c =? 43) with false.
  2: { symmetry. apply Z.eqb_neq. unfold is_ascii_digit in Hc. bool_to_prop. lia. }
  unfold parse_digits. cbn [forallb]. rewrite Hd, Hv. cbn. unfold in_bounds.
  by rewrite !(proj2 (Z.leb_le _ _)) by lia.
Qed.

(** What [users_set_password] leaves for the page it leads to is the message the page shows. *)
Lemma password_reset_flash_read `{CryptoLaws} config jar revoked keys :
  0 <= revoked <= u64_max -> 0 <= keys <= u64_max ->
  (take_password_reset_keys_flash config (jar_add (flash_cookie_value config
     (PASSWORD_RESET_KEYS_PREFIX ++ show_Z revoked ++ lit ":" ++ show_Z keys)) jar)).2
  = Some (password_reset_message revoked keys).
Proof.
  intros Hr Hk. unfold take_password_reset_keys_flash.
  match goal with |- context [match ?o with _ => _ end] =>
    assert (o = Some (password_reset_message revoked keys)) as -> end; [|done].
  apply bind_Some. eexists. split; [apply flash_payload_set|].
  apply bind_Some. eexists. split; [apply strip_prefix_app|].
  apply bind_Some. exists (show_Z revoked, show_Z keys). split.
  - apply split_once_Some. split; [done|]. destruct (digits_plain revoked) as (Hd & _); [lia|].
    intros Hin. rewrite forallb_forall in Hd. apply list_elem_of_In, Hd in Hin. done.
  - rewrite !parse_unsigned_show by done. done.
Qed.

(** ** Witnesses *)

#[local] Existing Instances SampleChrono.sample_chrono SampleChrono.sample_cron.
#[local] Existing Instances SampleChrono.sample_chrono_laws SampleChrono.sample_cron_laws.
#[local] Existing Instances SampleCrypto.sample_crypto SamplePageText.sample_page_text.

Lemma env_card_hides_secrets_witness :
  let with_url url pw := mk_Config url [] [] 30 3600 None None []
    (Some (mk_SmtpConfig (lit "mail") 587 None (Some pw) (lit "ops@x") ST_Tls)) LF_Full pw
    SS_Env true 0 in
  let c1 := with_url (lit "postgres://app:s3cret@db/pw") (lit "hunter2") in
  let c2 := with_url (lit "postgres://other@db/pw") (lit "x") in
  env_settings c1 = env_settings c2.
Proof.
  intros with_url c1 c2. apply (env_card_hides_secrets c1 c2); [reflexivity|]. right.
  exists (lit "postgres"), (lit "app:s3cret"), (lit "other"), (lit "db/pw").
  split_and!; try reflexivity. apply (bool_decide_eq_true_1 _). vm_compute. reflexivity.
Defined.

Definition ann_form : SettingsForm := mk_SettingsForm (lit "5m") [] [] [] (lit "30") [].

Lemma settings_save_effect_witness :
  exists w', settings_save sample_config sample_jar ann_user ann_form (calm_env 0) (world_of sample_db)
    = (Done (Ok (flash_redirect sample_config sample_jar (lit "settings") (lit "/admin"))), w') /\
  settings (w_db w') !! lit "audit_retention_days" = Some (lit "30") /\
  exists row, audit_log (w_db w') = (insert_row row (audit_log sample_db)).2 /\
    ar_detail row = Some (lit "scan_interval=300 audit_retention_days=30").
Proof.
  assert (exists kvs, validate_settings ann_form = Ok kvs /\
    (lit "audit_retention_days", lit "30") ∈ kvs /\
    join (lit " ") (differing (settings sample_db) kvs) = lit "scan_interval=300 audit_retention_days=30")
    as (kvs & Hv & Hin & Hd).
  { eexists. split; [vm_compute; reflexivity|]. split; [|vm_compute; reflexivity].
    apply (bool_decide_eq_true_1 _). vm_compute. reflexivity. }
  destruct (settings_save sample_config sample_jar ann_user ann_form (calm_env 0) (world_of sample_db))
    as [r w'] eqn:E. exists w'.
  destruct (settings_save_effect sample_config sample_jar ann_user ann_form kvs (calm_env 0)
    (world_of sample_db) r w' Hv E) as [(k & x & -> & _)|(-> & Hs & _ & Hc)].
  - exfalso. apply (f_equal fst) in E. vm_compute in E. discriminate E.
  - split; [reflexivity|]. split; [by apply Hs|]. rewrite world_of_db in Hc.
    destruct Hc as [[Hc _]|(_ & row & Hrow & _ & _ & Hdet)].
    + exfalso. rewrite Hc in Hd. vm_compute in Hd. discriminate Hd.
    + exists row. split; [by rewrite Hrow|]. by rewrite Hdet, Hd.
Defined.
