(* ===== verification/Dto.v ===== *)
(** * Dto: what the JSON API of [src/api/] reads and answers

    The error envelope of [error.rs], the request bodies of [input.rs], which become the
    forms of the web pages, and the representations of [dto.rs]. Timestamps are kept as
    instants; [serde] writes them. *)
From S2P Require Import Prelude Text Models Duration Config Wire Chrono Db Rows Forms Channels Keyset.
#[local] Open Scope Z_scope.

(** ** Errors *)

Record ApiError := mk_ApiError {
  ae_status : Z;
  ae_code : str;
  ae_message : str;
}.
Definition not_found : ApiError := mk_ApiError 404 (lit "not_found") (lit "resource not found").
Definition unauthorized : ApiError :=
  mk_ApiError 401 (lit "unauthorized") (lit "missing or invalid API key").
Definition bad_request (message : str) : ApiError := mk_ApiError 400 (lit "bad_request") message.
Definition internal : ApiError := mk_ApiError 500 (lit "internal") (lit "internal error").
Definition ApiError_from (e : DbErr) : ApiError := internal.

(** The status and the JSON body. *)
Definition ApiError_into_response (e : ApiError) : Z * Json :=
  (ae_status e, J_Obj [(lit "error", J_Obj [(lit "code", J_Str (ae_code e));
                                            (lit "message", J_Str (ae_message e))])]).

(** ** Inputs *)

Inductive DurationInput : Type :=
| DI_Str (s : str)
| DI_Int (n : Z).
Definition into_form_string (d : DurationInput) : str :=
  match d with DI_Str s => s | DI_Int n => show_Z n end.
Definition opt_form (v : option DurationInput) : str := default [] (into_form_string <$> v).

Record ProjectInput := mk_ProjectInput {
  pi_name : str;
  pi_description : option str;
  pi_scan_interval_secs : option DurationInput;
  pi_nag_interval_secs : option DurationInput;
}.
Definition ProjectForm_from (i : ProjectInput) : ProjectForm :=
  mk_ProjectForm (pi_name i) (default [] (pi_description i)) (opt_form (pi_scan_interval_secs i))
    (opt_form (pi_nag_interval_secs i)).

(** [serde]'s defaults of the omitted fields of a check. *)
Definition default_schedule_kind : str := lit "period".
Definition default_timezone : str := lit "UTC".

Record CheckInput := mk_CheckInput {
  ci_name : str;
  ci_description : option str;
  ci_schedule_kind : str;
  ci_period_secs : option DurationInput;
  ci_cron_expr : option str;
  ci_grace_secs : option DurationInput;
  ci_timezone : str;
  ci_scan_interval_secs : option DurationInput;
  ci_max_runtime_secs : option DurationInput;
  ci_nag_interval_secs : option DurationInput;
}.
Definition CheckForm_from (i : CheckInput) : CheckForm := {|
  ckf_name := ci_name i;
  ckf_description := default [] (ci_description i);
  ckf_schedule_kind := ci_schedule_kind i;
  ckf_period_secs := opt_form (ci_period_secs i);
  ckf_cron_expr := default [] (ci_cron_expr i);
  ckf_grace_secs := match ci_grace_secs i with None => lit "0" | Some d => into_form_string d end;
  ckf_timezone := ci_timezone i;
  ckf_scan_interval_secs := opt_form (ci_scan_interval_secs i);
  ckf_max_runtime_secs := opt_form (ci_max_runtime_secs i);
  ckf_nag_interval_secs := opt_form (ci_nag_interval_secs i);
|}.

Record ChannelInput := mk_ChannelInput {
  chi_name : str;
  chi_kind : str;
  chi_webhook_url : str;
  chi_slack_url : str;
  chi_telegram_token : str;
  chi_telegram_chat_id : str;
  chi_ntfy_base_url : str;
  chi_ntfy_topic : str;
  chi_ntfy_token : str;
  chi_ntfy_token_clear : bool;
  chi_pushover_token : str;
  chi_pushover_user : str;
  chi_email_to : str;
}.
Definition ChannelForm_from (i : ChannelInput) : ChannelForm := {|
  cf_name := chi_name i;
  cf_kind := chi_kind i;
  cf_webhook_url := chi_webhook_url i;
  cf_slack_url := chi_slack_url i;
  cf_telegram_token := chi_telegram_token i;
  cf_telegram_chat_id := chi_telegram_chat_id i;
  cf_ntfy_base_url := chi_ntfy_base_url i;
  cf_ntfy_topic := chi_ntfy_topic i;
  cf_ntfy_token := chi_ntfy_token i;
  cf_ntfy_token_clear := chi_ntfy_token_clear i;
  cf_pushover_token := chi_pushover_token i;
  cf_pushover_user := chi_pushover_user i;
  cf_email_to := chi_email_to i;
|}.

(** ** Representations *)

Record ProjectDto := mk_ProjectDto {
  pd_id : Z;
  pd_owner_id : Z;
  pd_name : str;
  pd_description : str;
  pd_scan_interval_secs : option Z;
  pd_nag_interval_secs : option Z;
  pd_created_at : Z;
}.
Definition ProjectDto_from (p : Project) : ProjectDto :=
  mk_ProjectDto (p_id p) (p_user_id p) (p_name p) (p_description p) (p_scan_interval_secs p)
    (p_nag_interval_secs p) (p_created_at p).

Record CheckDto := mk_CheckDto {
  cd_id : Z;
  cd_project_id : Z;
  cd_name : str;
  cd_description : str;
  cd_ping_uuid : str;
  cd_status : str;
  cd_schedule_kind : str;
  cd_period_secs : option Z;
  cd_grace_secs : Z;
  cd_cron_expr : option str;
  cd_timezone : str;
  cd_scan_interval_secs : option Z;
  cd_max_runtime_secs : option Z;
  cd_nag_interval_secs : option Z;
  cd_last_ping_at : option Z;
  cd_last_start_at : option Z;
  cd_next_due_at : option Z;
  cd_acknowledged : bool;
  cd_created_at : Z;
}.
Definition CheckDto_from (c : Check) : CheckDto := {|
  cd_id := c_id c;
  cd_project_id := c_project_id c;
  cd_name := c_name c;
  cd_description := c_description c;
  cd_ping_uuid := c_ping_uuid c;
  cd_status := as_str (c_status c);
  cd_schedule_kind := as_str (c_schedule_kind c);
  cd_period_secs := c_period_secs c;
  cd_grace_secs := c_grace_secs c;
  cd_cron_expr := c_cron_expr c;
  cd_timezone := c_timezone c;
  cd_scan_interval_secs := c_scan_interval_secs c;
  cd_max_runtime_secs := c_max_runtime_secs c;
  cd_nag_interval_secs := c_nag_interval_secs c;
  cd_last_ping_at := c_last_ping_at c;
  cd_last_start_at := c_last_start_at c;
  cd_next_due_at := c_next_due_at c;
  cd_acknowledged := c_acknowledged c;
  cd_created_at := c_created_at c;
|}.

(** Without [config_json]. *)
Record ChannelDto := mk_ChannelDto {
  chd_id : Z;
  chd_project_id : Z;
  chd_kind : str;
  chd_name : str;
  chd_created_at : Z;
}.
Definition ChannelDto_from (c : Channel) : ChannelDto :=
  mk_ChannelDto (ch_id c) (ch_project_id c) (as_str (ch_kind c)) (ch_name c) (ch_created_at c).

Record PingDto := mk_PingDto {
  pgd_id : Z;
  pgd_check_id : Z;
  pgd_kind : str;
  pgd_exit_code : option Z;
  pgd_body : str;
  pgd_source_ip : option str;
  pgd_created_at : Z;
}.
Definition PingDto_from (p : Ping) : PingDto :=
  mk_PingDto (pg_id p) (pg_check_id p) (as_str (pg_kind p)) (pg_exit_code p) (pg_body p)
    (pg_source_ip p) (pg_created_at p).

Record NotificationDto := mk_NotificationDto {
  nd_id : Z;
  nd_check_id : Z;
  nd_channel_id : Z;
  nd_event : str;
  nd_status : str;
  nd_error : option str;
  nd_created_at : Z;
}.
Definition NotificationDto_from (n : Notification) : NotificationDto :=
  mk_NotificationDto (n_id n) (n_check_id n) (n_channel_id n) (as_str (n_event n))
    (as_str (n_status n)) (n_error n) (n_created_at n).

(** Only the prefix of the token. *)
Record ApiKeyDto := mk_ApiKeyDto {
  kd_id : Z;
  kd_name : str;
  kd_prefix : str;
  kd_created_at : Z;
  kd_last_used_at : option Z;
  kd_expires_at : option Z;
}.
Definition ApiKeyDto_from (k : ApiKey) : ApiKeyDto :=
  mk_ApiKeyDto (k_id k) (k_name k) (k_prefix k) (k_created_at k) (k_last_used_at k) (k_expires_at k).

(** A page of a listing, with the cursors of its neighbours. *)
Record PingPage := mk_PingPage {
  pp_items : list PingDto;
  pp_has_newer : bool;
  pp_has_older : bool;
  pp_next_before : option Z;
  pp_next_after : option Z;
}.
Definition PingPage_from_page (page : Page Ping) : PingPage := {|
  pp_items := map PingDto_from (pa_items page);
  pp_has_newer := pa_has_newer page;
  pp_has_older := pa_has_older page;
  pp_next_before := if pa_has_older page then pg_id <$> last (pa_items page) else None;
  pp_next_after := if pa_has_newer page then pg_id <$> head (pa_items page) else None;
|}.

Record NotificationPage := mk_NotificationPage {
  np_items : list NotificationDto;
  np_has_newer : bool;
  np_has_older : bool;
  np_next_before : option Z;
  np_next_after : option Z;
}.
Definition NotificationPage_from_page (page : Page Notification) : NotificationPage := {|
  np_items := map NotificationDto_from (pa_items page);
  np_has_newer := pa_has_newer page;
  np_has_older := pa_has_older page;
  np_next_before := if pa_has_older page then n_id <$> last (pa_items page) else None;
  np_next_after := if pa_has_newer page then n_id <$> head (pa_items page) else None;
|}.
