(* ===== verification/Api.v ===== *)
(** * Api: the bearer-authenticated JSON API of [src/api/extract.rs] and [src/api/v1.rs]

    Each handler takes the user its extractor let in and the path of the request. A
    resource is reached through [resolve_*]: the owner's, or an administrator's with an
    audit row, else 404. *)
From S2P Require Import Prelude Text Models Config Wire Secret Chrono Auth Db Rows Store Sessions Keyset Sample Notify Forms Channels Errors Access Templates Web Owner Dto.
From S2P Require Account Ratelimit.
#[local] Open Scope Z_scope.
#[local] Open Scope pw_scope.

(** [?] on a store call. *)
Definition api {A} (m : M (res DbErr A)) : M (res ApiError A) := map_err ApiError_from m.
Definition ok_or {E A} (e : E) (o : option A) : M (res E A) :=
  mret (match o with Some a => Ok a | None => Err e end).

(** ** Who is calling *)

Section extract.
Context `{Chrono} `{Crypto}.

Definition bearer_token (headers : HeaderMap) : option str :=
  v ← mjoin (header_get headers (lit "authorization"));
  trim <$> strip_prefix (lit "Bearer ") v.

Definition ApiUser (headers : HeaderMap) : M (res ApiError User) :=
  let? token := ok_or unauthorized (bearer_token headers) in
  let hash := hash_api_key token in
  do now := utc_now in
  let? owner := api (validate_api_key hash now) in
  let? user_id := ok_or unauthorized owner in
  let? user := api (find_user_by_id user_id) in
  ok_or unauthorized (u ← user; if negb (u_disabled u) then Some u else None).

End extract.

(** ** Pages *)

Definition DEFAULT_PAGE_LIMIT : Z := 20.
Definition MAX_PAGE_LIMIT : Z := 100.

Record PageParams := mk_PageParams {
  pp_before : option Z;
  pp_after : option Z;
  pp_limit : option Z;
}.
Definition cursor (p : PageParams) : PageCursor :=
  match pp_before p, pp_after p with
  | Some id, _ => PC_Before id
  | None, Some id => PC_After id
  | None, None => PC_Latest
  end.
Definition limit (p : PageParams) : Z :=
  Z.min MAX_PAGE_LIMIT (Z.max 1 (default DEFAULT_PAGE_LIMIT (pp_limit p))).

(** The bodies of the answers. *)
Inductive ApiBody : Type :=
| AB_Empty
| AB_Project (p : ProjectDto)
| AB_Projects (l : list ProjectDto)
| AB_Check (c : CheckDto)
| AB_Checks (l : list CheckDto)
| AB_Channel (c : ChannelDto)
| AB_Channels (l : list ChannelDto)
| AB_Pings (p : PingPage)
| AB_Notifications (p : NotificationPage)
| AB_Keys (l : list ApiKeyDto)
| AB_Bound (channel_ids : list Z).
Record ApiResponse := mk_ApiResponse { ar_http_status : Z; ar_body : ApiBody }.
Definition json (b : ApiBody) : M (res ApiError ApiResponse) := mret (Ok (mk_ApiResponse 200 b)).
Definition created (b : ApiBody) : M (res ApiError ApiResponse) := mret (Ok (mk_ApiResponse 201 b)).
Definition no_content : M (res ApiError ApiResponse) := mret (Ok (mk_ApiResponse 204 AB_Empty)).
Definition or_bad_request {A} (r : res str A) : M (res ApiError A) :=
  mret (match r with Ok a => Ok a | Err msg => Err (bad_request msg) end).

Module V1.
Section v1.
Context `{Cron} `{HashOrder} `{NotifyDeps} `{!JsonText}.

(** ** The choke point *)

Record CrossUserTarget := mk_CrossUserTarget {
  xt_type : str;
  xt_id : Z;
  xt_owner : option Z;
}.

Definition audit_cross_user (admin : User) (target : CrossUserTarget) (request : RequestLine)
  : M (res ApiError unit) :=
  do now := utc_now in
  let? _ := api (record_audit {|
    na_actor_user_id := u_id admin;
    na_actor_username := u_username admin;
    na_action := lit "admin.api.access";
    na_target_type := Some (xt_type target);
    na_target_id := Some (xt_id target);
    na_target_owner_id := xt_owner target;
    na_method := Some (rl_method request);
    na_path := Some (rl_path request);
    na_detail := None |} now) in
  mret (Ok tt).

(** The owner, an audited administrator, or 404. *)
Definition resolve_as {A} (a : A) (target : CrossUserTarget) (user : User) (request : RequestLine)
  : M (res ApiError A) :=
  if bool_decide (xt_owner target = Some (u_id user)) then mret (Ok a)
  else if u_is_admin user then
    let? _ := audit_cross_user user target request in mret (Ok a)
  else mret (Err not_found).

Definition resolve_project (id : Z) (user : User) (request : RequestLine) : M (res ApiError Project) :=
  let? o := api (find_project id) in
  let? p := ok_or not_found o in
  resolve_as p (mk_CrossUserTarget (lit "project") (p_id p) (Some (p_user_id p))) user request.

Definition resolve_check (id : Z) (user : User) (request : RequestLine) : M (res ApiError Check) :=
  let? o := api (find_check id) in
  let? c := ok_or not_found o in
  let? p := api (find_project (c_project_id c)) in
  resolve_as c (mk_CrossUserTarget (lit "check") (c_id c) (p_user_id <$> p)) user request.

Definition resolve_channel (id : Z) (user : User) (request : RequestLine) : M (res ApiError Channel) :=
  let? o := api (find_channel id) in
  let? ch := ok_or not_found o in
  let? p := api (find_project (ch_project_id ch)) in
  resolve_as ch (mk_CrossUserTarget (lit "channel") (ch_id ch) (p_user_id <$> p)) user request.

(** ** Reads *)

Definition GET (path : str) : RequestLine := mk_RequestLine (lit "GET") path.
Definition POST (path : str) : RequestLine := mk_RequestLine (lit "POST") path.
Definition PUT (path : str) : RequestLine := mk_RequestLine (lit "PUT") path.
Definition PATCH (path : str) : RequestLine := mk_RequestLine (lit "PATCH") path.
Definition DELETE (path : str) : RequestLine := mk_RequestLine (lit "DELETE") path.

Definition list_projects (user : User) : M (res ApiError ApiResponse) :=
  let? ps := api (list_projects_for_user (u_id user)) in json (AB_Projects (map ProjectDto_from ps)).

Definition get_project (user : User) (path : str) (id : Z) : M (res ApiError ApiResponse) :=
  let? p := resolve_project id user (GET path) in json (AB_Project (ProjectDto_from p)).

Definition list_project_checks (user : User) (path : str) (id : Z) : M (res ApiError ApiResponse) :=
  let? p := resolve_project id user (GET path) in
  let? cs := api (list_checks_for_project (p_id p)) in json (AB_Checks (map CheckDto_from cs)).

Definition list_project_channels (user : User) (path : str) (id : Z) : M (res ApiError ApiResponse) :=
  let? p := resolve_project id user (GET path) in
  let? cs := api (list_channels_for_project (p_id p)) in json (AB_Channels (map ChannelDto_from cs)).

Definition get_check (user : User) (path : str) (id : Z) : M (res ApiError ApiResponse) :=
  let? c := resolve_check id user (GET path) in json (AB_Check (CheckDto_from c)).

Definition list_check_pings (user : User) (path : str) (id : Z) (params : PageParams)
  : M (res ApiError ApiResponse) :=
  let? c := resolve_check id user (GET path) in
  let? page := api (list_pings_page (c_id c) (cursor params) (limit params)
                      (mk_PingFilter [] None None)) in
  json (AB_Pings (PingPage_from_page page)).

Definition list_check_notifications (user : User) (path : str) (id : Z) (params : PageParams)
  : M (res ApiError ApiResponse) :=
  let? c := resolve_check id user (GET path) in
  let? page := api (list_notifications_page (c_id c) (cursor params) (limit params)
                      (mk_NotifFilter [] [] None None)) in
  json (AB_Notifications (NotificationPage_from_page page)).

Definition list_keys (user : User) : M (res ApiError ApiResponse) :=
  let? ks := api (list_api_keys_for_user (u_id user)) in json (AB_Keys (map ApiKeyDto_from ks)).

Definition get_channel (user : User) (path : str) (id : Z) : M (res ApiError ApiResponse) :=
  let? ch := resolve_channel id user (GET path) in json (AB_Channel (ChannelDto_from ch)).

(** ** Writes *)

Definition reload_check (id : Z) : M (res ApiError ApiResponse) :=
  let? o := api (find_check id) in
  let? c := ok_or not_found o in
  json (AB_Check (CheckDto_from c)).

Definition create_project (user : User) (input : ProjectInput) : M (res ApiError ApiResponse) :=
  let? v := or_bad_request (validate_project (ProjectForm_from input)) in
  do now := utc_now in
  let? id := api (Store.create_project (u_id user) (project_settings v) now) in
  let? o := api (find_project id) in
  let? p := ok_or internal o in
  created (AB_Project (ProjectDto_from p)).

Definition update_project (user : User) (path : str) (id : Z) (input : ProjectInput)
  : M (res ApiError ApiResponse) :=
  let? _ := resolve_project id user (PATCH path) in
  let? v := or_bad_request (validate_project (ProjectForm_from input)) in
  let? _ := api (Store.update_project id (project_settings v)) in
  let? o := api (find_project id) in
  let? p := ok_or not_found o in
  json (AB_Project (ProjectDto_from p)).

Definition delete_project (user : User) (path : str) (id : Z) : M (res ApiError ApiResponse) :=
  let? _ := resolve_project id user (DELETE path) in
  let? _ := api (Store.delete_project id) in
  no_content.

Definition create_check (user : User) (path : str) (pid : Z) (input : CheckInput)
  : M (res ApiError ApiResponse) :=
  let? _ := resolve_project pid user (POST path) in
  let? v := or_bad_request (validate_check (CheckForm_from input)) in
  do uuid := new_v4 in
  let? id := api (Store.create_check {|
    nc_project_id := pid;
    nc_name := vc_name v;
    nc_description := vc_description v;
    nc_ping_uuid := uuid;
    nc_kind := vc_kind v;
    nc_period_secs := vc_period_secs v;
    nc_grace_secs := vc_grace v;
    nc_cron_expr := vc_cron_expr v;
    nc_timezone := vc_timezone v;
    nc_scan_interval_secs := vc_scan_interval_secs v;
    nc_max_runtime_secs := vc_max_runtime_secs v;
    nc_nag_interval_secs := vc_nag_interval_secs v |}) in
  let? _ := api (bind_all_project_channels id pid) in
  let? o := api (find_check id) in
  let? c := ok_or internal o in
  created (AB_Check (CheckDto_from c)).

Definition update_check (user : User) (path : str) (id : Z) (input : CheckInput)
  : M (res ApiError ApiResponse) :=
  let? _ := resolve_check id user (PATCH path) in
  let? v := or_bad_request (validate_check (CheckForm_from input)) in
  let? _ := api (update_check_schedule id (stored_as v)) in
  reload_check id.

Definition delete_check (user : User) (path : str) (id : Z) : M (res ApiError ApiResponse) :=
  let? _ := resolve_check id user (DELETE path) in
  let? _ := api (Store.delete_check id) in
  no_content.

Definition pause_check (user : User) (path : str) (id : Z) : M (res ApiError ApiResponse) :=
  let? _ := resolve_check id user (POST path) in
  let? _ := api (set_status id CS_Paused) in
  reload_check id.

Definition resume_check (user : User) (path : str) (id : Z) : M (res ApiError ApiResponse) :=
  let? _ := resolve_check id user (POST path) in
  let? _ := api (set_status id CS_New) in
  reload_check id.

Definition ack_check (user : User) (path : str) (id : Z) : M (res ApiError ApiResponse) :=
  let? _ := resolve_check id user (POST path) in
  let? _ := api (acknowledge id) in
  reload_check id.

Definition regenerate_check (user : User) (path : str) (id : Z) : M (res ApiError ApiResponse) :=
  let? _ := resolve_check id user (POST path) in
  do uuid := new_v4 in
  let? _ := api (regenerate_uuid id uuid) in
  reload_check id.

Definition set_check_channels (user : User) (path : str) (id : Z) (channel_ids : list Z)
  : M (res ApiError ApiResponse) :=
  let? check := resolve_check id user (PUT path) in
  let? channels := api (list_channels_for_project (c_project_id check)) in
  let valid : gset Z := list_to_set (map ch_id channels) in
  let? bound := api (bound_channel_ids id) in
  let current : gset Z := list_to_set bound in
  let desired : gset Z := list_to_set (List.filter (fun c => bool_decide (c ∈ valid)) channel_ids) in
  let? _ := for_each_try (hash_iter (desired ∖ current)) (fun add => api (bind_channel id add)) in
  let? _ := for_each_try (hash_iter (current ∖ desired)) (fun remove => api (unbind_channel id remove)) in
  let? ids := api (bound_channel_ids id) in
  json (AB_Bound ids).

Definition create_channel (user : User) (path : str) (pid : Z) (input : ChannelInput)
  : M (res ApiError ApiResponse) :=
  let? _ := resolve_project pid user (POST path) in
  let? v := or_bad_request (validate_channel (ChannelForm_from input)) in
  let '(kind, name, config) := v in
  do now := utc_now in
  let? id := api (Store.create_channel (mk_NewChannel pid kind name config) now) in
  let? o := api (find_channel id) in
  let? ch := ok_or internal o in
  created (AB_Channel (ChannelDto_from ch)).

Definition update_channel (user : User) (path : str) (id : Z) (input : ChannelInput)
  : M (res ApiError ApiResponse) :=
  let? existing := resolve_channel id user (PATCH path) in
  let? v := or_bad_request (validate_channel_update (ChannelForm_from input) (Some existing)) in
  let '(_, name, config) := v in
  let? _ := api (Store.update_channel id name config) in
  let? o := api (find_channel id) in
  let? ch := ok_or internal o in
  json (AB_Channel (ChannelDto_from ch)).

Definition delete_channel (user : User) (path : str) (id : Z) : M (res ApiError ApiResponse) :=
  let? _ := resolve_channel id user (DELETE path) in
  let? _ := api (Store.delete_channel id) in
  no_content.

End v1.
End V1.

(** ** The requests *)

Inductive ApiRequest : Type :=
| AQ_ListProjects
| AQ_GetProject (id : Z)
| AQ_ListProjectChecks (id : Z)
| AQ_ListProjectChannels (id : Z)
| AQ_GetCheck (id : Z)
| AQ_ListCheckPings (id : Z) (params : PageParams)
| AQ_ListCheckNotifications (id : Z) (params : PageParams)
| AQ_ListKeys
| AQ_GetChannel (id : Z)
| AQ_CreateProject (input : ProjectInput)
| AQ_UpdateProject (id : Z) (input : ProjectInput)
| AQ_DeleteProject (id : Z)
| AQ_CreateCheck (pid : Z) (input : CheckInput)
| AQ_UpdateCheck (id : Z) (input : CheckInput)
| AQ_DeleteCheck (id : Z)
| AQ_PauseCheck (id : Z)
| AQ_ResumeCheck (id : Z)
| AQ_AckCheck (id : Z)
| AQ_RegenerateCheck (id : Z)
| AQ_SetCheckChannels (id : Z) (channel_ids : list Z)
| AQ_CreateChannel (pid : Z) (input : ChannelInput)
| AQ_UpdateChannel (id : Z) (input : ChannelInput)
| AQ_DeleteChannel (id : Z).

Definition api_handle `{Cron} `{HashOrder} `{NotifyDeps} `{!JsonText} (user : User) (path : str)
    (rq : ApiRequest) : M (res ApiError ApiResponse) :=
  match rq with
  | AQ_ListProjects => V1.list_projects user
  | AQ_GetProject id => V1.get_project user path id
  | AQ_ListProjectChecks id => V1.list_project_checks user path id
  | AQ_ListProjectChannels id => V1.list_project_channels user path id
  | AQ_GetCheck id => V1.get_check user path id
  | AQ_ListCheckPings id params => V1.list_check_pings user path id params
  | AQ_ListCheckNotifications id params => V1.list_check_notifications user path id params
  | AQ_ListKeys => V1.list_keys user
  | AQ_GetChannel id => V1.get_channel user path id
  | AQ_CreateProject input => V1.create_project user input
  | AQ_UpdateProject id input => V1.update_project user path id input
  | AQ_DeleteProject id => V1.delete_project user path id
  | AQ_CreateCheck pid input => V1.create_check user path pid input
  | AQ_UpdateCheck id input => V1.update_check user path id input
  | AQ_DeleteCheck id => V1.delete_check user path id
  | AQ_PauseCheck id => V1.pause_check user path id
  | AQ_ResumeCheck id => V1.resume_check user path id
  | AQ_AckCheck id => V1.ack_check user path id
  | AQ_RegenerateCheck id => V1.regenerate_check user path id
  | AQ_SetCheckChannels id ids => V1.set_check_channels user path id ids
  | AQ_CreateChannel pid input => V1.create_channel user path pid input
  | AQ_UpdateChannel id input => V1.update_channel user path id input
  | AQ_DeleteChannel id => V1.delete_channel user path id
  end.

(** A handler is its resolver, then its work: what it does without a resource, or the
    resource it names. *)
Inductive Resource : Set := R_None | R_Project (id : Z) | R_Check (id : Z) | R_Channel (id : Z).
Definition resource (rq : ApiRequest) : Resource :=
  match rq with
  | AQ_ListProjects | AQ_ListKeys | AQ_CreateProject _ => R_None
  | AQ_GetProject id | AQ_ListProjectChecks id | AQ_ListProjectChannels id
  | AQ_UpdateProject id _ | AQ_DeleteProject id | AQ_CreateCheck id _ | AQ_CreateChannel id _ => R_Project id
  | AQ_GetCheck id | AQ_ListCheckPings id _ | AQ_ListCheckNotifications id _ | AQ_UpdateCheck id _
  | AQ_DeleteCheck id | AQ_PauseCheck id | AQ_ResumeCheck id | AQ_AckCheck id
  | AQ_RegenerateCheck id | AQ_SetCheckChannels id _ => R_Check id
  | AQ_GetChannel id | AQ_UpdateChannel id _ | AQ_DeleteChannel id => R_Channel id
  end.

Definition owned_channel_row (uid : Z) (d : Db) (id : Z) : Prop :=
  exists r, t_rows (channels d) !! id = Some r /\ owns uid d (chr_project_id r).
(** The resource is the user's. *)
Definition its_own (uid : Z) (d : Db) (rs : Resource) : Prop :=
  match rs with
  | R_None => True
  | R_Project id => owns uid d id
  | R_Check id => owned_row uid d id
  | R_Channel id => owned_channel_row uid d id
  end.

(** ** Confinement *)

Section confined.
Context `{Cron} `{HashOrder} `{NotifyDeps} `{!JsonText} (user : User).
#[local] Abbreviation uid := (u_id user).

Lemma resolves_ok_or {E A} (x : E) (o : option A) : resolves (fun a _ => o = Some a) (ok_or x o).
Proof. apply resolves_mret. destruct o; by intros b d [= <-]. Qed.

Context (Huser : u_is_admin user = false).

Lemma resolves_resolve_as {A} (a : A) target request :
  resolves (fun b _ => b = a /\ V1.xt_owner target = Some uid) (V1.resolve_as a target user request).
Proof.
  unfold V1.resolve_as. rewrite Huser. case_bool_decide; apply resolves_mret; [|done].
  by intros b d [= <-].
Qed.

Lemma resolve_project_resolves id request :
  resolves (fun _ d => owns uid d id) (V1.resolve_project id user request).
Proof.
  eapply resolves_mtry; [apply resolves_find_project|]. intros o.
  eapply resolves_mtry; [apply resolves_ok_or|]. intros p.
  intros e w r w' E. apply resolves_resolve_as in E as [D Hr]. split; [done|].
  intros b -> -> Hp. destruct (Hr b eq_refl) as [_ [= <-]]. by apply Hp.
Qed.

Lemma resolve_check_resolves id request :
  resolves (fun c d => owned_row uid d id /\ c_id c = id /\ owns uid d (c_project_id c) /\
      check_in d id (c_project_id c))
    (V1.resolve_check id user request).
Proof.
  eapply resolves_mtry; [apply resolves_find_check|]. intros o.
  eapply resolves_mtry; [apply resolves_ok_or|]. intros c.
  eapply resolves_mtry; [apply resolves_find_project|]. intros p.
  intros e w r w' E. apply resolves_resolve_as in E as [D Hr]. split; [done|].
  intros b -> Hp -> Hc. destruct (Hr b eq_refl) as [-> Ho]. simpl in Ho.
  destruct (Hc c eq_refl) as (Hid & row & Hrow & Epid).
  destruct p as [p|]; [|done]. injection Ho as Ho. specialize (Hp p eq_refl). rewrite Ho in Hp.
  split; [exists row; by rewrite <- Epid|]. split; [done|]. split; [done|]. by exists row.
Qed.

Lemma resolve_channel_resolves id request :
  resolves (fun c d => ch_id c = id /\ owned_channel_row uid d id) (V1.resolve_channel id user request).
Proof.
  eapply resolves_mtry; [apply resolves_find_channel|]. intros o.
  eapply resolves_mtry; [apply resolves_ok_or|]. intros c.
  eapply resolves_mtry; [apply resolves_find_project|]. intros p.
  intros e w r w' E. apply resolves_resolve_as in E as [D Hr]. split; [done|].
  intros b -> Hp -> Hc. destruct (Hr b eq_refl) as [-> Ho]. simpl in Ho.
  destruct (Hc c eq_refl) as (Hid & row & Hrow & Epid).
  destruct p as [p|]; [|done]. injection Ho as Ho. specialize (Hp p eq_refl). rewrite Ho in Hp.
  split; [done|]. exists row. split; [done|]. by rewrite <- Epid.
Qed.

Lemma reads_ok_or {E A} (x : E) (o : option A) : reads (ok_or x o).
Proof. apply reads_mret. Qed.
Lemma reads_api_query {A} (q : Db -> res DbErr A) : reads (api (query q)).
Proof. apply reads_map_err, reads_query. Qed.
Lemma reads_page {R T} (cols : Columns R) (row_to : Z * R -> res DbErr T) table q :
  reads (keyset_page cols row_to table q).
Proof. apply reads_mtry; [apply reads_query|]. intros rows. apply reads_mret. Qed.
(** Reading an object back for the answer. *)
Lemma reads_back {A B} (q : Db -> res DbErr (option A)) x (k : A -> res ApiError B) :
  reads (mtry (api (query q)) (fun o => mtry (ok_or x o) (fun a => mret (k a)))).
Proof.
  apply reads_mtry; [apply reads_api_query|]. intros o. apply reads_mtry; [apply reads_ok_or|].
  intros c. apply reads_mret.
Qed.
Lemma reads_reload_check id : reads (V1.reload_check id).
Proof. apply reads_back. Qed.

Lemma frames_or_bad_request {A B} P (v : res str A) (k : A -> M (res ApiError B)) :
  (forall a, frames uid P (k a)) -> frames uid P (mtry (or_bad_request v) k).
Proof. intros Hk. apply frames_mtry; [intros d0; apply preserves_mret|done]. Qed.

Lemma frames_reads {A} P (m : M A) : reads m -> frames uid P m.
Proof. intros Hm. apply keeps_frames. intros d0. apply Hm. Qed.

(** A write of a check, then the check again. *)
Lemma frames_reload P (m : M (res DbErr unit)) id :
  frames uid P m -> frames uid P (mtry (api m) (fun _ => V1.reload_check id)).
Proof. intros Hm. apply frames_then; [done|]. intros _. apply reads_reload_check. Qed.

(** The work of each handler, once the resource is found to be the user's. *)
Lemma create_project_frames input P : frames uid P (V1.create_project user input).
Proof.
  apply frames_or_bad_request. intros v. apply frames_mbind; [intros d0; apply preserves_utc_now|].
  intros now. apply frames_then; [apply frames_create_project|]. intros id. apply reads_back.
Qed.

Lemma set_channels_frames P id pid (ids : list Z) :
  (forall d, P d -> owned_row uid d id /\ check_in d id pid) ->
  (forall s d, P d -> P (set_bindings s d)) ->
  frames uid P (mtry (api (list_channels_for_project pid)) (fun channels =>
    let valid : gset Z := list_to_set (map ch_id channels) in
    mtry (api (bound_channel_ids id)) (fun bound =>
    let current : gset Z := list_to_set bound in
    let desired : gset Z := list_to_set (List.filter (fun c => bool_decide (c ∈ valid)) ids) in
    mtry (for_each_try (hash_iter (desired ∖ current)) (fun add => api (bind_channel id add))) (fun _ =>
    mtry (for_each_try (hash_iter (current ∖ desired)) (fun remove => api (unbind_channel id remove))) (fun _ =>
    mtry (api (bound_channel_ids id)) (fun ids => json (AB_Bound ids))))))).
Proof.
  intros Ho Hp. apply frames_listed. intros chs.
  apply frames_mtry; [apply keeps_map_err, keeps_query|]. intros bound.
  apply frames_mtry; [by apply keeps_bind_loop|]. intros _.
  apply frames_mtry; [apply keeps_unbind_loop; [|done]; intros d Hd; by apply Ho|]. intros _.
  apply frames_reads, reads_mtry; [apply reads_api_query|]. intros l. apply reads_mret.
Qed.

End confined.

(** The errors of a resolver hide whether the resource exists. *)
Section hiding.
Context `{Cron}.

Definition hides {A} (m : M (res ApiError A)) : Prop :=
  forall e w x w', m e w = (Done (Err x), w') -> x = not_found \/ x = internal.

Lemma hides_api {A} (m : M (res DbErr A)) : hides (api m).
Proof.
  intros e w x w' [[_ [=]]|(r & w1 & _ & E)]%mbind_inv. destruct r; [done|].
  injection E as <- _. by right.
Qed.
Lemma hides_mtry {A B} (m : M (res ApiError A)) (k : A -> M (res ApiError B)) :
  hides m -> (forall a, hides (k a)) -> hides (mtry m k).
Proof.
  intros Hm Hk e w x w' [[_ [=]]|([a|y] & w1 & E1 & E)]%mbind_inv; [by eapply Hk|].
  injection E as -> _. by eapply Hm.
Qed.
Lemma hides_mret {A} (r : res ApiError A) : (forall x, r = Err x -> x = not_found) -> hides (mret r).
Proof. intros Hr e w x w' [= -> _]. left. by apply Hr. Qed.
Lemma hides_ok_or {A} (o : option A) : hides (ok_or not_found o).
Proof. apply hides_mret. by destruct o; intros x [= <-]. Qed.
Lemma hides_resolve_as {A} (a : A) target user request : hides (V1.resolve_as a target user request).
Proof.
  unfold V1.resolve_as. case_bool_decide; [by apply hides_mret|]. destruct (u_is_admin user).
  - apply hides_mtry; [|intros _; by apply hides_mret].
    intros e w x w' [[_ [=]]|(now & w1 & _ & E)]%mbind_inv. revert E.
    apply hides_mtry; [apply hides_api|]. intros i. by apply hides_mret.
  - apply hides_mret. by intros x [= <-].
Qed.
Lemma hides_resolve_project id user request : hides (V1.resolve_project id user request).
Proof.
  apply hides_mtry; [apply hides_api|]. intros o. apply hides_mtry; [apply hides_ok_or|]. intros p.
  apply hides_resolve_as.
Qed.
Lemma hides_resolve_check id user request : hides (V1.resolve_check id user request).
Proof.
  apply hides_mtry; [apply hides_api|]. intros o. apply hides_mtry; [apply hides_ok_or|]. intros c.
  apply hides_mtry; [apply hides_api|]. intros p. apply hides_resolve_as.
Qed.
Lemma hides_resolve_channel id user request : hides (V1.resolve_channel id user request).
Proof.
  apply hides_mtry; [apply hides_api|]. intros o. apply hides_mtry; [apply hides_ok_or|]. intros c.
  apply hides_mtry; [apply hides_api|]. intros p. apply hides_resolve_as.
Qed.

(** The resolvers do not panic. *)
Lemma total_resolve_as {A} (a : A) target user request : total (V1.resolve_as a target user request).
Proof. unfold V1.resolve_as, V1.audit_cross_user, api, record_audit. total_steps. Qed.
Lemma total_api {A} (q : Db -> res DbErr A) : total (api (query q)).
Proof. apply total_map_err, total_query. Qed.
Lemma total_resolve_project id user request : total (V1.resolve_project id user request).
Proof.
  apply total_mtry; [apply total_api|]. intros o. apply total_mtry; [apply total_mret|]. intros p.
  apply total_resolve_as.
Qed.
Lemma total_resolve_check id user request : total (V1.resolve_check id user request).
Proof.
  apply total_mtry; [apply total_api|]. intros o. apply total_mtry; [apply total_mret|]. intros c.
  apply total_mtry; [apply total_api|]. intros p. apply total_resolve_as.
Qed.
Lemma total_resolve_channel id user request : total (V1.resolve_channel id user request).
Proof.
  apply total_mtry; [apply total_api|]. intros o. apply total_mtry; [apply total_mret|]. intros c.
  apply total_mtry; [apply total_api|]. intros p. apply total_resolve_as.
Qed.

End hiding.

Section requests.
Context `{Cron} `{HashOrder} `{NotifyDeps} `{!JsonText}.

(** What a request of [user] on [rs] may do and answer. *)
Definition confined_answer {A} (user : User) (rs : Resource) (w w' : World)
    (r : exec (res ApiError A)) : Prop :=
  confined (u_id user) (w_db w) (w_db w') /\
  (~ its_own (u_id user) (w_db w) rs ->
     w_db w' = w_db w /\ (r = Done (Err not_found) \/ r = Done (Err internal))).

Lemma confined_step {A B} user rs (P : A -> Db -> Prop) (m : M (res ApiError A))
    (k : A -> M (res ApiError B)) e w w' r :
  sequenced (w_db w) -> resolves P m -> total m -> hides m ->
  (forall a, frames (u_id user) (P a) (k a)) -> mtry m k e w = (r, w') ->
  (forall a d, P a d -> its_own (u_id user) d rs) -> confined_answer user rs w w' r.
Proof.
  intros Hs Hm Ht Hh Hk Em Hn. split; [by eapply resolves_then|]. intros Hno.
  destruct (Ht e w) as (o & w1 & E1). pose proof (Hm _ _ _ _ E1) as [D Ha].
  destruct o as [a|x]; [exfalso; by eapply Hno, (Hn a), Ha|].
  rewrite (mtry_Err _ _ _ _ _ _ E1) in Em. injection Em as <- <-. split; [done|].
  by destruct (Hh _ _ _ _ E1) as [-> | ->]; [left|right].
Qed.

(** C31: a key acts on its owner's projects only, and cannot tell what else exists.
    Whatever an API request of a user who is no administrator asks and whatever fails,
    users, sessions, settings, keys, the audit log and everything of other users' projects
    are as they were, and no check is bound to a channel of another project, whatever
    identifiers the body lists. A request on a project, check or channel that is not the user's
    changes nothing and is answered by the same 404 whether or not it exists, or by the
    500 of a failed statement. *)
Theorem api_requests_confined user path rq e w r w' :
  u_is_admin user = false -> sequenced (w_db w) -> api_handle user path rq e w = (r, w') ->
  untouched (u_id user) (w_db w) (w_db w') /\ sequenced (w_db w') /\
  (bindings_local (w_db w) -> bindings_local (w_db w')) /\
  (~ its_own (u_id user) (w_db w) (resource rq) ->
     w_db w' = w_db w /\ (r = Done (Err not_found) \/ r = Done (Err internal))).
Proof.
  intros Hu Hs E.
  assert (confined_answer user (resource rq) w w' r) as [(? & ? & ?) ?]; [|done].
  assert (resource rq = R_None -> frames (u_id user) (fun _ => True) (api_handle user path rq) ->
    confined_answer user (resource rq) w w' r) as Hnone.
  { intros En Hf. rewrite En. split; [|by intros []]. eapply Hf; [|exact E]. split; [|done].
    by apply confined_refl. }
  assert (forall A (m : M (res DbErr A)) b, reads m ->
    reads (mtry (api m) (fun a => json (b a)))) as Hjson.
  { intros A m b Hm. apply reads_mtry; [by apply reads_map_err|]. intros a. apply reads_mret. }
  destruct rq as [|id|id|id|id|id ps|id ps| |id|input|id input|id|pid input|id input|id|id|id|id|id|id ids
                 |pid input|id input|id]; cbn [api_handle resource] in *;
    try (apply (Hnone eq_refl); first
      [by apply create_project_frames | apply frames_reads, Hjson, reads_query]).
  all: refine (confined_step user _ _ _ _ e w w' r Hs _ _ _ _ E _);
    [first [by apply resolve_project_resolves|by apply resolve_check_resolves|by apply resolve_channel_resolves]
    |first [apply total_resolve_project|apply total_resolve_check|apply total_resolve_channel]
    |first [apply hides_resolve_project|apply hides_resolve_check|apply hides_resolve_channel]
    | |cbn; tauto]; intros a; cbn beta.
  all: try (apply frames_reads; first
    [apply reads_mret|apply Hjson; first [apply reads_query|apply reads_page]]).
  - apply frames_or_bad_request. intros v. apply frames_then; [by apply frames_update_project|]. intros _. apply reads_back.
  - apply frames_then; [by apply frames_delete_project|]. intros _. apply reads_mret.
  - apply frames_or_bad_request. intros v. apply frames_mbind; [intros d0; apply preserves_new_v4|].
    intros uuid. eapply frames_yields; [by apply yields_create_check|]. intros id.
    apply frames_then; [by apply frames_bind_all|]. intros _. apply reads_back.
  - apply frames_or_bad_request. intros v. apply frames_reload, frames_update_check; [tauto|done].
  - apply frames_then; [apply frames_delete_check; tauto|]. intros _. apply reads_mret.
  - apply frames_reload, frames_update_check; [tauto|done].
  - apply frames_reload, frames_update_check; [tauto|done].
  - apply frames_reload, frames_update_check; [tauto|done].
  - apply frames_mbind; [intros d0; apply preserves_new_v4|]. intros uuid.
    apply frames_reload, frames_regenerate. tauto.
  - apply set_channels_frames; [|done]. intros d (Ho & _ & _ & Hin). by split.
  - apply frames_or_bad_request. intros [[kind name] cfg]. apply frames_mbind; [intros d0; apply preserves_utc_now|]. intros now.
    apply frames_then; [by apply frames_create_channel|]. intros id. apply reads_back.
  - apply frames_or_bad_request. intros [[kind name] cfg]. apply frames_then; [apply frames_update_channel; tauto|]. intros _. apply reads_back.
  - apply frames_then; [apply frames_delete_channel; tauto|]. intros _. apply reads_mret.
Qed.

(** ** Foreign resources *)

(** Nothing has changed and the answer is an error, or an administrator has left a row. *)
Definition foreign_access {A} (user : User) (target : str) (id : Z) (w w' : World)
    (r : exec (res ApiError A)) : Prop :=
  (w_db w' = w_db w /\ exists x, r = Done (Err x)) \/
  (u_is_admin user = true /\ audited user (lit "admin.api.access") target id (w_db w) (w_db w')).

(** A resolver on what is not the user's. *)
Definition resolves_foreign {A} (user : User) (target : str) (id : Z) (w : World) (e : Env)
    (m : M (res ApiError A)) : Prop :=
  forall r w', m e w = (r, w') ->
    (w_db w' = w_db w /\ exists x, r = Done (Err x)) \/
    ((exists a, r = Done (Ok a)) /\ u_is_admin user = true /\
     audited user (lit "admin.api.access") target id (w_db w) (w_db w')).

Lemma audit_cross_user_inv user target request e w r w' :
  V1.audit_cross_user user target request e w = (r, w') ->
  (w_db w' = w_db w /\ exists x, r = Done (Err x)) \/
  (r = Done (Ok tt) /\
   audited user (lit "admin.api.access") (V1.xt_type target) (V1.xt_id target) (w_db w) (w_db w')).
Proof.
  unfold V1.audit_cross_user. intros [[[=] _]|(now & w1 & E1 & E)]%mbind_inv.
  unfold utc_now in E1. injection E1 as _ <-.
  apply mbind_inv in E as [[E ->]|(o & w2 & E2 & E)].
  { by apply record_audit_inv in E as [[_ [x [=]]]|[[i [=]] _]]. }
  apply record_audit_inv in E2 as [[D [x [= ->]]]|[[i [= ->]] Ha]]; injection E as <- <-; [left; eauto|right].
  split; [done|]. exact Ha.
Qed.

Lemma resolve_as_foreign {A} (a : A) target user request e w :
  V1.xt_owner target <> Some (u_id user) ->
  resolves_foreign user (V1.xt_type target) (V1.xt_id target) w e (V1.resolve_as a target user request).
Proof.
  intros Hn r w' E. unfold V1.resolve_as in E. rewrite bool_decide_false in E by done.
  destruct (u_is_admin user); [|injection E as <- <-; left; eauto].
  destruct (V1.audit_cross_user user target request e w) as [r1 w1] eqn:E1. pose proof E1 as Ea.
  apply audit_cross_user_inv in Ea as [[D [x ->]]|[-> Ha]].
  - rewrite (mtry_Err _ _ _ _ _ _ E1) in E. injection E as <- <-. left. eauto.
  - rewrite (mtry_Ok _ _ _ _ _ _ E1) in E. injection E as <- <-. right. eauto.
Qed.

(** Steps that only read, and what they establish. *)
Lemma foreign_read {A B} user target id (P : A -> Db -> Prop) (m : M (res ApiError A))
    (k : A -> M (res ApiError B)) e w :
  total m -> resolves P m ->
  (forall a w1, w_db w1 = w_db w -> P a (w_db w) -> resolves_foreign user target id w1 e (k a)) ->
  resolves_foreign user target id w e (mtry m k).
Proof.
  intros Ht Hm Hk r w' E. destruct (Ht e w) as (o & w1 & E1). pose proof (Hm _ _ _ _ E1) as [D Ha].
  destruct o as [a|x].
  - rewrite (mtry_Ok _ _ _ _ _ _ E1) in E. rewrite <- D. by eapply Hk; [|apply Ha|].
  - rewrite (mtry_Err _ _ _ _ _ _ E1) in E. injection E as <- <-. left. eauto.
Qed.

Lemma resolves_both {E A} (P Q : A -> Db -> Prop) (m : M (res E A)) :
  resolves P m -> resolves Q m -> resolves (fun a d => P a d /\ Q a d) m.
Proof.
  intros HP HQ e w r w' E1. pose proof (HP _ _ _ _ E1) as [D HaP].
  pose proof (HQ _ _ _ _ E1) as [_ HaQ]. auto.
Qed.

Lemma resolve_project_foreign id user request e w :
  ~ owns (u_id user) (w_db w) id ->
  resolves_foreign user (lit "project") id w e (V1.resolve_project id user request).
Proof.
  intros Hn. eapply foreign_read; [apply total_api|apply resolves_both; [apply resolves_find_project|apply find_project_id]|].
  intros o w1 D1 [Ho Hid]. eapply foreign_read; [apply total_mret|apply resolves_ok_or|].
  intros p w2 D2 ->. rewrite <- (Hid p eq_refl) at 1.
  apply (resolve_as_foreign p (V1.mk_CrossUserTarget (lit "project") (p_id p) (Some (p_user_id p)))).
  intros [= E]. apply Hn. rewrite <- E. by apply Ho.
Qed.

(** A check or a channel, whose owner is its project's. *)
Lemma project_of_foreign {A} (a : A) user target id pid request e w :
  ~ owns (u_id user) (w_db w) pid ->
  resolves_foreign user target id w e (mtry (api (find_project pid)) (fun p =>
    V1.resolve_as a (V1.mk_CrossUserTarget target id (p_user_id <$> p)) user request)).
Proof.
  intros Hn. eapply foreign_read; [apply total_api|apply resolves_find_project|].
  intros p w1 D1 Hp. apply (resolve_as_foreign a (V1.mk_CrossUserTarget target id (p_user_id <$> p))).
  simpl. destruct p as [p|]; [|done]. intros [= E]. apply Hn. rewrite <- E. by apply Hp.
Qed.

Lemma resolve_check_foreign id user request e w :
  ~ owned_row (u_id user) (w_db w) id ->
  resolves_foreign user (lit "check") id w e (V1.resolve_check id user request).
Proof.
  intros Hn. eapply foreign_read; [apply total_api|apply resolves_find_check|].
  intros o w1 D1 Ho. eapply foreign_read; [apply total_mret|apply resolves_ok_or|].
  intros c w2 D2 ->. destruct (Ho c eq_refl) as (<- & row & Hrow & Hpid).
  apply (project_of_foreign c). rewrite D2, D1, Hpid. intros Hown. apply Hn. by exists row.
Qed.

Lemma resolve_channel_foreign id user request e w :
  ~ owned_channel_row (u_id user) (w_db w) id ->
  resolves_foreign user (lit "channel") id w e (V1.resolve_channel id user request).
Proof.
  intros Hn. eapply foreign_read; [apply total_api|apply resolves_find_channel|].
  intros o w1 D1 Ho. eapply foreign_read; [apply total_mret|apply resolves_ok_or|].
  intros c w2 D2 ->. destruct (Ho c eq_refl) as (<- & row & Hrow & Hpid).
  apply (project_of_foreign c). rewrite D2, D1, Hpid. intros Hown. apply Hn. by exists row.
Qed.

Lemma foreign_then {A B} user target id (m : M (res ApiError A)) (k : A -> M (res ApiError B)) e w r w' :
  resolves_foreign user target id w e m -> (forall a, keeps_log (k a)) -> mtry m k e w = (r, w') ->
  foreign_access user target id w w' r.
Proof.
  intros Hm Hk Em. destruct (m e w) as [r1 w1] eqn:E1.
  destruct (Hm _ _ E1) as [[D [x ->]]|([a ->] & Hu & row & Hl & Hrow)].
  - rewrite (mtry_Err _ _ _ _ _ _ E1) in Em. injection Em as <- <-. left. eauto.
  - rewrite (mtry_Ok _ _ _ _ _ _ E1) in Em. right. split; [done|]. exists row. split; [|done].
    rewrite <- Hl. by apply (Hk a _ e w1 r w' eq_refl Em).
Qed.

(** The kind and the identifier of a resource, as the audit log names them. *)
Definition resource_name (rs : Resource) : str * Z :=
  match rs with
  | R_None => ([], 0)
  | R_Project id => (lit "project", id)
  | R_Check id => (lit "check", id)
  | R_Channel id => (lit "channel", id)
  end.

(** C32: no key reaches what is another user's unseen, not even to read it. Whatever an
    API request on a resource that is not the caller's asks and whatever fails, either
    nothing has changed and the answer is an error, or the caller is an administrator and
    the audit log has gained exactly one row, which names caller and resource. *)
Theorem api_foreign_access_audited user path rq e w r w' :
  ~ its_own (u_id user) (w_db w) (resource rq) -> api_handle user path rq e w = (r, w') ->
  foreign_access user (resource_name (resource rq)).1 (resource_name (resource rq)).2 w w' r.
Proof.
  intros Hn E.
  destruct rq; cbn [api_handle resource resource_name its_own fst snd] in *; try (by destruct Hn).
  all: refine (foreign_then _ _ _ _ _ e w r w' _ _ E);
    [first [by apply resolve_project_foreign|by apply resolve_check_foreign|by apply resolve_channel_foreign]|].
  all: intros a t; unfold V1.reload_check, json, created, no_content, or_bad_request, ok_or, api,
    list_pings_page, list_notifications_page, keyset_page; cbv zeta; log_steps.
Qed.

End requests.

(** ** The API and the forms do the same *)

(** Two computations that differ in their errors and answers only. *)
Definition agree {E1 E2 A B} (R : A -> B -> Prop) (x : exec (res E1 A)) (y : exec (res E2 B)) : Prop :=
  match x, y with
  | Panic, Panic => True
  | Done (Ok a), Done (Ok b) => R a b
  | Done (Err _), Done (Err _) => True
  | _, _ => False
  end.
Definition sim {E1 E2 A B} (R : A -> B -> Prop) (m1 : M (res E1 A)) (m2 : M (res E2 B)) : Prop :=
  forall e w, (m1 e w).2 = (m2 e w).2 /\ agree R (m1 e w).1 (m2 e w).1.
(** Two computations that leave the same database. *)
Definition same_writes {A B} (m1 : M A) (m2 : M B) : Prop :=
  forall e w, w_db (m1 e w).2 = w_db (m2 e w).2.

Section sim.
Context {E1 E2 : Type}.

Lemma sim_mret {A B} (R : A -> B -> Prop) (x : res E1 A) (y : res E2 B) :
  agree R (Done x) (Done y) -> sim R (mret x) (mret y).
Proof. by intros Hxy e w. Qed.

Lemma sim_map_err {A} (f : DbErr -> E1) (g : DbErr -> E2) (m : M (res DbErr A)) :
  sim eq (map_err f m) (map_err g m).
Proof. intros e w. unfold map_err, mbind. by destruct (m e w) as [[[a|x]|] w1]. Qed.

Lemma sim_mtry {A A' B B'} (R : A -> A' -> Prop) (S : B -> B' -> Prop) (m1 : M (res E1 A))
    (m2 : M (res E2 A')) k1 k2 :
  sim R m1 m2 -> (forall a b, R a b -> sim S (k1 a) (k2 b)) -> sim S (mtry m1 k1) (mtry m2 k2).
Proof.
  intros Hm Hk e w. destruct (Hm e w) as [Hw Ha]. unfold mtry, mbind.
  destruct (m1 e w) as [[[a|x]|] w1], (m2 e w) as [[[b|y]|] w2]; simpl in *; try done; subst w2.
  by apply Hk.
Qed.

Lemma same_mtry {A A' B B'} (R : A -> A' -> Prop) (m1 : M (res E1 A)) (m2 : M (res E2 A'))
    (k1 : A -> M (res E1 B)) (k2 : A' -> M (res E2 B')) :
  sim R m1 m2 -> (forall a b, R a b -> same_writes (k1 a) (k2 b)) ->
  same_writes (mtry m1 k1) (mtry m2 k2).
Proof.
  intros Hm Hk e w. destruct (Hm e w) as [Hw Ha]. unfold mtry, mbind.
  destruct (m1 e w) as [[[a|x]|] w1], (m2 e w) as [[[b|y]|] w2]; simpl in *; try done; subst w2;
    [|done..]. by apply Hk.
Qed.

Lemma same_reads {A B} (m1 : M A) (m2 : M B) : reads m1 -> reads m2 -> same_writes m1 m2.
Proof.
  intros Hr1 Hr2 e w. destruct (m1 e w) as [r1 w1] eqn:F1, (m2 e w) as [r2 w2] eqn:F2. simpl.
  rewrite (Hr1 (fun d => d = w_db w) e w r1 w1 eq_refl F1).
  by rewrite (Hr2 (fun d => d = w_db w) e w r2 w2 eq_refl F2).
Qed.

(** The last write, then whatever each reads for its answer. *)
Lemma same_then {A B B' : Type} (f : DbErr -> E1) (g : DbErr -> E2) (m : M (res DbErr A))
    (k1 : A -> M (res E1 B)) (k2 : A -> M (res E2 B')) :
  (forall a, reads (k1 a)) -> (forall a, reads (k2 a)) ->
  same_writes (mtry (map_err f m) k1) (mtry (map_err g m) k2).
Proof.
  intros H1 H2. apply (same_mtry eq); [apply sim_map_err|]. intros a _ <-. by apply same_reads.
Qed.

Lemma same_mbind {A B B'} (m : M A) (k1 : A -> M B) (k2 : A -> M B') :
  (forall a, same_writes (k1 a) (k2 a)) -> same_writes (mbind m k1) (mbind m k2).
Proof. intros Hk e w. unfold mbind. destruct (m e w) as [[a|] w1]; [apply Hk|done]. Qed.

Lemma sim_for_each_try {A} (f : DbErr -> E1) (g : DbErr -> E2) (h : A -> M (res DbErr unit)) (l : list A) :
  sim eq (for_each_try l (fun x => map_err f (h x))) (for_each_try l (fun x => map_err g (h x))).
Proof.
  induction l as [|x l IH]; simpl; [by apply sim_mret|].
  apply (sim_mtry eq); [apply sim_map_err|]. by intros a _ <-.
Qed.

End sim.

Lemma same_assoc {E A B C D} (m : M (res E A)) (k : A -> M (res E B)) (h : B -> M (res E C)) (m' : M D) :
  same_writes m' (mtry m (fun a => mtry (k a) h)) -> same_writes m' (mtry (mtry m k) h).
Proof.
  intros Hs e w. rewrite Hs. unfold mtry, mbind. by destruct (m e w) as [[[a|x]|] w1].
Qed.

Definition form_of (rq : ApiRequest) : option OwnerRequest :=
  match rq with
  | AQ_CreateProject input => Some (OR_ProjectCreate (ProjectForm_from input))
  | AQ_UpdateProject id input => Some (OR_ProjectUpdate id (ProjectForm_from input))
  | AQ_DeleteProject id => Some (OR_ProjectDelete id true)
  | AQ_CreateCheck pid input => Some (OR_CheckCreate pid (CheckForm_from input))
  | AQ_UpdateCheck id input => Some (OR_CheckUpdate id (CheckForm_from input))
  | AQ_DeleteCheck id => Some (OR_CheckDelete id true)
  | AQ_PauseCheck id => Some (OR_CheckPause id)
  | AQ_ResumeCheck id => Some (OR_CheckResume id)
  | AQ_AckCheck id => Some (OR_CheckAck id)
  | AQ_RegenerateCheck id => Some (OR_CheckRegenerate id true)
  | AQ_SetCheckChannels id ids => Some (OR_CheckSetChannels id ids)
  | AQ_CreateChannel pid input => Some (OR_ChannelCreate pid (ChannelForm_from input))
  | AQ_UpdateChannel id input => Some (OR_ChannelUpdate id (ChannelForm_from input))
  | AQ_DeleteChannel id => Some (OR_ChannelDelete id)
  | _ => None
  end.

Section equivalence.
Context `{Cron} `{Crypto} `{HashOrder} `{NotifyDeps} `{!JsonText} (user : User).
Context (Huser : u_is_admin user = false).

Lemma sim_found {A} (o : option A) : sim (fun a b => a = b /\ o = Some a) (ok_or not_found o) (mret (found o)).
Proof. apply sim_mret. by destruct o. Qed.

Lemma sim_resolve_as {A} (a : A) target request owner :
  V1.xt_owner target = Some owner ->
  sim (fun b _ => b = a) (V1.resolve_as a target user request)
    (if owner =? u_id user then mret (Ok a) else mret (Err AE_NotFound)).
Proof.
  intros Ho. unfold V1.resolve_as. rewrite Ho, Huser. destruct (Z.eqb_spec owner (u_id user)) as [->|Hn].
  - rewrite bool_decide_true by done. by apply sim_mret.
  - rewrite bool_decide_false by congruence. by apply sim_mret.
Qed.

Lemma sim_resolve_project id request :
  sim (fun _ _ => True) (V1.resolve_project id user request) (owned_project id (u_id user)).
Proof.
  apply (sim_mtry eq); [apply sim_map_err|]. intros o _ <-.
  apply (sim_mtry (fun a b => a = b /\ o = Some a)); [apply sim_found|]. intros p _ [<- _] e w.
  destruct (sim_resolve_as p (V1.mk_CrossUserTarget (lit "project") (p_id p) (Some (p_user_id p)))
    request (p_user_id p) eq_refl e w) as [Hw Ha]. split; [done|].
  destruct (V1.resolve_as _ _ _ _ e w) as [[[?|?]|] ?], (p_user_id p =? u_id user); simpl in *; done.
Qed.

(** Through the project of a check or a channel. *)
Lemma sim_through_project {A} (a : A) target id pid request :
  sim (fun x y => x = a /\ y = a) (mtry (api (find_project pid)) (fun p =>
            V1.resolve_as a (V1.mk_CrossUserTarget target id (p_user_id <$> p)) user request))
    (mtry (owned_project pid (u_id user)) (fun _ => mret (Ok a))).
Proof.
  intros e w. unfold owned_project, api, mtry, db, map_err, mbind.
  destruct (find_project pid e w) as [[[o|x]|] w1]; simpl; [|done..].
  destruct o as [p|]; simpl.
  - destruct (sim_resolve_as a (V1.mk_CrossUserTarget target id (Some (p_user_id p))) request
      (p_user_id p) eq_refl e w1) as [Hw Ha].
    destruct (V1.resolve_as _ _ _ _ e w1) as [[[?|?]|] ?], (p_user_id p =? u_id user); simpl in *; done.
  - unfold V1.resolve_as. simpl. by rewrite Huser.
Qed.

Lemma sim_found_row {A B} (f : DbErr -> ApiError) (q : Db -> res DbErr (option A)) (P : A -> Prop)
    (S : B -> B -> Prop) (k1 : A -> M (res ApiError B)) (k2 : A -> M (res AppError B)) :
  resolves (fun o _ => forall a, o = Some a -> P a) (map_err f (query q)) ->
  (forall a, P a -> sim S (k1 a) (k2 a)) ->
  sim S (mtry (map_err f (query q)) (fun o => mtry (ok_or not_found o) k1))
    (mtry (db (query q)) (fun o => mtry (mret (found o)) k2)).
Proof.
  intros Hq Hk. apply (sim_mtry (fun o1 o2 => o1 = o2 /\ forall a, o1 = Some a -> P a)).
  { intros e w. destruct (sim_map_err f AE_Db (query q) e w) as [Hw Ha]. split; [done|].
    destruct (map_err f (query q) e w) as [r1 w1] eqn:F1. pose proof (Hq _ _ _ _ F1) as [_ Ho].
    destruct (db (query q) e w) as [r2 w2] eqn:F2. unfold db in F2. rewrite F2 in Hw, Ha. simpl in *.
    destruct r1 as [[o|x]|], r2 as [[o2|y]|]; try done. split; [done|]. by apply Ho. }
  intros o _ [<- Ho]. apply (sim_mtry (fun a b => a = b /\ o = Some a)); [apply sim_found|].
  intros a _ [<- ->]. by apply Hk, Ho.
Qed.

Lemma sim_weaken {E1 E2 A B} (R S : A -> B -> Prop) (m1 : M (res E1 A)) (m2 : M (res E2 B)) :
  sim R m1 m2 -> (forall a b, R a b -> S a b) -> sim S m1 m2.
Proof.
  intros Hm Hrs e w. destruct (Hm e w) as [Hw Ha]. split; [done|]. revert Ha. unfold agree.
  destruct (m1 e w).1 as [[?|?]|], (m2 e w).1 as [[?|?]|]; auto.
Qed.

Lemma sim_resolve_check id request :
  sim (fun a b => a = b /\ c_id a = id) (V1.resolve_check id user request) (owned_check id (u_id user)).
Proof.
  apply (sim_found_row _ _ (fun c => c_id c = id)).
  { intros e w r w' F. apply resolves_find_check in F as [D Ho]. split; [done|].
    intros o -> c ->. by apply (Ho _ eq_refl c). }
  intros c Hc. eapply sim_weaken; [apply sim_through_project|]. by intros a b [-> ->].
Qed.

Lemma sim_resolve_channel id request :
  sim (fun a b => a = b /\ ch_id a = id) (V1.resolve_channel id user request)
    (owned_channel id (u_id user)).
Proof.
  apply (sim_found_row _ _ (fun c => ch_id c = id)).
  { intros e w r w' F. apply resolves_find_channel in F as [D Ho]. split; [done|].
    intros o -> c ->. by apply (Ho _ eq_refl c). }
  intros c Hc. eapply sim_weaken; [apply sim_through_project|]. by intros a b [-> ->].
Qed.

Lemma same_or_bad_request {A B B'} (v : res str A) (k1 : A -> M (res ApiError B))
    (m2 : res str A -> M (res AppError B')) :
  (forall a, same_writes (k1 a) (m2 (Ok a))) -> (forall msg, reads (m2 (Err msg))) ->
  same_writes (mtry (or_bad_request v) k1) (m2 v).
Proof.
  intros Hk Hr e w. destruct v as [a|msg]; [apply Hk|].
  apply (same_reads (mret (Err (bad_request msg)) : M (res ApiError B))); [apply reads_mret|apply Hr].
Qed.

(** The handlers with a body to validate. *)
Lemma same_create_project config jar input :
  same_writes (V1.create_project user input) (project_create config jar user (ProjectForm_from input)).
Proof.
  apply (same_or_bad_request _ _ (fun v => match v with Err msg => _ | Ok v => _ end)).
  - intros v. apply same_mbind. intros now. apply same_then; intros id; [apply reads_back|apply reads_mret].
  - intros msg. apply reads_mret.
Qed.

Lemma same_create_check pid input ctx :
  same_writes (mtry (or_bad_request (validate_check (CheckForm_from input))) (fun v =>
      mbind new_v4 (fun uuid =>
      mtry (api (Store.create_check (mk_NewCheck pid (vc_name v) (vc_description v) uuid (vc_kind v)
        (vc_period_secs v) (vc_grace v) (vc_cron_expr v) (vc_timezone v) (vc_scan_interval_secs v)
        (vc_max_runtime_secs v) (vc_nag_interval_secs v)))) (fun id =>
      mtry (api (bind_all_project_channels id pid)) (fun _ =>
      mtry (api (find_check id)) (fun o =>
      mtry (ok_or internal o) (fun c => created (AB_Check (CheckDto_from c)))))))))
    (check_create_core pid (CheckForm_from input) ctx).
Proof.
  apply (same_or_bad_request _ _ (fun v => match v with Err msg => _ | Ok v => _ end)).
  - intros v. apply same_mbind. intros uuid. apply (same_mtry eq); [apply sim_map_err|]. intros id _ <-.
    apply same_then; intros []; [apply reads_back|apply reads_mret].
  - intros msg. apply reads_mret.
Qed.

Lemma same_set_channels check ids config jar id :
  c_id check = id ->
  same_writes (mtry (api (list_channels_for_project (c_project_id check))) (fun channels =>
    let valid : gset Z := list_to_set (map ch_id channels) in
    mtry (api (bound_channel_ids id)) (fun bound =>
    let current : gset Z := list_to_set bound in
    let desired : gset Z := list_to_set (List.filter (fun c => bool_decide (c ∈ valid)) ids) in
    mtry (for_each_try (hash_iter (desired ∖ current)) (fun add => api (bind_channel id add))) (fun _ =>
    mtry (for_each_try (hash_iter (current ∖ desired)) (fun remove => api (unbind_channel id remove))) (fun _ =>
    mtry (api (bound_channel_ids id)) (fun ids => json (AB_Bound ids)))))))
    (mtry (bind_channels check ids) (fun _ => mret (Ok (channels_saved_response config false id jar)))).
Proof.
  intros <-. unfold bind_channels. cbv zeta. apply same_assoc.
  apply (same_mtry eq); [apply sim_map_err|]. intros channels _ <-. apply same_assoc.
  apply (same_mtry eq); [apply sim_map_err|]. intros bound _ <-. apply same_assoc.
  apply (same_mtry eq); [apply sim_for_each_try|]. intros _ _ _.
  apply (same_mtry eq); [apply sim_for_each_try|]. intros _ _ _. apply same_reads; [|apply reads_mret].
  apply reads_mtry; [apply reads_api_query|]. intros l. apply reads_mret.
Qed.

Lemma same_create_channel config pid input ctx :
  same_writes (mtry (or_bad_request (validate_channel (ChannelForm_from input))) (fun v =>
      let '(kind, name, cfg) := v in
      mbind utc_now (fun now =>
      mtry (api (Store.create_channel (mk_NewChannel pid kind name cfg) now)) (fun id =>
      mtry (api (find_channel id)) (fun o =>
      mtry (ok_or internal o) (fun ch => created (AB_Channel (ChannelDto_from ch))))))))
    (channel_create_core config pid (ChannelForm_from input) ctx).
Proof.
  apply (same_or_bad_request _ _ (fun v => match v with Err msg => _ | Ok v => _ end)).
  - intros [[kind name] cfg]. apply same_mbind. intros now.
    apply same_then; intros id; [apply reads_back|apply reads_mret].
  - intros msg. apply reads_mret.
Qed.

(** C34: the API and the web forms are one program. For a user who is no administrator,
    every write request of the API leaves exactly the database that the corresponding form
    of the web pages leaves, when it is filled in with the fields the API's body is
    converted to, on every input and whatever fails. *)
Theorem api_writes_as_forms config jar path rq orq e w :
  form_of rq = Some orq ->
  w_db (api_handle user path rq e w).2 = w_db (owner_handle config jar user orq e w).2.
Proof.
  intros Hrq. revert e w. change (same_writes (api_handle user path rq) (owner_handle config jar user orq)).
  destruct rq; try discriminate Hrq; injection Hrq as <-; cbn [api_handle owner_handle].
  { apply same_create_project. }
  all: first [apply (same_mtry _ _ _ _ _ (sim_resolve_project _ _))
             |apply (same_mtry _ _ _ _ _ (sim_resolve_check _ _))
             |apply (same_mtry _ _ _ _ _ (sim_resolve_channel _ _))]; intros a b Hab; cbn beta.
  all: try (apply same_then; intros; first [apply reads_mret|apply reads_reload_check]).
  - apply (same_or_bad_request _ _ (fun v => match v with Err msg => _ | Ok v => _ end));
      [|intros msg; apply reads_mret].
    intros v. apply same_then; intros _; [apply reads_back|apply reads_mret].
  - apply same_create_check.
  - apply (same_or_bad_request _ _ (fun v => match v with Err msg => _ | Ok v => _ end));
      [|intros msg; apply reads_mret].
    intros v. apply same_then; intros _; [apply reads_reload_check|apply reads_mret].
  - destruct Hab as [<- Hid]. by apply same_set_channels.
  - apply same_create_channel.
  - destruct Hab as [<- <-].
    apply (same_or_bad_request _ _ (fun v => match v with Err msg => _ | Ok v => _ end));
      [|intros msg; apply reads_mret].
    intros [[kind name] cfg]. apply same_then; intros _; [apply reads_back|apply reads_mret].
Qed.

End equivalence.

(** ** A key that was issued *)

Section issued.
Context `{ChronoLaws} `{Crypto} `{IpText} `{Argon2}.

(** The extractor on a key that is stored once. *)
Lemma ApiUser_of_key headers token e w i row urow u :
  calm e -> bearer_token headers = Some token ->
  t_rows (api_keys (w_db w)) !! i = Some row -> kr_token_hash row = hash_api_key token ->
  (forall j r, t_rows (api_keys (w_db w)) !! j = Some r -> kr_token_hash r = hash_api_key token -> j = i) ->
  t_rows (users (w_db w)) !! kr_user_id row = Some urow -> row_to_user (kr_user_id row, urow) = Ok u ->
  exists w', ApiUser headers e w = (Done
    (if match parse_ts (kr_expires_at row) with Some x => x <=? env_now e (w_reads w) | None => false end
     then Err unauthorized else if u_disabled u then Err unauthorized else Ok u), w').
Proof.
  intros He Hb Hi Hh Hu Hrow Hdec. unfold ApiUser. rewrite Hb. unfold ok_or at 1. unfold mtry at 1, mbind at 1, mret at 1.
  unfold mbind at 1, utc_now at 1. set (now := env_now e (w_reads w)). set (w1 := mk_World _ _ _ _ _ _ _ _ _).
  assert (find_row (fun _ r => bool_decide (kr_token_hash r = hash_api_key token)) (api_keys (w_db w1))
    = Some (i, row)) as Hf.
  { apply find_row_unique; [done|by apply bool_decide_eq_true|].
    intros j s Hj Hs%bool_decide_eq_true. by eapply Hu. }
  assert (exists w2, api (validate_api_key (hash_api_key token) now) e w1 =
    (Done (Ok (if match parse_ts (kr_expires_at row) with Some x => x <=? now | None => false end
               then None else Some (kr_user_id row))), w2) /\ users (w_db w2) = users (w_db w1)) as (w2 & E2 & D2).
  { unfold api, map_err, validate_api_key.
    unfold mbind at 1. erewrite mtry_query_calm by done. rewrite Hf.
    destruct (match parse_ts (kr_expires_at row) with Some _ => _ | None => false end); [by eexists|].
    destruct (is_stale _ _); [|by eexists]. unfold mtry, mbind. rewrite execute_calm by done. by eexists. }
  rewrite (mtry_Ok _ _ _ _ _ _ E2).
  destruct (match parse_ts (kr_expires_at row) with Some _ => _ | None => false end); [by eexists|].
  unfold ok_or at 1. unfold mtry at 1, mbind at 1, mret at 1.
  unfold api, map_err, find_user_by_id, mtry, mbind. rewrite query_calm by done. rewrite D2. cbn [users w_db w1].
  rewrite Hrow. cbn [transpose fmap option_fmap option_map]. rewrite Hdec. cbn [res_bind].
  unfold ok_or, mret. rewrite option_bind_Some. eexists. by destruct (u_disabled u).
Qed.

(** The token of a new key, shown once, is the key. If the account page answers the
    request for a key with a token, then from then on, while nothing touches the keys and
    the users and statements do not fail, a request that bears the token is taken for
    that user, who must not be disabled, until the key's expiry and never from it on;
    without an expiry in the form there is none. *)
Theorem issued_key_authenticates config jar user form e w resp w' t token :
  Account.api_keys_create config jar user form e w = (Done (Ok resp), w') ->
  rs_page resp = P_Account t -> at_new_token t = Some token ->
  exists expires, (expires = None <-> trim (Account.nkf_expires_in form) = []) /\
    forall headers e2 w2 urow u, calm e2 -> w_db w2 = w_db w' ->
      bearer_token headers = Some token ->
      t_rows (users (w_db w2)) !! u_id user = Some urow -> row_to_user (u_id user, urow) = Ok u ->
      (forall x, expires = Some x -> text_ok x) ->
      let now := env_now e2 (w_reads w2) in
      exists w3, ApiUser headers e2 w2 =
        (Done (if match expires with Some x => x <=? now | None => false end then Err unauthorized
               else if u_disabled u then Err unauthorized else Ok u), w3).
Proof.
  intros Hc Hp Ht. destruct (Account.api_keys_create_inv _ _ _ _ _ _ _ _ _ _ Hc Hp Ht)
    as (expires & i & row & Hb & Hu & Hh & _ & Hx & Hi & Huniq).
  exists expires. split; [done|]. intros headers e2 w2 urow u He D Hbear Hrow Hdec Htext now.
  rewrite <- Hu in Hrow, Hdec. rewrite <- D in Hi, Huniq.
  destruct (ApiUser_of_key headers token e2 w2 i row urow u He Hbear Hi Hh Huniq Hrow Hdec) as (w3 & E).
  exists w3. rewrite E. rewrite Hx. destruct expires as [x|]; [|done].
  simpl. rewrite parse_to_rfc3339 by auto. done.
Qed.

End issued.

(** ** A client that reads a check's whole history *)

Section history.
Context `{Cron}.

(** Page after page, from the newest, by [?before=next_before], until it is null. *)
Fixpoint read_history (user : User) (path : str) (id : Z) (lim : option Z) (fuel : nat)
    (before : option Z) : M (res ApiError (list PingDto)) :=
  match fuel with
  | O => mret (Ok [])
  | S fuel' =>
      let? resp := V1.list_check_pings user path id (mk_PageParams before None lim) in
      match ar_body resp with
      | AB_Pings page =>
          match pp_next_before page with
          | None => mret (Ok (pp_items page))
          | Some b =>
              let? rest := read_history user path id lim fuel' (Some b) in
              mret (Ok (pp_items page ++ rest))
          end
      | _ => mret (Ok [])
      end
  end.

(** The listing's query, and its view: the check's pings, newest first. *)
Definition pings_query (id : Z) (lim : option Z) : KeysetQuery :=
  mk_KeysetQuery (lit "pings") (Some (lit "check_id", id)) PC_Latest
    (limit (mk_PageParams None None lim)) [].
Definition pings_of (id : Z) (d : Db) : list (Z * PingRow) :=
  rev (select (fun _ r => pgr_check_id r =? id) (pings d)).

Lemma view_pings id lim d : view ping_columns (pings_query id lim) (pings d) = pings_of id d.
Proof.
  unfold view, pings_of, select. f_equal. apply List.filter_ext. intros kr. unfold in_view. simpl.
  apply andb_true_r.
Qed.

Lemma last_of {A} (l : list A) : List.last (map Some l) None = last l.
Proof. induction l as [|x [|y l] IH]; [done|done|]. exact IH. Qed.

(** A check of the user's, whose row and whose project's row decode. *)
Definition own_check (uid : Z) (d : Db) (id : Z) : Prop :=
  exists crow c prow p,
    t_rows (checks d) !! id = Some crow /\ row_to_check (id, crow) = Ok c /\
    t_rows (projects d) !! c_project_id c = Some prow /\
    row_to_project (c_project_id c, prow) = Ok p /\ p_user_id p = uid.

Lemma resolve_check_own user id request e w :
  calm e -> own_check (u_id user) (w_db w) id ->
  exists c, c_id c = id /\
    V1.resolve_check id user request e w = (Done (Ok c), bump (w_db w) (bump (w_db w) w)).
Proof.
  intros He (crow & c & prow & p & Hc & Dc & Hp & Dp & Hu). exists c.
  split; [by apply row_to_check_Ok in Dc as (? & ? & ?)|].
  unfold V1.resolve_check, api, map_err, mtry, mbind, find_check, find_project.
  rewrite query_calm by done. rewrite Hc. cbn [fmap option_fmap option_map transpose]. rewrite Dc. simpl.
  rewrite query_calm by done. cbn [w_db bump]. rewrite Hp. cbn [fmap option_fmap option_map transpose].
  rewrite Dp. simpl. unfold V1.resolve_as. simpl. by rewrite bool_decide_true by congruence.
Qed.

Definition start (before : option Z) : PageCursor :=
  match before with Some b => PC_Before b | None => PC_Latest end.

Lemma list_check_pings_own user path id before lim e w :
  calm e -> own_check (u_id user) (w_db w) id ->
  exists w', w_db w' = w_db w /\
    V1.list_check_pings user path id (mk_PageParams before None lim) e w =
      (Done match page_at ping_columns row_to_ping (pings_query id lim) (pings (w_db w)) (start before) with
            | Ok page => Ok (mk_ApiResponse 200 (AB_Pings (PingPage_from_page page)))
            | Err _ => Err internal
            end, w').
Proof.
  intros He Hown. unfold V1.list_check_pings.
  destruct (resolve_check_own user id (V1.GET path) e w He Hown) as (c & Hid & Er).
  rewrite (mtry_Ok _ _ _ _ _ _ Er).
  rewrite Hid. unfold api, map_err, list_pings_page, keyset_page. unfold mtry at 1. unfold mbind at 1 2.
  erewrite mtry_query_calm by done. unfold mret. cbn [w_db bump]. unfold page_at.
  replace (at_cursor _ _) with (mk_KeysetQuery (lit "pings") (Some (lit "check_id", id))
    (cursor (mk_PageParams before None lim)) (limit (mk_PageParams before None lim)) [])
    by (by destruct before).
  cbn [PingFilter_predicates]. eexists. split; cycle 1.
  - destruct (keyset_rows_to_page _ _ _); reflexivity.
  - done.
Qed.

(** The client's walk is the walk over the pages. *)
Lemma read_history_walk user path id lim fuel before all e w :
  calm e -> own_check (u_id user) (w_db w) id ->
  walk_older ping_columns row_to_ping pg_id (pings_query id lim) (pings (w_db w)) fuel (start before) = Ok all ->
  exists w', w_db w' = w_db w /\
    read_history user path id lim fuel before e w = (Done (Ok (map PingDto_from all)), w').
Proof.
  intros He. revert before all w. induction fuel as [|fuel IH]; intros before all w Hown Hw.
  { injection Hw as <-. by exists w. }
  cbn [walk_older] in Hw. apply res_bind_ok in Hw as (page & Epage & Hw). cbn [read_history].
  destruct (list_check_pings_own user path id before lim e w He Hown) as (w1 & D1 & E1).
  rewrite Epage in E1. rewrite (mtry_Ok _ _ _ _ _ _ E1). cbn [ar_body PingPage_from_page pp_next_before].
  rewrite last_of in Hw. destruct (pa_has_older page).
  2: { injection Hw as <-. by exists w1. }
  destruct (last (pa_items page)) as [x|]; cbn [fmap option_fmap option_map].
  2: { injection Hw as <-. by exists w1. }
  apply res_bind_ok in Hw as (rest & Erest & [= <-]). rewrite <- D1 in Hown, Erest.
  destruct (IH (Some (pg_id x)) rest w1 Hown Erest) as (w2 & D2 & E2).
  rewrite (mtry_Ok _ _ _ _ _ _ E2). exists w2. split; [congruence|]. by rewrite map_app.
Qed.

(** C38: a client of the API reads a check's whole history. For the check's owner, while
    nothing changes and no statement fails, asking for page after page by [next_before]
    until it is null yields every ping of the check, each once, newest first, whatever
    limit is asked for; it takes at most one request more than there are pings. *)
Theorem history_is_complete user path id lim fuel e w all :
  calm e -> own_check (u_id user) (w_db w) id ->
  collect row_to_ping (pings_of id (w_db w)) = Ok all -> (length (pings_of id (w_db w)) < fuel)%nat ->
  exists w', w_db w' = w_db w /\
    read_history user path id lim fuel None e w = (Done (Ok (map PingDto_from all)), w').
Proof.
  intros He Hown Hall Hf. apply read_history_walk; [done|done|]. rewrite <- (view_pings id lim) in Hall, Hf.
  apply (walk_suffix _ _ _ _ _) with (pre := []) (l := view ping_columns (pings_query id lim) (pings (w_db w)));
    [..|done|by rewrite keyset_select_view|done|done|done].
  - unfold pings_query, limit, MAX_PAGE_LIMIT. cbn [kq_limit]. lia.
  - intros [i r] x Hx. unfold row_to_ping in Hx. apply res_bind_ok in Hx as (k & _ & Hx).
    by apply res_bind_ok in Hx as (? & _ & [= <-]).
Qed.
End history.

(** ** Witnesses *)

#[local] Existing Instance SampleChrono.sample_chrono.
#[local] Existing Instance SampleChrono.sample_chrono_laws.
#[local] Existing Instance SampleChrono.sample_cron.
#[local] Existing Instance SampleCrypto.sample_crypto.
#[local] Existing Instance SampleWeb.sample_ip_text.
#[local] Existing Instance SampleWeb.sample_argon2.
#[local] Existing Instances SampleJson.sample_deps SampleJson.sample_json.

(** Neither the second user of [web_db] nor a visiting administrator owns the check 1. *)
Definition visitor : User := mk_User 9 (lit "eve") None true false 0.

Lemma web_db_check_not_of uid : uid <> 1 -> ~ its_own uid web_db (R_Check 1).
Proof.
  intros Hne (row & Hrow & p & Hp & Hu).
  assert (pr_user_id <$> (row ← t_rows (checks web_db) !! 1; t_rows (projects web_db) !! cr_project_id row)
          = Some 1) as F by (vm_compute; reflexivity).
  rewrite Hrow, option_bind_Some, Hp in F. injection F as F. congruence.
Qed.

Lemma api_requests_confined_witness :
  exists r w', api_handle bob (lit "/api/v1/checks/1") (AQ_DeleteCheck 1) (calm_env 0) (world_of web_db)
      = (r, w') /\ w_db w' = web_db /\ (r = Done (Err not_found) \/ r = Done (Err internal)).
Proof.
  destruct (api_handle bob (lit "/api/v1/checks/1") (AQ_DeleteCheck 1) (calm_env 0) (world_of web_db))
    as [r w'] eqn:E.
  exists r, w'. split; [reflexivity|].
  assert (sequenced web_db) as Hs by (apply sequencedb_sequenced; vm_compute; reflexivity).
  destruct (api_requests_confined bob (lit "/api/v1/checks/1") (AQ_DeleteCheck 1) (calm_env 0)
    (world_of web_db) r w' eq_refl) as (_ & _ & _ & H); [rewrite world_of_db; exact Hs|exact E|].
  rewrite world_of_db in H. apply H. apply web_db_check_not_of. discriminate.
Defined.

Lemma api_foreign_access_audited_witness :
  exists r w', api_handle visitor (lit "/api/v1/checks/1") (AQ_GetCheck 1) (calm_env 0) (world_of web_db)
      = (r, w') /\ audited visitor (lit "admin.api.access") (lit "check") 1 web_db (w_db w').
Proof.
  assert (match (api_handle visitor (lit "/api/v1/checks/1") (AQ_GetCheck 1) (calm_env 0) (world_of web_db)).1
          with Done (Ok _) => true | _ => false end = true) as N by (vm_compute; reflexivity).
  destruct (api_handle visitor (lit "/api/v1/checks/1") (AQ_GetCheck 1) (calm_env 0) (world_of web_db))
    as [r w'] eqn:E.
  exists r, w'. split; [reflexivity|].
  destruct (api_foreign_access_audited visitor (lit "/api/v1/checks/1") (AQ_GetCheck 1) (calm_env 0)
    (world_of web_db) r w') as [[_ [x Hx]]|[_ H]].
  - rewrite world_of_db. apply web_db_check_not_of. discriminate.
  - exact E.
  - rewrite Hx in N. discriminate N.
  - rewrite world_of_db in H. exact H.
Defined.

Lemma api_writes_as_forms_witness :
  w_db (api_handle bob [] (AQ_PauseCheck 1) (calm_env 0) (world_of web_db)).2 =
  w_db (owner_handle sample_config sample_jar bob (OR_CheckPause 1) (calm_env 0) (world_of web_db)).2.
Proof. apply (api_writes_as_forms bob eq_refl sample_config sample_jar [] (AQ_PauseCheck 1)). reflexivity. Defined.

(** An hour's key of the second user, used at once. *)
Definition key_form : Account.NewApiKeyForm :=
  Account.mk_NewApiKeyForm (lit "ci") [] sample_password.
Definition bob_row : UserRow :=
  mk_UserRow (lit "bob") (Some (lit "$" ++ sample_password)) 0 0 (to_rfc3339 0).
Definition key_env : Env := {|
  env_now _ := 0;
  env_fault _ := false;
  env_uuid _ := lit "0f0f0f0f-0f0f-4f0f-8f0f-0f0f0f0f0f0f";
  env_receivers := 0;
  env_http _ _ := Ok 200;
  env_mail _ _ _ := Ok tt;
  env_instant _ := 0;
|}.

Lemma issued_key_authenticates_witness :
  exists resp w' t token w3,
    Account.api_keys_create sample_config sample_jar Account.bob_account key_form key_env (world_of web_db)
      = (Done (Ok resp), w') /\ rs_page resp = P_Account t /\ at_new_token t = Some token /\
    ApiUser [(lit "Authorization", Some (lit "Bearer " ++ token))] (calm_env 5) w'
      = (Done (Ok Account.bob_account), w3).
Proof.
  destruct (Account.api_keys_create sample_config sample_jar Account.bob_account key_form key_env
    (world_of web_db)) as [r w'] eqn:E.
  assert (match r with
          | Done (Ok resp) => match rs_page resp with
              | P_Account t => match at_new_token t with
                  | Some token => bool_decide (bearer_token [(lit "Authorization", Some (lit "Bearer " ++ token))] = Some token)
                  | None => false end
              | _ => false end
          | _ => false end = true) as N.
  { replace r with (Account.api_keys_create sample_config sample_jar Account.bob_account key_form key_env
      (world_of web_db)).1 by (rewrite E; reflexivity). vm_compute. reflexivity. }
  assert (t_rows (users (w_db w')) !! 2 = Some bob_row) as Hrow.
  { replace w' with (Account.api_keys_create sample_config sample_jar Account.bob_account key_form key_env
      (world_of web_db)).2 by (rewrite E; reflexivity). vm_compute. reflexivity. }
  destruct r as [[resp|x]|]; [|discriminate N|discriminate N].
  destruct (rs_page resp) as [| | | | | | | | | | | |t| | | | | |] eqn:Hp; try discriminate N.
  destruct (at_new_token t) as [token|] eqn:Ht; [|discriminate N]. apply bool_decide_eq_true in N.
  destruct (issued_key_authenticates sample_config sample_jar Account.bob_account key_form key_env
    (world_of web_db) resp w' t token E Hp Ht) as (expires & [_ Hb] & H).
  rewrite (Hb eq_refl) in H.
  destruct (H _ (calm_env 5) w' bob_row Account.bob_account (calm_env_calm 5) eq_refl N Hrow) as (w3 & Ew).
  - vm_compute. reflexivity.
  - discriminate.
  - exists resp, w', t, token, w3. split; [reflexivity|]. split; [exact Hp|]. split; [exact Ht|]. exact Ew.
Defined.

(** [sample_db] with three pings of the first check, read two at a time. *)
Definition pinged_db : Db :=
  w_db ((do _ := insert_ping (mk_NewPing 1 PK_Start None [] None) 10 in
         do _ := insert_ping (mk_NewPing 1 PK_Success None [] None) 20 in
         do _ := insert_ping (mk_NewPing 1 PK_Success None [] None) 30 in
         mret tt) (calm_env 0) (world_of sample_db)).2.

Lemma history_is_complete_witness :
  exists l w', read_history ann_user [] 1 (Some 2) 4 None (calm_env 0) (world_of pinged_db) = (Done (Ok l), w') /\
    map pgd_id l = [3; 2; 1].
Proof.
  assert (exists all, collect row_to_ping (pings_of 1 pinged_db) = Ok all /\ map pg_id all = [3; 2; 1])
    as (all & Hall & Hids) by (eexists; split; vm_compute; reflexivity).
  destruct (history_is_complete ann_user [] 1 (Some 2) 4 (calm_env 0) (world_of pinged_db) all
    (calm_env_calm 0)) as (w' & _ & E).
  - rewrite world_of_db.
    destruct (t_rows (checks pinged_db) !! 1) as [crow|] eqn:Ec; [|vm_compute in Ec; discriminate Ec].
    vm_compute in Ec. injection Ec as <-. do 4 eexists. split; [vm_compute; reflexivity|].
    split; [vm_compute; reflexivity|]. split; [vm_compute; reflexivity|]. split; vm_compute; reflexivity.
  - rewrite world_of_db. exact Hall.
  - rewrite world_of_db. vm_compute. lia.
  - exists (map PingDto_from all), w'. split; [exact E|]. rewrite map_map. exact Hids.
Defined.
