(* ===== verification/UserAdmin.v ===== *)
(** * UserAdmin: the administration of users in [src/web.rs]

    The four handlers on users and the unlocking of access-granting actions. An enabled
    administrator remains, and without a confirmed password nobody is granted access. *)
From S2P Require Import Prelude Text Models Duration Config Wire Secret Chrono Auth Db Rows Store Sessions Keyset Sample View Forms Errors Access Templates Web Listing Admin.
From S2P Require Ratelimit Elevate.
#[local] Open Scope Z_scope.
#[local] Open Scope pw_scope.

Record NewUserForm := mk_NewUserForm {
  nuf_username : str;
  nuf_password : str;
  nuf_is_admin : option str;
}.

Section user_admin.
Context `{Cron} `{Crypto} `{PageText} `{IpText} `{Argon2}.

(** ** Unlocking *)

(** [fragment]: whether the dialog asked for a bare status. *)
Definition admin_unlock (config : Config) (jar : CookieJar) (admin : User) (fragment : bool)
    (password : str) : M (res AppError Response) :=
  do outcome := reauthenticate admin password in
  if fragment then
    match outcome with
    | RA_Passed =>
        do _ := grant_elevation config jar (u_id admin) in mret (Ok (status_response 204))
    | RA_Failed => mret (Ok (status_response 403))
    | RA_Throttled => mret (Ok (mk_Response 429 None
        [(lit "retry-after", show_Z Ratelimit.Limiter.ACCOUNT_WINDOW_SECS)] [] P_None))
    end
  else
    match outcome with
    | RA_Failed => render_admin_unlock config jar admin None (Some (lit "That password is not correct."))
    | RA_Throttled =>
        render_admin_unlock config jar admin None (Some (lit "Too many attempts — try again later."))
    | RA_Passed =>
        do _ := grant_elevation config jar (u_id admin) in
        mret (Ok (flash_redirect config jar (lit "admin_unlocked") (lit "/admin")))
    end.

(** ** Users *)

(** The audit row of an action on a user. *)
Definition audit_user (admin : User) (action : str) (id : Z) (detail : option str)
  : M (res AppError unit) :=
  do now := utc_now in
  let? _ := db (record_audit {|
    na_actor_user_id := u_id admin;
    na_actor_username := u_username admin;
    na_action := action;
    na_target_type := Some (lit "user");
    na_target_id := Some id;
    na_target_owner_id := None;
    na_method := None;
    na_path := None;
    na_detail := detail |} now) in
  mret (Ok tt).

Definition to_admin : Response := redirect_to [] (lit "/admin").

Definition users_create (config : Config) (jar : CookieJar) (admin : User) (form : NewUserForm)
  : M (res AppError Response) :=
  let username := trim (nuf_username form) in
  let? taken := if is_empty username then mret (Ok false)
                else let? u := db (find_user_by_username username) in
                     mret (Ok (bool_decide (is_Some u))) in
  let error :=
    if is_empty username then Some (lit "username and password are required")
    else match validate_password (nuf_password form) with
         | Err msg => Some msg
         | Ok _ => if (taken : bool) then Some (username_taken username) else None
         end in
  match error with
  | Some error => render_admin_user_error config jar admin error
  | None =>
      do el := elevation config jar admin in
      if negb (allows el) then mret (Ok (admin_locked config jar)) else
      match hash_password (nuf_password form) with
      | Err e => mret (Err (AE_Other e))
      | Ok phc =>
          let is_admin := match nuf_is_admin form with Some s => negb (is_empty s) | None => false end in
          do now := utc_now in
          do created := create_user username (Some phc) is_admin now in
          match created with
          | Err UsernameTaken => render_admin_user_error config jar admin (username_taken username)
          | Err (CU_Db e) => mret (Err (AE_Db e))
          | Ok new_id =>
              let? _ := audit_user admin (lit "user.create") new_id
                          (Some (if is_admin then lit "admin" else lit "member")) in
              mret (Ok to_admin)
          end
      end
  end.

Definition user_url (id : Z) (action : str) : str :=
  lit "/admin/users/" ++ show_Z id ++ lit "/" ++ action.
Definition confirm_user (config : Config) (jar : CookieJar) (confirm : Confirm) (id : Z)
    (action : str) : Response :=
  confirmation_page config jar true confirm (user_url id action) (lit "/admin").

(** The last enabled administrator: [target.is_admin && !target.disabled && count <= 1]. *)
Definition last_admin (target : User) : M (res AppError bool) :=
  if u_is_admin target && negb (u_disabled target) then
    let? n := db count_enabled_admins in mret (Ok (n <=? 1))
  else mret (Ok false).

(** The refusals of [users_delete]: an answer, or the go-ahead. *)
Definition users_delete_guard (config : Config) (jar : CookieJar) (admin : User) (id : Z)
    (confirmed : bool) : M (res AppError (option Response)) :=
  if id =? u_id admin then mret (Ok (Some (users_blocked config jar))) else
  let? target := db (find_user_by_id id) in
  match target with
  | None => mret (Ok (Some to_admin))
  | Some target =>
      let? last := last_admin target in
      if (last : bool) then mret (Ok (Some (users_blocked config jar))) else
      if negb confirmed then mret (Ok (Some (confirm_user config jar CONFIRM_DELETE_USER id (lit "delete"))))
      else mret (Ok None)
  end.

(** What it does once nothing refuses. *)
Definition users_delete_commit (admin : User) (id : Z) : M (res AppError Response) :=
  let? _ := db (delete_user id) in
  do _ := elev_revoke_user id None in
  let? _ := audit_user admin (lit "user.delete") id None in
  mret (Ok to_admin).

Definition users_delete (config : Config) (jar : CookieJar) (admin : User) (id : Z)
    (confirmed : bool) : M (res AppError Response) :=
  let? refusal := users_delete_guard config jar admin id confirmed in
  match refusal with
  | Some resp => mret (Ok resp)
  | None => users_delete_commit admin id
  end.

Definition password_reset_keys_flash (config : Config) (jar : CookieJar) (revoked keys : Z) : Response :=
  flash_redirect config jar
    (PASSWORD_RESET_KEYS_PREFIX ++ show_Z revoked ++ lit ":" ++ show_Z keys) (lit "/admin").

Definition users_set_password (config : Config) (jar : CookieJar) (admin : User) (id : Z)
    (password : str) : M (res AppError Response) :=
  do el := elevation config jar admin in
  if negb (allows el) then mret (Ok (admin_locked config jar)) else
  match validate_password password with
  | Err msg => render_admin_user_error config jar admin msg
  | Ok _ =>
      let? target := db (find_user_by_id id) in
      match target with
      | None => mret (Ok to_admin)
      | Some target =>
          match hash_password password with
          | Err e => mret (Err (AE_Other e))
          | Ok phc =>
              let? _ := db (set_user_password id phc) in
              let keep := if id =? u_id admin then jar_session_id config jar else None in
              let? revoked := match keep with
                              | Some current => db (delete_other_sessions_for_user id current)
                              | None => db (delete_sessions_for_user id)
                              end in
              do _ := elev_revoke_user id (hash_api_key <$> keep) in
              let? _ := audit_user admin (lit "user.password_reset") id
                          (Some (lit "sessions_revoked=" ++ show_Z revoked)) in
              do now := utc_now in
              let? keys := db (list_api_keys_for_user id) in
              let key_count := Z.of_nat (length (List.filter
                (fun k => match k_expires_at k with None => true | Some e => now <? e end) keys)) in
              if (0 <? key_count) && negb (u_disabled target) then
                mret (Ok (password_reset_keys_flash config jar revoked key_count))
              else mret (Ok to_admin)
          end
      end
  end.

Definition users_toggle_admin (config : Config) (jar : CookieJar) (admin : User) (id : Z)
    (confirmed : bool) : M (res AppError Response) :=
  if id =? u_id admin then mret (Ok (users_blocked config jar)) else
  let? target := db (find_user_by_id id) in
  match target with
  | None => mret (Ok to_admin)
  | Some target =>
      let new_admin := negb (u_is_admin target) in
      do locked := (if new_admin then
                      do el := elevation config jar admin in mret (negb (allows el))
                    else mret false) in
      if (locked : bool) then mret (Ok (admin_locked config jar)) else
      let? last := if new_admin then mret (Ok false) else last_admin target in
      if (last : bool) then mret (Ok (users_blocked config jar)) else
      if negb new_admin && negb confirmed then
        mret (Ok (confirm_user config jar CONFIRM_DEMOTE_ADMIN id (lit "admin"))) else
      let? _ := db (set_user_admin id new_admin) in
      let? _ := audit_user admin (lit "user.set_admin") id
                  (Some (if new_admin then lit "promote" else lit "demote")) in
      mret (Ok to_admin)
  end.

Definition users_set_disabled (config : Config) (jar : CookieJar) (admin : User) (id : Z)
    (confirmed : bool) : M (res AppError Response) :=
  if id =? u_id admin then mret (Ok (users_blocked config jar)) else
  let? target := db (find_user_by_id id) in
  match target with
  | None => mret (Ok to_admin)
  | Some target =>
      let new_disabled := negb (u_disabled target) in
      let? last := if new_disabled then last_admin target else mret (Ok false) in
      if (last : bool) then mret (Ok (users_blocked config jar)) else
      if new_disabled && negb confirmed then
        mret (Ok (confirm_user config jar CONFIRM_DISABLE_USER id (lit "disabled"))) else
      let? _ := db (set_user_disabled id new_disabled) in
      let? revoked := if new_disabled then
                        let? n := db (delete_sessions_for_user id) in
                        do _ := elev_revoke_user id None in mret (Ok n)
                      else mret (Ok 0) in
      let? _ := audit_user admin (lit "user.set_disabled") id
                  (Some (if new_disabled then lit "disable sessions_revoked=" ++ show_Z revoked
                         else lit "enable")) in
      mret (Ok to_admin)
  end.

(** The writing requests of the administration page. *)
Inductive UserRequest : Type :=
| UR_Create (form : NewUserForm)
| UR_Delete (id : Z) (confirmed : bool)
| UR_SetPassword (id : Z) (password : str)
| UR_ToggleAdmin (id : Z) (confirmed : bool)
| UR_SetDisabled (id : Z) (confirmed : bool)
| UR_Settings (form : SettingsForm)
| UR_Unlock (fragment : bool) (password : str).

Definition user_handle (config : Config) (jar : CookieJar) (admin : User) (rq : UserRequest)
  : M (res AppError Response) :=
  match rq with
  | UR_Create form => users_create config jar admin form
  | UR_Delete id confirmed => users_delete config jar admin id confirmed
  | UR_SetPassword id password => users_set_password config jar admin id password
  | UR_ToggleAdmin id confirmed => users_toggle_admin config jar admin id confirmed
  | UR_SetDisabled id confirmed => users_set_disabled config jar admin id confirmed
  | UR_Settings form => settings_save config jar admin form
  | UR_Unlock fragment password => admin_unlock config jar admin fragment password
  end.

End user_admin.

(** ** An enabled administrator remains *)

Definition is_enabled_admin (d : Db) (uid : Z) : Prop :=
  exists r, t_rows (users d) !! uid = Some r /\ enabled_admin r = true.
Definition users_sequenced (d : Db) : Prop :=
  forall i, is_Some (t_rows (users d) !! i) -> i <= t_seq (users d).
Definition admin_kept (uid : Z) (d : Db) : Prop := users_sequenced d /\ is_enabled_admin d uid.

(** An assertion on the users only. *)
Definition on_users (I : Db -> Prop) : Prop := forall d d', users d' = users d -> I d -> I d'.

Lemma admin_kept_on_users uid : on_users (admin_kept uid).
Proof. intros d d' E. unfold admin_kept, users_sequenced, is_enabled_admin. by rewrite E. Qed.

Section users_only.
Context `{Cron} `{Crypto} `{PageText} `{IpText} `{Argon2} (I : Db -> Prop) (HI : on_users I).

(** A statement that does not write the users. *)
Lemma preserves_elsewhere {A} (run : Db -> res DbErr (A * Db)) :
  (forall d a d', run d = Ok (a, d') -> users d' = users d) -> preserves I (stmt run).
Proof. intros Hr. apply preserves_stmt. intros d a d' Hd E. eapply HI; [by eapply Hr|done]. Qed.

Lemma preserves_delete_sessions p : preserves I (delete_sessions_where p).
Proof. apply preserves_elsewhere. by intros d a d' [= _ <-]. Qed.

Lemma preserves_audit_user admin action id detail : preserves I (audit_user admin action id detail).
Proof.
  unfold audit_user. apply preserves_mbind; [apply preserves_utc_now|]. intros now.
  apply preserves_mtry; [|intros; apply preserves_mret]. apply preserves_db, preserves_elsewhere.
  intros d a d' E. cbv beta in E. destruct (insert_row _ _) as [i t]. by injection E as _ <-.
Qed.

Lemma preserves_last_admin target : preserves I (last_admin target).
Proof. unfold last_admin. handler_steps. Qed.

Lemma preserves_settings_save config jar admin form : preserves I (settings_save config jar admin form).
Proof.
  unfold settings_save. pose proof (fun r => render_admin_reads config jar admin r default_audit_query I).
  pose proof (fun kvs => changed_settings_reads kvs I).
  assert (forall kvs, preserves I (for_each_try kvs (fun kv => db (set_setting kv.1 kv.2)))) as Hset.
  { intros kvs. induction kvs as [|kv kvs IH]; cbn [for_each_try]; [apply preserves_mret|].
    apply preserves_mtry; [|done]. apply preserves_db, preserves_elsewhere. by intros d a d' [= _ <-]. }
  assert (forall changed, preserves I (audit_settings admin changed)) as Haud.
  { intros changed. unfold audit_settings. apply preserves_mbind; [apply preserves_utc_now|]. intros now.
    apply preserves_mtry; [|intros; apply preserves_mret]. apply preserves_db, preserves_elsewhere.
    intros d a d' E. cbv beta in E. destruct (insert_row _ _) as [i t]. by injection E as _ <-. }
  handler_steps; auto.
Qed.

End users_only.

Section admin_kept.
Context `{Cron} `{Crypto} `{PageText} `{IpText} `{Argon2}.

Lemma create_user_run username phc is_admin now d id d' :
  (if existsb (fun kr => bool_decide (ur_username kr.2 = username)) (rows (t_rows (users d)))
   then Err DE_Unique
   else let '(id, t) := insert_row {|
          ur_username := username; ur_password_hash := phc; ur_is_admin := Z.b2z is_admin;
          ur_disabled := 0; ur_created_at := to_rfc3339 now |} (users d) in
        Ok (id, set_users t d)) = Ok (id, d') ->
  id = t_seq (users d) + 1 /\
  d' = set_users (insert_row (mk_UserRow username phc (Z.b2z is_admin) 0 (to_rfc3339 now)) (users d)).2 d.
Proof. destruct (existsb _ _); [done|]. by intros [= <- <-]. Qed.

Lemma admin_kept_create uid username phc is_admin now :
  preserves (admin_kept uid) (create_user username phc is_admin now).
Proof.
  apply preserves_map_err, preserves_stmt. intros d id d' [Hs (r & Hr & Ha)] E.
  apply create_user_run in E as [-> ->]. split.
  - intros i. simpl. destruct (decide (i = t_seq (users d) + 1)) as [->|]; [lia|].
    rewrite lookup_insert_ne by done. intros Hi%Hs. lia.
  - exists r. split; [|done]. simpl. rewrite lookup_insert_ne; [done|].
    specialize (Hs uid ltac:(eauto)). lia.
Qed.

(** An update of one user's row that keeps an administrator enabled. *)
Lemma admin_kept_update uid g id :
  (id = uid -> forall r, enabled_admin r = true -> enabled_admin (g r) = true) ->
  preserves (admin_kept uid) (execute (update_user g id)).
Proof.
  intros Hg. apply preserves_execute. intros d [Hs (r & Hr & Ha)]. split.
  - intros i. unfold update_user. cbn [users set_users]. rewrite update_row_lookup.
    intros Hi. apply Hs. case_decide; [|done]. by apply fmap_is_Some in Hi.
  - unfold is_enabled_admin, update_user. cbn [users set_users]. rewrite update_row_lookup, Hr.
    case_decide as E; simpl; [|eauto]. exists (g r). auto.
Qed.

Lemma admin_kept_delete uid id : id <> uid -> preserves (admin_kept uid) (delete_user id).
Proof.
  intros Hne. apply preserves_execute. intros d [Hs (r & Hr & Ha)].
  unfold admin_kept, users_sequenced, is_enabled_admin, cascade_user, cascade_projects,
    cascade_channels, cascade_checks, delete_row. cbn. split.
  - intros i [row Hi]. apply lookup_delete_Some in Hi as [_ Hi]. apply Hs. eauto.
  - exists r. by rewrite lookup_delete_ne.
Qed.

#[local] Hint Resolve admin_kept_on_users : core.

(** What an administrator does to users leaves that administrator enabled. *)
Lemma user_handle_keeps config jar admin rq :
  preserves (admin_kept (u_id admin)) (user_handle config jar admin rq).
Proof.
  set (I := admin_kept (u_id admin)). assert (on_users I) as HI by apply admin_kept_on_users.
  pose proof (elevation_reads config jar admin I) as Hel.
  pose proof (fun m => render_admin_user_error_reads config jar admin m I) as Herr.
  pose proof (preserves_audit_user I HI admin) as Hau.
  pose proof (preserves_last_admin I) as Hlast.
  pose proof (preserves_delete_sessions I HI) as Hdel.
  assert (forall u k, preserves I (elev_revoke_user u k)) as Hrev by (intros; apply preserves_on_mem).
  destruct rq as [form|id ok|id pw|id ok|id ok|form|frag pw]; cbn [user_handle].
  - pose proof (admin_kept_create (u_id admin)) as Hc. unfold users_create. handler_steps; try apply Hc; auto.
  - unfold users_delete, users_delete_guard. destruct (Z.eqb_spec id (u_id admin)) as [->|Hne].
    { apply (preserves_mret I (Ok (users_blocked config jar))). }
    pose proof (admin_kept_delete (u_id admin) id Hne) as Hd. unfold users_delete_commit.
    handler_steps; auto.
  - assert (forall phc, preserves I (set_user_password id phc)) as Hp.
    { intros phc. by apply admin_kept_update. }
    unfold users_set_password, delete_other_sessions_for_user, delete_sessions_for_user.
    handler_steps; auto.
  - unfold users_toggle_admin. destruct (Z.eqb_spec id (u_id admin)) as [->|Hne]; [handler_steps|].
    assert (forall b, preserves I (set_user_admin id b)) as Hp.
    { intros b. by apply admin_kept_update. }
    handler_steps; auto.
  - unfold users_set_disabled, delete_sessions_for_user.
    destruct (Z.eqb_spec id (u_id admin)) as [->|Hne]; [handler_steps|].
    assert (forall b, preserves I (set_user_disabled id b)) as Hp.
    { intros b. by apply admin_kept_update. }
    handler_steps; auto.
  - by apply preserves_settings_save.
  - unfold admin_unlock, render_admin_unlock, grant_elevation, elev_grant, reauthenticate,
      account_try_acquire, account_clear. handler_steps.
Qed.

End admin_kept.

(** ** A whole request *)

Section requests.
Context `{Cron} `{!ChronoLaws} `{Crypto} `{PageText} `{IpText} `{Argon2}.

(** A request on users as the router serves it: the [AdminUser] extractor, then the
    handler with the request's cookies. *)
Definition admin_request (config : Config) (parts : Parts) (rq : UserRequest)
  : M (res Refusal (res AppError Response)) :=
  let? admin := AdminUser config parts in
  do r := user_handle config (mk_CookieJar (rp_cookies parts) []) admin rq in
  mret (Ok r).

(** The databases reached by serving such requests one after the other, each with its own
    clock, faults and cookies; a request that panics is one that ends there. *)
Inductive administered (config : Config) : World -> World -> Prop :=
| administered_none w : administered config w w
| administered_request w w1 e parts rq r w2 :
    administered config w w1 -> admin_request config parts rq e w1 = (r, w2) ->
    administered config w w2.

Lemma preserves_resolve uid config parts :
  preserves (admin_kept uid) (resolve_user config parts).
Proof.
  pose proof (admin_kept_create uid) as Hc.
  assert (forall f id, preserves (admin_kept uid) (execute (update_session f id))) as Hs.
  { intros f id. apply preserves_execute. intros d Hd. by eapply admin_kept_on_users. }
  unfold resolve_user, forward_auth_user, find_session_user, find_user_by_username, find_user_by_id.
  handler_steps; auto.
Qed.

Lemma stored_admin_enabled d u :
  stored_user d u -> u_disabled u = false -> u_is_admin u = true -> is_enabled_admin d (u_id u).
Proof.
  intros (row & Hr & Hd) Hdis Hadm. exists row. split; [done|].
  apply res_bind_ok in Hd as (c & _ & Hd). injection Hd as Hd. rewrite <- Hd in Hdis, Hadm.
  cbn in Hdis, Hadm. apply negb_false_iff in Hdis. unfold enabled_admin. by rewrite Hadm, Hdis.
Qed.

Definition some_admin (d : Db) : Prop := users_sequenced d /\ exists uid, is_enabled_admin d uid.

Lemma admin_request_keeps config parts rq : preserves some_admin (admin_request config parts rq).
Proof.
  intros e w r w' [Hs [uid Ha]] E.
  assert (forall w1 x, AdminUser config parts e w = (x, w1) -> admin_kept uid (w_db w1)) as Hk.
  { intros w1 x. apply (preserves_mtry (admin_kept uid) (CurrentUser config parts)); [|by auto with pw|done].
    apply preserves_mbind; [apply preserves_resolve|by auto with pw]. }
  apply mbind_inv in E as [[E _]|(x & w1 & E1 & E)].
  { apply Hk in E as [? ?]. split; [done|by exists uid]. }
  destruct x as [admin|x].
  2: { apply Hk in E1 as [? ?]. injection E as _ <-. split; [done|by exists uid]. }
  pose proof (Hk _ _ E1) as [Hs1 _]. apply AdminUser_lets_in in E1 as (Hst & Hd & Hadm).
  pose proof (stored_admin_enabled _ _ Hst Hd Hadm) as Hen.
  assert (admin_kept (u_id admin) (w_db w')) as [? ?]; [|split; [done|by exists (u_id admin)]].
  revert E. refine (preserves_mbind (admin_kept (u_id admin)) _ _ (user_handle_keeps config _ admin rq) _
    e w1 r w' (conj Hs1 Hen)). auto with pw.
Qed.

(** C10: an enabled administrator remains. From a database with one, whatever requests
    on users are served one after the other, by whichever administrators, with whatever
    faults, and whoever the sessions and the proxy say is asking, there is still an
    enabled administrator. (Served at the same time they need not leave one: see
    [concurrent_deletes_remove_every_admin].) *)
Theorem some_admin_remains config w w' :
  administered config w w' -> users_sequenced (w_db w) ->
  (exists uid, is_enabled_admin (w_db w) uid) ->
  exists uid, is_enabled_admin (w_db w') uid.
Proof.
  intros Hr Hs Ha. assert (some_admin (w_db w')) as [_ ?]; [|done].
  induction Hr as [w|w w1 e parts rq r w2 _ IH E]; [by split|].
  eapply admin_request_keeps; [|exact E]. auto.
Qed.

End requests.

(** ** Elevation *)

Section elevated.
Context `{Cron} `{Crypto} `{PageText} `{IpText} `{Argon2}.

(** No elevation of the session is in force at the next reading of the monotonic clock. *)
Definition locked (config : Config) (jar : CookieJar) (e : Env) (w : World) : Prop :=
  forall h, current_session_handle config jar = Some h ->
    Elevate.remaining_secs (env_instant e (w_instants w)) h (elevations (w_mem w)) = None.

(** Every user of [d'] is one of [d], with the same password and no new power. *)
Definition no_grant (d d' : Db) : Prop :=
  forall i row', t_rows (users d') !! i = Some row' ->
    exists row, t_rows (users d) !! i = Some row /\
      ur_password_hash row' = ur_password_hash row /\
      (ur_is_admin row' <> 0 -> ur_is_admin row' = ur_is_admin row).

Lemma no_grant_on_users d : on_users (no_grant d).
Proof. intros d1 d2 E. unfold no_grant. by rewrite E. Qed.

Lemma no_grant_refl d : no_grant d d.
Proof. intros i row Hi. eauto. Qed.

Lemma locked_elevation config jar admin e w :
  locked config jar e w -> u_password_hash admin <> None ->
  exists el w1, elevation config jar admin e w = (Done el, w1) /\ allows el = false /\ w_db w1 = w_db w.
Proof.
  unfold locked, elevation. intros Hl Hp. destruct (u_password_hash admin); [|done].
  destruct (current_session_handle config jar) as [h|]; [|by do 2 eexists].
  unfold elev_remaining, mbind, on_mem. rewrite (Hl h eq_refl). by do 2 eexists.
Qed.

Lemma locked_gate {A} config jar admin (k : Elevation -> M A) a e w r w' :
  locked config jar e w -> u_password_hash admin <> None ->
  (forall el w1, allows el = false -> k el e w1 = (a, w1)) ->
  mbind (elevation config jar admin) k e w = (r, w') -> r = a /\ w_db w' = w_db w.
Proof.
  intros Hl Hp Hk. destruct (locked_elevation config jar admin e w Hl Hp) as (el & w1 & E & Ha & D).
  rewrite (mbind_Done _ _ _ _ _ _ E), Hk by done. intros [= <- <-]. done.
Qed.

Lemma no_grant_update d0 g id :
  (forall r, ur_password_hash (g r) = ur_password_hash r /\
     (ur_is_admin (g r) <> 0 -> ur_is_admin (g r) = ur_is_admin r)) ->
  preserves (no_grant d0) (execute (update_user g id)).
Proof.
  intros Hg. apply preserves_execute. intros d Hd i row'. unfold update_user. cbn [users set_users].
  rewrite update_row_lookup. case_decide as E; [|by apply Hd].
  intros (row1 & Hrow1 & ->)%fmap_Some. destruct (Hd i row1 Hrow1) as (row & Hrow & Hp & Ha).
  destruct (Hg row1) as [Hg1 Hg2]. exists row. split; [done|]. split; [congruence|].
  intros Hne. rewrite (Hg2 Hne) in Hne |- *. auto.
Qed.

Lemma no_grant_delete d0 id : preserves (no_grant d0) (delete_user id).
Proof.
  apply preserves_execute. intros d Hd i row'.
  unfold cascade_user, cascade_projects, cascade_channels, cascade_checks, delete_row. cbn.
  intros [_ Hi]%lookup_delete_Some. by apply Hd.
Qed.

(** A query leaves the tables, the memory and its clock alone. *)
Lemma db_query_step {A} (q : Db -> res DbErr A) e w r w' :
  db (query q) e w = (r, w') -> w' = bump (w_db w) w.
Proof.
  unfold db, map_err. intros [[E _]|(a & w1 & E & E')]%mbind_inv.
  - by apply query_db in E as [-> _].
  - injection E' as _ <-. by apply query_db in E as [-> _].
Qed.

(** Looking the name up changes nothing that matters. *)
Lemma taken_step (blank : bool) name config jar e w r w1 :
  (if blank then mret (Ok false)
   else mtry (db (find_user_by_username name)) (fun u => mret (Ok (bool_decide (is_Some u)))))
    e w = (r, w1) ->
  locked config jar e w -> w_db w1 = w_db w /\ locked config jar e w1.
Proof.
  destruct blank; [by intros [= _ <-]|]. intros [[E _]|(o & w2 & E2 & E)]%mbind_inv Hl.
  - by apply db_query_step in E as ->.
  - apply db_query_step in E2 as ->. by destruct o; injection E as _ <-.
Qed.

Lemma users_create_locked config jar admin form e w r w' :
  u_password_hash admin <> None -> locked config jar e w ->
  users_create config jar admin form e w = (r, w') -> no_grant (w_db w) (w_db w').
Proof.
  intros Hp Hl E. pose proof (no_grant_refl (w_db w)) as Hw. unfold users_create in E.
  apply mbind_inv in E as [[E _]|(x & w1 & E1 & E)].
  { by apply (taken_step _ _ config jar) in E as [-> _]. }
  apply (taken_step _ _ config jar) in E1 as [D1 Hl1]; [|done].
  destruct x as [taken|x]; [|injection E as _ <-; by rewrite D1]. cbv zeta in E.
  destruct (if is_empty _ then _ else _) as [msg|] in E.
  { apply (reads_same _ _ _ _ _ (render_admin_user_error_reads config jar admin msg)) in E. by rewrite E, D1. }
  apply (locked_gate config jar admin _ (Done (Ok (admin_locked config jar)))) in E as [_ D];
    [|done|done|by intros el w2 ->]. by rewrite D, D1.
Qed.

Lemma users_toggle_locked config jar admin id ok e w r w' :
  u_password_hash admin <> None -> locked config jar e w ->
  users_toggle_admin config jar admin id ok e w = (r, w') -> no_grant (w_db w) (w_db w').
Proof.
  intros Hp Hl E. pose proof (no_grant_refl (w_db w)) as Hw.
  unfold users_toggle_admin in E. destruct (id =? u_id admin); [by injection E as _ <-|].
  apply mbind_inv in E as [[E _]|(o & w1 & E1 & E)]; [by apply db_query_step in E as ->|].
  apply db_query_step in E1 as ->. destruct o as [[target|]|x]; [|by injection E as _ <-..].
  cbv zeta in E. destruct (u_is_admin target); cbn [negb] in E.
  - pose proof (preserves_audit_user _ (no_grant_on_users (w_db w)) admin) as Hau.
    pose proof (preserves_last_admin (no_grant (w_db w))) as Hlast.
    assert (preserves (no_grant (w_db w)) (set_user_admin id false)) as Hs by (by apply no_grant_update).
    revert E. apply (fun P : preserves (no_grant (w_db w)) _ => P e (bump (w_db w) w) r w' Hw).
    handler_steps; auto.
  - apply mbind_inv in E as [[E _]|(b & w2 & E2 & E)].
    + apply (locked_gate config jar admin _ (Done true)) in E as [_ D]; [|done|done|by intros el w2 ->].
      by rewrite D.
    + apply (locked_gate config jar admin _ (Done true)) in E2 as [[= ->] D]; [|done|done|by intros el w3 ->].
      injection E as _ <-. by rewrite D.
Qed.

(** C13: what gives access needs elevation. For an administrator with a password whose
    session has no elevation in force, no request on users creates a user, changes a
    stored password or makes anyone an administrator, whatever fails. *)
Theorem granting_needs_elevation config jar admin rq e w r w' :
  u_password_hash admin <> None -> locked config jar e w ->
  user_handle config jar admin rq e w = (r, w') -> no_grant (w_db w) (w_db w').
Proof.
  intros Hp Hl E. set (I := no_grant (w_db w)).
  assert (on_users I) as HI by apply no_grant_on_users.
  assert (I (w_db w)) as Hw by apply no_grant_refl.
  pose proof (preserves_audit_user I HI admin) as Hau.
  pose proof (preserves_last_admin I) as Hlast.
  pose proof (preserves_delete_sessions I HI) as Hdel.
  assert (forall u k, preserves I (elev_revoke_user u k)) as Hrev by (intros; apply preserves_on_mem).
  destruct rq as [form|id ok|id pw|id ok|id ok|form|frag pw]; cbn [user_handle] in E.
  - by eapply users_create_locked.
  - pose proof (no_grant_delete (w_db w) id) as Hd. unfold users_delete, users_delete_guard, users_delete_commit in E.
    revert E. apply (fun P : preserves I _ => P e w r w' Hw). handler_steps; auto.
  - unfold users_set_password in E.
    apply (locked_gate config jar admin _ (Done (Ok (admin_locked config jar)))) in E as [_ D];
      [|done|done|by intros el w2 ->]. by rewrite D.
  - by eapply users_toggle_locked.
  - unfold users_set_disabled, delete_sessions_for_user in E.
    assert (forall b, preserves I (set_user_disabled id b)) as Hs by (intros b; by apply no_grant_update).
    revert E. apply (fun P : preserves I _ => P e w r w' Hw). handler_steps; auto.
  - by eapply (preserves_settings_save I HI config jar admin form).
  - unfold admin_unlock, render_admin_unlock, grant_elevation, elev_grant, reauthenticate,
      account_try_acquire, account_clear in E. pose proof (elevation_reads config jar admin I).
    revert E. apply (fun P : preserves I _ => P e w r w' Hw). handler_steps.
Qed.

End elevated.

(** ** Two administrators at once *)

Section at_once.
Context `{Cron} `{Crypto} `{PageText} `{IpText} `{Argon2}.

(** Each deletes the other, the statements of the two requests interleaved: both check,
    then both act. *)
Definition concurrent_deletes (config : Config) (jar_a jar_b : CookieJar) (a b : User)
  : M (res AppError (option Response) * res AppError (option Response)) :=
  do ga := users_delete_guard config jar_a a (u_id b) true in
  do gb := users_delete_guard config jar_b b (u_id a) true in
  do _ := users_delete_commit a (u_id b) in
  do _ := users_delete_commit b (u_id a) in
  mret (ga, gb).

Lemma count_two_admins d x y :
  x <> y -> is_enabled_admin d x -> is_enabled_admin d y ->
  1 < count_where (fun _ r => enabled_admin r) (users d).
Proof.
  intros Hne (rx & Hx & Ax) (ry & Hy & Ay). unfold count_where.
  assert ({[x := rx; y := ry]} ⊆ filter (fun kr : Z * UserRow => enabled_admin kr.2 = true) (t_rows (users d)))
    as Hsub%map_subseteq_size.
  { apply map_subseteq_spec. intros k r Hk. apply map_lookup_filter_Some.
    apply lookup_insert_Some in Hk as [[<- <-]|[_ [<- <-]%lookup_singleton_Some]]; done. }
  rewrite map_size_insert_None, map_size_singleton in Hsub by (by apply lookup_singleton_None). lia.
Qed.

(** The guard lets the deletion of another pass as long as two are enabled. *)
Lemma users_delete_guard_passes config jar admin target other e w :
  calm e -> u_id target <> u_id admin -> stored_user (w_db w) target ->
  u_id target <> other -> is_enabled_admin (w_db w) (u_id target) -> is_enabled_admin (w_db w) other ->
  exists w', users_delete_guard config jar admin (u_id target) true e w = (Done (Ok None), w') /\
    w_db w' = w_db w.
Proof.
  intros He Hid (row & Hr & Hd) Hne At Ao. unfold users_delete_guard, last_admin.
  rewrite (proj2 (Z.eqb_neq _ _) Hid).
  erewrite mtry_Ok.
  2: { unfold db, map_err. erewrite mbind_Done; [|by apply query_calm]. rewrite Hr. cbn [fmap option_fmap option_map transpose].
       rewrite Hd. done. }
  cbn beta iota. destruct (_ && _).
  - erewrite mtry_Ok.
    2: { erewrite mtry_Ok; [done|]. unfold db, map_err. erewrite mbind_Done; [|by apply query_calm]. done. }
    pose proof (count_two_admins _ _ _ Hne At Ao) as Hc%Z.leb_gt. cbn [w_db bump]. rewrite Hc.
    by eexists.
  - erewrite mtry_Ok by done. by eexists.
Qed.

(** What it deletes is gone; whoever else was there stays, and nobody is added. *)
Lemma users_delete_commit_users admin id e w :
  calm e -> exists r w', users_delete_commit admin id e w = (Done r, w') /\
    t_rows (users (w_db w')) = delete id (t_rows (users (w_db w))).
Proof.
  intros He. unfold users_delete_commit.
  erewrite mtry_Ok.
  2: { unfold db, map_err. erewrite mbind_Done; [|by apply execute_calm]. done. }
  eexists _, _. split.
  - unfold elev_revoke_user, audit_user, record_audit, db, map_err, on_mem, utc_now, mtry, mbind.
    rewrite !stmt_calm by done. done.
  - done.
Qed.

(** C25: the guard on the last administrator does not survive concurrency: it is checked
    by one statement and acted on by another. Whenever exactly two administrators are
    enabled and each deletes the other, both checking before either acts, neither request
    is refused and no enabled administrator is left, without a fault anywhere. *)
Theorem concurrent_deletes_remove_every_admin config jar_a jar_b a b e w r w' :
  calm e -> u_id a <> u_id b ->
  stored_user (w_db w) a -> stored_user (w_db w) b ->
  (forall uid, is_enabled_admin (w_db w) uid <-> uid = u_id a \/ uid = u_id b) ->
  concurrent_deletes config jar_a jar_b a b e w = (r, w') ->
  r = Done (Ok None, Ok None) /\ ~ exists uid, is_enabled_admin (w_db w') uid.
Proof.
  intros He Hne Sa Sb Had E.
  assert (is_enabled_admin (w_db w) (u_id a)) as Aa by (apply Had; by left).
  assert (is_enabled_admin (w_db w) (u_id b)) as Ab by (apply Had; by right).
  destruct (users_delete_guard_passes config jar_a a b (u_id a) e w) as (w1 & E1 & D1); [done..|].
  destruct (users_delete_guard_passes config jar_b b a (u_id b) e w1) as (w2 & E2 & D2);
    [rewrite ?D1; done..|].
  destruct (users_delete_commit_users a (u_id b) e w2 He) as (r3 & w3 & E3 & U3).
  destruct (users_delete_commit_users b (u_id a) e w3 He) as (r4 & w4 & E4 & U4).
  unfold concurrent_deletes in E.
  rewrite (mbind_Done _ _ _ _ _ _ E1), (mbind_Done _ _ _ _ _ _ E2), (mbind_Done _ _ _ _ _ _ E3),
    (mbind_Done _ _ _ _ _ _ E4) in E.
  injection E as <- <-. split; [done|]. intros (uid & row & Hr & Ha).
  rewrite U4, U3, D2, D1, !lookup_delete_Some in Hr. destruct Hr as (? & ? & Hr).
  assert (is_enabled_admin (w_db w) uid) as [-> | ->]%Had by (by exists row); done.
Qed.

End at_once.

(** ** Witnesses *)

#[local] Existing Instance SampleChrono.sample_chrono.
#[local] Existing Instance SampleChrono.sample_chrono_laws.
#[local] Existing Instance SampleChrono.sample_cron.
#[local] Existing Instance SamplePageText.sample_page_text.
#[local] Existing Instance SampleCrypto.sample_crypto.
#[local] Existing Instance SampleWeb.sample_ip_text.
#[local] Existing Instance SampleWeb.sample_argon2.

(** Two administrators, the first signed in. *)
Definition two_admins : Db :=
  w_db ((do _ := create_user (lit "ann") (Some (lit "$a")) true 0 in
         do _ := create_user (lit "bob") (Some (lit "$b")) true 0 in
         do _ := create_session (mk_NewSession (lit "sid") 1 (hours 24) None None false) 0 in
         mret tt) (calm_env 0) (world_of empty_db)).2.
Definition ann : User := mk_User 1 (lit "ann") (Some (lit "$a")) true false 0.
Definition bob_admin : User := mk_User 2 (lit "bob") (Some (lit "$b")) true false 0.

Definition ann_parts : Parts :=
  mk_Parts [] (fun name => if decide (name = SESSION_COOKIE_HOST_PREFIXED)
                           then Some (sign_session [] (lit "sid")) else None) None.

Lemma some_admin_remains_witness :
  exists w', administered sample_config (world_of two_admins) w' /\
    t_rows (users (w_db w')) !! 2 = None /\ exists uid, is_enabled_admin (w_db w') uid.
Proof.
  destruct (admin_request sample_config ann_parts (UR_Delete 2 true) (calm_env 0) (world_of two_admins))
    as [r w'] eqn:E.
  assert (t_rows (users (w_db w')) !! 2 = None) as Hn.
  { replace w' with (admin_request sample_config ann_parts (UR_Delete 2 true) (calm_env 0)
      (world_of two_admins)).2 by (rewrite E; reflexivity). vm_compute. reflexivity. }
  assert (administered sample_config (world_of two_admins) w') as Hw
    by exact (administered_request _ _ _ _ _ _ _ _ (administered_none _ _) E).
  exists w'. split; [exact Hw|]. split; [exact Hn|].
  apply (some_admin_remains sample_config (world_of two_admins) w' Hw); rewrite world_of_db.
  - intros i Hi. assert (map_Forall (fun i _ => i <= t_seq (users two_admins)) (t_rows (users two_admins)))
      as Hf by (apply (bool_decide_eq_true_1 _); vm_compute; reflexivity).
    destruct Hi as [row Hi]. exact (Hf i row Hi).
  - exists 1. eexists. split; [vm_compute; reflexivity|reflexivity].
Defined.

Definition ann_jar : CookieJar := mk_CookieJar (rp_cookies ann_parts) [].
Definition create_eve : UserRequest :=
  UR_Create (mk_NewUserForm (lit "eve") sample_password (Some (lit "on"))).

Lemma granting_needs_elevation_witness :
  exists r w',
    user_handle sample_config ann_jar ann create_eve
      (calm_env 0) (world_of two_admins) = (r, w') /\
    no_grant two_admins (w_db w').
Proof.
  destruct (user_handle sample_config ann_jar ann create_eve
      (calm_env 0) (world_of two_admins)) as [r w'] eqn:E.
  exists r, w'. split; [reflexivity|].
  pose proof (granting_needs_elevation sample_config ann_jar ann create_eve (calm_env 0)
    (world_of two_admins) r w') as H. rewrite world_of_db in H. apply H; [discriminate| |exact E].
  intros h _. reflexivity.
Defined.

Definition ann_admin_row : UserRow := mk_UserRow (lit "ann") (Some (lit "$a")) 1 0 (to_rfc3339 0).
Definition bob_admin_row : UserRow := mk_UserRow (lit "bob") (Some (lit "$b")) 1 0 (to_rfc3339 0).
Lemma two_admins_rows : t_rows (users two_admins) = {[1 := ann_admin_row; 2 := bob_admin_row]}.
Proof. vm_compute. reflexivity. Qed.

Lemma concurrent_deletes_remove_every_admin_witness :
  (concurrent_deletes sample_config sample_jar sample_jar ann bob_admin (calm_env 0) (world_of two_admins)).1
    = Done (Ok None, Ok None) /\
  ~ exists uid, is_enabled_admin
      (w_db (concurrent_deletes sample_config sample_jar sample_jar ann bob_admin (calm_env 0)
               (world_of two_admins)).2) uid.
Proof.
  destruct (concurrent_deletes sample_config sample_jar sample_jar ann bob_admin (calm_env 0)
              (world_of two_admins)) as [r w'] eqn:E.
  refine (concurrent_deletes_remove_every_admin _ _ _ _ _ _ _ _ _ (calm_env_calm 0) _ _ _ _ E);
    rewrite ?world_of_db; unfold stored_user, is_enabled_admin; try setoid_rewrite two_admins_rows.
  - done.
  - exists ann_admin_row. split; [done|vm_compute; reflexivity].
  - exists bob_admin_row. split; [done|vm_compute; reflexivity].
  - intros uid. split.
    + intros (row & [[<- _]|[_ [<- _]%lookup_singleton_Some]]%lookup_insert_Some & _); auto.
    + intros [-> | ->]; [exists ann_admin_row|exists bob_admin_row]; split; vm_compute; reflexivity.
Defined.
