(* ===== verification/Ping.v ===== *)
(** * Ping: [src/ping.rs], what a ping does to a check

    The five handlers, [apply] and the delivery it spawns. [unreachable!] is a panic. *)
From S2P Require Import Prelude Text Models Config Wire Chrono Db Rows Store Sample Notify Errors Scheduler.
#[local] Open Scope Z_scope.
#[local] Open Scope pw_scope.

Definition MAX_BODY : nat := Z.to_nat (10 * 1024).

(** [truncate]: the first [MAX_BODY] bytes, decoded. *)
Definition truncate (bytes : list Z) : str := from_utf8_lossy (take MAX_BODY bytes).

Record PingRequest := mk_PingRequest {
  pq_uuid : str;
  pq_kind : PingKind;
  pq_exit_code : option Z;
  pq_body : list Z;
  pq_conn : option str;      (* [ClientIp] *)
}.

(** The handlers [routes] names. *)
Inductive PingRoute : Set :=
| PR_Success
| PR_Fail
| PR_Start
| PR_Log
| PR_Exitcode (code : Z).

Section ping.
Context `{Cron}.

Definition resolve (uuid : str) : M (res AppError Check) :=
  let? c := db (find_check_by_uuid uuid) in
  mret (match c with Some c => Ok c | None => Err AE_NotFound end).

Definition spawn_delivery (config : Config) (check : Check) (event : EventKind) (now : Z)
    (cause : option DownCause) : M unit :=
  spawn_task (T_Ping check event now cause (cf_base_url config) (cf_smtp config)).

(** The check as the success branch hands it to [due_time]. *)
Definition with_last_ping (now : Z) (c : Check) : Check :=
  mk_Check (c_id c) (c_project_id c) (c_name c) (c_description c) (c_ping_uuid c)
    (c_schedule_kind c) (c_period_secs c) (c_grace_secs c) (c_cron_expr c) (c_timezone c)
    (c_status c) (Some now) (c_last_start_at c) (c_next_due_at c) (c_scan_interval_secs c)
    (c_max_runtime_secs c) (c_nag_interval_secs c) (c_last_alert_at c) (c_acknowledged c)
    (c_created_at c).

(** The [match kind] of [apply], for a check that is not paused. *)
Definition apply_kind (config : Config) (check : Check) (kind : PingKind) (exit_code : option Z)
    (now : Z) : M (res AppError unit) :=
  let prev_status := c_status check in
  match kind with
  | PK_Success =>
      do next := mexec (due_time (with_last_ping now check)) in
      let? _ := db (mark_ping (c_id check) {|
        pm_status := CS_Up;
        pm_last_ping_at := Some now;
        pm_last_start_at := None;
        pm_next_due_at := next |}) in
      if bool_decide (prev_status = CS_Down) then
        let? _ := db (clear_nag (c_id check)) in
        do _ := spawn_delivery config check EK_Up now None in
        mret (Ok tt)
      else mret (Ok tt)
  | PK_Fail =>
      let? _ := db (mark_ping (c_id check) {|
        pm_status := CS_Down;
        pm_last_ping_at := Some now;
        pm_last_start_at := None;
        pm_next_due_at := None |}) in
      if bool_decide (prev_status = CS_Up) || bool_decide (prev_status = CS_New) then
        let? _ := db (begin_down_alert (c_id check) now) in
        do _ := spawn_delivery config check EK_Down now (Some (DC_Failed exit_code)) in
        mret (Ok tt)
      else mret (Ok tt)
  | PK_Start =>
      let? _ := db (mark_ping (c_id check) {|
        pm_status := c_status check;
        pm_last_ping_at := None;
        pm_last_start_at := Some now;
        pm_next_due_at := c_next_due_at check |}) in
      mret (Ok tt)
  | PK_Log => mret (Ok tt)
  | PK_Exitcode => mpanic
  end.

Definition apply (config : Config) (ping : PingRequest) : M (res AppError Z) :=
  let? check := resolve (pq_uuid ping) in
  do now := utc_now in
  let? _ := db (insert_ping {|
    np_check_id := c_id check;
    np_kind := pq_kind ping;
    np_exit_code := pq_exit_code ping;
    np_body := truncate (pq_body ping);
    np_source_ip := pq_conn ping |} now) in
  do n := receiver_count in
  do _ := (if 0 <? n then bus_send (c_id check) else mret tt) in
  if bool_decide (c_status check = CS_Paused) then mret (Ok 200) else
  let? _ := apply_kind config check (pq_kind ping) (pq_exit_code ping) now in
  mret (Ok 200).

(** ** The handlers *)

Definition success (config : Config) (uuid : str) (conn : option str) (body : list Z) :=
  apply config (mk_PingRequest uuid PK_Success None body conn).
Definition fail (config : Config) (uuid : str) (conn : option str) (body : list Z) :=
  apply config (mk_PingRequest uuid PK_Fail None body conn).
Definition start (config : Config) (uuid : str) (conn : option str) (body : list Z) :=
  apply config (mk_PingRequest uuid PK_Start None body conn).
Definition log (config : Config) (uuid : str) (conn : option str) (body : list Z) :=
  apply config (mk_PingRequest uuid PK_Log None body conn).
Definition exitcode (config : Config) (uuid : str) (code : Z) (conn : option str) (body : list Z) :=
  let kind := if code =? 0 then PK_Success else PK_Fail in
  apply config (mk_PingRequest uuid kind (Some code) body conn).

Definition handle (config : Config) (route : str * PingRoute) (conn : option str) (body : list Z)
  : M (res AppError Z) :=
  match route with
  | (uuid, PR_Success) => success config uuid conn body
  | (uuid, PR_Fail) => fail config uuid conn body
  | (uuid, PR_Start) => start config uuid conn body
  | (uuid, PR_Log) => log config uuid conn body
  | (uuid, PR_Exitcode code) => exitcode config uuid code conn body
  end.

(** ** What a ping does *)

(** The check a UUID names. *)
Definition lookup_uuid (d : Db) (uuid : str) : res DbErr (option Check) :=
  transpose row_to_check (find_row (fun _ r => bool_decide (cr_ping_uuid r = uuid)) (checks d)).

(** The row a completed ping leaves, [next] being the due time [apply] computed. *)
Definition live_row (kind : PingKind) (c : Check) (now : Z) (next : option Z) (r : CheckRow)
  : CheckRow :=
  match kind with
  | PK_Success =>
      let r := marked (mk_PingMark CS_Up (Some now) None next) r in
      if bool_decide (c_status c = CS_Down) then with_alert None 0 r else r
  | PK_Fail =>
      let r := marked (mk_PingMark CS_Down (Some now) None None) r in
      if bool_decide (c_status c = CS_Up) || bool_decide (c_status c = CS_New)
      then with_alert (Some (to_rfc3339 now)) 0 r else r
  | PK_Start => marked (mk_PingMark (c_status c) None (Some now) (c_next_due_at c)) r
  | PK_Log | PK_Exitcode => r
  end.

(** The alert it raises: an outage when a healthy check fails, a recovery when a down
    check succeeds. *)
Definition live_alert (kind : PingKind) (exit_code : option Z) (status : CheckStatus)
  : option (EventKind * option DownCause) :=
  match kind, status with
  | PK_Success, CS_Down => Some (EK_Up, None)
  | PK_Fail, (CS_Up | CS_New) => Some (EK_Down, Some (DC_Failed exit_code))
  | _, _ => None
  end.
Definition alert_tasks (config : Config) (c : Check) (now : Z)
    (alert : option (EventKind * option DownCause)) : list Task :=
  match alert with
  | Some (event, cause) => [T_Ping c event now cause (cf_base_url config) (cf_smtp config)]
  | None => []
  end.

(** The status a check has after a ping of that kind took effect. *)
Definition live_status (kind : PingKind) (status : CheckStatus) : CheckStatus :=
  match kind with PK_Success => CS_Up | PK_Fail => CS_Down | _ => status end.

Lemma update_check_id i d : update_check (fun r => r) i d = d.
Proof.
  unfold update_check, update_row. destruct d as [u p [cr cs] ch cc pg n s st k a]. simpl.
  by rewrite alter_id.
Qed.

Lemma execute_check_db g i e w :
  exists w', w_bus w' = w_bus w /\ w_tasks w' = w_tasks w /\
    ((db (execute (update_check g i)) e w = (Done (Err (AE_Db DE_Failed)), w') /\
      w_db w' = w_db w /\ ~ calm e) \/
     (db (execute (update_check g i)) e w = (Done (Ok tt), w') /\
      w_db w' = update_check g i (w_db w))).
Proof.
  destruct (execute (update_check g i) e w) as [r w'] eqn:E. exists w'.
  pose proof E as E'. apply execute_db in E' as [[-> ->]|[-> ->]].
  - split; [done|]. split; [done|]. left. split; [by apply db_Err|]. split; [done|].
    intros He. by rewrite execute_calm in E.
  - split; [done|]. split; [done|]. right. split; [by apply db_Ok|done].
Qed.

(** The outcome of the [match kind]: complete, or an error that raised no alert and left
    the row as it was or with the status of the ping. *)
Definition kind_outcome (config : Config) (c : Check) (kind : PingKind) (exit_code : option Z)
    (now : Z) (next : option Z) (e : Env) (w : World) (r : res AppError unit) (w' : World) : Prop :=
  w_bus w' = w_bus w /\
  ((r = Ok tt /\ w_db w' = update_check (live_row kind c now next) (c_id c) (w_db w) /\
    w_tasks w' = w_tasks w ++ alert_tasks config c now (live_alert kind exit_code (c_status c))) \/
   (is_ok r = false /\ ~ calm e /\ w_tasks w' = w_tasks w /\
    exists g, w_db w' = update_check g (c_id c) (w_db w) /\
      forall row, g row = row \/ cr_status (g row) = as_str (live_status kind (c_status c)))).

Lemma mtry_db_execute {B} g i (k : unit -> M (res AppError B)) e w :
  exists w', w_bus w' = w_bus w /\ w_tasks w' = w_tasks w /\
    ((mtry (db (execute (update_check g i))) k e w = (Done (Err (AE_Db DE_Failed)), w') /\
      w_db w' = w_db w /\ ~ calm e) \/
     (mtry (db (execute (update_check g i))) k e w = k tt e w' /\
      w_db w' = update_check g i (w_db w))).
Proof.
  destruct (execute_check_db g i e w) as (w' & Hb & Ht & [(E & Hd & Hc)|(E & Hd)]); exists w';
    (split; [done|]); (split; [done|]); [left|right].
  - split; [by apply mtry_Err|done].
  - split; [by apply mtry_Ok|done].
Qed.

(** A write to the check, then, if [b], a second write and a spawned delivery. *)
Lemma two_writes g h i (b : bool) t e w :
  exists r w',
    mtry (db (execute (update_check g i))) (fun _ =>
      if b then mtry (db (execute (update_check h i))) (fun _ =>
        mbind (spawn_task t) (fun _ => mret (Ok tt)))
      else mret (Ok tt)) e w = (Done r, w') /\
    w_bus w' = w_bus w /\
    ((r = Ok tt /\ w_db w' = update_check (fun row => if b then h (g row) else g row) i (w_db w) /\
      w_tasks w' = w_tasks w ++ if b then [t] else []) \/
     (is_ok r = false /\ ~ calm e /\ w_tasks w' = w_tasks w /\
      exists g', w_db w' = update_check g' i (w_db w) /\
        forall row, g' row = row \/ g' row = g row)).
Proof.
  match goal with |- context [mtry _ ?k e w] => destruct (mtry_db_execute g i k e w) as (w1 & B1 & T1 & [(E1 & D1 & C1)|(E1 & D1)]) end; rewrite E1.
  { eexists _, w1. split; [done|]. split; [done|]. right. split; [done|]. split; [done|].
    split; [done|]. exists (fun row => row). rewrite update_check_id. auto. }
  destruct b.
  2: { eexists _, w1. split; [done|]. split; [done|]. left. by rewrite app_nil_r. }
  match goal with |- context [mtry _ ?k e w1] =>
    destruct (mtry_db_execute h i k e w1) as (w2 & B2 & T2 & [(E2 & D2 & C2)|(E2 & D2)]) end;
    rewrite E2.
  - eexists _, w2. split; [done|]. split; [congruence|]. right. split; [done|]. split; [done|].
    split; [congruence|]. exists g. rewrite D2, D1. auto.
  - eexists _, _. split; [reflexivity|]. simpl. split; [congruence|]. left. split; [done|].
    split; [by rewrite D2, D1, update_check_compose|]. by rewrite T2, T1.
Qed.

(** [two_writes] gives the outcome of a branch whose row, alert and status it computes. *)
Lemma two_writes_outcome config c kind exit_code now next g h b t e w m :
  m = mtry (db (execute (update_check g (c_id c)))) (fun _ =>
      if b : bool then mtry (db (execute (update_check h (c_id c)))) (fun _ =>
        mbind (spawn_task t) (fun _ => mret (Ok tt)))
      else mret (Ok tt)) ->
  (forall row, (if b then h (g row) else g row) = live_row kind c now next row) ->
  (if b then [t] else []) = alert_tasks config c now (live_alert kind exit_code (c_status c)) ->
  (forall row, cr_status (g row) = as_str (live_status kind (c_status c))) ->
  exists r w', m e w = (Done r, w') /\ kind_outcome config c kind exit_code now next e w r w'.
Proof.
  intros -> Hrow Htask Hst.
  destruct (two_writes g h (c_id c) b t e w) as (r & w' & E & B & [(R & D & T)|(R & C & T & g' & D & G)]);
    exists r, w'; (split; [exact E|]); (split; [exact B|]).
  - left. split; [done|]. rewrite T, Htask, D. split; [|done].
    unfold update_check, update_row. simpl. by rewrite (alter_ext _ (live_row kind c now next)).
  - right. do 3 (split; [done|]). exists g'. split; [done|]. intros row.
    destruct (G row) as [->| ->]; auto.
Qed.

Lemma apply_kind_spec config c kind exit_code now next e w :
  kind <> PK_Exitcode -> (kind = PK_Success -> due_time (with_last_ping now c) = Done next) ->
  exists r w', apply_kind config c kind exit_code now e w = (Done r, w') /\
    kind_outcome config c kind exit_code now next e w r w'.
Proof.
  intros Hk Hdue. destruct kind; try done.
  - assert (apply_kind config c PK_Success exit_code now e w = mbind (mexec (Done next)) (fun next =>
      mtry (db (mark_ping (c_id c) (mk_PingMark CS_Up (Some now) None next))) (fun _ =>
        if bool_decide (c_status c = CS_Down) then
          mtry (db (clear_nag (c_id c))) (fun _ =>
            mbind (spawn_delivery config c EK_Up now None) (fun _ => mret (Ok tt)))
        else mret (Ok tt))) e w) as -> by (simpl; by rewrite Hdue).
    eapply two_writes_outcome; [reflexivity|..]; try done;
      intros; unfold live_alert; by destruct (c_status c).
  - eapply (two_writes_outcome _ _ _ _ _ _ _ _
      (bool_decide (c_status c = CS_Up) || bool_decide (c_status c = CS_New))); [reflexivity|..];
      try done; unfold live_alert; by destruct (c_status c).
  - eapply (two_writes_outcome _ _ _ _ _ _ _ (fun r => r) false
      (T_Ping c EK_Up now None [] None)); [reflexivity|..]; done.
  - exists (Ok tt), w. split; [done|]. split; [done|]. left. split; [done|].
    unfold live_row. rewrite update_check_id. simpl. by rewrite app_nil_r.
Qed.

(** The row [insert_ping] records. *)
Definition recorded (ping : PingRequest) (check_id now : Z) : PingRow := {|
  pgr_check_id := check_id;
  pgr_kind := as_str (pq_kind ping);
  pgr_exit_code := pq_exit_code ping;
  pgr_body := truncate (pq_body ping);
  pgr_source_ip := pq_conn ping;
  pgr_created_at := to_rfc3339 now |}.
Definition with_ping (p : PingRow) (d : Db) : Db := set_pings (insert_row p (pings d)).2 d.

(** Everything a ping that is answered 200 does to the database, the live-tail bus and
    the alerts: a paused check only gains the record. *)
Definition ping_db (ping : PingRequest) (c : Check) (now : Z) (next : option Z) (d : Db) : Db :=
  let d := with_ping (recorded ping (c_id c) now) d in
  if bool_decide (c_status c = CS_Paused) then d
  else update_check (live_row (pq_kind ping) c now next) (c_id c) d.
Definition ping_alert (ping : PingRequest) (c : Check) : option (EventKind * option DownCause) :=
  if bool_decide (c_status c = CS_Paused) then None
  else live_alert (pq_kind ping) (pq_exit_code ping) (c_status c).

(** Looking the check up, by outcome. *)
Lemma resolve_spec uuid e w :
  exists r w', resolve uuid e w = (Done r, w') /\ w' = bump (w_db w) w /\
    (r = Err (AE_Db DE_Failed) /\ ~ calm e \/
     r = match lookup_uuid (w_db w) uuid with
         | Ok (Some c) => Ok c
         | Ok None => Err AE_NotFound
         | Err x => Err (AE_Db x)
         end).
Proof.
  unfold resolve, find_check_by_uuid. fold (lookup_uuid (w_db w) uuid).
  destruct (query_step (fun d => lookup_uuid d uuid) e w) as (r & E & Hr & Hc).
  destruct Hr as [->| ->].
  - rewrite (mtry_Err _ _ _ _ _ _ (db_Err _ _ _ _ _ E)). eexists _, _. split; [done|]. split; [done|].
    destruct (env_fault e (w_stmts w)) eqn:Ef; [left; split; [done|]; intros He; by rewrite He in Ef|].
    right. unfold query, stmt in E. rewrite Ef in E.
    destruct (lookup_uuid (w_db w) uuid); simplify_eq. done.
  - destruct (lookup_uuid (w_db w) uuid) as [[c|]|x];
      [rewrite (mtry_Ok _ _ _ _ _ _ (db_Ok _ _ _ _ _ E))..|
       rewrite (mtry_Err _ _ _ _ _ _ (db_Err _ _ _ _ _ E))];
      (eexists _, _; split; [done|]); (split; [done|]); by right.
Qed.

Lemma lookup_uuid_row d uuid c :
  lookup_uuid d uuid = Ok (Some c) ->
  exists r, t_rows (checks d) !! c_id c = Some r /\ cr_ping_uuid r = uuid /\
            row_to_check (c_id c, r) = Ok c.
Proof.
  unfold lookup_uuid. destruct (find_row _ _) as [[id r]|] eqn:E; [|done].
  apply find_row_Some in E as [Hr Hu]. bool_to_prop. unfold transpose. intros Hc.
  apply res_bind_ok in Hc as (c' & Hok & [= ->]).
  pose proof Hok as Hid. apply row_to_check_Ok in Hid as [-> _]. by exists r.
Qed.

(** What an error may leave behind. *)
Definition failed_write (ping : PingRequest) (c : Check) (now : Z) (d d' : Db) : Prop :=
  exists g d0, (d0 = d \/ d0 = with_ping (recorded ping (c_id c) now) d) /\
    d' = update_check g (c_id c) d0 /\
    forall row, g row = row \/
      c_status c <> CS_Paused /\
      cr_status (g row) = as_str (live_status (pq_kind ping) (c_status c)).

Lemma failed_write_none ping c now d : failed_write ping c now d d.
Proof. exists (fun row => row), d. rewrite update_check_id. auto. Qed.

Lemma insert_ping_spec ping c now e w row :
  t_rows (checks (w_db w)) !! c_id c = Some row ->
  exists r w', insert_ping (mk_NewPing (c_id c) (pq_kind ping) (pq_exit_code ping)
      (truncate (pq_body ping)) (pq_conn ping)) now e w = (Done r, w') /\
    w_tasks w' = w_tasks w /\ w_bus w' = w_bus w /\
    (r = Err DE_Failed /\ w_db w' = w_db w /\ ~ calm e \/
     r = Ok tt /\ w_db w' = with_ping (recorded ping (c_id c) now) (w_db w)).
Proof.
  intros Hrow. unfold insert_ping, stmt. destruct (env_fault e (w_stmts w)) eqn:Ef.
  - eexists _, _. split; [done|]. do 2 (split; [done|]). left. do 2 (split; [done|]).
    intros He. by rewrite He in Ef.
  - simpl. unfold is_row. rewrite Hrow, bool_decide_eq_true_2 by eauto.
    eexists _, _. split; [done|]. do 2 (split; [done|]). by right.
Qed.

Lemma live_tail_spec c e w :
  exists w', mbind receiver_count (fun n => if 0 <? n then bus_send (c_id c) else mret tt) e w
      = (Done tt, w') /\
    w_db w' = w_db w /\ w_tasks w' = w_tasks w /\
    w_bus w' = w_bus w ++ if 0 <? env_receivers e then [c_id c] else [].
Proof.
  unfold mbind, receiver_count. destruct (0 <? env_receivers e); eexists; (split; [done|]); simpl;
    by rewrite ?app_nil_r.
Qed.

Lemma mbind_assoc {A B C} (m : M A) (k : A -> M B) (l : B -> M C) e w :
  mbind m (fun a => mbind (k a) l) e w = mbind (mbind m k) l e w.
Proof. unfold mbind. by destruct (m e w) as [[a|] w1]. Qed.

Lemma apply_effect config ping e w c next :
  lookup_uuid (w_db w) (pq_uuid ping) = Ok (Some c) ->
  pq_kind ping <> PK_Exitcode ->
  let now := env_now e (w_reads w) in
  (pq_kind ping = PK_Success -> c_status c <> CS_Paused ->
   due_time (with_last_ping now c) = Done next) ->
  exists r w', apply config ping e w = (Done r, w') /\
    ((r = Ok 200 /\ w_db w' = ping_db ping c now next (w_db w) /\
      w_tasks w' = w_tasks w ++ alert_tasks config c now (ping_alert ping c) /\
      w_bus w' = w_bus w ++ if 0 <? env_receivers e then [c_id c] else []) \/
     (is_ok r = false /\ ~ calm e /\ w_tasks w' = w_tasks w /\
      failed_write ping c now (w_db w) (w_db w'))).
Proof.
  intros Hl Hk now Hdue. unfold apply.
  destruct (resolve_spec (pq_uuid ping) e w) as (r0 & w0 & E0 & -> & R0). rewrite Hl in R0.
  destruct R0 as [[-> Hc]| ->].
  { rewrite (mtry_Err _ _ _ _ _ _ E0). eexists _, _. split; [done|]. right. do 3 (split; [done|]).
    apply failed_write_none. }
  rewrite (mtry_Ok _ _ _ _ _ _ E0). clear E0.
  rewrite (mbind_Done utc_now _ e (bump (w_db w) w) now _ eq_refl). set (w1 := mk_World _ _ _ _ _ _ _ _ _).
  destruct (lookup_uuid_row _ _ _ Hl) as (row & Hrow & _ & _).
  destruct (insert_ping_spec ping c now e w1 row Hrow) as (r1 & w2 & E1 & T2 & B2 & D2).
  destruct D2 as [(-> & D2 & Hc)|(-> & D2)].
  { rewrite (mtry_Err _ _ _ _ _ _ (db_Err _ _ _ _ _ E1)). eexists _, _. split; [done|].
    right. do 3 (split; [done|]). rewrite D2. apply failed_write_none. }
  rewrite (mtry_Ok _ _ _ _ _ _ (db_Ok _ _ _ _ _ E1)), mbind_assoc. clear E1.
  destruct (live_tail_spec c e w2) as (w3 & E3 & D3 & T3 & B3).
  rewrite (mbind_Done _ _ _ _ _ _ E3). clear E3. simpl in D2, T2, B2.
  unfold ping_db, ping_alert. case_bool_decide as Ep.
  { eexists _, w3. split; [done|]. left. simpl. rewrite app_nil_r. split_and!; congruence. }
  destruct (apply_kind_spec config c (pq_kind ping) (pq_exit_code ping) now next e w3 Hk)
    as (r & w4 & E4 & B4 & K4); [intros; by apply Hdue|].
  destruct K4 as [(-> & D4 & T4)|(Hr & C4 & T4 & g & D4 & G4)].
  - rewrite (mtry_Ok _ _ _ _ _ _ E4). eexists _, w4. split; [done|]. left.
    rewrite D4, D3, D2. split_and!; congruence.
  - destruct r as [|x]; [done|]. rewrite (mtry_Err _ _ _ _ _ _ E4). eexists _, w4. split; [done|].
    right. do 2 (split; [done|]). split; [congruence|].
    exists g, (with_ping (recorded ping (c_id c) now) (w_db w)). split; [by right|].
    split; [by rewrite D4, D3, D2|]. intros row'. destruct (G4 row'); auto.
Qed.

(** C4: a ping for a known check, whatever statements fail. Answered 200, it did
    everything: the record with the body cut to ten kilobytes; for a check that is not
    paused the new status and timestamps of its kind; a [Down] alert exactly when a new
    or up check failed, with the reminder baseline, an [Up] alert exactly when a down
    check succeeded, with the reminders cleared. Answered with an error, a statement had
    failed, no alert was raised, no other check changed, a paused one neither, and the
    status is the old one or the ping's own. It never panics, [unreachable!] included,
    unless the due time does. *)
Theorem ping_apply_effect config ping e w c next :
  lookup_uuid (w_db w) (pq_uuid ping) = Ok (Some c) ->
  pq_kind ping <> PK_Exitcode ->
  let now := env_now e (w_reads w) in
  (pq_kind ping = PK_Success -> c_status c <> CS_Paused ->
   due_time (with_last_ping now c) = Done next) ->
  exists r w', apply config ping e w = (Done r, w') /\
    ((r = Ok 200 /\ w_db w' = ping_db ping c now next (w_db w) /\
      w_tasks w' = w_tasks w ++ alert_tasks config c now (ping_alert ping c) /\
      w_bus w' = w_bus w ++ if 0 <? env_receivers e then [c_id c] else []) \/
     (is_ok r = false /\ ~ calm e /\ w_tasks w' = w_tasks w /\
      failed_write ping c now (w_db w) (w_db w'))).
Proof. apply apply_effect. Qed.

(** A UUID no check has, or whose check does not decode, is refused without a trace:
    404 or 500, no record, no alert, no live-tail signal. *)
Theorem ping_unknown_refused config ping e w :
  (forall c, lookup_uuid (w_db w) (pq_uuid ping) <> Ok (Some c)) ->
  exists x w', apply config ping e w = (Done (Err x), w') /\ w_db w' = w_db w /\
    w_tasks w' = w_tasks w /\ w_bus w' = w_bus w /\
    (calm e -> lookup_uuid (w_db w) (pq_uuid ping) = Ok None -> (into_response x).1 = 404).
Proof.
  intros Hl. unfold apply. destruct (resolve_spec (pq_uuid ping) e w) as (r & w' & E & -> & R).
  destruct R as [[-> Hc]| ->].
  { rewrite (mtry_Err _ _ _ _ _ _ E). eexists _, _. split; [done|]. do 3 (split; [done|]).
    intros He. by apply Hc in He. }
  destruct (lookup_uuid (w_db w) (pq_uuid ping)) as [[c|]|x]; [by destruct (Hl c)|..];
    rewrite (mtry_Err _ _ _ _ _ _ E); eexists _, _; (split; [done|]); by do 3 (split; [done|]).
Qed.

End ping.

(** A body of Unicode text is stored verbatim up to ten kilobytes, and
    whatever its bytes at most that many characters are stored. *)
Theorem ping_body_bounded s bytes :
  (forallb is_scalar s = true -> utf8_len s <= 10240 -> truncate (as_bytes s) = s) /\
  (length (truncate bytes) <= MAX_BODY)%nat.
Proof.
  split.
  - intros Hs Hlen. unfold truncate. rewrite take_ge; [by apply from_utf8_lossy_as_bytes|].
    pose proof (as_bytes_length s). unfold MAX_BODY. lia.
  - unfold truncate. etransitivity; [apply from_utf8_lossy_length|]. rewrite length_take. lia.
Qed.

(** ** Sequences of pings *)

Section sequences.
Context `{Cron}.

(** With the deadline of the check in range, no ping handler panics, whatever fails:
    in particular none reaches [unreachable!]. *)
Theorem ping_handle_total config uuid route conn body e w :
  (forall c, lookup_uuid (w_db w) uuid = Ok (Some c) ->
     exists next, due_time (with_last_ping (env_now e (w_reads w)) c) = Done next) ->
  exists r w', handle config (uuid, route) conn body e w = (Done r, w').
Proof.
  intros Hdue.
  assert (forall kind code, kind <> PK_Exitcode ->
    exists r w', apply config (mk_PingRequest uuid kind code body conn) e w = (Done r, w')) as Ha.
  { intros kind code Hk. set (ping := mk_PingRequest uuid kind code body conn).
    destruct (lookup_uuid (w_db w) uuid) as [[c|]|x] eqn:El.
    - destruct (Hdue c eq_refl) as [next Hn].
      destruct (apply_effect config ping e w c next El Hk (fun _ _ => Hn)) as (r & w' & E & _).
      by exists r, w'.
    - destruct (ping_unknown_refused config ping e w) as (x & w' & E & _); [simpl; by rewrite El|].
      by exists (Err x), w'.
    - destruct (ping_unknown_refused config ping e w) as (y & w' & E & _); [simpl; by rewrite El|].
      by exists (Err y), w'. }
  destruct route; simpl; try (by apply Ha). unfold exitcode. apply Ha. by destruct (code =? 0).
Qed.

(** The fields the due time depends on. *)
Definition same_schedule (c c' : Check) : Prop :=
  c_schedule_kind c' = c_schedule_kind c /\ c_period_secs c' = c_period_secs c /\
  c_grace_secs c' = c_grace_secs c /\ c_cron_expr c' = c_cron_expr c /\
  c_timezone c' = c_timezone c.

Lemma due_time_same_schedule c c' now :
  same_schedule c c' -> due_time (with_last_ping now c') = due_time (with_last_ping now c).
Proof. intros (E1 & E2 & E3 & E4 & E5). unfold due_time; simpl. by rewrite E1, E2, E3, E4, E5. Qed.

Lemma decode_live_row id r c kind now next :
  row_to_check (id, r) = Ok c -> kind <> PK_Exitcode ->
  cr_ping_uuid (live_row kind c now next r) = cr_ping_uuid r /\
  exists c', row_to_check (id, live_row kind c now next r) = Ok c' /\
    c_status c' = live_status kind (c_status c) /\ same_schedule c c'.
Proof.
  intros Hc Hk. pose proof Hc as Hc'. simpl in Hc'.
  apply res_bind_ok in Hc' as (k & Ek & Hc'). apply res_bind_ok in Hc' as (s & Es & Hc').
  apply res_bind_ok in Hc' as (t & Et & Hc'). simplify_eq/=.
  assert (forall v : CheckStatus, decode_enum (as_str v) = Ok v) as Hdec
    by (intros v; by apply decode_enum_Ok).
  destruct kind; simpl; try done.
  - destruct (bool_decide (s = CS_Down)); simpl; rewrite Ek, Et; (split; [done|]);
      eexists; (split; [cbn; reflexivity|]); by split_and!.
  - destruct (bool_decide (s = CS_Up) || bool_decide (s = CS_New)); simpl; rewrite Ek, Et;
      (split; [done|]); eexists; (split; [cbn; reflexivity|]); by split_and!.
  - change (CheckStatus_as_str s) with (as_str s). rewrite Ek, Et, Hdec. split; [done|].
    eexists. split; [cbn; reflexivity|]. by split_and!.
  - rewrite Ek, Es, Et. split; [done|]. eexists. split; [cbn; reflexivity|]. by split_and!.
Qed.

(** A ping with the environment it meets. *)
Record Arrival := mk_Arrival { ar_env : Env; ar_ping : PingRequest }.

(** The pings are handled one after the other. *)
Fixpoint run_pings (config : Config) (l : list Arrival) (w : World) : World :=
  match l with
  | [] => w
  | a :: l' => run_pings config l' (apply config (ar_ping a) (ar_env a) w).2
  end.

(** [Down], [Up], [Down], ... or, if [down_first] is false, [Up] first. *)
Fixpoint alternating (down_first : bool) (l : list EventKind) : Prop :=
  match l with
  | [] => True
  | k :: l' => k = (if down_first then EK_Down else EK_Up) /\ alternating (negb down_first) l'
  end.

Definition unique_uuid (d : Db) (uuid : str) : Prop :=
  forall i j r s, t_rows (checks d) !! i = Some r -> t_rows (checks d) !! j = Some s ->
    cr_ping_uuid r = uuid -> cr_ping_uuid s = uuid -> i = j.

Lemma only_check_unique d uuid i : map fst (rows (t_rows (checks d))) = [i] -> unique_uuid d uuid.
Proof.
  intros Hi. assert (forall k r, t_rows (checks d) !! k = Some r -> k = i) as Hk.
  { intros k r Hk%elem_of_rows%(list_elem_of_fmap_2 fst). change (k ∈ map fst (rows (t_rows (checks d)))) in Hk.
    rewrite Hi in Hk. by apply list_elem_of_singleton in Hk. }
  intros k j r s Hr Hs _ _. by rewrite (Hk _ _ Hr), (Hk _ _ Hs).
Qed.

Lemma lookup_uuid_after ping c now next d :
  lookup_uuid d (pq_uuid ping) = Ok (Some c) -> unique_uuid d (pq_uuid ping) ->
  pq_kind ping <> PK_Exitcode ->
  unique_uuid (ping_db ping c now next d) (pq_uuid ping) /\
  exists c', lookup_uuid (ping_db ping c now next d) (pq_uuid ping) = Ok (Some c') /\
    same_schedule c c' /\
    c_status c' = (if decide (c_status c = CS_Paused) then CS_Paused
                   else live_status (pq_kind ping) (c_status c)).
Proof.
  intros Hl Hu Hk. unfold ping_db. case_bool_decide as Ep.
  { split; [exact Hu|]. exists c. split; [exact Hl|]. by rewrite decide_True. }
  destruct (lookup_uuid_row _ _ _ Hl) as (r & Hr & Hru & Hok).
  destruct (decode_live_row _ _ _ (pq_kind ping) now next Hok Hk) as (Huu & c' & Hok' & Hst & Hss).
  set (d' := update_check _ _ _).
  assert (forall j s, t_rows (checks d') !! j = Some s -> cr_ping_uuid s = pq_uuid ping -> j = c_id c)
    as Honly.
  { intros j s Hj Hs. subst d'. rewrite update_check_lookup in Hj.
    case_decide as Ej; [done|]. by apply (Hu j (c_id c) s r). }
  assert (t_rows (checks d') !! c_id c = Some (live_row (pq_kind ping) c now next r)) as Hr'.
  { subst d'. rewrite update_check_lookup, decide_True by done. simpl. by rewrite Hr. }
  split.
  { intros i j a b Ha Hb Ea Eb. rewrite (Honly i a Ha Ea). by rewrite (Honly j b Hb Eb). }
  exists c'. split; [|split; [done|by rewrite decide_False]].
  unfold lookup_uuid. rewrite (find_row_unique _ _ (c_id c) (live_row (pq_kind ping) c now next r)).
  - unfold transpose. by rewrite Hok'.
  - done.
  - apply bool_decide_eq_true_2. congruence.
  - intros j s Hj Hs. bool_to_prop. by apply (Honly j s).
Qed.

Lemma alternating_step kind code s l :
  kind <> PK_Exitcode -> s <> CS_Paused ->
  alternating (negb (bool_decide (live_status kind s = CS_Down))) l ->
  alternating (negb (bool_decide (s = CS_Down)))
    (match live_alert kind code s with Some (k, _) => [k] | None => [] end ++ l).
Proof. destruct kind, s; done. Qed.

(** Outages and recoveries alternate. However many pings of whatever kinds a check
    receives, in whatever order and at whatever times, if no statement fails the alerts
    they raise are alternately [Down] and [Up], starting with [Down] unless the check was
    down already: an outage is never announced twice, nor a recovery without an outage. *)
Theorem ping_alerts_alternate config uuid l w c :
  lookup_uuid (w_db w) uuid = Ok (Some c) -> unique_uuid (w_db w) uuid ->
  Forall (fun a => pq_uuid (ar_ping a) = uuid /\ pq_kind (ar_ping a) <> PK_Exitcode /\
                   calm (ar_env a)) l ->
  (forall now, exists next, due_time (with_last_ping now c) = Done next) ->
  exists ts, w_tasks (run_pings config l w) = w_tasks w ++ ts /\
    Forall (fun t => task_check t = c_id c) ts /\
    alternating (negb (bool_decide (c_status c = CS_Down))) (map task_event ts).
Proof.
  intros Hl Hu Hall Hdue. revert w c Hl Hu Hdue.
  induction Hall as [|a l (Hua & Hka & Hca) Hall IH]; intros w c Hl Hu Hdue.
  { exists []. by rewrite app_nil_r. }
  subst uuid. set (now := env_now (ar_env a) (w_reads w)). destruct (Hdue now) as [next Hn].
  destruct (apply_effect config (ar_ping a) (ar_env a) w c next Hl Hka (fun _ _ => Hn))
    as (r & w' & E & Hr).
  destruct Hr as [(-> & D & T & _)|(_ & Hnc & _)]; [|done]. fold now in D, T.
  destruct (lookup_uuid_after (ar_ping a) c now next (w_db w) Hl Hu Hka) as (Hu' & c' & Hl' & Hss & Hst).
  rewrite <- D in Hu', Hl'.
  assert (c_id c' = c_id c) as Eid.
  { destruct (lookup_uuid_row _ _ _ Hl) as (r1 & Hr1 & Hu1 & _).
    destruct (lookup_uuid_row _ _ _ Hl') as (r2 & Hr2 & Hu2 & _).
    rewrite D in Hr2. unfold ping_db in Hr2. case_bool_decide; [by apply (Hu _ _ r2 r1)|].
    rewrite update_check_lookup in Hr2. case_decide; [done|]. by apply (Hu _ _ r2 r1). }
  destruct (IH w' c' Hl' Hu') as (ts & T' & F & A).
  { intros n. destruct (Hdue n) as [x Hx]. exists x. by rewrite (due_time_same_schedule c). }
  exists (alert_tasks config c now (ping_alert (ar_ping a) c) ++ ts). simpl. rewrite E.
  cbn [snd]. rewrite T', T, (assoc_L (++)). split; [done|]. rewrite Eid in F. split.
  - apply Forall_app. split; [|done]. unfold alert_tasks.
    destruct (ping_alert _ _) as [[k cause]|]; by repeat constructor.
  - rewrite map_app, Hst in *. unfold ping_alert. destruct (decide (c_status c = CS_Paused)) as [Ep|Ep].
    + rewrite (bool_decide_eq_true_2 (c_status c = CS_Paused)) by done. simpl. by rewrite Ep.
    + rewrite (bool_decide_eq_false_2 (c_status c = CS_Paused)) by done.
      replace (map task_event (alert_tasks config c now
        (live_alert (pq_kind (ar_ping a)) (pq_exit_code (ar_ping a)) (c_status c))))
        with (match live_alert (pq_kind (ar_ping a)) (pq_exit_code (ar_ping a)) (c_status c) with
              | Some (k, _) => [k] | None => [] end)
        by (unfold alert_tasks; by destruct (live_alert _ _ _) as [[? ?]|]).
      by apply alternating_step.
Qed.

End sequences.

(** ** Witnesses *)

#[local] Existing Instance SampleChrono.sample_chrono.
#[local] Existing Instance SampleChrono.sample_cron.

Definition sample_ping (kind : PingKind) : PingRequest :=
  mk_PingRequest (lit "u1") kind None (lit "done") (Some (lit "10.0.0.1")).
Definition sample_c1 : Check :=
  match lookup_uuid sample_db (lit "u1") with
  | Ok (Some c) => c
  | _ => mk_Check 0 0 [] [] [] SK_Period None 0 None [] CS_New None None None None None None None false 0
  end.

Lemma sample_c1_found : lookup_uuid sample_db (lit "u1") = Ok (Some sample_c1).
Proof. vm_compute. reflexivity. Qed.

Lemma ping_apply_effect_witness :
  exists w', apply sample_config (sample_ping PK_Fail) (calm_env (5 * ns)) (world_of sample_db)
      = (Done (Ok 200), w') /\
    map task_event (w_tasks w') = [EK_Down] /\
    option_map cr_status (t_rows (checks (w_db w')) !! 1) = Some (lit "down").
Proof.
  destruct (ping_apply_effect sample_config (sample_ping PK_Fail) (calm_env (5 * ns))
    (world_of sample_db) sample_c1 None) as (r & w' & E & H).
  - exact sample_c1_found.
  - discriminate.
  - discriminate.
  - destruct H as [(-> & D & T & _)|(_ & Hn & _)]; [|destruct (Hn (calm_env_calm (5 * ns)))].
    exists w'. split; [exact E|]. rewrite T, D. split; vm_compute; reflexivity.
Defined.

Lemma ping_unknown_refused_witness :
  exists x w', apply sample_config (mk_PingRequest (lit "nobody") PK_Success None [] None)
      (calm_env 0) (world_of sample_db) = (Done (Err x), w') /\ (into_response x).1 = 404.
Proof.
  destruct (ping_unknown_refused sample_config (mk_PingRequest (lit "nobody") PK_Success None [] None)
    (calm_env 0) (world_of sample_db)) as (x & w' & E & _ & _ & _ & H).
  - intros c Hc. vm_compute in Hc. discriminate.
  - exists x, w'. split; [exact E|]. apply (H (calm_env_calm 0)). vm_compute. reflexivity.
Defined.

Lemma ping_handle_total_witness :
  exists r w', handle sample_config (lit "u1", PR_Exitcode 3) None [] (calm_env (5 * ns))
    (world_of sample_db) = (Done r, w').
Proof.
  apply (ping_handle_total sample_config (lit "u1") (PR_Exitcode 3)).
  intros c Hc. vm_compute in Hc. injection Hc as <-. eexists. vm_compute. reflexivity.
Defined.

(** A check that nothing schedules: its due time never overflows. *)
Definition idle_db : Db :=
  w_db (mbind (create_user (lit "ann") None true 0) (fun _ =>
    mbind (create_project 1 (mk_ProjectSettings (lit "p") [] None None) 0) (fun _ =>
      create_check (mk_NewCheck 1 (lit "c") [] (lit "u1") SK_Period None 0 None (lit "UTC")
        None None None))) (calm_env 0) (world_of empty_db)).2.

Lemma ping_alerts_alternate_witness :
  map task_event (w_tasks (run_pings sample_config
    (map (fun k => mk_Arrival (calm_env ns) (sample_ping k))
       [PK_Fail; PK_Fail; PK_Start; PK_Success; PK_Success; PK_Fail]) (world_of idle_db)))
  = [EK_Down; EK_Up; EK_Down] /\
  alternating true [EK_Down; EK_Up; EK_Down].
Proof.
  destruct (lookup_uuid idle_db (lit "u1")) as [[c|]|] eqn:El;
    [|vm_compute in El; discriminate|vm_compute in El; discriminate].
  destruct (ping_alerts_alternate sample_config (lit "u1")
    (map (fun k => mk_Arrival (calm_env ns) (sample_ping k))
       [PK_Fail; PK_Fail; PK_Start; PK_Success; PK_Success; PK_Fail]) (world_of idle_db) c El)
    as (ts & T & _ & A).
  - apply (only_check_unique _ _ 1). vm_compute. reflexivity.
  - cbn [map]. repeat (apply Forall_cons; split;
      [split; [reflexivity|split; [discriminate|exact (calm_env_calm ns)]]|]).
    apply Forall_nil. exact I.
  - intros now. exists None. vm_compute in El. injection El as <-. reflexivity.
  - assert (map task_event ts = [EK_Down; EK_Up; EK_Down]) as Ets.
    { change (w_tasks (world_of idle_db) ++ ts) with ts in T. rewrite <- T. vm_compute. reflexivity. }
    rewrite T. split; [exact Ets|]. rewrite <- Ets. vm_compute in El. injection El as <-. exact A.
Defined.
