(* ===== verification/Router.v ===== *)
(** * Router: the routes of [src/lib.rs], [web::routes], [api::routes], [ping::routes] and
      [assets::routes], from a request to its answer

    A request is matched against the route tables, its extractors are run in the order of
    the handler's arguments, and the handler modelled elsewhere is called, inside the
    layers of its router. [app] is the whole of [app()]. The decoding of forms, queries,
    JSON bodies and path parameters is that of Axum and serde, and is a parameter. *)
From S2P Require Import Prelude Text Models Config Wire Secret Chrono Auth Db Rows Store Sessions Notify Forms Channels Errors Access Templates Web Middleware Assets Account Listing Owner Pages Dashboard Admin Dto Api UserAdmin.
From S2P Require Ping.
#[local] Open Scope Z_scope.
#[local] Open Scope pw_scope.

(** ** Requests and extractors *)

Record Http := mk_Http {
  h_path : str;
  h_query : option str;
  h_in : Incoming;
}.

(** What an extractor refuses with: a status and a text. *)
Abbreviation Rejection := (Z * str)%type.

Class FromBody (A : Type) := from_body : HeaderMap -> option (list Z) -> res Rejection A.
Class FromQuery (A : Type) := from_query : option str -> res Rejection A.
Class FromJson (A : Type) := from_json : HeaderMap -> option (list Z) -> res str A.

Record ConfirmQuery := mk_ConfirmQuery { cq_confirmed : option str }.
Definition is_confirmed (c : ConfirmQuery) : bool := bool_decide (is_Some (cq_confirmed c)).
Record PasswordForm := mk_PasswordForm { pwf_password : str }.
Record BindForm := mk_BindForm { bf_channel_ids : list Z }.
Record ChannelBindInput := mk_ChannelBindInput { cbi_channel_ids : list Z }.

(** Axum's extractors with the [Deserialize] instances of the program's types. *)
Class Extract := {
  percent_decode : str -> option str;
  path_error : str -> Rejection;
  #[global] body_bytes :: FromBody (list Z);
  #[global] body_credentials :: FromBody Credentials;
  #[global] body_project :: FromBody ProjectForm;
  #[global] body_check :: FromBody CheckForm;
  #[global] body_channel :: FromBody ChannelForm;
  #[global] body_bind :: FromBody BindForm;
  #[global] body_password :: FromBody PasswordForm;
  #[global] body_change_password :: FromBody ChangePasswordForm;
  #[global] body_api_key :: FromBody NewApiKeyForm;
  #[global] body_settings :: FromBody SettingsForm;
  #[global] body_new_user :: FromBody NewUserForm;
  #[global] query_confirm :: FromQuery ConfirmQuery;
  #[global] query_dashboard :: FromQuery DashboardQuery;
  #[global] query_check_page :: FromQuery CheckPageQuery;
  #[global] query_audit :: FromQuery AdminAuditQuery;
  #[global] query_page :: FromQuery PageParams;
  #[global] json_project :: FromJson ProjectInput;
  #[global] json_check :: FromJson CheckInput;
  #[global] json_channel :: FromJson ChannelInput;
  #[global] json_bind :: FromJson ChannelBindInput;
}.

(** The bodies [serde] and [utoipa] write. *)
Class ApiText := {
  api_body_text : ApiBody -> str;
  openapi_text : str;
  scalar_html : str;
}.

(** What a route's handler is given: the captured segments and the request. *)
Record Args := mk_Args {
  a_captures : list str;
  a_path : str;
  a_query : option str;
  a_req : Incoming;
}.

(** ** What the routes ask for *)

Inductive PublicRequest : Type :=
| PB_SetupPage
| PB_SetupSubmit (creds : Credentials)
| PB_LoginSubmit (creds : Credentials)
| PB_Logout.

Inductive VisitorRequest : Type :=
| VR_LoginPage
| VR_Dashboard (query : DashboardQuery).

Inductive UserSiteRequest : Type :=
| US_Page (rq : PageRequest)
| US_Owner (rq : OwnerRequest)
| US_Account (rq : AccountRequest)
| US_Events (id : Z).

Inductive AdminPageRequest : Type :=
| AP_Home (audit : AdminAuditQuery)
| AP_Audit (q : AdminAuditQuery)
| AP_UnlockPage
| AP_ProjectShow (id : Z)
| AP_ProjectEdit (id : Z)
| AP_CheckNew (pid : Z)
| AP_CheckShow (id : Z) (q : CheckPageQuery)
| AP_CheckReveal (id : Z) (q : CheckPageQuery)
| AP_CheckPings (id : Z) (q : CheckPageQuery)
| AP_CheckEvents (id : Z)
| AP_CheckNotifications (id : Z) (q : CheckPageQuery)
| AP_CheckEdit (id : Z)
| AP_ChannelNew (pid : Z)
| AP_ChannelEdit (id : Z)
| AP_ChannelTest (id : Z).

Inductive AdminSiteRequest : Type :=
| AS_Page (rq : AdminPageRequest)
| AS_Write (rq : AdminRequest)
| AS_Users (rq : UserRequest).

(** A web route: the extractor of the user, if the handler has one, then what its other
    extractors yield. *)
Inductive WebRoute : Type :=
| WR_Public (rq : res Rejection PublicRequest)
| WR_Visitor (rq : res Rejection VisitorRequest)         (* [OptionalUser] *)
| WR_User (rq : res Rejection UserSiteRequest)           (* [CurrentUser] *)
| WR_Admin (rq : res Rejection AdminSiteRequest).        (* [AdminUser] *)

Inductive DocsPage : Set := DP_OpenApi | DP_Scalar.

Inductive Endpoint : Type :=
| E_Health
| E_Web (route : WebRoute)
| E_Ping (route : res Rejection (str * Ping.PingRoute))
| E_Api (rq : res (Rejection + ApiError) ApiRequest)
| E_Docs (page : DocsPage)
| E_Asset (answer : res Rejection Response).

(** ** The route tables *)

Section tables.
Context `{Extract} `{Embedded}.

(** [Path<String>] of the first capture, [Path<i64>], [Form], [Query] and [ApiJson]. *)
Definition parse_segment {A} (parse : str -> option A) (segment : str) : res Rejection A :=
  match s ← percent_decode segment; parse s with
  | Some v => Ok v
  | None => Err (path_error segment)
  end.
Definition capture (n : nat) (a : Args) : str := default [] (a_captures a !! n).
Definition path_str (a : Args) : res Rejection str := parse_segment Some (capture 0 a).
Definition path_id (a : Args) : res Rejection Z := parse_segment parse_i64 (capture 0 a).
Definition body_form {A} `{FromBody A} (a : Args) : res Rejection A :=
  from_body (in_headers (a_req a)) (in_bytes (a_req a)).
Definition url_query {A} `{FromQuery A} (a : Args) : res Rejection A := from_query (a_query a).

(** A handler that takes nothing, [Path<i64>], and then a form or a query. *)
Definition bare {A} (rq : A) : Args -> res Rejection A := fun _ => Ok rq.
Definition by_id {A} (k : Z -> A) : Args -> res Rejection A := fun a =>
  let+ id := path_id a in Ok (k id).
Definition with_form {B A} `{FromBody B} (k : B -> A) : Args -> res Rejection A := fun a =>
  let+ b := body_form a in Ok (k b).
Definition with_query {B A} `{FromQuery B} (k : B -> A) : Args -> res Rejection A := fun a =>
  let+ q := url_query a in Ok (k q).
Definition by_id_form {B A} `{FromBody B} (k : Z -> B -> A) : Args -> res Rejection A := fun a =>
  let+ id := path_id a in let+ b := body_form a in Ok (k id b).
Definition by_id_query {B A} `{FromQuery B} (k : Z -> B -> A) : Args -> res Rejection A := fun a =>
  let+ id := path_id a in let+ q := url_query a in Ok (k id q).
(** [Query<ConfirmQuery>], of which the handlers ask [is_confirmed]. *)
Definition confirmable {A} (k : Z -> bool -> A) : Args -> res Rejection A :=
  by_id_query (fun id c => k id (is_confirmed c)).
(** [Path<i64>] and [HtmlForm<BindForm>]. *)
Definition binding {A} (k : Z -> list Z -> A) : Args -> res Rejection A :=
  by_id_form (fun id f => k id (bf_channel_ids f)).

Abbreviation Handlers R := (list (str * (Args -> R))).
Definition on_get {R} (h : Args -> R) : Handlers R := [(lit "GET", h)].
Definition on_post {R} (h : Args -> R) : Handlers R := [(lit "POST", h)].
Definition on_put {R} (h : Args -> R) : Handlers R := [(lit "PUT", h)].
Definition on_patch {R} (h : Args -> R) : Handlers R := [(lit "PATCH", h)].
Definition on_delete {R} (h : Args -> R) : Handlers R := [(lit "DELETE", h)].

(** By the extractor of the user. *)
Definition public (k : Args -> res Rejection PublicRequest) (a : Args) : WebRoute := WR_Public (k a).
Definition visitor (k : Args -> res Rejection VisitorRequest) (a : Args) : WebRoute := WR_Visitor (k a).
Definition page_of (k : Args -> res Rejection PageRequest) (a : Args) : WebRoute :=
  WR_User (let+ rq := k a in Ok (US_Page rq)).
Definition owner (k : Args -> res Rejection OwnerRequest) (a : Args) : WebRoute :=
  WR_User (let+ rq := k a in Ok (US_Owner rq)).
Definition account (k : Args -> res Rejection AccountRequest) (a : Args) : WebRoute :=
  WR_User (let+ rq := k a in Ok (US_Account rq)).
Definition events (a : Args) : WebRoute := WR_User (by_id US_Events a).
Definition admin_site (k : Args -> res Rejection AdminPageRequest) (a : Args) : WebRoute :=
  WR_Admin (let+ rq := k a in Ok (AS_Page rq)).
Definition admin_write (k : Args -> res Rejection AdminRequest) (a : Args) : WebRoute :=
  WR_Admin (let+ rq := k a in Ok (AS_Write rq)).
Definition admin_users (k : Args -> res Rejection UserRequest) (a : Args) : WebRoute :=
  WR_Admin (let+ rq := k a in Ok (AS_Users rq)).

Abbreviation headers_of a := (in_headers (a_req a)).

Definition web_routes : list (str * Handlers WebRoute) := [
  (lit "/", on_get (visitor (with_query VR_Dashboard)));
  (lit "/setup", on_get (public (bare PB_SetupPage)) ++ on_post (public (with_form PB_SetupSubmit)));
  (lit "/login", on_get (visitor (bare VR_LoginPage)) ++ on_post (public (with_form PB_LoginSubmit)));
  (lit "/logout", on_post (public (bare PB_Logout)));
  (lit "/projects/new", on_get (page_of (bare PR_ProjectNew)));
  (lit "/projects", on_post (owner (with_form OR_ProjectCreate)));
  (lit "/projects/{id}", on_get (page_of (by_id PR_ProjectShow)) ++ on_post (owner (by_id_form OR_ProjectUpdate)));
  (lit "/projects/{id}/edit", on_get (page_of (by_id PR_ProjectEdit)));
  (lit "/projects/{id}/delete", on_post (owner (confirmable OR_ProjectDelete)));
  (lit "/projects/{pid}/checks/new", on_get (page_of (by_id PR_CheckNew)));
  (lit "/projects/{pid}/checks", on_post (owner (by_id_form OR_CheckCreate)));
  (lit "/checks/{id}", on_get (page_of (by_id_query PR_CheckShow)) ++ on_post (owner (by_id_form OR_CheckUpdate)));
  (lit "/checks/{id}/pings",
    on_get (page_of (fun a => by_id_query (PR_CheckPings (headers_of a) (a_query a)) a)));
  (lit "/checks/{id}/events", on_get events);
  (lit "/checks/{id}/notifications",
    on_get (page_of (fun a => by_id_query (PR_CheckNotifications (headers_of a) (a_query a)) a)));
  (lit "/checks/{id}/edit", on_get (page_of (by_id PR_CheckEdit)));
  (lit "/checks/{id}/pause", on_post (owner (by_id OR_CheckPause)));
  (lit "/checks/{id}/resume", on_post (owner (by_id OR_CheckResume)));
  (lit "/checks/{id}/ack", on_post (owner (by_id OR_CheckAck)));
  (lit "/checks/{id}/regenerate", on_post (owner (confirmable OR_CheckRegenerate)));
  (lit "/checks/{id}/delete", on_post (owner (confirmable OR_CheckDelete)));
  (lit "/projects/{pid}/channels/new", on_get (page_of (by_id PR_ChannelNew)));
  (lit "/projects/{pid}/channels", on_post (owner (by_id_form OR_ChannelCreate)));
  (lit "/channels/{id}/edit", on_get (page_of (by_id PR_ChannelEdit)));
  (lit "/channels/{id}", on_post (owner (by_id_form OR_ChannelUpdate)));
  (lit "/channels/{id}/delete", on_post (owner (by_id OR_ChannelDelete)));
  (lit "/channels/{id}/test", on_post (page_of (by_id PR_ChannelTest)));
  (lit "/checks/{id}/channels", on_post (owner (binding OR_CheckSetChannels)));
  (lit "/account", on_get (account (bare AR_Page)));
  (lit "/account/password", on_post (account (with_form AR_Password)));
  (lit "/account/api-keys", on_post (account (with_form AR_KeyCreate)));
  (lit "/account/api-keys/{id}/delete", on_post (account (confirmable AR_KeyDelete)));
  (lit "/account/sessions/{handle}/revoke", on_post (account (fun a =>
    let+ handle := path_str a in let+ c := url_query a in Ok (AR_Revoke handle (is_confirmed c)))));
  (lit "/account/sessions/revoke-others",
    on_post (account (with_query (fun c => AR_RevokeOthers (is_confirmed c)))));
  (lit "/admin", on_get (admin_site (with_query AP_Home)));
  (lit "/admin/audit", on_get (admin_site (with_query AP_Audit)));
  (lit "/admin/settings", on_post (admin_users (with_form UR_Settings)));
  (lit "/admin/unlock", on_get (admin_site (bare AP_UnlockPage)) ++
    on_post (admin_users (fun a =>
      with_form (fun f => UR_Unlock (wants_fragment (headers_of a)) (pwf_password f)) a)));
  (lit "/admin/users", on_post (admin_users (with_form UR_Create)));
  (lit "/admin/users/{id}/delete", on_post (admin_users (confirmable UR_Delete)));
  (lit "/admin/users/{id}/password",
    on_post (admin_users (by_id_form (fun id f => UR_SetPassword id (pwf_password f)))));
  (lit "/admin/users/{id}/admin", on_post (admin_users (confirmable UR_ToggleAdmin)));
  (lit "/admin/users/{id}/disabled", on_post (admin_users (confirmable UR_SetDisabled)));
  (lit "/admin/projects/{id}",
    on_get (admin_site (by_id AP_ProjectShow)) ++ on_post (admin_write (by_id_form AMR_ProjectUpdate)));
  (lit "/admin/projects/{id}/edit", on_get (admin_site (by_id AP_ProjectEdit)));
  (lit "/admin/projects/{id}/delete", on_post (admin_write (confirmable AMR_ProjectDelete)));
  (lit "/admin/projects/{pid}/checks/new", on_get (admin_site (by_id AP_CheckNew)));
  (lit "/admin/projects/{pid}/checks", on_post (admin_write (by_id_form AMR_CheckCreate)));
  (lit "/admin/checks/{id}",
    on_get (admin_site (by_id_query AP_CheckShow)) ++ on_post (admin_write (by_id_form AMR_CheckUpdate)));
  (lit "/admin/checks/{id}/ping-url", on_post (admin_site (by_id_query AP_CheckReveal)));
  (lit "/admin/checks/{id}/pings", on_get (admin_site (by_id_query AP_CheckPings)));
  (lit "/admin/checks/{id}/events", on_get (admin_site (by_id AP_CheckEvents)));
  (lit "/admin/checks/{id}/notifications", on_get (admin_site (by_id_query AP_CheckNotifications)));
  (lit "/admin/checks/{id}/edit", on_get (admin_site (by_id AP_CheckEdit)));
  (lit "/admin/checks/{id}/pause", on_post (admin_write (by_id AMR_CheckPause)));
  (lit "/admin/checks/{id}/resume", on_post (admin_write (by_id AMR_CheckResume)));
  (lit "/admin/checks/{id}/ack", on_post (admin_write (by_id AMR_CheckAck)));
  (lit "/admin/checks/{id}/regenerate", on_post (admin_write (confirmable AMR_CheckRegenerate)));
  (lit "/admin/checks/{id}/delete", on_post (admin_write (confirmable AMR_CheckDelete)));
  (lit "/admin/projects/{pid}/channels/new", on_get (admin_site (by_id AP_ChannelNew)));
  (lit "/admin/projects/{pid}/channels", on_post (admin_write (by_id_form AMR_ChannelCreate)));
  (lit "/admin/channels/{id}/edit", on_get (admin_site (by_id AP_ChannelEdit)));
  (lit "/admin/channels/{id}", on_post (admin_write (by_id_form AMR_ChannelUpdate)));
  (lit "/admin/channels/{id}/delete", on_post (admin_write (by_id AMR_ChannelDelete)));
  (lit "/admin/channels/{id}/test", on_post (admin_site (by_id AP_ChannelTest)));
  (lit "/admin/checks/{id}/channels", on_post (admin_write (binding AMR_CheckSetChannels)))].

(** [/api/v1]: after the key, a path, then a query or a JSON body; only the last is
    refused in the envelope of the API. *)
Abbreviation ApiRoute := (res (Rejection + ApiError) ApiRequest).
Definition plain_rejection {A} (r : res Rejection A) : res (Rejection + ApiError) A :=
  match r with Ok v => Ok v | Err x => Err (inl x) end.
Definition json_body {A} `{FromJson A} (a : Args) : res (Rejection + ApiError) A :=
  match from_json (headers_of a) (in_bytes (a_req a)) with
  | Ok v => Ok v
  | Err text => Err (inr (bad_request text))
  end.
Definition api_bare (rq : ApiRequest) (a : Args) : ApiRoute := Ok rq.
Definition api_id (k : Z -> ApiRequest) (a : Args) : ApiRoute := plain_rejection (by_id k a).
Definition api_page (k : Z -> PageParams -> ApiRequest) (a : Args) : ApiRoute :=
  plain_rejection (by_id_query k a).
Definition api_json {B} `{FromJson B} (k : B -> ApiRequest) (a : Args) : ApiRoute :=
  let+ b := json_body a in Ok (k b).
Definition api_id_json {B} `{FromJson B} (k : Z -> B -> ApiRequest) (a : Args) : ApiRoute :=
  let+ id := plain_rejection (path_id a) in let+ b := json_body a in Ok (k id b).

Definition api_routes : list (str * Handlers ApiRoute) := [
  (lit "/api/v1/projects", on_get (api_bare AQ_ListProjects) ++ on_post (api_json AQ_CreateProject));
  (lit "/api/v1/projects/{id}", on_get (api_id AQ_GetProject) ++ on_patch (api_id_json AQ_UpdateProject) ++
    on_delete (api_id AQ_DeleteProject));
  (lit "/api/v1/projects/{id}/checks",
    on_get (api_id AQ_ListProjectChecks) ++ on_post (api_id_json AQ_CreateCheck));
  (lit "/api/v1/projects/{id}/channels",
    on_get (api_id AQ_ListProjectChannels) ++ on_post (api_id_json AQ_CreateChannel));
  (lit "/api/v1/checks/{id}", on_get (api_id AQ_GetCheck) ++ on_patch (api_id_json AQ_UpdateCheck) ++
    on_delete (api_id AQ_DeleteCheck));
  (lit "/api/v1/checks/{id}/pings", on_get (api_page AQ_ListCheckPings));
  (lit "/api/v1/checks/{id}/notifications", on_get (api_page AQ_ListCheckNotifications));
  (lit "/api/v1/checks/{id}/pause", on_post (api_id AQ_PauseCheck));
  (lit "/api/v1/checks/{id}/resume", on_post (api_id AQ_ResumeCheck));
  (lit "/api/v1/checks/{id}/ack", on_post (api_id AQ_AckCheck));
  (lit "/api/v1/checks/{id}/regenerate", on_post (api_id AQ_RegenerateCheck));
  (lit "/api/v1/checks/{id}/channels",
    on_put (api_id_json (fun id b => AQ_SetCheckChannels id (cbi_channel_ids b))));
  (lit "/api/v1/channels/{id}", on_get (api_id AQ_GetChannel) ++ on_patch (api_id_json AQ_UpdateChannel) ++
    on_delete (api_id AQ_DeleteChannel));
  (lit "/api/v1/keys", on_get (api_bare AQ_ListKeys))].

Definition docs_routes : list (str * Handlers DocsPage) := [
  (lit "/api/openapi.json", on_get (fun _ => DP_OpenApi));
  (lit "/api/docs", on_get (fun _ => DP_Scalar))].

(** [Path<String>], or [Path<(String, i64)>]. *)
Definition pinged (kind : Ping.PingRoute) (a : Args) : res Rejection (str * Ping.PingRoute) :=
  let+ uuid := path_str a in Ok (uuid, kind).
Definition pinged_code (a : Args) : res Rejection (str * Ping.PingRoute) :=
  let+ uuid := path_str a in
  let+ code := parse_segment parse_i64 (capture 1 a) in Ok (uuid, Ping.PR_Exitcode code).
Definition ping_routes : list (str * Handlers (res Rejection (str * Ping.PingRoute))) :=
  let both h := on_get h ++ on_post h in [
  (lit "/ping/{uuid}", both (pinged Ping.PR_Success));
  (lit "/ping/{uuid}/fail", both (pinged Ping.PR_Fail));
  (lit "/ping/{uuid}/start", both (pinged Ping.PR_Start));
  (lit "/ping/{uuid}/log", both (pinged Ping.PR_Log));
  (lit "/ping/{uuid}/{code}", both pinged_code)].

Definition asset_routes : list (str * Handlers (res Rejection Response)) :=
  let file (serve : str -> Response) a := let+ f := path_str a in Ok (serve f) in [
  (lit "/assets/app.css", on_get (fun _ => Ok app_css));
  (lit "/assets/{file}", on_get (file script));
  (lit "/assets/fonts/{file}", on_get (file font));
  (lit "/favicon.svg", on_get (fun a => Ok (icon (a_path a))));
  (lit "/apple-touch-icon.png", on_get (fun a => Ok (icon (a_path a))))].

(** The layers a router puts around its routes. *)
Inductive Mount : Set := M_Plain | M_Web | M_Docs.

Record Route := mk_Route {
  rt_pattern : str;
  rt_mount : Mount;
  rt_handlers : Handlers Endpoint;
}.
Definition mounted {R} (mount : Mount) (wrap : R -> Endpoint) (r : str * Handlers R) : Route :=
  mk_Route r.1 mount (map (fun h => (h.1, fun a => wrap (h.2 a))) r.2).

(** [Router::merge] of every router. *)
Definition all_routes : list Route :=
  mounted M_Plain (fun e => e) (lit "/healthz", on_get (fun _ => E_Health)) ::
  map (mounted M_Web E_Web) web_routes ++ map (mounted M_Plain E_Ping) ping_routes ++
  map (mounted M_Plain E_Api) api_routes ++ map (mounted M_Docs E_Docs) docs_routes ++
  map (mounted M_Plain E_Asset) asset_routes.
End tables.

(** ** Matching a path *)

(** A segment of a pattern: [{name}] takes any segment that is not empty. *)
Inductive Segment : Type :=
| Sg_Static (s : str)
| Sg_Capture.
Definition segment (s : str) : Segment :=
  if starts_with (lit "{") s then Sg_Capture else Sg_Static s.
Definition segments (pattern : str) : list Segment := map segment (split_on (chr "/") pattern).

Fixpoint match_segments (p : list Segment) (path : list str) : option (list str) :=
  match p, path with
  | [], [] => Some []
  | Sg_Static s :: p', t :: path' => if bool_decide (s = t) then match_segments p' path' else None
  | Sg_Capture :: p', t :: path' =>
      if is_empty t then None else cons t <$> match_segments p' path'
  | _, _ => None
  end.

(** A static segment wins over a capture, from the left. *)
Fixpoint precedes (p q : list Segment) : bool :=
  match p, q with
  | Sg_Static _ :: p', Sg_Static _ :: q' | Sg_Capture :: p', Sg_Capture :: q' => precedes p' q'
  | Sg_Static _ :: _, Sg_Capture :: _ => true
  | _, _ => false
  end.

Fixpoint find_route (routes : list Route) (path : list str) : option (Route * list str) :=
  match routes with
  | [] => None
  | r :: routes' =>
      match match_segments (segments (rt_pattern r)) path, find_route routes' path with
      | None, other => other
      | Some captures, Some (r', captures') =>
          if precedes (segments (rt_pattern r')) (segments (rt_pattern r)) then Some (r', captures')
          else Some (r, captures)
      | Some captures, None => Some (r, captures)
      end
  end.

(** ** Answering *)

Section serve.
Context `{Cron} `{Crypto} `{PageText} `{NotifyDeps} `{HashOrder} `{!JsonText} `{IpText} `{Argon2}.
Context `{FormUrl} `{CookieParse} `{Extract} `{Embedded} `{ApiText}.

Definition text_response (status : Z) (body : str) : Response :=
  mk_Response status None [(lit "content-type", lit "text/plain; charset=utf-8")] [] (P_Text body).
Definition json_response (status : Z) (body : str) : Response :=
  mk_Response status None [(lit "content-type", lit "application/json")] [] (P_Text body).
Definition html_response (body : str) : Response :=
  mk_Response 200 None [(lit "content-type", lit "text/html; charset=utf-8")] [] (P_Text body).

(** [IntoResponse] of what a handler or an extractor yields. *)
Definition rejected (x : Rejection) : Response := text_response x.1 x.2.
Definition refused (x : Refusal) : Response :=
  match x with
  | RF_RedirectToLogin => redirect_to [] (lit "/login")
  | RF_AdminOnly => text_response 403 (lit "admin only")
  end.
Definition finish (r : res AppError Response) : Response :=
  match r with
  | Ok resp => resp
  | Err x => let '(status, body) := into_response x in text_response status body
  end.
Definition event_stream (r : res AppError (list (option Z) -> list str)) : res AppError Response :=
  let+ lines := r in
  Ok (mk_Response 200 None
        [(lit "content-type", lit "text/event-stream"); (lit "cache-control", lit "no-cache")] []
        (P_Stream lines)).
Definition api_finish (r : res ApiError ApiResponse) : Response :=
  match r with
  | Ok a => match ar_body a with
            | AB_Empty => status_response (ar_http_status a)
            | b => json_response (ar_http_status a) (api_body_text b)
            end
  | Err x => let '(status, body) := ApiError_into_response x in
             json_response status (json_to_string body)
  end.

(** The handler, unless an extractor refused. *)
Definition served {A} (rq : res Rejection A) (k : A -> M (res AppError Response)) : M Response :=
  match rq with
  | Err x => mret (rejected x)
  | Ok a => mmap finish (k a)
  end.

Definition jar_of (req : Incoming) : CookieJar := mk_CookieJar (cookies_from (in_headers req)) [].
Definition parts_of (req : Incoming) : Parts :=
  mk_Parts (in_headers req) (cookies_from (in_headers req)) (in_peer req).
(** [ClientIp]. *)
Definition conn_of (config : Config) (req : Incoming) : option str :=
  client_ip (in_headers req) (in_peer req) config.

Definition public_handle (config : Config) (req : Incoming) (rq : PublicRequest)
  : M (res AppError Response) :=
  let jar := jar_of req in
  let headers := in_headers req in
  match rq with
  | PB_SetupPage => setup_page config jar
  | PB_SetupSubmit creds => setup_submit config jar headers (conn_of config req) creds
  | PB_LoginSubmit creds => login_submit config jar headers (conn_of config req) (in_peer req) creds
  | PB_Logout => logout config jar headers (in_peer req)
  end.
Definition visitor_handle (config : Config) (jar : CookieJar) (user : option User) (rq : VisitorRequest)
  : M (res AppError Response) :=
  match rq with
  | VR_LoginPage => login_page config jar user
  | VR_Dashboard q => dashboard config jar user q
  end.
Definition user_site_handle (config : Config) (jar : CookieJar) (user : User) (rq : UserSiteRequest)
  : M (res AppError Response) :=
  match rq with
  | US_Page rq => page_handle config jar user rq
  | US_Owner rq => owner_handle config jar user rq
  | US_Account rq => account_handle config jar user rq
  | US_Events id => mmap event_stream (check_events user id)
  end.
Definition admin_page_handle (config : Config) (jar : CookieJar) (admin : User) (headers : HeaderMap)
    (request : RequestLine) (query : option str) (rq : AdminPageRequest) : M (res AppError Response) :=
  match rq with
  | AP_Home audit => admin_page config jar admin audit
  | AP_Audit q => admin_audit_fragment headers query q
  | AP_UnlockPage => admin_unlock_page config jar admin
  | AP_ProjectShow id => admin_project_show config jar admin request id
  | AP_ProjectEdit id => admin_project_edit config jar admin request id
  | AP_CheckNew pid => admin_check_new config jar admin request pid
  | AP_CheckShow id q => admin_check_show config jar admin request id q
  | AP_CheckReveal id q => admin_check_reveal_ping_url config jar admin id q
  | AP_CheckPings id q => admin_check_pings admin headers request query id q
  | AP_CheckEvents id => mmap event_stream (admin_check_events admin request id)
  | AP_CheckNotifications id q => admin_check_notifications admin headers request query id q
  | AP_CheckEdit id => admin_check_edit config jar admin request id
  | AP_ChannelNew pid => admin_channel_new config jar admin request pid
  | AP_ChannelEdit id => admin_channel_edit config jar admin request id
  | AP_ChannelTest id => admin_channel_test config jar admin request id
  end.
Definition admin_site_handle (config : Config) (jar : CookieJar) (admin : User) (headers : HeaderMap)
    (request : RequestLine) (query : option str) (rq : AdminSiteRequest) : M (res AppError Response) :=
  match rq with
  | AS_Page rq => admin_page_handle config jar admin headers request query rq
  | AS_Write rq => admin_handle config jar admin request rq
  | AS_Users rq => user_handle config jar admin rq
  end.

Definition web_handle (config : Config) (a : Args) (route : WebRoute) : M Response :=
  let req := a_req a in
  let jar := jar_of req in
  match route with
  | WR_Public rq => served rq (public_handle config req)
  | WR_Visitor rq =>
      do user := OptionalUser config (parts_of req) in
      served rq (visitor_handle config jar user)
  | WR_User rq =>
      do user := CurrentUser config (parts_of req) in
      match user with
      | Err x => mret (refused x)
      | Ok user => served rq (user_site_handle config jar user)
      end
  | WR_Admin rq =>
      do admin := AdminUser config (parts_of req) in
      match admin with
      | Err x => mret (refused x)
      | Ok admin => served rq (admin_site_handle config jar admin (in_headers req)
                      (mk_RequestLine (in_method req) (a_path a)) (a_query a))
      end
  end.

Definition api_route_handle (a : Args) (rq : res (Rejection + ApiError) ApiRequest) : M Response :=
  do user := ApiUser (in_headers (a_req a)) in
  match user, rq with
  | Err x, _ => mret (api_finish (Err x))
  | Ok _, Err (inl x) => mret (rejected x)
  | Ok _, Err (inr x) => mret (api_finish (Err x))
  | Ok user, Ok rq => mmap api_finish (api_handle user (a_path a) rq)
  end.

(** [Path], then [ClientIp], then [Bytes]. *)
Definition ping_handle (config : Config) (a : Args) (route : res Rejection (str * Ping.PingRoute))
  : M Response :=
  match route, @body_form (list Z) _ a with
  | Err x, _ | Ok _, Err x => mret (rejected x)
  | Ok route, Ok body =>
      do r := Ping.handle config route (conn_of config (a_req a)) body in
      mret (finish (let+ status := r in Ok (status_response status)))
  end.

Definition docs_handle (config : Config) (a : Args) (page : DocsPage) : M Response :=
  do user := CurrentUser config (parts_of (a_req a)) in
  match user with
  | Err x => mret (refused x)
  | Ok _ => mret (match page with
                  | DP_OpenApi => json_response 200 openapi_text
                  | DP_Scalar => html_response scalar_html
                  end)
  end.

Definition endpoint_handle (config : Config) (a : Args) (endpoint : Endpoint) : M Response :=
  match endpoint with
  | E_Health => mret (text_response 200 (lit "ok"))
  | E_Web route => web_handle config a route
  | E_Ping route => ping_handle config a route
  | E_Api rq => api_route_handle a rq
  | E_Docs page => docs_handle config a page
  | E_Asset (Ok resp) => mret resp
  | E_Asset (Err x) => mret (rejected x)
  end.

(** Axum's method router: a [GET] handler serves [HEAD] too, without the body. *)
Definition method_handler {R} (handlers : list (str * (Args -> R))) (method : str) : option (Args -> R) :=
  let named name := snd <$> List.find (fun h => bool_decide (h.1 = name)) handlers in
  match named method with
  | Some h => Some h
  | None => if bool_decide (method = lit "HEAD") then named (lit "GET") else None
  end.
Definition allow {R} (handlers : list (str * R)) : str :=
  join (lit ",") (flat_map (fun h => if bool_decide (h.1 = lit "GET") then [lit "GET"; lit "HEAD"]
                                     else [h.1]) handlers).
Definition without_body (resp : Response) : Response :=
  mk_Response (rs_status resp) (rs_location resp) (rs_headers resp) (rs_cookies resp) P_None.

(** What a route answers, inside its layers. *)
Definition route_handle (config : Config) (h : Http) (route : Route) (captures : list str)
    (req : Incoming) : M Response :=
  match method_handler (rt_handlers route) (in_method req) with
  | None => mret (mk_Response 405 None [(lit "allow", allow (rt_handlers route))] [] P_None)
  | Some handler =>
      let a := mk_Args captures (h_path h) (h_query h) req in
      mmap (fun resp => if bool_decide (in_method req = lit "HEAD") then without_body resp else resp)
        (endpoint_handle config a (handler a))
  end.

Definition mount_layers (config : Config) (mount : Mount) : Layer :=
  match mount with
  | M_Plain => fun next => next
  | M_Web => web_layers config
  | M_Docs => no_store
  end.

Definition route_of (path : str) : option (Route * list str) :=
  find_route all_routes (split_on (chr "/") path).

(** [app()]: the route's layers are inside those of the application, and so is the 404 of
    a path without a route. *)
Definition app (config : Config) (h : Http) : M Response :=
  app_layers config
    (fun req => match route_of (h_path h) with
                | None => mret (status_response 404)
                | Some (route, captures) =>
                    mount_layers config (rt_mount route) (route_handle config h route captures) req
                end)
    (h_in h).

End serve.

(** ** What the extractors are documented to do *)

Class ExtractLaws `{Extract} := {
  percent_decode_plain : forall s, plain s = true -> percent_decode s = Some s;
  confirm_absent : from_query (A := ConfirmQuery) None = Ok (mk_ConfirmQuery None);
  confirm_present : from_query (A := ConfirmQuery) (Some (lit "confirmed=1")) =
    Ok (mk_ConfirmQuery (Some (lit "1")));
}.

(** ** Sample extractors *)

Module SampleHttp.

Definition fields (s : str) : list (str * str) :=
  omap (split_once (chr "=")) (split_on (chr "&") s).
Definition field (fs : list (str * str)) (k : String.string) : option str :=
  snd <$> List.find (fun f => bool_decide (f.1 = lit k)) fs.
Definition text (fs : list (str * str)) (k : String.string) : str := default [] (field fs k).

Definition decode {A} (k : list (str * str) -> A) : FromBody A := fun _ body =>
  match body with
  | Some bytes => Ok (k (fields (from_utf8_lossy bytes)))
  | None => Err (400, [])
  end.
Definition decode_query {A} (k : list (str * str) -> A) : FromQuery A := fun q =>
  Ok (k (fields (default [] q))).
Definition no_json {A} : FromJson A := fun _ _ => Err [].

#[export] Instance sample_extract : Extract := {|
  percent_decode s := Some s;
  path_error s := (400, s);
  body_bytes := fun _ body => Ok (default [] body);
  body_credentials := decode (fun fs => mk_Credentials (text fs "username") (text fs "password"));
  body_project := decode (fun fs => mk_ProjectForm (text fs "name") (text fs "description")
    (text fs "scan_interval_secs") (text fs "nag_interval_secs"));
  body_check := decode (fun fs => mk_CheckForm (text fs "name") (text fs "description")
    (text fs "schedule_kind") (text fs "period_secs") (text fs "cron_expr") (text fs "grace_secs")
    (text fs "timezone") (text fs "scan_interval_secs") (text fs "max_runtime_secs")
    (text fs "nag_interval_secs"));
  body_channel := decode (fun fs => mk_ChannelForm (text fs "name") (text fs "kind")
    (text fs "webhook_url") (text fs "slack_url") (text fs "telegram_token")
    (text fs "telegram_chat_id") (text fs "ntfy_base_url") (text fs "ntfy_topic")
    (text fs "ntfy_token") false (text fs "pushover_token") (text fs "pushover_user")
    (text fs "email_to"));
  body_bind := decode (fun fs => mk_BindForm (omap (fun f => parse_i64 f.2) fs));
  body_password := decode (fun fs => mk_PasswordForm (text fs "password"));
  body_change_password := decode (fun fs => mk_ChangePasswordForm (text fs "current_password")
    (text fs "new_password") (text fs "confirm_password"));
  body_api_key := decode (fun fs => mk_NewApiKeyForm (text fs "name") (text fs "expires_in")
    (text fs "current_password"));
  body_settings := decode (fun fs => mk_SettingsForm (text fs "scan_interval")
    (text fs "nag_interval") (text fs "pings_retention_days")
    (text fs "notifications_retention_days") (text fs "audit_retention_days")
    (text fs "display_timezone"));
  body_new_user := decode (fun fs => mk_NewUserForm (text fs "username") (text fs "password")
    (field fs "is_admin"));
  query_confirm := decode_query (fun fs => mk_ConfirmQuery (field fs "confirmed"));
  query_dashboard := decode_query (fun fs => mk_DashboardQuery (field fs "q") (field fs "status"));
  query_check_page := decode_query (fun fs =>
    mk_CheckPageQuery None None None None None None None None None None None);
  query_audit := decode_query (fun fs => default_audit_query);
  query_page := decode_query (fun fs => mk_PageParams None None None);
  json_project := no_json;
  json_check := no_json;
  json_channel := no_json;
  json_bind := no_json;
|}.
#[export] Instance sample_extract_laws : ExtractLaws.
Proof. constructor; reflexivity. Qed.

#[export] Instance sample_embedded : Embedded := {|
  include_bytes name := as_bytes name;
  include_str name := name;
  APP_CSS_TEMPLATE := lit "body{}";
  hash_parts parts := Z.of_nat (length parts);
  show_hex := show_Z;
|}.
#[export] Instance sample_api_text : ApiText := {|
  api_body_text _ := lit "{}";
  openapi_text := lit "{}";
  scalar_html := lit "<html>";
|}.
End SampleHttp.
