(* ===== verification/Perimeter.v ===== *)
(** * Perimeter: what a request can do that comes from nobody known

    A stranger's request carries no cookie of a stored session, no username from a trusted
    gateway and no API key that was issued. Whatever its path, method and body, it is
    followed through [Router.app]. *)
From S2P Require Import Prelude Text Models Config Wire Secret Chrono Auth Db Rows Store Sessions Sample Notify Channels Errors Access Templates Web Middleware Assets Listing Owner Pages Dto Api Router.
From S2P Require Ping.
#[local] Open Scope Z_scope.

(** The patterns that do not ask who is calling, and those that are meant to let a visitor
    change something: the first administrator, a login, a ping. *)
Definition PING_PATTERNS : list str := map lit
  ["/ping/{uuid}"; "/ping/{uuid}/fail"; "/ping/{uuid}/start"; "/ping/{uuid}/log"; "/ping/{uuid}/{code}"]%string.
Definition ENTRY_PATTERNS : list str := map lit ["/setup"; "/login"]%string ++ PING_PATTERNS.
Definition OPEN_PATTERNS : list str := ENTRY_PATTERNS ++ map lit
  ["/"; "/logout"; "/healthz"; "/assets/app.css"; "/assets/{file}"; "/assets/fonts/{file}";
   "/favicon.svg"; "/apple-touch-icon.png"]%string.

(** ** Nobody known *)

Section strangers.
Context `{Chrono} `{CryptoLaws} `{IpText} `{Argon2} `{FormUrl} `{CookieParseLaws}.

Definition no_session (config : Config) (req : Incoming) (d : Db) : Prop :=
  (forall id, incoming_session config req = Some id -> sessions d !! id = None) /\
  forward_auth_username (in_headers req) (in_peer req) config = None.
Definition no_key (headers : HeaderMap) (d : Db) : Prop :=
  forall t id r, bearer_token headers = Some t -> t_rows (api_keys d) !! id = Some r ->
    kr_token_hash r <> hash_api_key t.
Definition stranger (config : Config) (req : Incoming) (d : Db) : Prop :=
  no_session config req d /\ no_key (in_headers req) d.

(** Neither the generator of UUIDs nor the configuration undoes that: no stored session
    has an identifier that is still to be drawn, and the gateway's header is not [Cookie]. *)
Definition fresh_uuids (e : Env) (d : Db) : Prop :=
  forall n, plain (env_uuid e n) = true /\ sessions d !! env_uuid e n = None.
Definition gateway_header_ok (config : Config) : Prop :=
  forall h, cf_forward_auth_header config = Some h -> eq_ignore_ascii_case h (lit "cookie") = false.

Lemma find_session_user_none id now e w r w' :
  sessions (w_db w) !! id = None -> find_session_user id now e w = (r, w') ->
  w_db w' = w_db w /\ (r = Done (Ok None) \/ exists x, r = Done (Err x)).
Proof.
  intros Hn E. unfold find_session_user in E.
  destruct (query (fun d => Ok (session_user_row id now d)) e w) as [r0 w1] eqn:Eq.
  pose proof Eq as [-> Hr]%query_db. destruct Hr as [->| ->].
  - rewrite (mtry_Err _ _ _ _ _ _ Eq) in E. injection E as <- <-. split; [done|]. right. eauto.
  - rewrite (mtry_Ok _ _ _ _ _ _ Eq) in E. unfold session_user_row in E. rewrite Hn in E.
    injection E as <- <-. auto.
Qed.

Lemma forward_auth_user_none config headers peer now :
  forward_auth_username headers peer config = None -> forward_auth_user config headers peer now = mret None.
Proof. intros Hf. unfold forward_auth_user. by rewrite Hf. Qed.

(** The extractors find nobody, and change nothing. *)
Lemma resolve_user_none config req e w r w' :
  no_session config req (w_db w) -> resolve_user config (parts_of req) e w = (r, w') ->
  r = Done None /\ w_db w' = w_db w.
Proof.
  intros [Hs Hf] E. unfold resolve_user in E.
  apply mbind_inv in E as [[[=] _]|(now & w1 & En & E)]. unfold utc_now in En. injection En as <- <-.
  rewrite (forward_auth_user_none _ _ _ _ Hf) in E.
  change (session_id_from_jar _ _ _) with (incoming_session config req) in E.
  destruct (incoming_session config req) as [id|]; [|by injection E as <- <-].
  apply mbind_inv in E as [[E _]|(x & w2 & E2 & E)].
  - apply find_session_user_none in E as [_ [[=]|[? [=]]]]; by apply Hs.
  - apply find_session_user_none in E2 as [D Hx]; [|by apply Hs].
    destruct Hx as [[= ->]|[? [= ->]]]; injection E as <- <-; done.
Qed.

Lemma CurrentUser_none config req e w r w' :
  no_session config req (w_db w) -> CurrentUser config (parts_of req) e w = (r, w') ->
  r = Done (Err RF_RedirectToLogin) /\ w_db w' = w_db w.
Proof.
  intros Hn E. unfold CurrentUser in E. apply mbind_inv in E as [[E _]|(x & w2 & E2 & E)].
  - by apply resolve_user_none in E as [[=] _].
  - apply resolve_user_none in E2 as [[= ->] D]; [|done]. by injection E as <- <-.
Qed.

Lemma AdminUser_none config req e w r w' :
  no_session config req (w_db w) -> AdminUser config (parts_of req) e w = (r, w') ->
  r = Done (Err RF_RedirectToLogin) /\ w_db w' = w_db w.
Proof.
  intros Hn E. unfold AdminUser, mtry in E. apply mbind_inv in E as [[E _]|(x & w2 & E2 & E)].
  - by apply CurrentUser_none in E as [[=] _].
  - apply CurrentUser_none in E2 as [[= ->] D]; [|done]. by injection E as <- <-.
Qed.

Lemma validate_api_key_none hash now e w r w' :
  (forall id k, t_rows (api_keys (w_db w)) !! id = Some k -> kr_token_hash k <> hash) ->
  validate_api_key hash now e w = (r, w') ->
  w_db w' = w_db w /\ (r = Done (Ok None) \/ exists x, r = Done (Err x)).
Proof.
  intros Hn E. unfold validate_api_key in E.
  match type of E with mtry (query ?q) _ _ _ = _ => destruct (query q e w) as [r0 w1] eqn:Eq end.
  pose proof Eq as [-> Hr]%query_db. destruct Hr as [->| ->].
  - rewrite (mtry_Err _ _ _ _ _ _ Eq) in E. injection E as <- <-. eauto.
  - rewrite (mtry_Ok _ _ _ _ _ _ Eq) in E. destruct (find_row _ _) as [[i k]|] eqn:Ef.
    + apply find_row_Some in Ef as [Hk Hh%bool_decide_eq_true]. by apply Hn in Hk.
    + injection E as <- <-. auto.
Qed.

Lemma ApiUser_none headers e w r w' :
  no_key headers (w_db w) -> ApiUser headers e w = (r, w') ->
  w_db w' = w_db w /\ (r = Done (Err unauthorized) \/ r = Done (Err internal)).
Proof.
  intros Hn E. unfold ApiUser, ok_or in E. destruct (bearer_token headers) as [t|] eqn:Et.
  2: { injection E as <- <-. auto. }
  apply mbind_inv in E as [[[=] _]|(x & w0 & E0 & E)]. injection E0 as <- <-. cbv beta iota zeta in E.
  apply mbind_inv in E as [[[=] _]|(now & w1 & En & E)]. unfold utc_now in En. injection En as <- <-.
  apply mbind_inv in E as [[E _]|(x & w2 & E2 & E)]; apply mbind_inv in E || apply mbind_inv in E2.
  - destruct E as [[E _]|(y & w3 & _ & [=])].
    apply validate_api_key_none in E as [_ [[=]|[? [=]]]]; intros id k Hk; by apply (Hn t id k).
  - destruct E2 as [[_ [=]]|(y & w3 & E3 & E4)].
    apply validate_api_key_none in E3 as [D Hy]; [|intros id k Hk; by apply (Hn t id k)].
    destruct Hy as [[= ->]|[z [= ->]]]; injection E4 as <- <-; injection E as <- <-; auto.
Qed.

(** ** Inside the layers of the web routes *)

Lemma find_filter_other {A} (p q : A -> bool) l :
  (forall x, q x = true -> p x = true) -> List.find q (List.filter p l) = List.find q l.
Proof.
  intros Hpq. induction l as [|x l IH]; [done|]. cbn [List.filter List.find].
  destruct (q x) eqn:Eq; [by rewrite (Hpq x Eq); cbn; rewrite Eq|].
  destruct (p x); [cbn; by rewrite Eq|done].
Qed.

Lemma header_get_inserted name other v headers :
  eq_ignore_ascii_case name other = false ->
  header_get (header_insert other v headers) name = header_get headers name.
Proof.
  intros Hne. unfold header_get, header_insert. f_equal.
  assert (forall h : str * option str, eq_ignore_ascii_case h.1 name = true ->
    negb (is_header other h) = true) as Hp.
  { intros h Hh. apply negb_true_iff. unfold is_header, eq_ignore_ascii_case in *.
    apply bool_decide_eq_true in Hh. by rewrite Hh. }
  rewrite <- (find_filter_other _ _ headers Hp). generalize (List.filter (fun h => negb (is_header other h)) headers) as l.
  intros l. induction l as [|h l IH]; [|cbn; by rewrite IH].
  cbn. destruct (eq_ignore_ascii_case other name) eqn:E; [|done]. exfalso.
  unfold eq_ignore_ascii_case in *. apply bool_decide_eq_true in E. apply bool_decide_eq_false in Hne.
  by rewrite E in Hne.
Qed.

Lemma forward_auth_username_cookie config req cookie :
  gateway_header_ok config ->
  forward_auth_username (in_headers (with_cookie cookie req)) (in_peer req) config =
  forward_auth_username (in_headers req) (in_peer req) config.
Proof.
  intros Hg. unfold forward_auth_username. destruct (cf_forward_auth_header config) as [h|] eqn:Eh; [|done].
  destruct (in_peer req) as [peer|]; [|done]. cbn [base.mbind option_bind]. destruct (negb _); [done|].
  change (in_headers (with_cookie cookie req)) with (replace_request_cookie (in_headers req) cookie).
  unfold replace_request_cookie. destruct (header_value _) as [v|]; [|done].
  rewrite header_get_inserted; [done|by apply Hg].
Qed.

Lemma csrf_guard_inv config req next e w r w' :
  csrf_guard config req next e w = (r, w') ->
  next e w = (r, w') \/ (r = Done (status_response 403) /\ w' = w).
Proof. unfold csrf_guard. repeat case_match; intros E; try (by left); injection E as <- <-; by right. Qed.

(** A stranger stays one: the request that the routes get carries the cookie of no stored
    session either, and nothing has changed by then. *)
Definition passed_on (config : Config) (routes : Incoming -> M Response) (req : Incoming)
    (e : Env) (w : World) (r : exec Response) (w' : World) : Prop :=
  exists req' w0 added r0, in_method req' = in_method req /\ no_session config req' (w_db w0) /\
    w_db w0 = w_db w /\
    (routes req' e w0 = (r0, w') \/ (r0 = Done (status_response 403) /\ w' = w0)) /\
    r = match r0 with Done resp => Done (answer added resp) | Panic => Panic end.

Lemma anonymous_session_stranger config routes req e w r w' :
  readable (in_headers req) -> gateway_header_ok config -> fresh_uuids e (w_db w) ->
  no_session config req (w_db w) ->
  anonymous_session config (csrf_layer config routes) req e w = (r, w') ->
  exists req' w0 added r0, in_method req' = in_method req /\ no_session config req' (w_db w0) /\
    w_db w0 = w_db w /\
    (routes req' e w0 = (r0, w') \/ (r0 = Done (status_response 403) /\ w' = w0)) /\
    r = match r0 with
        | Done resp => Done (match added with Some c => append_cookie c resp | None => resp end)
        | Panic => Panic end.
Proof.
  intros Hr Hg Hf Hn E. unfold anonymous_session in E.
  destruct (incoming_session config req) as [id|] eqn:Ei.
  - apply csrf_guard_inv in E. exists req, w, None, r. split_and!; try done. by destruct r.
  - apply mbind_inv in E as [[[=] _]|(token & w1 & En & E)]. unfold new_session_token, new_v4 in En.
    injection En as <- <-. apply mmap_inv in E as (r0 & E & ->). apply csrf_guard_inv in E.
    destruct (Hf (w_uuids w)) as [Hp Hs].
    destruct (with_session_cookie config (env_uuid e (w_uuids w)) req Hr Hp) as [_ Hi].
    eexists _, _, (Some _), r0. split_and!; [| | |exact E|reflexivity]; try done. split.
    + intros id' Hid'. rewrite Hi in Hid'. injection Hid' as <-. exact Hs.
    + change (in_peer (with_cookie ?c req)) with (in_peer req).
      rewrite forward_auth_username_cookie by done. apply Hn.
Qed.

Lemma web_layers_stranger config routes req e w r w' :
  readable (in_headers req) -> gateway_header_ok config -> fresh_uuids e (w_db w) ->
  no_session config req (w_db w) ->
  web_layers config routes req e w = (r, w') -> passed_on config routes req e w r w'.
Proof.
  intros Hr Hg Hf Hn E. apply mmap_inv in E as (r1 & E & ->). apply mmap_inv in E as (r2 & E & ->).
  assert (exists w1, w_db w1 = w_db w /\ anonymous_session config (csrf_layer config routes) req e w1 = (r2, w'))
    as (w1 & D & E1).
  { unfold forward_auth_session in E. destruct (cf_forward_auth_header config); [|by exists w].
    apply mbind_inv in E as [[[=] _]|(now & w1 & En & E)]. unfold utc_now in En. injection En as <- <-.
    apply mbind_inv in E as [[E _]|(live & w2 & E2 & E)]; [unfold live_session in E|unfold live_session in E2].
    - destruct (incoming_session config req) as [id|] eqn:Ei; [|done].
      apply mbind_inv in E as [[E _]|(x & w2 & _ & [=])].
      apply find_session_user_none in E as [_ [[=]|[? [=]]]]; by apply Hn.
    - assert (live = false /\ w_db w2 = w_db w) as [-> D].
      { destruct (incoming_session config req) as [id|] eqn:Ei; [|by injection E2 as <- <-].
        apply mbind_inv in E2 as [[_ [=]]|(x & w3 & E3 & E2)].
        apply find_session_user_none in E3 as [D [[= ->]|[? [= ->]]]]; [| |by apply Hn..];
          by injection E2 as <- <-. }
      rewrite forward_auth_user_none in E by apply Hn. by exists w2. }
  rewrite <- D in Hf, Hn. apply anonymous_session_stranger in E1 as (req' & w0 & added & r0 & Hm & Hn' & D0 & E1 & ->);
    [|done..].
  exists req', w0, added, r0. split_and!; [done|done|by rewrite D0|done|]. by destruct r0 as [resp|].
Qed.

End strangers.

(** ** The routes by what they need *)

Section perimeter.
Context `{ChronoLaws} `{!Cron} `{CryptoLaws} `{PageText} `{NotifyDeps} `{HashOrder} `{!JsonText} `{IpText} `{Argon2}.
Context `{FormUrl} `{CookieParseLaws} `{Extract} `{Embedded} `{ApiText}.

Definition needs_caller (ep : Endpoint) : bool :=
  match ep with
  | E_Web (WR_User _) | E_Web (WR_Admin _) | E_Api _ | E_Docs _ => true
  | _ => false
  end.
Definition enters (ep : Endpoint) : bool :=
  match ep with
  | E_Ping _ => true
  | E_Web (WR_Public (Ok (PB_SetupSubmit _))) | E_Web (WR_Public (Ok (PB_LoginSubmit _))) => true
  | _ => false
  end.

Definition route_facts (r : Route) : Prop :=
  (rt_pattern r ∈ OPEN_PATTERNS \/ Forall (fun h => forall a, needs_caller (h.2 a) = true) (rt_handlers r)) /\
  (rt_pattern r ∈ ENTRY_PATTERNS \/ Forall (fun h => forall a, enters (h.2 a) = false) (rt_handlers r)).

Lemma routes_facts : Forall route_facts all_routes.
Proof.
  unfold all_routes, web_routes, ping_routes, api_routes, docs_routes, asset_routes.
  repeat (apply Forall_cons; split; [split;
    first [left; apply (bool_decide_eq_true_1 _); vm_compute; reflexivity
          |right; repeat apply Forall_cons_2; try apply Forall_nil_2; intros ?; reflexivity]|]).
  apply Forall_nil_2.
Qed.

Lemma find_route_elem routes path r captures :
  find_route routes path = Some (r, captures) -> r ∈ routes.
Proof.
  induction routes as [|r1 routes IH]; [done|]. cbn [find_route].
  destruct (match_segments _ _); destruct (find_route routes path) as [[r2 c2]|]; try done.
  - destruct (precedes _ _); intros [= <- <-]; [right; by apply IH|left].
  - intros [= <- <-]. left.
  - intros [= <- <-]. right. by apply IH.
Qed.

Lemma method_handler_elem {R} (handlers : list (str * (Args -> R))) method h :
  method_handler handlers method = Some h -> exists name, (name, h) ∈ handlers.
Proof.
  assert (forall name, snd <$> List.find (fun h => bool_decide (h.1 = name)) handlers = Some h ->
    exists name, (name, h) ∈ handlers) as Hn.
  { intros name Hf. apply fmap_Some in Hf as ([n h'] & Hf & ->). apply List.find_some in Hf as [Hin _].
    exists n. by apply list_elem_of_In. }
  unfold method_handler. destruct (snd <$> _) eqn:E.
  - intros [= <-]. by eapply Hn.
  - destruct (bool_decide _); [apply Hn|done].
Qed.

(** ** What they answer a stranger *)

(** The parts of an answer the layers do not touch. *)
Definition core (resp : Response) : Z * option str * Page := (rs_status resp, rs_location resp, rs_page resp).

(** A visitor is sent to the login page, or refused: by the CSRF guard, by the method router,
    or by the API, whose error says nothing about what there is. *)
Definition turned_away (resp : Response) : Prop :=
  core resp ∈ [(303, Some (lit "/login"), P_None); (403, None, P_None); (405, None, P_None)] \/
  exists x, x ∈ [unauthorized; internal] /\
    core resp ∈ [(ae_status x, None, P_Text (json_to_string (ApiError_into_response x).2));
                 (ae_status x, None, P_None)].

Lemma core_set_default name v resp : core (set_default name v resp) = core resp.
Proof. unfold set_default. by destruct (has_header name resp). Qed.
Lemma core_answer added resp : core (answer added resp) = core resp.
Proof. unfold answer. rewrite !core_set_default. by destruct added. Qed.
Lemma turned_away_core resp resp' : core resp = core resp' -> turned_away resp -> turned_away resp'.
Proof. unfold turned_away. by intros ->. Qed.
Lemma turned_away_without_body resp : turned_away resp -> turned_away (without_body resp).
Proof.
  unfold turned_away, core. destruct resp as [st loc hs cs pg]. cbn.
  intros [Hc|(x & Hx & Hc)].
  - left. set_unfold. naive_solver.
  - right. exists x. split; [done|]. set_unfold in Hc. set_unfold. naive_solver.
Qed.

Lemma turned_away_api x : x ∈ [unauthorized; internal] -> turned_away (api_finish (Err x)).
Proof. intros Hx. right. exists x. split; [exact Hx|]. left. Qed.

Lemma needs_caller_turned config a ep e w r w' :
  no_session config (a_req a) (w_db w) -> no_key (in_headers (a_req a)) (w_db w) \/ (exists r, ep = E_Web r) ->
  needs_caller ep = true -> endpoint_handle config a ep e w = (r, w') ->
  w_db w' = w_db w /\ exists resp, r = Done resp /\ turned_away resp.
Proof.
  intros Hs Hk Hn E.
  assert (turned_away (refused RF_RedirectToLogin)) as Hl by (by left; left).
  destruct ep as [|[rq|rq|rq|rq]| |rq|page|]; try done; cbn [endpoint_handle] in E.
  - apply mbind_inv in E as [[E _]|(u & w1 & E1 & E)].
    { by apply CurrentUser_none in E as [[=] _]. }
    apply CurrentUser_none in E1 as [[= ->] D]; [|done]. injection E as <- <-. eauto.
  - apply mbind_inv in E as [[E _]|(u & w1 & E1 & E)].
    { by apply AdminUser_none in E as [[=] _]. }
    apply AdminUser_none in E1 as [[= ->] D]; [|done]. injection E as <- <-. eauto.
  - destruct Hk as [Hk|[? [=]]]. apply mbind_inv in E as [[E _]|(u & w1 & E1 & E)].
    { by apply ApiUser_none in E as [_ [[=]|[=]]]. }
    apply ApiUser_none in E1 as [D Hu]; [|done].
    assert (forall x, (Done (api_finish (Err x)), w1) = (r, w') -> x ∈ [unauthorized; internal] ->
      w_db w' = w_db w /\ exists resp, r = Done resp /\ turned_away resp) as Hx.
    { intros x Ex Hx. split; [by rewrite <- D; apply (f_equal (fun p => w_db p.2)) in Ex|].
      exists (api_finish (Err x)). split; [by apply (f_equal fst) in Ex|]. by apply turned_away_api. }
    destruct Hu as [[= ->]|[= ->]]; (eapply Hx; [exact E|]); [left|right; left].
  - apply mbind_inv in E as [[E _]|(u & w1 & E1 & E)].
    { by apply CurrentUser_none in E as [[=] _]. }
    apply CurrentUser_none in E1 as [[= ->] D]; [|done]. injection E as <- <-. eauto.
Qed.
(** Signing out of a session that is not stored deletes nothing. *)
Lemma preserves_delete_no_session d0 id :
  sessions d0 !! id = None ->
  preserves (eq d0) (delete_sessions_where (fun k _ => bool_decide (k = id))).
Proof.
  intros Hn. unfold delete_sessions_where. apply preserves_stmt. intros d n d' <- [= _ <-].
  rewrite map_filter_id; [by destruct d0|]. intros k r Hk. apply bool_decide_eq_false. cbn.
  intros ->. congruence.
Qed.

Lemma preserves_logout d0 config req :
  no_session config req d0 ->
  preserves (eq d0) (logout config (jar_of req) (in_headers req) (in_peer req)).
Proof.
  intros [Hs _]. unfold logout, elev_revoke.
  change (jar_session_id config (jar_of req)) with (incoming_session config req).
  destruct (incoming_session config req) as [id|]; handler_steps; auto with pw.
  by apply preserves_delete_no_session, Hs.
Qed.

Lemma enters_not_same config a ep e w r w' :
  no_session config (a_req a) (w_db w) -> no_key (in_headers (a_req a)) (w_db w) \/ (exists r, ep = E_Web r) ->
  enters ep = false -> endpoint_handle config a ep e w = (r, w') -> w_db w' = w_db w.
Proof.
  intros Hs Hk Hn E. destruct (needs_caller ep) eqn:Hc.
  { by destruct (needs_caller_turned _ _ _ _ _ _ _ Hs Hk Hc E) as [D _]. }
  assert (forall (m : M (res AppError Response)) w1, preserves (eq (w_db w1)) m -> w_db w1 = w_db w ->
    mmap finish m e w1 = (r, w') -> w_db w' = w_db w) as Hm.
  { intros m w1 Hp D Em. apply mmap_inv in Em as (r0 & Em & _). rewrite <- D. symmetry. exact (Hp _ _ _ _ eq_refl Em). }
  destruct ep as [|[[rq|x]|[rq|x]|rq|rq]|rq|rq|page|[resp|x]]; try done; cbn [endpoint_handle web_handle served] in E;
    try (by injection E as _ <-).
  - destruct rq; try done; (eapply Hm; [|reflexivity|exact E]).
    + unfold public_handle, setup_page, count_users. handler_steps; auto with pw.
    + by apply preserves_logout.
  - apply mbind_inv in E as [[E _]|(u & w1 & E1 & E)]; [by apply resolve_user_none in E as [[=] _]|].
    apply resolve_user_none in E1 as [[= ->] D]; [|done]. eapply Hm; [|exact D|exact E].
    destruct rq; unfold visitor_handle, login_page, Dashboard.dashboard, Owner.see, count_users;
      handler_steps; auto with pw.
  - apply mbind_inv in E as [[E _]|(u & w1 & E1 & E)]; [by apply resolve_user_none in E as [[=] _]|].
    apply resolve_user_none in E1 as [[= ->] D]; [|done]. by injection E as _ <-.
Qed.

(** One route: what it answers inside its layers, for a request that is still a stranger's. *)
Definition kept_out (route : Route) (d : Db) (r : exec Response) (w' : World) : Prop :=
  (rt_pattern route ∉ ENTRY_PATTERNS -> w_db w' = d) /\
  (rt_pattern route ∉ OPEN_PATTERNS -> exists resp, r = Done resp /\ turned_away resp).

Lemma kept_out_core route d r r' w' :
  kept_out route d r w' ->
  (forall resp, r = Done resp -> exists resp', r' = Done resp' /\ core resp' = core resp) ->
  kept_out route d r' w'.
Proof.
  intros [Ha Hb] Hc. split; [done|]. intros Hp. destruct (Hb Hp) as (resp & -> & Ht).
  destruct (Hc resp eq_refl) as (resp' & -> & E). exists resp'. split; [done|]. by eapply turned_away_core.
Qed.

Lemma kept_out_403 route w : kept_out route (w_db w) (Done (status_response 403)) w.
Proof. split; [done|]. intros _. eexists. split; [done|]. left. right. left. Qed.

Lemma web_mount r : r ∈ all_routes ->
  rt_mount r = M_Web -> Forall (fun h => forall a, exists x, h.2 a = E_Web x) (rt_handlers r).
Proof.
  intros Hr. assert (Forall (fun r => rt_mount r = M_Web ->
    Forall (fun h => forall a, exists x, h.2 a = E_Web x) (rt_handlers r)) all_routes) as Hall.
  { unfold all_routes. apply Forall_cons. split; [done|]. rewrite !Forall_app, !Forall_fmap.
    split_and!; apply Forall_forall; try (intros [p hs] _; done).
    intros [p hs] _ _. cbn. apply Forall_fmap, Forall_forall. intros [m k] _ a. by exists (k a). }
  rewrite Forall_forall in Hall. by apply Hall.
Qed.

Lemma route_kept_out config h route captures req e w r w' :
  route ∈ all_routes -> no_session config req (w_db w) ->
  no_key (in_headers req) (w_db w) \/ rt_mount route = M_Web ->
  route_handle config h route captures req e w = (r, w') -> kept_out route (w_db w) r w'.
Proof.
  intros Hr Hs Hk E. unfold route_handle in E.
  destruct (method_handler _ _) as [handler|] eqn:Eh.
  2: { injection E as <- <-. split; [done|]. intros _. eexists. split; [done|]. left. right. right. left. }
  apply method_handler_elem in Eh as [name Hh].
  set (a := mk_Args captures (h_path h) (h_query h) req) in E.
  assert (no_key (in_headers (a_req a)) (w_db w) \/ exists x, handler a = E_Web x) as Hk'.
  { destruct Hk as [Hk|Hm]; [by left|right]. apply web_mount in Hm; [|done].
    rewrite Forall_forall in Hm. exact (Hm _ Hh a). }
  pose proof routes_facts as Hf. rewrite Forall_forall in Hf. destruct (Hf _ Hr) as [Hn He].
  apply mmap_inv in E as (r0 & E & ->). split.
  - intros Hp. destruct He as [?|He]; [done|]. rewrite Forall_forall in He.
    exact (enters_not_same config a (handler a) e w r0 w' Hs Hk' (He _ Hh a) E).
  - intros Hp. destruct Hn as [?|Hn]; [done|]. rewrite Forall_forall in Hn.
    destruct (needs_caller_turned config a (handler a) e w r0 w' Hs Hk' (Hn _ Hh a) E) as [_ (resp & -> & Ht)].
    eexists. split; [done|]. case_bool_decide; [by apply turned_away_without_body|done].
Qed.

(** The pattern a path is routed by ([MatchedPath]). *)
Definition matched_path (path : str) : option str := rt_pattern ∘ fst <$> route_of path.

Lemma app_layers_core config routes req e w r w' :
  app_layers config routes req e w = (r, w') ->
  exists r0, routes req e w = (r0, w') /\ (r0 = Panic -> r = Panic) /\
    forall resp, r0 = Done resp -> exists resp', r = Done resp' /\ core resp' = core resp.
Proof.
  intros E. apply mmap_inv in E as (r1 & E & ->). apply mmap_inv in E as (r0 & E & ->).
  exists r0. split; [exact E|]. split; [by intros ->|]. intros resp ->. eexists. split; [done|].
  cbn [fold_left STATIC_SECURITY_HEADERS]. rewrite !core_set_default. by destruct (0 <? _).
Qed.

(** C5: a stranger changes nothing and is shown nothing. Take any request whose cookies
    verify to no stored session, that no trusted gateway names a user for, and whose bearer
    token hashes to no stored key. Unless its path is routed to the setup, the login or a
    ping, no table changes, whatever its method, query, body and the failures of the
    database; and unless it is routed to one of the pages open to everybody, it is answered
    (never a panic) with a redirect to the login page, a bare refusal, or the API's error,
    none of which depends on what is stored. This is of the whole application: the route
    table, the layers, the extractors and every handler. *)
Theorem strangers_kept_out config h e w r w' :
  readable (in_headers (h_in h)) -> gateway_header_ok config -> fresh_uuids e (w_db w) ->
  stranger config (h_in h) (w_db w) ->
  app config h e w = (r, w') ->
  ((forall pat, matched_path (h_path h) = Some pat -> pat ∉ ENTRY_PATTERNS) -> w_db w' = w_db w) /\
  (forall pat, matched_path (h_path h) = Some pat -> pat ∉ OPEN_PATTERNS ->
     exists resp, r = Done resp /\ turned_away resp).
Proof.
  intros Hread Hg Hf [Hs Hk] E. apply app_layers_core in E as (r0 & E & _ & Hc).
  unfold matched_path. destruct (route_of (h_path h)) as [[route captures]|] eqn:Er.
  2: { injection E as <- <-. split; [done|]. by intros ? [=]. }
  assert (route ∈ all_routes) as Hr by (by eapply find_route_elem).
  assert (kept_out route (w_db w) r w') as [Ha Hb].
  2: { split; [intros Hp; apply Ha; by apply Hp|]. by intros pat [= <-]. }
  eapply kept_out_core; [|exact Hc]. clear Hc. destruct (rt_mount route) eqn:Em; cbn [mount_layers] in E.
  - eapply route_kept_out; eauto.
  - apply web_layers_stranger in E as (req' & w0 & added & r1 & _ & Hs' & D & E & ->); [|done..].
    rewrite <- D. apply (kept_out_core _ _ r1).
    + destruct E as [E|[-> ->]]; [eapply route_kept_out; eauto|apply kept_out_403].
    + intros resp ->. eexists. split; [done|]. apply core_answer.
  - apply mmap_inv in E as (r1 & E & ->). apply (kept_out_core _ _ r1).
    + eapply route_kept_out; eauto.
    + intros resp ->. eexists. split; [done|]. apply core_set_default.
Qed.
End perimeter.

(** ** A witness *)

#[local] Existing Instances SampleChrono.sample_chrono SampleChrono.sample_chrono_laws.
#[local] Existing Instances SampleChrono.sample_cron SampleCrypto.sample_crypto SampleCrypto.sample_crypto_laws.
#[local] Existing Instances SamplePageText.sample_page_text SampleJson.sample_deps SampleJson.sample_json.
#[local] Existing Instances SampleWeb.sample_ip_text SampleWeb.sample_argon2 SampleWeb.sample_form_url.
#[local] Existing Instances SampleCookies.sample_cookies SampleCookies.sample_cookies_laws sample_hash_order.
#[local] Existing Instances SampleHttp.sample_extract SampleHttp.sample_embedded SampleHttp.sample_api_text.

(** The page of a check, asked for with a stale cookie. *)
Definition stale_get : Http :=
  mk_Http (lit "/checks/1") None
    (mk_Incoming (lit "GET") [(lit "Cookie", Some (lit "__Host-pingward_session=old.00"))] (Some []) None).

Lemma strangers_kept_out_witness :
  exists resp w', app sample_config stale_get (calm_env 0) (world_of web_db) = (Done resp, w') /\
    w_db w' = web_db /\ turned_away resp /\ rs_location resp = Some (lit "/login").
Proof.
  assert (match (app sample_config stale_get (calm_env 0) (world_of web_db)).1 with
          | Done resp => rs_location resp
          | Panic => None end = Some (lit "/login")) as N by (vm_compute; reflexivity).
  destruct (app sample_config stale_get (calm_env 0) (world_of web_db)) as [r w'] eqn:E.
  destruct (strangers_kept_out sample_config stale_get (calm_env 0) (world_of web_db) r w') as [Ha Hb].
  - intros n v Hv%list_elem_of_singleton. by injection Hv as -> ->.
  - intros h Hh. vm_compute in Hh. discriminate Hh.
  - intros n. split; [apply calm_env_plain|]. vm_compute. reflexivity.
  - split; [split|].
    + intros id Hid. vm_compute in Hid. discriminate Hid.
    + vm_compute. reflexivity.
    + intros t id r0 Ht. vm_compute in Ht. discriminate Ht.
  - exact E.
  - destruct (Hb (lit "/checks/{id}")) as (resp & -> & Ht).
    + vm_compute. reflexivity.
    + apply (bool_decide_eq_false_1 _). vm_compute. reflexivity.
    + exists resp, w'. split; [reflexivity|]. split; [|split; [exact Ht|exact N]].
      rewrite <- (world_of_db web_db). apply Ha. intros pat Hp. vm_compute in Hp. injection Hp as <-.
      apply (bool_decide_eq_false_1 _). vm_compute. reflexivity.
Defined.
