(* ===== verification/Links.v ===== *)
(** * Links: the addresses the pages print are those the routes read

    The handlers print links, form actions and redirects as text; [Router] reads a path
    back into a request. A path with a number (or a session's handle) in it is routed by
    its shape, once for every number. *)
From S2P Require Import Prelude Text Models Config Wire Secret Chrono Auth Db Rows Store Sessions Sample Notify Channels Errors Access Templates Web Middleware Assets Account Listing Owner Pages Admin Dto Api UserAdmin Router.
From S2P Require Ping.
#[local] Open Scope Z_scope.
#[local] Open Scope pw_scope.

(** ** Routing by shape *)

(** The segments of a path, [None] where [t] stands. *)
Abbreviation Shape := (list (option str)).
Definition fill (t : str) (sh : Shape) : list str := map (default t) sh.

Fixpoint shape_match (p : list Segment) (sh : Shape) : option Shape :=
  match p, sh with
  | [], [] => Some []
  | Sg_Static s :: p', Some t :: sh' => if bool_decide (s = t) then shape_match p' sh' else None
  | Sg_Capture :: p', Some t :: sh' => if is_empty t then None else cons (Some t) <$> shape_match p' sh'
  | Sg_Capture :: p', None :: sh' => cons None <$> shape_match p' sh'
  | _, _ => None
  end.

(** The index of the route in the table, its pattern, and what is captured. *)
Fixpoint find_shape (patterns : list (list Segment)) (sh : Shape) : option (nat * list Segment * Shape) :=
  match patterns with
  | [] => None
  | p :: patterns' =>
      let other := (fun '(i, p', c) => (S i, p', c)) <$> find_shape patterns' sh in
      match shape_match p sh, other with
      | None, _ => other
      | Some c, Some (i, p', c') => if precedes p' p then other else Some (0%nat, p, c)
      | Some c, None => Some (0%nat, p, c)
      end
  end.

Definition statics (p : list Segment) : list str :=
  omap (fun s => match s with Sg_Static s => Some s | Sg_Capture => None end) p.
Definition hole_ok (t : str) (p : list Segment) : Prop := t <> [] /\ (t ∉ statics p).

Lemma match_fill t p sh : hole_ok t p -> match_segments p (fill t sh) = fill t <$> shape_match p sh.
Proof.
  intros [Hne Hs]. unfold fill. revert sh. induction p as [|[s|] p IH]; intros [|[u|] sh]; try done; cbn -[bool_decide] in *.
  - apply not_elem_of_cons in Hs as [_ Hs]. case_bool_decide; [by apply IH|done].
  - apply not_elem_of_cons in Hs as [Hst _]. by rewrite bool_decide_eq_false_2.
  - destruct (is_empty u); [done|]. rewrite (IH Hs). by destruct (shape_match p sh).
  - destruct t as [|c t]; [done|]. rewrite (IH Hs). by destruct (shape_match p sh).
Qed.

Lemma find_fill t routes sh :
  Forall (fun r => hole_ok t (segments (rt_pattern r))) routes ->
  match find_shape (map (fun r => segments (rt_pattern r)) routes) sh with
  | Some (i, p, c) => exists r, routes !! i = Some r /\ segments (rt_pattern r) = p /\
      find_route routes (fill t sh) = Some (r, fill t c)
  | None => find_route routes (fill t sh) = None
  end.
Proof.
  induction 1 as [|r routes Hr _ IH]; [done|]. cbn [map find_shape find_route].
  rewrite (match_fill _ _ _ Hr).
  destruct (shape_match _ sh) as [c|]; destruct (find_shape _ sh) as [[[i p] c']|]; cbn [fmap option_fmap option_map].
  - destruct IH as (r' & Hi & <- & ->). destruct (precedes _ _); eauto.
  - rewrite IH. eauto.
  - destruct IH as (r' & Hi & <- & ->). eauto.
  - by rewrite IH.
Qed.

(** ** Addresses *)

(** An address as a browser asks for it: the path, and the query after ['?']. *)
Definition split_url (url : str) : str * option str :=
  match split_once (chr "?") url with
  | Some (path, q) => (path, Some q)
  | None => (url, None)
  end.

Lemma split_on_join (l : list str) :
  l <> [] -> (forall s, s ∈ l -> chr "/" ∉ s) -> split_on (chr "/") (join (lit "/") l) = l.
Proof.
  induction l as [|s l IH]; [done|]. intros _ Hl. destruct l as [|s' l].
  - cbn. apply split_on_none, Hl. left.
  - change (join (lit "/") (s :: s' :: l)) with (s ++ chr "/" :: join (lit "/") (s' :: l)).
    rewrite split_on_app, split_on_none by (apply Hl; left). cbn [app]. f_equal.
    apply IH; [done|]. intros u Hu. apply Hl. by right.
Qed.

Section links.
Context `{Extract} `{Embedded}.

(** What a request for an address reaches. *)
Definition endpoint_of (method url : str) (req : Incoming) : option Endpoint :=
  let '(path, q) := split_url url in
  '(route, captures) ← route_of path;
  handler ← method_handler (rt_handlers route) method;
  Some (handler (mk_Args captures path q req)).

Definition patterns : list (list Segment) := map (fun r => segments (rt_pattern r)) all_routes.

(** A text that can stand in a path and is no static segment of the table. *)
Definition hole (t : str) : Prop :=
  plain t = true /\ Forall (fun r => hole_ok t (segments (rt_pattern r))) all_routes.

Lemma plain_no_mark t c : plain t = true -> plain_char c = false -> c ∉ t.
Proof.
  intros Ht Hc Hin. rewrite forallb_forall in Ht. apply list_elem_of_In, Ht in Hin. congruence.
Qed.

Lemma path_no_mark t sh :
  plain t = true -> forallb (fun s => match s with Some s => plain s | None => true end) sh = true ->
  chr "?" ∉ join (lit "/") (fill t sh).
Proof.
  intros Hp Hsh. induction sh as [|o sh IH]; [apply not_elem_of_nil|].
  cbn [forallb] in Hsh. apply andb_true_iff in Hsh as [Ho Hsh]. cbn [fill map].
  assert (chr "?" ∉ default t o) as Hm by (apply plain_no_mark; [by destruct o|done]).
  destruct sh as [|o' sh]; [exact Hm|].
  change (join (lit "/") (default t o :: fill t (o' :: sh)))
    with (default t o ++ lit "/" ++ join (lit "/") (fill t (o' :: sh))).
  intros [Hin|[Hin|Hin]%elem_of_app]%elem_of_app; [done| |by apply IH].
  revert Hin. apply (bool_decide_eq_false_1 _). reflexivity.
Qed.

(** An address with its query. *)
Definition marked (path : str) (q : option str) : str :=
  match q with Some q => path ++ lit "?" ++ q | None => path end.

Lemma filled_plain t sh s :
  plain t = true -> forallb (fun s => match s with Some s => plain s | None => true end) sh = true ->
  s ∈ fill t sh -> plain s = true.
Proof.
  intros Hp Hsh Hin. unfold fill in Hin. apply list_elem_of_fmap in Hin as (o & -> & Ho).
  rewrite forallb_forall in Hsh. apply list_elem_of_In, Hsh in Ho. by destruct o.
Qed.

Lemma route_of_shape t sh i p c r :
  hole t -> sh <> [] -> forallb (fun s => match s with Some s => plain s | None => true end) sh = true ->
  find_shape patterns sh = Some (i, p, c) -> all_routes !! i = Some r ->
  route_of (join (lit "/") (fill t sh)) = Some (r, fill t c).
Proof.
  intros [Hp Hr] Hne Hsh Hf Hi. unfold route_of. rewrite split_on_join.
  - pose proof (find_fill t all_routes sh Hr) as Hfind. unfold patterns in Hf. rewrite Hf in Hfind.
    destruct Hfind as (r' & Hi' & _ & ->). rewrite Hi in Hi'. by injection Hi' as <-.
  - by destruct sh.
  - intros s Hin. apply plain_no_mark; [by eapply filled_plain|done].
Qed.

Lemma endpoint_of_shape method t sh q req i p c r url :
  hole t -> sh <> [] -> forallb (fun s => match s with Some s => plain s | None => true end) sh = true ->
  url = marked (join (lit "/") (fill t sh)) q ->
  find_shape patterns sh = Some (i, p, c) -> all_routes !! i = Some r ->
  endpoint_of method url req =
    (handler ← method_handler (rt_handlers r) method;
     Some (handler (mk_Args (fill t c) (join (lit "/") (fill t sh)) q req))).
Proof.
  intros Hh Hne Hsh -> Hf Hi. pose proof (route_of_shape t sh i p c r Hh Hne Hsh Hf Hi) as Hroute.
  set (path := join (lit "/") (fill t sh)) in *.
  assert (chr "?" ∉ path) as Hq by (apply path_no_mark; [apply Hh|done]).
  unfold endpoint_of. assert (split_url (marked path q) = (path, q)) as ->.
  { unfold split_url. destruct q as [q|]; cbn [marked].
    - rewrite (proj2 (split_once_Some (chr "?") _ path q)); done.
    - destruct (split_once (chr "?") path) as [[a b]|] eqn:E; [|done].
      apply split_once_Some in E as [E _]. destruct Hq. rewrite E. apply elem_of_app. right. left. }
  cbv beta iota zeta. by rewrite Hroute.
Qed.

(** A route of [web_routes], whose handlers are [on_get], [on_post], or both. *)
Lemma method_handler_mounted {R} (wrap : R -> Endpoint) (hs : list (str * (Args -> R))) method :
  method_handler (map (fun h => (h.1, fun a => wrap (h.2 a))) hs) method =
    (fun h a => wrap (h a)) <$> method_handler hs method.
Proof.
  assert (forall name, snd <$> List.find (fun h => bool_decide (h.1 = name))
      (map (fun h => (h.1, fun a => wrap (h.2 a))) hs) =
    (fun h a => wrap (h a)) <$> (snd <$> List.find (fun h => bool_decide (h.1 = name)) hs)) as Hn.
  { intros name. induction hs as [|h hs IH]; [done|]. cbn -[bool_decide]. by destruct (bool_decide _). }
  unfold method_handler. rewrite !Hn. destruct (snd <$> _); [done|]. by destruct (bool_decide _).
Qed.
Lemma handled_get {R} (h : Args -> R) : method_handler (on_get h) (lit "GET") = Some h.
Proof. reflexivity. Qed.
Lemma handled_post {R} (h : Args -> R) : method_handler (on_post h) (lit "POST") = Some h.
Proof. reflexivity. Qed.
Lemma handled_get_and {R} (h h' : Args -> R) : method_handler (on_get h ++ on_post h') (lit "GET") = Some h.
Proof. reflexivity. Qed.
Lemma handled_and_post {R} (h h' : Args -> R) : method_handler (on_get h ++ on_post h') (lit "POST") = Some h'.
Proof. reflexivity. Qed.

Lemma endpoint_of_web method t sh q req j p c pattern hs k url :
  hole t -> sh <> [] -> forallb (fun s => match s with Some s => plain s | None => true end) sh = true ->
  url = marked (join (lit "/") (fill t sh)) q ->
  find_shape patterns sh = Some (S j, p, c) -> web_routes !! j = Some (pattern, hs) ->
  method_handler hs method = Some k ->
  endpoint_of method url req = Some (E_Web (k (mk_Args (fill t c) (join (lit "/") (fill t sh)) q req))).
Proof.
  intros Hh Hne Hsh Hu Hf Hj Hk.
  assert (all_routes !! S j = Some (mounted M_Web E_Web (pattern, hs))) as Hr.
  { unfold all_routes. cbn [lookup list_lookup]. apply lookup_app_l_Some. rewrite list_lookup_fmap. by rewrite Hj. }
  rewrite (endpoint_of_shape _ _ _ _ _ _ _ _ _ _ Hh Hne Hsh Hu Hf Hr). cbn [mounted rt_handlers snd].
  rewrite method_handler_mounted, Hk. reflexivity.
Qed.

(** Numbers, and the handles of sessions. *)
Lemma hole_of (ok : str -> bool) t :
  plain t = true -> t <> [] -> ok t = false ->
  forallb (fun r => forallb ok (statics (segments (rt_pattern r)))) all_routes = true -> hole t.
Proof.
  intros Hp Hne Ht Hall. split; [done|]. apply Forall_forall. intros r Hr. split; [done|]. intros Hin.
  rewrite forallb_forall in Hall. apply list_elem_of_In, Hall in Hr. rewrite forallb_forall in Hr.
  apply list_elem_of_In, Hr in Hin. congruence.
Qed.
End links.

(** ** Numbers and handles in paths *)

Lemma show_Z_digits n : exists sign ds, show_Z n = sign ++ ds /\ (sign = [] \/ sign = [45]) /\
  ds <> [] /\ forallb is_ascii_digit ds = true.
Proof.
  unfold show_Z. destruct (Z.ltb_spec n 0) as [Hn|Hn].
  - destruct (show_nonneg_spec (- n)) as (Hne & Hd & _); [lia|].
    exists [45], (show_nonneg (- n)). split_and!; auto.
  - destruct (show_nonneg_spec n) as (Hne & Hd & _); [lia|].
    exists [], (show_nonneg n). split_and!; auto.
Qed.

Lemma digits_are_plain ds : forallb is_ascii_digit ds = true -> plain ds = true.
Proof.
  rewrite !forallb_forall. intros Hd c Hc%Hd. unfold plain_char. by rewrite Hc, !orb_true_r.
Qed.

Lemma plain_show_Z n : plain (show_Z n) = true.
Proof.
  destruct (show_Z_digits n) as (sign & ds & -> & [-> | ->] & _ & Hd%digits_are_plain); by rewrite ?forallb_app, Hd.
Qed.

Section holes.
Context `{Extract} `{Embedded}.

Lemma hole_number n : hole (show_Z n).
Proof.
  apply (hole_of (fun s => match s with c :: _ => negb (is_ascii_digit c || (c =? 45)) | [] => true end)).
  - apply plain_show_Z.
  - destruct (show_Z_digits n) as (sign & [|d ds] & -> & [-> | ->] & Hne & _); done.
  - destruct (show_Z_digits n) as (sign & [|d ds] & -> & [-> | ->] & Hne & Hd); try done.
    cbn in *. apply andb_true_iff in Hd as [-> _]. done.
  - vm_compute. reflexivity.
Qed.

Lemma hole_handle `{CryptoLaws} session_id : hole (hash_api_key session_id).
Proof.
  assert (length (hash_api_key session_id) = 64%nat) as Hl.
  { unfold hash_api_key. rewrite hex_encode_length. by rewrite (proj1 (sha256_bytes _)). }
  apply (hole_of (fun s => (length s <? 64)%nat)).
  - apply hex_encode_plain, sha256_bytes.
  - intros E. by rewrite E in Hl.
  - by rewrite Hl.
  - vm_compute. reflexivity.
Qed.

(** What the extractors read from an address that was printed. *)
Context `{!ExtractLaws}.

Lemma path_id_printed id a : in_i64 id = true -> a_captures a = [show_Z id] -> path_id a = Ok id.
Proof.
  intros Hi Ha. unfold path_id, capture. rewrite Ha. cbn. unfold parse_segment.
  rewrite percent_decode_plain by apply plain_show_Z. cbn. by rewrite parse_i64_show by by apply in_i64_spec.
Qed.

Lemma confirmable_printed {A} (k : Z -> bool -> A) id a :
  in_i64 id = true -> a_captures a = [show_Z id] -> a_query a = Some (lit "confirmed=1") ->
  confirmable k a = Ok (k id true).
Proof.
  intros Hi Ha Hq. unfold confirmable, by_id_query, url_query. rewrite (path_id_printed _ _ Hi Ha). cbn.
  by rewrite Hq, confirm_present.
Qed.
End holes.

(** ** Requests that ask first *)

(** A request of a signed-in user, or of an administrator. *)
Abbreviation SiteRequest := (UserSiteRequest + AdminSiteRequest)%type.
Definition site_route (rq : SiteRequest) : WebRoute :=
  match rq with inl rq => WR_User (Ok rq) | inr rq => WR_Admin (Ok rq) end.

(** The destructive requests, as they come at first and as they are once confirmed. *)
Definition confirmed_owner (rq : OwnerRequest) : option OwnerRequest :=
  match rq with
  | OR_ProjectDelete id false => Some (OR_ProjectDelete id true)
  | OR_CheckRegenerate id false => Some (OR_CheckRegenerate id true)
  | OR_CheckDelete id false => Some (OR_CheckDelete id true)
  | _ => None
  end.
Definition confirmed_account (rq : AccountRequest) : option AccountRequest :=
  match rq with
  | AR_KeyDelete id false => Some (AR_KeyDelete id true)
  | AR_Revoke handle false => Some (AR_Revoke handle true)
  | AR_RevokeOthers false => Some (AR_RevokeOthers true)
  | _ => None
  end.
Definition confirmed_admin (rq : AdminRequest) : option AdminRequest :=
  match rq with
  | AMR_ProjectDelete id false => Some (AMR_ProjectDelete id true)
  | AMR_CheckRegenerate id false => Some (AMR_CheckRegenerate id true)
  | AMR_CheckDelete id false => Some (AMR_CheckDelete id true)
  | _ => None
  end.
Definition confirmed_users (rq : UserRequest) : option UserRequest :=
  match rq with
  | UR_Delete id false => Some (UR_Delete id true)
  | UR_ToggleAdmin id false => Some (UR_ToggleAdmin id true)
  | UR_SetDisabled id false => Some (UR_SetDisabled id true)
  | _ => None
  end.
Definition confirmed (rq : SiteRequest) : option SiteRequest :=
  match rq with
  | inl (US_Owner rq) => inl ∘ US_Owner <$> confirmed_owner rq
  | inl (US_Account rq) => inl ∘ US_Account <$> confirmed_account rq
  | inr (AS_Write rq) => inr ∘ AS_Write <$> confirmed_admin rq
  | inr (AS_Users rq) => inr ∘ AS_Users <$> confirmed_users rq
  | _ => None
  end.

(** The number it names is an [i64], as [Path<i64>] yields. *)
Definition in_range (rq : SiteRequest) : bool :=
  match rq with
  | inl (US_Owner (OR_ProjectDelete id _)) | inl (US_Owner (OR_CheckRegenerate id _))
  | inl (US_Owner (OR_CheckDelete id _)) | inl (US_Account (AR_KeyDelete id _))
  | inr (AS_Write (AMR_ProjectDelete id _)) | inr (AS_Write (AMR_CheckRegenerate id _))
  | inr (AS_Write (AMR_CheckDelete id _)) | inr (AS_Users (UR_Delete id _))
  | inr (AS_Users (UR_ToggleAdmin id _)) | inr (AS_Users (UR_SetDisabled id _)) => in_i64 id
  | _ => true
  end.

Definition no_audit (d : Db) : Db := set_audit_log empty_table d.

Section asking.
Context `{Cron} `{CryptoLaws} `{PageText} `{NotifyDeps} `{HashOrder} `{!JsonText} `{IpText} `{Argon2}.
Context `{ExtractLaws} `{Embedded}.

Definition site_handle (config : Config) (jar : CookieJar) (user : User) (headers : HeaderMap)
    (request : RequestLine) (query : option str) (rq : SiteRequest) : M (res AppError Response) :=
  match rq with
  | inl rq => user_site_handle config jar user rq
  | inr rq => admin_site_handle config jar user headers request query rq
  end.

(** The code changes nothing but the audit log. *)
Definition only_audits {A} (m : M A) : Prop := forall c, preserves (fun d => no_audit d = c) m.

(** If [m] answers with a confirmation page then that page posts to [path] with the flag,
    goes back to [cancel], and nothing but the audit log has changed. *)
Definition asks (path : Shape) (t cancel : str) (m : M (res AppError Response)) : Prop :=
  forall e w resp w' csrf ia c action back,
    m e w = (Done (Ok resp), w') -> rs_page resp = P_Confirm csrf ia c action back ->
    action = marked (join (lit "/") (fill t path)) (Some (lit "confirmed=1")) /\ back = cancel /\ hole t /\
    no_audit (w_db w') = no_audit (w_db w).

Lemma asks_then {A} path t cancel (m : M (res AppError A)) k :
  only_audits m -> (forall a, asks path t cancel (k a)) -> asks path t cancel (mtry m k).
Proof.
  intros Hm Hk e w resp w' csrf ia c action back E Hp. apply mtry_Ok_inv in E as (a & w1 & E1 & E2).
  destruct (Hk a _ _ _ _ _ _ _ _ _ E2 Hp) as (? & ? & ? & D). split_and!; [done..|].
  rewrite D. exact (Hm _ _ _ _ _ eq_refl E1).
Qed.

Lemma asks_bind {A} path t cancel (m : M A) k :
  only_audits m -> (forall a, asks path t cancel (k a)) -> asks path t cancel (mbind m k).
Proof.
  intros Hm Hk e w resp w' csrf ia c action back E Hp. apply mbind_inv in E as [[_ [=]]|(a & w1 & E1 & E2)].
  destruct (Hk a _ _ _ _ _ _ _ _ _ E2 Hp) as (? & ? & ? & D). split_and!; [done..|].
  rewrite D. exact (Hm _ _ _ _ _ eq_refl E1).
Qed.

Lemma asks_other path t cancel resp : rs_page resp = P_None -> asks path t cancel (mret (Ok resp)).
Proof. intros Hp e w resp' w' csrf ia c action back [= <- _] Hp'. congruence. Qed.
Lemma asks_error path t cancel x : asks path t cancel (mret (Err x)).
Proof. by intros e w resp' w' csrf ia c action back [=]. Qed.

Lemma asks_page path t cancel config jar ia0 c0 action :
  hole t -> forallb (fun s => match s with Some s => plain s | None => true end) path = true ->
  action = join (lit "/") (fill t path) ->
  asks path t cancel (mret (Ok (confirmation_page config jar ia0 c0 action cancel))).
Proof.
  intros Ht Hs -> e w resp w' csrf ia c action' back [= <- <-] Hp. cbn in Hp.
  rewrite bool_decide_eq_false_2 in Hp by (apply path_no_mark; [apply Ht|done]). injection Hp as _ _ _ <- <-.
  split; [|done]. unfold marked. by f_equal.
Qed.

(** Code that never answers with a page. *)
Definition pageless (m : M (res AppError Response)) : Prop := forall e w resp w',
  m e w = (Done (Ok resp), w') -> rs_page resp = P_None.
Lemma asks_pageless path t cancel m : pageless m -> asks path t cancel m.
Proof. intros Hm e w resp w' csrf ia c action back E Hp. apply Hm in E. congruence. Qed.
Lemma pageless_mret resp : rs_page resp = P_None -> pageless (mret (Ok resp)).
Proof. by intros Hp e w resp' w' [= <- _]. Qed.
Lemma pageless_then {A} (m : M (res AppError A)) k : (forall a, pageless (k a)) -> pageless (mtry m k).
Proof. intros Hk e w resp w' E. apply mtry_Ok_inv in E as (a & w1 & _ & E). by eapply Hk. Qed.
Lemma pageless_bind {A} (m : M A) k : (forall a, pageless (k a)) -> pageless (mbind m k).
Proof. intros Hk e w resp w' E. apply mbind_inv in E as [[_ [=]]|(a & w1 & _ & E)]. by eapply Hk. Qed.

Lemma asks_assoc {A B} path t cancel (m : M (res AppError A)) (k1 : A -> M (res AppError B)) k2 :
  asks path t cancel (mtry m (fun a => mtry (k1 a) k2)) -> asks path t cancel (mtry (mtry m k1) k2).
Proof.
  intros Hm e w resp w' csrf ia c action back E. apply (Hm e w). rewrite <- E. unfold mtry, mbind, mret.
  destruct (m e w) as [[[a|x]|] w1]; reflexivity.
Qed.
Lemma asks_ret {A} path t cancel (a : A) k :
  asks path t cancel (k a) -> asks path t cancel (mtry (mret (Ok a)) k).
Proof. intros Hk e w resp w' csrf ia c action back E. exact (Hk e w resp w' csrf ia c action back E). Qed.

Lemma only_audits_record a now c : preserves (fun d => no_audit d = c) (record_audit a now).
Proof. apply preserves_stmt. by intros d i d' <- [= _ <-]. Qed.

Ltac audits := intros ?; unfold owned_project, owned_check, admin_project, admin_check, audit_access,
  last_admin, elevation, elev_remaining, count_enabled_admins, find_user_by_id, find_project, find_check,
  list_sessions_for_user;
  handler_steps; auto using only_audits_record with pw.
Ltac pageless_steps :=
  repeat match goal with
  | |- pageless (mret (Ok _)) => apply pageless_mret; reflexivity
  | |- pageless (mtry _ _) => apply pageless_then; intros ?
  | |- pageless (mbind _ _) => apply pageless_bind; intros ?
  | |- pageless (match ?x with _ => _ end) => destruct x
  end.
Ltac asks_steps :=
  repeat match goal with
  | |- asks _ _ _ (mtry (mret (Ok _)) _) => apply asks_ret
  | |- asks _ _ _ (mtry (mtry _ _) _) => apply asks_assoc
  | |- asks _ _ _ (mtry (match ?x with _ => _ end) _) => destruct x eqn:?
  | |- asks _ _ _ (mret (Err _)) => apply asks_error
  | |- asks _ _ _ (mret (Ok (confirmation_page _ _ _ _ _ _))) => apply asks_page
  | |- asks _ _ _ (mret (Ok _)) => apply asks_other; reflexivity
  | |- asks _ _ _ (mtry _ _) => apply asks_then; [solve [audits]|intros ?]
  | |- asks _ _ _ (mbind _ _) => apply asks_bind; [solve [audits]|intros ?]
  | |- asks _ _ _ (match ?x with _ => _ end) => destruct x eqn:?
  end.

(** Where each of them is posted, with what in the hole, and where its page goes back to. *)
Definition shape (pattern : String.string) : Shape :=
  map (fun s => if starts_with (lit "{") s then None else Some s) (split_on (chr "/") (lit pattern)).
Definition place (rq : SiteRequest) : Shape * str * str :=
  match rq with
  | inl (US_Owner (OR_ProjectDelete id _)) => (shape "/projects/{id}/delete", show_Z id, project_url false id)
  | inl (US_Owner (OR_CheckRegenerate id _)) => (shape "/checks/{id}/regenerate", show_Z id, check_url false id)
  | inl (US_Owner (OR_CheckDelete id _)) => (shape "/checks/{id}/delete", show_Z id, check_url false id)
  | inl (US_Account (AR_KeyDelete id _)) => (shape "/account/api-keys/{id}/delete", show_Z id, lit "/account")
  | inl (US_Account (AR_Revoke handle _)) =>
      (shape "/account/sessions/{handle}/revoke", handle, lit "/account")
  | inl (US_Account (AR_RevokeOthers _)) => (shape "/account/sessions/revoke-others", show_Z 0, lit "/account")
  | inr (AS_Write (AMR_ProjectDelete id _)) =>
      (shape "/admin/projects/{id}/delete", show_Z id, project_url true id)
  | inr (AS_Write (AMR_CheckRegenerate id _)) =>
      (shape "/admin/checks/{id}/regenerate", show_Z id, check_url true id)
  | inr (AS_Write (AMR_CheckDelete id _)) => (shape "/admin/checks/{id}/delete", show_Z id, check_url true id)
  | inr (AS_Users (UR_Delete id _)) => (shape "/admin/users/{id}/delete", show_Z id, lit "/admin")
  | inr (AS_Users (UR_ToggleAdmin id _)) => (shape "/admin/users/{id}/admin", show_Z id, lit "/admin")
  | inr (AS_Users (UR_SetDisabled id _)) => (shape "/admin/users/{id}/disabled", show_Z id, lit "/admin")
  | _ => ([], [], [])
  end.

Lemma asks_owner config jar user rq yes : confirmed_owner rq = Some yes ->
  let '(path, t, cancel) := place (inl (US_Owner rq)) in
  asks path t cancel (owner_handle config jar user rq).
Proof.
  destruct rq as [| |id []| | | | | |id []|id []| | | |]; try done; intros _; cbn [place owner_handle];
    unfold project_delete, check_regenerate, check_delete, confirming; asks_steps;
    try apply hole_number; reflexivity.
Qed.

Lemma asks_admin config jar admin request rq yes : confirmed_admin rq = Some yes ->
  let '(path, t, cancel) := place (inr (AS_Write rq)) in
  asks path t cancel (admin_handle config jar admin request rq).
Proof.
  destruct rq as [|id []| | | | | |id []|id []| | | |]; try done; intros _; cbn [place admin_handle];
    unfold admin_project_delete, admin_check_regenerate, admin_check_delete, confirming; asks_steps;
    try apply hole_number; reflexivity.
Qed.

Lemma asks_account config jar user rq yes : confirmed_account rq = Some yes ->
  let '(path, t, cancel) := place (inl (US_Account rq)) in
  asks path t cancel (account_handle config jar user rq).
Proof.
  destruct rq as [| | |id []|handle []|[]]; try done; intros _; cbn [place account_handle].
  - unfold api_keys_delete. cbn [negb]. asks_steps; try apply hole_number; reflexivity.
  - unfold sessions_revoke. cbn [negb]. asks_steps; try reflexivity.
    match goal with E : List.find _ _ = Some _ |- _ =>
      apply List.find_some in E as [_ <-%bool_decide_eq_true] end. apply hole_handle.
  - unfold sessions_revoke_others. cbn [negb]. asks_steps; try apply hole_number; reflexivity.
Qed.

Lemma asks_users config jar admin rq yes : confirmed_users rq = Some yes ->
  let '(path, t, cancel) := place (inr (AS_Users rq)) in
  asks path t cancel (user_handle config jar admin rq).
Proof.
  destruct rq as [|id []| |id []|id []| |]; try done; intros _; cbn [place user_handle];
    unfold users_delete, users_delete_guard, users_toggle_admin, users_set_disabled, confirm_user;
    cbn [negb andb]; asks_steps; try apply hole_number; try reflexivity;
    apply asks_pageless; pageless_steps.
Qed.
(** What a place is read back as: the route of the table that the shape selects, applied. *)
Ltac handled :=
  lazymatch goal with
  | |- method_handler (on_get _ ++ on_post _) (lit "GET") = _ => exact (handled_get_and _ _)
  | |- method_handler (on_get _ ++ on_post _) (lit "POST") = _ => exact (handled_and_post _ _)
  | |- method_handler (on_get _) _ = _ => exact (handled_get _)
  | |- method_handler (on_post _) _ = _ => exact (handled_post _)
  end.
Ltac reach t path q :=
  erewrite (endpoint_of_web _ t path q);
    [|eassumption || apply hole_number|discriminate|vm_compute; reflexivity|reflexivity
     |vm_compute; reflexivity|cbv [web_routes lookup list_lookup]; reflexivity
     |handled].
Ltac posted :=
  match goal with |- endpoint_of _ (marked (join _ (fill ?t ?path)) _) _ = _ =>
    reach t path (Some (lit "confirmed=1")) end.

Lemma posted_confirmed rq yes req : confirmed rq = Some yes -> in_range rq = true ->
  let '(path, t, _) := place rq in hole t ->
  endpoint_of (lit "POST") (marked (join (lit "/") (fill t path)) (Some (lit "confirmed=1"))) req =
    Some (E_Web (site_route yes)).
Proof.
  destruct rq as [[rq|rq|rq|id]|[rq|rq|rq]]; try done; destruct rq; try done;
    match goal with b : bool |- _ => destruct b end; intros [= <-] Hi Hh.
  - posted. unfold owner. by rewrite (confirmable_printed _ id).
  - posted. unfold owner. by rewrite (confirmable_printed _ id).
  - posted. unfold owner. by rewrite (confirmable_printed _ id).
  - posted. unfold account. by rewrite (confirmable_printed _ id).
  - posted.
    unfold account, path_str, parse_segment, capture, url_query. cbn [a_captures a_query default].
    rewrite percent_decode_plain by apply Hh. cbn. by rewrite confirm_present.
  - posted.
    unfold account, with_query, url_query. cbn [a_query]. by rewrite confirm_present.
  - posted. unfold admin_write. by rewrite (confirmable_printed _ id).
  - posted. unfold admin_write. by rewrite (confirmable_printed _ id).
  - posted. unfold admin_write. by rewrite (confirmable_printed _ id).
  - posted. unfold admin_users. by rewrite (confirmable_printed _ id).
  - posted. unfold admin_users. by rewrite (confirmable_printed _ id).
  - posted. unfold admin_users. by rewrite (confirmable_printed _ id).
Qed.

(** The page a request's confirmation goes back to. *)
Definition back_route (rq : SiteRequest) (a : Args) : WebRoute :=
  match rq with
  | inl (US_Owner (OR_ProjectDelete id _)) => WR_User (Ok (US_Page (PR_ProjectShow id)))
  | inl (US_Owner (OR_CheckRegenerate id _)) | inl (US_Owner (OR_CheckDelete id _)) =>
      page_of (fun a => let+ q := url_query a in Ok (PR_CheckShow id q)) a
  | inl (US_Account _) => WR_User (Ok (US_Account AR_Page))
  | inr (AS_Write (AMR_ProjectDelete id _)) => WR_Admin (Ok (AS_Page (AP_ProjectShow id)))
  | inr (AS_Write (AMR_CheckRegenerate id _)) | inr (AS_Write (AMR_CheckDelete id _)) =>
      admin_site (fun a => let+ q := url_query a in Ok (AP_CheckShow id q)) a
  | _ => admin_site (with_query AP_Home) a
  end.

Lemma back_reached rq yes req : confirmed rq = Some yes -> in_range rq = true ->
  let '(_, _, cancel) := place rq in
  endpoint_of (lit "GET") cancel req = Some (E_Web (back_route rq (mk_Args [] cancel None req))).
Proof.
  destruct rq as [[rq|rq|rq|id]|[rq|rq|rq]]; try discriminate; destruct rq; intros Hy; try discriminate Hy;
    match goal with b : bool |- _ => destruct b end; try discriminate Hy; intros Hi;
    cbn [place back_route].
  - reach (show_Z id) (shape "/projects/{id}") (@None str).
    unfold page_of, by_id. by rewrite (path_id_printed id).
  - reach (show_Z id) (shape "/checks/{id}") (@None str).
    unfold page_of, by_id_query. by rewrite (path_id_printed id).
  - reach (show_Z id) (shape "/checks/{id}") (@None str).
    unfold page_of, by_id_query. by rewrite (path_id_printed id).
  - reach (show_Z 0) (shape "/account") (@None str). done.
  - reach (show_Z 0) (shape "/account") (@None str). done.
  - reach (show_Z 0) (shape "/account") (@None str). done.
  - reach (show_Z id) (shape "/admin/projects/{id}") (@None str).
    unfold admin_site, by_id. by rewrite (path_id_printed id).
  - reach (show_Z id) (shape "/admin/checks/{id}") (@None str).
    unfold admin_site, by_id_query. by rewrite (path_id_printed id).
  - reach (show_Z id) (shape "/admin/checks/{id}") (@None str).
    unfold admin_site, by_id_query. by rewrite (path_id_printed id).
  - reach (show_Z 0) (shape "/admin") (@None str). done.
  - reach (show_Z 0) (shape "/admin") (@None str). done.
  - reach (show_Z 0) (shape "/admin") (@None str). done.
Qed.

Lemma asks_first config jar user headers request query rq yes : confirmed rq = Some yes ->
  let '(path, t, cancel) := place rq in
  asks path t cancel (site_handle config jar user headers request query rq).
Proof.
  destruct rq as [[rq|rq|rq|id]|[rq|rq|rq]]; try done; cbn [confirmed site_handle user_site_handle admin_site_handle];
    intros (y & Hy & _)%fmap_Some.
  - by eapply asks_owner.
  - by eapply asks_account.
  - by eapply asks_admin.
  - by eapply asks_users.
Qed.

(** C30: what asks for confirmation asks for itself. When a destructive request (deleting a
    project, check, user, API key or session, giving a check a new URL, demoting or
    disabling a user) is answered with a confirmation page, on the owner's surface, the
    account page or the administrator's, then nothing has been destroyed (only the audit
    log may have grown); posting the form of that page reaches, through the route table and
    the extractors, the very same request, confirmed; and its way back reaches the page of
    the object. *)
Theorem confirmation_repeats_request config jar user headers request query rq yes e w resp w'
    csrf ia c action back req :
  confirmed rq = Some yes -> in_range rq = true ->
  site_handle config jar user headers request query rq e w = (Done (Ok resp), w') ->
  rs_page resp = P_Confirm csrf ia c action back ->
  no_audit (w_db w') = no_audit (w_db w) /\
  endpoint_of (lit "POST") action req = Some (E_Web (site_route yes)) /\
  endpoint_of (lit "GET") back req = Some (E_Web (back_route rq (mk_Args [] back None req))).
Proof.
  intros Hy Hi E Hp. pose proof (asks_first config jar user headers request query rq yes Hy) as Ha.
  pose proof (posted_confirmed rq yes req Hy Hi) as Hpost. pose proof (back_reached rq yes req Hy Hi) as Hback.
  destruct (place rq) as [[path t] cancel].
  destruct (Ha _ _ _ _ _ _ _ _ _ E Hp) as (-> & -> & Hh & D). split; [exact D|]. split; [by apply Hpost|exact Hback].
Qed.
End asking.

(** ** A witness *)

#[local] Existing Instances SampleChrono.sample_chrono SampleChrono.sample_cron.
#[local] Existing Instances SampleCrypto.sample_crypto SampleCrypto.sample_crypto_laws.
#[local] Existing Instances SamplePageText.sample_page_text SampleJson.sample_deps SampleJson.sample_json.
#[local] Existing Instances SampleWeb.sample_ip_text SampleWeb.sample_argon2 sample_hash_order.
#[local] Existing Instances SampleHttp.sample_extract SampleHttp.sample_extract_laws SampleHttp.sample_embedded.

(** The owner of project 1 asks to delete it. *)
Definition first_user : User := mk_User 1 (lit "ann") None true false 0.
Definition delete_project_1 : SiteRequest := inl (US_Owner (OR_ProjectDelete 1 false)).
Definition blank_request : Incoming := mk_Incoming (lit "POST") [] None None.

Lemma confirmation_repeats_request_witness :
  exists resp w' csrf ia c,
    site_handle sample_config sample_jar first_user [] (mk_RequestLine (lit "POST") []) None delete_project_1
      (calm_env 0) (world_of web_db) = (Done (Ok resp), w') /\
    rs_page resp = P_Confirm csrf ia c (lit "/projects/1/delete?confirmed=1") (lit "/projects/1") /\
    no_audit (w_db w') = no_audit web_db /\
    endpoint_of (lit "POST") (lit "/projects/1/delete?confirmed=1") blank_request =
      Some (E_Web (WR_User (Ok (US_Owner (OR_ProjectDelete 1 true))))).
Proof.
  destruct (site_handle sample_config sample_jar first_user [] (mk_RequestLine (lit "POST") []) None
    delete_project_1 (calm_env 0) (world_of web_db)) as [r w'] eqn:E.
  assert (match r with
    | Done (Ok resp) => match rs_page resp with
        | P_Confirm _ _ _ action back => Some (action, back)
        | _ => None end
    | _ => None end = Some (lit "/projects/1/delete?confirmed=1", lit "/projects/1")) as N.
  { apply (f_equal fst) in E. cbn [fst] in E. rewrite <- E. vm_compute. reflexivity. }
  destruct r as [[resp|x]|]; [|discriminate N|discriminate N].
  destruct (rs_page resp) as [| | |csrf ia c action back| | | | | | | | | | | | | | |] eqn:Hp; try discriminate N.
  injection N as -> ->. exists resp, w', csrf, ia, c.
  destruct (confirmation_repeats_request sample_config sample_jar first_user [] (mk_RequestLine (lit "POST") [])
    None delete_project_1 (inl (US_Owner (OR_ProjectDelete 1 true))) (calm_env 0) (world_of web_db) resp w'
    csrf ia c _ _ blank_request eq_refl eq_refl E Hp) as (D & Hpost & _).
  rewrite world_of_db in D. split; [reflexivity|]. split; [exact Hp|]. split; [exact D|exact Hpost].
Defined.
