(* ===== verification/Silence.v ===== *)
(** * Silence: what is neither the scan loop nor a ping announces nothing

    Every handler of the pages and of the API and the layers around them start no delivery,
    and put no check down: they can only take a check out of its outage, by pausing,
    resuming or deleting it. The retention loop and the deliveries themselves leave the
    status of every check alone. *)
From S2P Require Import Prelude Text Models Config Wire Secret Chrono Auth Db Rows Store Sessions Keyset Notify Prune Forms Channels Errors Access Templates Web Middleware Assets Account Listing Owner Pages Dashboard Admin Dto Api UserAdmin Router Perimeter.
From S2P Require Ping.
#[local] Open Scope Z_scope.
#[local] Open Scope pw_scope.

Definition is_down (d : Db) (id : Z) : bool :=
  match t_rows (checks d) !! id with
  | Some r => bool_decide (cr_status r = as_str CS_Down)
  | None => false
  end.

Section silent.
Context (strict : bool) (id : Z).

(** [d'] has not put the check down; if [strict], nor taken it up. *)
Definition lifts (d d' : Db) : Prop :=
  if strict then is_down d' id = is_down d id else is_down d' id = true -> is_down d id = true.
#[export] Instance lifts_refl : Reflexive lifts.
Proof. intros d. unfold lifts. by destruct strict. Qed.
#[export] Instance lifts_trans : Transitive lifts.
Proof. intros d1 d2 d3. unfold lifts. destruct strict; [congruence|auto]. Qed.
Lemma lifts_same d d' : checks d' = checks d -> lifts d d'.
Proof. intros E. unfold lifts, is_down. rewrite E. by destruct strict. Qed.
Definition silent {A} (m : M A) : Prop := forall e w r w', m e w = (r, w') ->
  w_tasks w' = w_tasks w /\ lifts (w_db w) (w_db w').

(** ** The primitives and the combinators *)

Lemma silent_pure {A} (m : M A) :
  (forall e w r w', m e w = (r, w') -> w_tasks w' = w_tasks w /\ w_db w' = w_db w) -> silent m.
Proof. intros Hm e w r w' [T D]%Hm. split; [done|]. by rewrite D. Qed.
Lemma silent_mret {A} (a : A) : silent (mret a).
Proof. apply silent_pure. by intros e w r w' [= _ <-]. Qed.
Lemma silent_mpanic {A} : silent (A:=A) mpanic.
Proof. apply silent_pure. by intros e w r w' [= _ <-]. Qed.
Lemma silent_mexec {A} (x : exec A) : silent (mexec x).
Proof. apply silent_pure. by intros e w r w' [= _ <-]. Qed.
Lemma silent_utc_now : silent utc_now.
Proof. apply silent_pure. by intros e w r w' [= _ <-]. Qed.
Lemma silent_new_v4 : silent new_v4.
Proof. apply silent_pure. by intros e w r w' [= _ <-]. Qed.
Lemma silent_receiver_count : silent receiver_count.
Proof. apply silent_pure. by intros e w r w' [= _ <-]. Qed.
Lemma silent_http_send rq : silent (http_send rq).
Proof. apply silent_pure. by intros e w r w' [= _ <-]. Qed.
Lemma silent_mail_send relay m : silent (mail_send relay m).
Proof. apply silent_pure. by intros e w r w' [= _ <-]. Qed.
Lemma silent_sleep n : silent (sleep n).
Proof. apply silent_pure. by intros e w r w' [= _ <-]. Qed.
Lemma silent_on_mem {A} (f : Z -> Mem -> A * Mem) : silent (on_mem f).
Proof. apply silent_pure. intros e w r w'. unfold on_mem. destruct (f _ _). by intros [= _ <-]. Qed.
Lemma silent_stmt {A} (run : Db -> res DbErr (A * Db)) :
  (forall d a d', run d = Ok (a, d') -> lifts d d') -> silent (stmt run).
Proof.
  intros Hr e w r w'. unfold stmt. destruct (env_fault _ _); [intros [= _ <-]; split; [done|reflexivity]|].
  destruct (run (w_db w)) as [[a d]|x] eqn:E; intros [= _ <-]; (split; [done|]); [by eapply Hr|reflexivity].
Qed.
Lemma silent_query {A} (q : Db -> res DbErr A) : silent (query q).
Proof. apply silent_stmt. intros d a d'. destruct (q d); [|done]. intros [= _ <-]. reflexivity. Qed.
Lemma silent_execute (u : Db -> Db) : (forall d, lifts d (u d)) -> silent (execute u).
Proof. intros Hu. apply silent_stmt. by intros d a d' [= _ <-]. Qed.

Lemma silent_mbind {A B} (m : M A) (k : A -> M B) : silent m -> (forall a, silent (k a)) -> silent (mbind m k).
Proof.
  intros Hm Hk e w r w' [[E _]|(a & w1 & E1 & E2)]%mbind_inv; [by eapply Hm|].
  apply Hk in E2 as [T2 D2]. apply Hm in E1 as [T1 D1]. split; [congruence|]. by etrans.
Qed.
Lemma silent_mtry {E A B} (m : M (res E A)) (k : A -> M (res E B)) :
  silent m -> (forall a, silent (k a)) -> silent (mtry m k).
Proof. intros Hm Hk. apply silent_mbind; [done|]. intros [a|x]; [done|apply silent_mret]. Qed.
Lemma silent_map_err {E E' A} (f : E -> E') (m : M (res E A)) : silent m -> silent (map_err f m).
Proof. intros Hm. apply silent_mbind; [done|]. intros a. apply silent_mret. Qed.
Lemma silent_for_each {A} (l : list A) (f : A -> M unit) : (forall x, silent (f x)) -> silent (for_each l f).
Proof.
  intros Hf. induction l as [|x l IH]; [apply silent_mret|]. apply silent_mbind; [done|]. by intros _.
Qed.
Lemma silent_for_each_try {E A} (l : list A) (f : A -> M (res E unit)) :
  (forall x, silent (f x)) -> silent (for_each_try l f).
Proof.
  intros Hf. induction l as [|x l IH]; [apply silent_mret|]. apply silent_mtry; [done|]. by intros _.
Qed.
End silent.

(** ** The statements on checks *)

Section checks.
Context (id : Z).
#[local] Abbreviation lifts := (lifts false id).

Lemma lifts_update f i d :
  (forall r, cr_status (f r) = as_str CS_Down -> cr_status r = as_str CS_Down) -> lifts d (update_check f i d).
Proof.
  intros Hf. unfold lifts, is_down. cbn [checks update_check set_checks]. rewrite update_row_lookup.
  case_decide; [|done]. subst i. destruct (t_rows (checks d) !! id) as [r|]; [|done]. cbn.
  rewrite !bool_decide_eq_true. apply Hf.
Qed.
Lemma lifts_insert r d : cr_status r <> as_str CS_Down -> lifts d (set_checks (insert_row r (checks d)).2 d).
Proof.
  intros Hr. unfold lifts, is_down. cbn. destruct (decide (id = t_seq (checks d) + 1)) as [->|Hne].
  - rewrite lookup_insert_eq. by rewrite bool_decide_eq_true.
  - by rewrite lookup_insert_ne.
Qed.
Lemma lifts_cascade_checks gone d : lifts d (cascade_checks gone d).
Proof.
  unfold lifts, is_down. cbn. destruct (filter _ _ !! id) as [r|] eqn:E; [|done].
  apply map_lookup_filter_Some in E as [-> _]. done.
Qed.
Lemma lifts_cascade_projects gone d : lifts d (cascade_projects gone d).
Proof. exact (lifts_cascade_checks _ d). Qed.
Lemma lifts_cascade_user uid d : lifts d (cascade_user uid d).
Proof. exact (lifts_cascade_checks _ d). Qed.

End checks.

Create HintDb silent discriminated.
#[export] Hint Resolve silent_mret silent_mpanic silent_mexec silent_utc_now silent_new_v4
  silent_receiver_count silent_http_send silent_mail_send silent_sleep silent_on_mem silent_query : silent.

(** What a statement writes to the tables. *)
Ltac silent_write :=
  intros; cbv beta zeta in *; unfold insert_row in *; cbv beta iota in *;
  repeat match goal with
  | H : context [match ?x with _ => _ end] |- _ => destruct x; try discriminate H
  end;
  simplify_eq;
  first [ apply lifts_same; reflexivity
        | apply lifts_update; intros r; first [exact (fun H => H) | intros E; vm_compute in E; discriminate E]
        | apply lifts_insert; vm_compute; discriminate
        | apply lifts_cascade_checks | apply lifts_cascade_projects | apply lifts_cascade_user ].

Ltac head_of t := lazymatch t with ?f _ => head_of f | _ => t end.
(** Through the code of a handler: its definitions are unfolded as they are met. *)
Ltac silent_steps :=
  repeat first
    [ progress intros
    | solve [auto 2 with silent]
    | lazymatch goal with
      | |- silent _ _ (mbind _ _) => apply silent_mbind
      | |- silent _ _ (mtry _ _) => apply silent_mtry
      | |- silent _ _ (map_err _ _) => apply silent_map_err
      | |- silent _ _ (for_each _ _) => apply silent_for_each
      | |- silent _ _ (for_each_try _ _) => apply silent_for_each_try
      | |- silent _ _ (execute _) => apply silent_execute; silent_write
      | |- silent _ _ (stmt _) => apply silent_stmt; silent_write
      | |- silent _ _ (match ?x with _ => _ end) => destruct x
      | |- silent _ _ (let _ := _ in _) => cbv zeta
      | |- silent _ _ ?m => let f := head_of m in unfold f; cbv beta
      end ].

(** ** The statements *)

Section store.
Context `{Cron} (id : Z).

Lemma silent_set_status i s : s <> CS_Down -> silent false id (set_status i s).
Proof. intros Hs. apply silent_execute. intros d. apply lifts_update. intros r. by destruct s. Qed.
Lemma silent_regenerate i uuid : silent false id (regenerate_uuid i uuid).
Proof. silent_steps. Qed.
Lemma silent_create_check c : silent false id (create_check c).
Proof. silent_steps. Qed.
Lemma silent_update_schedule i c : silent false id (update_check_schedule i c).
Proof. silent_steps. Qed.
Lemma silent_delete_user i : silent false id (delete_user i).
Proof. silent_steps. Qed.
Lemma silent_bind i j : silent false id (bind_channel i j).
Proof. silent_steps. Qed.
Lemma silent_record_audit strict a now : silent strict id (record_audit a now).
Proof. silent_steps. Qed.
Lemma silent_find_session_user strict i now : silent strict id (find_session_user i now).
Proof. silent_steps. Qed.
End store.

#[export] Hint Resolve silent_regenerate silent_create_check silent_update_schedule silent_delete_user
  silent_bind silent_record_audit silent_find_session_user : silent.
#[export] Hint Extern 1 (silent _ _ (set_status _ _)) => apply silent_set_status; discriminate : silent.

(** ** The handlers *)

Section handlers.
Context `{ChronoLaws} `{!Cron} `{Crypto} `{PageText} `{NotifyDeps} `{HashOrder} `{!JsonText} `{IpText} `{Argon2}.
Context `{FormUrl} `{CookieParse} `{Extract} `{Embedded} `{ApiText} (id : Z).

Lemma silent_changed_settings strict kvs : silent strict id (changed_settings kvs).
Proof. induction kvs as [|[k v] kvs IH]; cbn [changed_settings]; silent_steps. Qed.
Lemma silent_send strict n ev : silent strict id (send n ev).
Proof. silent_steps. Qed.
Lemma silent_retry strict send1 policy n left last : silent strict id send1 -> silent strict id (retry_loop send1 policy n left last).
Proof.
  intros Hs. revert n last. induction left as [|left IH]; intros n last; cbn [retry_loop]; silent_steps.
Qed.
#[local] Hint Resolve silent_changed_settings silent_send silent_retry : silent.

Lemma silent_resolve_user config parts : silent false id (resolve_user config parts).
Proof. silent_steps. Qed.
#[local] Hint Resolve silent_resolve_user : silent.
Lemma silent_run_task strict t : silent strict id (run_task t).
Proof. silent_steps. Qed.
Lemma silent_prune_pass strict : silent strict id prune_pass.
Proof. silent_steps. Qed.
Lemma silent_public config req rq : silent false id (public_handle config req rq).
Proof. destruct rq; cbn [public_handle]; silent_steps. Qed.
Lemma silent_visitor config jar user rq : silent false id (visitor_handle config jar user rq).
Proof. destruct rq; cbn [visitor_handle]; silent_steps. Qed.
Lemma silent_page config jar user rq : silent false id (page_handle config jar user rq).
Proof. destruct rq; cbn [page_handle]; silent_steps. Qed.
Lemma silent_owner config jar user rq : silent false id (owner_handle config jar user rq).
Proof. destruct rq; cbn [owner_handle]; silent_steps. Qed.
Lemma silent_account config jar user rq : silent false id (account_handle config jar user rq).
Proof. destruct rq; cbn [account_handle]; silent_steps. Qed.
Lemma silent_admin_page config jar admin headers request query rq :
  silent false id (admin_page_handle config jar admin headers request query rq).
Proof. destruct rq; cbn [admin_page_handle]; silent_steps. Qed.
Lemma silent_admin config jar admin request rq : silent false id (admin_handle config jar admin request rq).
Proof. destruct rq; cbn [admin_handle]; silent_steps. Qed.
Lemma silent_users config jar admin rq : silent false id (user_handle config jar admin rq).
Proof. destruct rq; cbn [user_handle]; silent_steps. Qed.
Lemma silent_api user path rq : silent false id (api_handle user path rq).
Proof. destruct rq; cbn [api_handle]; silent_steps. Qed.

(** ** An endpoint, the layers, the application *)

Lemma silent_mmap strict {A B} (f : A -> B) (m : M A) : silent strict id m -> silent strict id (mmap f m).
Proof. intros Hm. apply silent_mbind; [done|]. intros a. apply silent_mret. Qed.
Lemma silent_served {A} (rq : res Rejection A) (k : A -> M (res AppError Response)) :
  (forall a, silent false id (k a)) -> silent false id (served rq k).
Proof. intros Hk. destruct rq; [by apply silent_mmap|apply silent_mret]. Qed.
#[local] Hint Resolve silent_public silent_visitor silent_page silent_owner silent_account silent_admin_page
  silent_admin silent_users silent_api : silent.

Lemma silent_web config a route : silent false id (web_handle config a route).
Proof.
  destruct route as [rq|rq|rq|rq]; cbn [web_handle].
  - apply silent_served. auto with silent.
  - apply silent_mbind; [apply silent_resolve_user|]. intros u. apply silent_served. auto with silent.
  - apply silent_mbind; [silent_steps|]. intros [u|x]; [|apply silent_mret]. apply silent_served.
    intros rq'. destruct rq'; cbn [user_site_handle]; silent_steps.
  - apply silent_mbind; [silent_steps|]. intros [u|x]; [|apply silent_mret]. apply silent_served.
    intros rq'. destruct rq'; cbn [admin_site_handle]; silent_steps.
Qed.

Definition pings (ep : Endpoint) : bool := match ep with E_Ping _ => true | _ => false end.

Lemma silent_endpoint config a ep : pings ep = false -> silent false id (endpoint_handle config a ep).
Proof.
  intros Hp. destruct ep as [|rq|rq|rq|pg|ans]; cbn [endpoint_handle]; [apply silent_mret|apply silent_web|done|..].
  - unfold api_route_handle. apply silent_mbind; [silent_steps|]. intros [u|x]; [|apply silent_mret].
    destruct rq as [rq|[x|x]]; try apply silent_mret. apply silent_mmap, silent_api.
  - silent_steps.
  - destruct ans; apply silent_mret.
Qed.

Lemma silent_web_layers config routes req :
  (forall req', silent false id (routes req')) -> silent false id (web_layers config routes req).
Proof. intros Hr. silent_steps. Qed.
Lemma silent_mount config mount routes req :
  (forall req', silent false id (routes req')) -> silent false id (mount_layers config mount routes req).
Proof.
  intros Hr. destruct mount; cbn [mount_layers]; [apply Hr|by apply silent_web_layers|by apply silent_mmap].
Qed.

(** The routes of pings, and no others, lead to pings. *)
Definition pings_by_pattern (r : Route) : Prop :=
  (rt_pattern r ∈ PING_PATTERNS -> rt_mount r = M_Plain) /\
  Forall (fun h => forall a, pings (h.2 a) = bool_decide (rt_pattern r ∈ PING_PATTERNS)) (rt_handlers r).

Lemma pings_by_pattern_mounted {R} m (E : R -> Endpoint) (b : bool) (table : list (str * list (str * (Args -> R)))) :
  (forall rq, pings (E rq) = b) -> (b = true -> m = M_Plain) ->
  forallb (fun p => Bool.eqb b (bool_decide (p.1 ∈ PING_PATTERNS))) table = true ->
  Forall pings_by_pattern (map (mounted m E) table).
Proof.
  intros HE Hm Ht. rewrite forallb_Forall' in Ht. apply Forall_map. eapply Forall_impl; [exact Ht|].
  intros [pat hs] Hp%Bool.eqb_prop. unfold pings_by_pattern. cbn [mounted rt_handlers rt_pattern rt_mount fst snd] in *.
  split; [intros Hin; apply Hm; rewrite Hp; by apply bool_decide_eq_true_2|].
  apply Forall_fmap, Forall_forall. intros h _ a. cbn [snd compose]. rewrite HE. exact Hp.
Qed.

Lemma all_pings_by_pattern : Forall pings_by_pattern all_routes.
Proof.
  unfold all_routes. apply Forall_cons. split.
  { split; [done|repeat constructor]. }
  rewrite !Forall_app. split_and!.
  - apply (pings_by_pattern_mounted _ _ false); [done|done|vm_compute; reflexivity].
  - apply (pings_by_pattern_mounted _ _ true); [done|done|vm_compute; reflexivity].
  - apply (pings_by_pattern_mounted _ _ false); [done|done|vm_compute; reflexivity].
  - apply (pings_by_pattern_mounted _ _ false); [done|done|vm_compute; reflexivity].
  - apply (pings_by_pattern_mounted _ _ false); [done|done|vm_compute; reflexivity].
Qed.

(** A request that is not a ping. *)
Lemma app_silent config h e w r w' :
  (forall pat, matched_path (h_path h) = Some pat -> pat ∉ PING_PATTERNS) ->
  app config h e w = (r, w') -> w_tasks w' = w_tasks w /\ lifts false id (w_db w) (w_db w').
Proof.
  intros Hp E. apply app_layers_core in E as (r0 & E & _). unfold matched_path in Hp.
  destruct (route_of (h_path h)) as [[route captures]|] eqn:Er.
  2: { injection E as _ <-. by split. }
  specialize (Hp _ eq_refl). assert (route ∈ all_routes) as Hr by (by eapply find_route_elem).
  revert E. apply silent_mount. intros req'. unfold route_handle.
  destruct (method_handler _ _) as [handler|] eqn:Eh; [|apply silent_mret].
  apply silent_mmap, silent_endpoint. apply method_handler_elem in Eh as [name Hh].
  pose proof all_pings_by_pattern as Hall. rewrite Forall_forall in Hall. specialize (Hall _ Hr).
  destruct Hall as [_ Hall]. rewrite Forall_forall in Hall. specialize (Hall _ Hh (mk_Args captures (h_path h) (h_query h) req')).
  cbn [snd] in Hall. rewrite Hall. by apply bool_decide_eq_false_2.
Qed.

(** The answer to a ping says how it went. *)
Definition answers (r0 : exec (res AppError Z)) (r : exec Response) : Prop :=
  match r0 with
  | Done (Ok n) => exists resp, r = Done resp /\ rs_status resp = n
  | Done (Err x) => exists resp, r = Done resp /\ rs_status resp = (into_response x).1
  | Panic => r = Panic
  end.

Lemma app_pings config h e w r w' pat :
  matched_path (h_path h) = Some pat -> pat ∈ PING_PATTERNS -> app config h e w = (r, w') ->
  w' = w \/ exists route conn body r0, Ping.handle config route conn body e w = (r0, w') /\ answers r0 r.
Proof.
  intros Hm Hp E. apply app_layers_core in E as (r1 & E & Hpanic & Hc). unfold matched_path in Hm.
  destruct (route_of (h_path h)) as [[route captures]|] eqn:Er; [|done].
  injection Hm as <-. cbn [fst] in Hp. assert (route ∈ all_routes) as Hr by (by eapply find_route_elem).
  pose proof all_pings_by_pattern as Hall. rewrite Forall_forall in Hall.
  destruct (Hall _ Hr) as [Em Hall']. clear Hall. rewrite (Em Hp) in E. cbn [mount_layers] in E.
  unfold route_handle in E. destruct (method_handler _ _) as [handler|] eqn:Eh; [|injection E as _ <-; by left].
  apply method_handler_elem in Eh as [name Hh]. rewrite Forall_forall in Hall'.
  specialize (Hall' _ Hh (mk_Args captures (h_path h) (h_query h) (h_in h))).
  rewrite (bool_decide_eq_true_2 _ Hp) in Hall'. cbn [snd] in Hall'.
  apply mmap_inv in E as (r2 & E & ->). destruct (handler _) as [| |rq| | |]; try done.
  cbn [endpoint_handle] in E. unfold ping_handle in E. destruct rq as [rq|x]; [|injection E as _ <-; by left].
  destruct (body_form _) as [body|x]; [|injection E as _ <-; by left].
  right. exists rq, (conn_of config (h_in h)), body. cbn [a_req] in E.
  destruct (Ping.handle _ _ _ _ e w) as [[r0|] w1] eqn:E0.
  - rewrite (mbind_Done _ _ _ _ _ _ E0) in E. injection E as <- <-. exists (Done r0). split; [done|].
    destruct (Hc _ eq_refl) as (resp & -> & Hcore). apply (f_equal (fun p => p.1.1)) in Hcore. cbn in Hcore.
    destruct r0 as [n|x]; exists resp; (split; [done|]); rewrite Hcore; cbn; [by destruct (bool_decide _)|].
    destruct (into_response x) as [n b]. by destruct (bool_decide _).
  - unfold mbind in E. rewrite E0 in E. injection E as <- <-. exists Panic. split; [done|]. by apply Hpanic.
Qed.
End handlers.
