(* ===== verification/Lifecycle.v ===== *)
(** * Lifecycle: the outages of a check, over pings, scans and reminders together

    The abstract machine of a check has two states, down or not, and three alerts. A
    request that pauses, resumes or deletes a check ends its outage without one, and so may
    a ping whose statements fail. The theorem is that what the program does about a check,
    in whatever order passes of the loops, deliveries, pings and all other requests follow
    each other, is a run of it, and that the machine's state is the stored status. *)
From S2P Require Import Prelude Text Models Config Wire Secret Chrono Auth Db Rows Store Sample Notify Prune Forms Channels Errors Access Templates Web Middleware Assets Account Listing Owner Pages Dashboard Admin Dto Api UserAdmin Router Perimeter Silence Scheduler Ping.
#[local] Open Scope Z_scope.
#[local] Open Scope pw_scope.

(** ** The abstract machine *)

(** An outage begins with [Down], is reminded of while it lasts, and ends with [Up]. *)
Definition outage_step (down : bool) (k : EventKind) : option bool :=
  match k, down with
  | EK_Down, false => Some true
  | EK_Reminder, true => Some true
  | EK_Up, true => Some false
  | _, _ => None
  end.
Fixpoint outages (down : bool) (l : list EventKind) : option bool :=
  match l with
  | [] => Some down
  | k :: l' => match outage_step down k with Some down' => outages down' l' | None => None end
  end.

Lemma outages_app down l1 l2 :
  outages down (l1 ++ l2) = match outages down l1 with Some down' => outages down' l2 | None => None end.
Proof.
  revert down. induction l1 as [|k l1 IH]; [done|]. intros down. cbn [Datatypes.app outages].
  by destruct (outage_step down k).
Qed.

(** ** What is observed of the program *)

(** The alerts whose deliveries were started for a check, oldest first. *)
Definition alerts_in (id : Z) (ts : list Task) : list EventKind :=
  map task_event (List.filter (fun t => task_check t =? id) ts).
Definition alerts (id : Z) (w : World) : list EventKind := alerts_in id (w_tasks w).

Lemma alerts_in_app id ts ts' : alerts_in id (ts ++ ts') = alerts_in id ts ++ alerts_in id ts'.
Proof. unfold alerts_in. by rewrite List.filter_app, map_app. Qed.

(** A step of the program is a run of the machine: the deliveries it starts for the check
    lead from the stored state before to the one after. *)
Definition tracks (id : Z) (w w' : World) : Prop :=
  exists ts, w_tasks w' = w_tasks w ++ ts /\
    outages (is_down (w_db w) id) (alerts_in id ts) = Some (is_down (w_db w') id).

Lemma tracks_idle id w w' :
  w_tasks w' = w_tasks w -> is_down (w_db w') id = is_down (w_db w) id -> tracks id w w'.
Proof. intros Ht Hd. exists []. rewrite app_nil_r. split; [done|]. by rewrite Hd. Qed.

Lemma tracks_trans id w1 w2 w3 : tracks id w1 w2 -> tracks id w2 w3 -> tracks id w1 w3.
Proof.
  intros (ts1 & T1 & O1) (ts2 & T2 & O2). exists (ts1 ++ ts2).
  rewrite T2, T1, (assoc_L (++)). split; [done|]. by rewrite alerts_in_app, outages_app, O1.
Qed.

(** ** Code that starts no delivery *)

Definition quiet {A} (m : M A) : Prop := forall e w r w', m e w = (r, w') -> w_tasks w' = w_tasks w.

Lemma quiet_mret {A} (a : A) : quiet (mret a).
Proof. by intros e w r w' [= _ <-]. Qed.
Lemma quiet_mexec {A} (x : exec A) : quiet (mexec x).
Proof. by intros e w r w' [= _ <-]. Qed.
Lemma quiet_mbind {A B} (m : M A) (k : A -> M B) : quiet m -> (forall a, quiet (k a)) -> quiet (mbind m k).
Proof.
  intros Hm Hk e w r w' [[E _]|(a & w1 & E1 & E2)]%mbind_inv; [by eapply Hm|].
  apply Hk in E2. apply Hm in E1. congruence.
Qed.
Lemma quiet_mtry {E A B} (m : M (res E A)) (k : A -> M (res E B)) :
  quiet m -> (forall a, quiet (k a)) -> quiet (mtry m k).
Proof. intros Hm Hk. apply quiet_mbind; [done|]. intros [a|x]; [done|apply quiet_mret]. Qed.
Lemma quiet_stmt {A} (run : Db -> res DbErr (A * Db)) : quiet (stmt run).
Proof.
  intros e w r w'. unfold stmt. destruct (env_fault _ _); [by intros [= _ <-]|].
  destruct (run _) as [[a d]|x]; by intros [= _ <-].
Qed.
Lemma quiet_query {A} (q : Db -> res DbErr A) : quiet (query q).
Proof. apply quiet_stmt. Qed.
Lemma quiet_execute (u : Db -> Db) : quiet (execute u).
Proof. apply quiet_stmt. Qed.
Lemma quiet_utc_now : quiet utc_now.
Proof. by intros e w r w' [= _ <-]. Qed.
Lemma quiet_collect_each {A B} (l : list A) (f : A -> M (option B)) :
  (forall x, quiet (f x)) -> quiet (collect_each l f).
Proof.
  intros Hf. induction l as [|x l IH]; [apply quiet_mret|]. cbn [collect_each].
  apply quiet_mbind; [done|]. intros o. apply quiet_mbind; [done|]. intros rest. apply quiet_mret.
Qed.

Create HintDb quiet.
#[local] Hint Resolve quiet_mret quiet_mexec quiet_mbind quiet_mtry quiet_stmt quiet_query
  quiet_execute quiet_utc_now quiet_collect_each : quiet.
Ltac quiet_steps :=
  repeat first
    [ progress intros
    | apply quiet_mtry
    | apply quiet_mbind
    | apply quiet_collect_each
    | solve [auto with quiet]
    | match goal with |- quiet (match ?x with _ => _ end) => destruct x end ].

Section quiet_passes.
Context `{Cron}.

Lemma quiet_scan_once now base_url : quiet (scan_once now base_url).
Proof.
  unfold scan_once, scan_check, all_project_names, display_timezone, get_setting, list_active_checks,
    set_status, begin_down_alert. quiet_steps.
Qed.
Lemma quiet_nag_once now base_url : quiet (nag_once now base_url).
Proof.
  unfold nag_once, nag_check, all_project_names, all_project_nag_intervals, display_timezone, get_setting,
    list_down_checks, record_reminder. quiet_steps.
Qed.
End quiet_passes.

(** ** A pass over the checks is a run *)

Lemma filter_one_id (l : list Check) id :
  NoDup (map c_id l) ->
  ((id ∉ map c_id l) /\ List.filter (fun c => c_id c =? id) l = []) \/
  (exists c, c ∈ l /\ c_id c = id /\ List.filter (fun c => c_id c =? id) l = [c]).
Proof.
  induction l as [|x l IH]; [left; split; [apply not_elem_of_nil|done]|].
  cbn [map List.filter]. intros [Hx Hl]%NoDup_cons. destruct (IH Hl) as [[Hn ->]|(c & Hc & Hid & ->)].
  - destruct (Z.eqb_spec (c_id x) id) as [<-|Hne]; [right|left].
    + exists x. split; [left|]. done.
    + split; [|done]. intros [?|?]%elem_of_cons; [congruence|done].
  - right. exists c. destruct (Z.eqb_spec (c_id x) id) as [E|_]; [|split; [by right|done]].
    exfalso. apply Hx, elem_of_map_c_id. exists c. split; [done|]. congruence.
Qed.

Lemma filter_map_comm {A B} (f : A -> B) (p : B -> bool) l :
  List.filter p (map f l) = map f (List.filter (fun x => p (f x)) l).
Proof. induction l as [|x l IH]; [done|]. cbn [map List.filter]. rewrite IH. by destruct (p (f x)). Qed.

(** The deliveries started for a list of events. *)
Lemma alerts_in_events id smtp evs :
  alerts_in id (map (fun ev => T_Event ev smtp) evs) =
  map ev_event (List.filter (fun ev => ev_check_id ev =? id) evs).
Proof. unfold alerts_in. rewrite filter_map_comm, map_map. done. Qed.

Section passes.
Context `{Cron}.

Lemma pass_outages b e d d' cs evs sel id k down' :
  pass_result b e d d' cs evs sel -> NoDup (map c_id cs) ->
  (forall c, ev_check_id (pb_event b c) = c_id c /\ ev_event (pb_event b c) = k) ->
  (forall c, c ∈ cs -> exists r, t_rows (checks d) !! c_id c = Some r /\
     outage_step (bool_decide (cr_status r = as_str CS_Down)) k = Some down' /\
     forall r', pb_row b r r' -> bool_decide (cr_status r' = as_str CS_Down) = down') ->
  outages (is_down d id) (map ev_event (List.filter (fun ev => ev_check_id ev =? id) evs))
  = Some (is_down d' id).
Proof.
  intros [S V _ O R _] Hnd He Hr. subst evs. rewrite filter_map_comm, map_map.
  rewrite (filter_ext _ (fun c => c_id c =? id)) by (intros c; by rewrite (proj1 (He c))).
  assert (NoDup (map c_id sel)) as Hnd'.
  { eapply sublist_NoDup; [exact Hnd|]. etransitivity; [apply (fmap_sublist c_id), S|]. apply sublist_map_filter. }
  destruct (filter_one_id sel id Hnd') as [[Hn ->]|(c & Hc & <- & ->)].
  - cbn [map outages]. unfold is_down. by rewrite (O id Hn).
  - cbn [map outages]. rewrite (proj2 (He c)).
    pose proof (sublist_filter_elem _ _ _ _ S Hc) as [Hcs _].
    destruct (Hr c Hcs) as (r & Hrow & Hstep & Hrow').
    destruct (R (c_id c) r) as (r' & Hr' & Hb); [apply elem_of_map_c_id; eauto|done|].
    unfold is_down. rewrite Hrow, Hr', Hstep. by rewrite (Hrow' _ Hb).
Qed.

Lemma collect_each_Done {A B} (l : list A) (f : A -> M (option B)) e w r w' :
  collect_each l f e w = (Done r, w') ->
  forall x, x ∈ l -> exists w1 o w2, f x e w1 = (Done o, w2).
Proof.
  revert w r w'. induction l as [|y l IH]; intros w r w'; [by intros _ x ?%elem_of_nil|].
  cbn [collect_each]. intros [[_ [=]]|(o & w1 & E1 & E)]%mbind_inv.
  apply mbind_inv in E as [[_ [=]]|(rest & w2 & E2 & _)].
  intros x [->|Hx]%elem_of_cons; [by eauto|]. by eapply IH.
Qed.

(** A read, then the rest: it fails and nothing happened, or the rest runs on the same
    tables. *)
Lemma mtry_query_inv {A B} (q : Db -> res DbErr A) (k : A -> M (res DbErr B)) e w r w' :
  mtry (query q) k e w = (Done r, w') ->
  (exists x, r = Err x /\ w_db w' = w_db w) \/
  (exists a w1, q (w_db w) = Ok a /\ w_db w1 = w_db w /\ k a e w1 = (Done r, w')).
Proof.
  intros E. destruct (query_step q e w) as (r1 & E1 & R1 & _).
  destruct r1 as [a|x].
  - rewrite (mtry_Ok _ _ _ _ _ _ E1) in E. right. exists a, (bump (w_db w) w).
    destruct R1 as [[=]|R1]; by rewrite R1.
  - rewrite (mtry_Err _ _ _ _ _ _ E1) in E. injection E as <- <-. left. by exists x.
Qed.

Lemma status_in_not_down r : status_in [CS_New; CS_Up] r = true -> bool_decide (cr_status r = as_str CS_Down) = false.
Proof. unfold status_in. cbn. rewrite !orb_true_iff, !bool_decide_eq_true. by intros [->|[->|?]]. Qed.

Lemma scan_once_outages now base_url e w r w' id :
  scan_once now base_url e w = (Done r, w') ->
  outages (is_down (w_db w) id)
    (map ev_event (List.filter (fun ev => ev_check_id ev =? id) (ok_or r []))) = Some (is_down (w_db w') id).
Proof.
  intros E. unfold scan_once, all_project_names, list_active_checks in E.
  apply mtry_query_inv in E as [(x & -> & D)|(names & w1 & _ & D1 & E)]; [by rewrite D|].
  apply mbind_inv in E as [[_ [=]]|(tz & w2 & E2 & E)].
  destruct (display_timezone_step e w1) as (tz' & w2' & E2' & D2 & _). rewrite E2 in E2'. simplify_eq.
  apply mtry_query_inv in E as [(x & -> & D)|(cs & w3 & [= <-] & D3 & E)]; [by rewrite D, D2, D1|].
  fold (active_checks (w_db w2')) in E.
  apply mbind_inv in E as [[_ [=]]|(evs & w4 & E4 & [= <- <-])]. cbn [ok_or].
  destruct (collect_each_pass (scan_body now base_url names tz') (scan_check now base_url names tz')
    (active_checks (w_db w2')) e w3) as (evs' & w5 & sel & E5 & P).
  - intros c Hc. apply scan_check_ok.
    destruct (collect_each_Done _ _ _ _ _ _ E4 c Hc) as (wa & o & wb & Es). unfold scan_check in Es.
    apply mbind_inv in Es as [[_ [=]]|(due & wc & Ed & Es)]. apply mexec_inv in Ed as [Ed _].
    apply mbind_inv in Es as [[_ [=]]|(dl & wd & El & _)]. apply mexec_inv in El as [El _].
    split; by eexists.
  - apply active_checks_NoDup.
  - rewrite E4 in E5. simplify_eq. rewrite D3, D2, D1 in P.
    eapply (pass_outages _ _ _ _ _ _ _ _ EK_Down true P); [apply active_checks_NoDup|done|].
    intros c (r & Hr & Hst & _)%elem_of_decoded. exists r. split; [done|].
    rewrite (status_in_not_down _ Hst). split; [done|].
    intros r' Hrow. apply pb_row_status in Hrow. by apply bool_decide_eq_true_2.
Qed.

Lemma nag_once_outages now base_url e w r w' id :
  nag_once now base_url e w = (Done r, w') ->
  outages (is_down (w_db w) id)
    (map ev_event (List.filter (fun ev => ev_check_id ev =? id) (ok_or r []))) = Some (is_down (w_db w') id).
Proof.
  intros E. unfold nag_once, all_project_nag_intervals, all_project_names, list_down_checks, get_setting in E.
  apply mtry_query_inv in E as [(x & -> & D)|(nags & w1 & [= <-] & D1 & E)]; [by rewrite D|].
  apply mtry_query_inv in E as [(x & -> & D)|(names & w2 & _ & D2 & E)]; [by rewrite D, D1|].
  apply mbind_inv in E as [[_ [=]]|(tz & w3 & E3 & E)].
  destruct (display_timezone_step e w2) as (tz' & w3' & E3' & D3 & _). rewrite E3 in E3'. simplify_eq.
  apply mtry_query_inv in E as [(x & -> & D)|(nag & w4 & [= <-] & D4 & E)]; [by rewrite D, D3, D2, D1|].
  apply mtry_query_inv in E as [(x & -> & D)|(cs & w5 & [= <-] & D5 & E)]; [by rewrite D, D4, D3, D2, D1|].
  apply mbind_inv in E as [[_ [=]]|(evs & w6 & E6 & [= <- <-])]. cbn [ok_or].
  rewrite D4, D3, D2, D1 in E6. fold (down_checks (w_db w)) in E6. fold (global_nag (w_db w)) in E6.
  destruct (collect_each_pass (nag_body (w_db w) now base_url names tz')
    (nag_check now base_url (pr_nag_interval_secs <$> t_rows (projects (w_db w))) names tz' (global_nag (w_db w)))
    (down_checks (w_db w)) e w5) as (evs' & w7 & sel & E7 & P).
  - intros c Hc. apply nag_check_ok. intros Hp.
    destruct (collect_each_Done _ _ _ _ _ _ E6 c Hc) as (wa & o & wb & Es). unfold nag_check in Es.
    unfold next_reminder, nag_interval_of in Hp.
    destruct (c_acknowledged c); [done|]. destruct (effective_nag_interval _ _ _) as [i|]; [|done].
    destruct (c_last_alert_at c) as [last|]; [|done]. cbn in Hp. injection Hp as Hp.
    apply mbind_inv in Es as [[_ [=]]|(next & wc & En & _)]. apply mexec_inv in En as [En _].
    unfold exec_bind in Hp. unfold exec_bind in En. congruence.
  - apply down_checks_NoDup.
  - rewrite E6 in E7. simplify_eq. rewrite D5, D4, D3, D2, D1 in P.
    eapply (pass_outages _ _ _ _ _ _ _ _ EK_Reminder true P); [apply down_checks_NoDup|done|].
    intros c (r & Hr & Hst & _)%elem_of_decoded. exists r. split; [done|].
    assert (cr_status r = as_str CS_Down) as Hd.
    { unfold status_in in Hst. cbn in Hst. rewrite orb_false_r in Hst. by apply bool_decide_eq_true in Hst. }
    rewrite bool_decide_eq_true_2 by done. split; [done|]. intros r' ->. by apply bool_decide_eq_true_2.
Qed.
End passes.

(** ** One turn of the scan loop is a run *)

Section turns.
Context `{Cron}.

Lemma spawn_deliveries_spec smtp evs e w :
  exists w', spawn_deliveries smtp evs e w = (Done tt, w') /\ w_db w' = w_db w /\
    w_tasks w' = w_tasks w ++ map (fun ev => T_Event ev smtp) evs.
Proof.
  unfold spawn_deliveries. revert w. induction evs as [|ev evs IH]; intros w; cbn [for_each map].
  { exists w. by rewrite app_nil_r. }
  unfold mbind, spawn_task at 1.
  match goal with |- context [for_each evs _ e ?w1] => destruct (IH w1) as (w' & -> & D & T) end.
  exists w'. split; [done|]. split; [done|]. rewrite T. cbn [w_tasks]. by rewrite <- (assoc_L (++)).
Qed.

Lemma live_tail_all evs e w :
  exists w', for_each evs (fun ev => do n := receiver_count in
      if 0 <? n then bus_send (ev_check_id ev) else mret tt) e w = (Done tt, w') /\
    w_db w' = w_db w /\ w_tasks w' = w_tasks w.
Proof.
  revert w. induction evs as [|ev evs IH]; intros w; cbn [for_each]; [by exists w|].
  destruct (0 <? env_receivers e) eqn:Er.
  - destruct (IH (mk_World (w_db w) (w_stmts w) (w_reads w) (w_uuids w) (w_bus w ++ [ev_check_id ev])
      (w_tasks w) (w_out w) (w_mem w) (w_instants w))) as (w' & E & D & T).
    exists w'. split; [|done]. rewrite <- E. unfold mbind at 1 2, receiver_count at 1. by rewrite Er.
  - destruct (IH w) as (w' & E & D & T). exists w'. split; [|done].
    rewrite <- E. unfold mbind at 1 2, receiver_count at 1. by rewrite Er.
Qed.

(** The events of a pass, its live-tail signals and its deliveries. *)
Lemma deliveries_track id smtp evs e w w1 w' :
  w_tasks w1 = w_tasks w ->
  outages (is_down (w_db w) id) (map ev_event (List.filter (fun ev => ev_check_id ev =? id) evs))
    = Some (is_down (w_db w1) id) ->
  spawn_deliveries smtp evs e w1 = (Done tt, w') -> tracks id w w'.
Proof.
  intros Ht Ho E. destruct (spawn_deliveries_spec smtp evs e w1) as (w2 & E2 & D & T).
  rewrite E in E2. simplify_eq. exists (map (fun ev => T_Event ev smtp) evs).
  rewrite T, Ht. split; [done|]. by rewrite alerts_in_events, D.
Qed.

(** A statement on other tables, or a read. *)
Lemma idle_step {A} id (m : M A) e w r w' :
  quiet m -> (forall b, preserves (fun d => is_down d id = b) m) -> m e w = (r, w') -> tracks id w w'.
Proof.
  intros Hq Hp E. apply tracks_idle; [by eapply Hq|]. exact (Hp _ e w r w' eq_refl E).
Qed.

Lemma scan_pass_tracks id scan e w secs w' :
  scan_pass scan e w = (Done secs, w') -> tracks id w w'.
Proof.
  intros E. unfold scan_pass in E.
  apply mbind_inv in E as [[_ [=]]|(now & w1 & E1 & E)]. injection E1 as <- <-.
  apply mbind_inv in E as [[_ [=]]|(r & w2 & E2 & E)].
  pose proof (quiet_scan_once _ _ _ _ _ _ E2) as T2. pose proof (scan_once_outages _ _ _ _ _ _ id E2) as O2.
  apply mbind_inv in E as [[_ [=]]|([] & w3 & E3 & E)].
  assert (tracks id w w3) as H3.
  { destruct r as [evs|x]; cbn [ok_or] in O2.
    - apply mbind_inv in E3 as [[_ [=]]|([] & w4 & E4 & E3)].
      destruct (live_tail_all evs e w2) as (w5 & E5 & D5 & T5). rewrite E4 in E5. simplify_eq.
      eapply (deliveries_track id _ evs e w w5); [by rewrite T5, T2|by rewrite D5|exact E3].
    - injection E3 as <-. apply tracks_idle; [done|]. cbn in O2. by injection O2 as <-. }
  eapply tracks_trans; [exact H3|]. clear H3 E3 E2 T2 O2 w2.
  apply mbind_inv in E as [[_ [=]]|(r1 & w4 & E4 & E)].
  eapply tracks_trans.
  { eapply (idle_step id); [|clear E4|exact E4]; [apply quiet_execute|].
    intros b. apply preserves_execute. by intros d Hd. }
  apply mbind_inv in E as [[_ [=]]|(now2 & w5 & E5 & E)]. injection E5 as <- <-.
  apply mbind_inv in E as [[_ [=]]|(r2 & w6 & E6 & E)].
  pose proof (quiet_nag_once _ _ _ _ _ _ E6) as T6. pose proof (nag_once_outages _ _ _ _ _ _ id E6) as O6.
  apply mbind_inv in E as [[_ [=]]|([] & w7 & E7 & E)].
  assert (tracks id w4 w7) as H7.
  { destruct r2 as [evs|x]; cbn [ok_or] in O6.
    - by eapply (deliveries_track id _ evs e w4 w6).
    - injection E7 as <-. apply tracks_idle; [done|]. cbn in O6. by injection O6 as <-. }
  eapply tracks_trans; [exact H7|]. eapply (idle_step id); [..|exact E].
  - unfold list_active_checks, all_project_scan_intervals, get_setting. quiet_steps.
  - intros b. unfold list_active_checks, all_project_scan_intervals, get_setting. preserves_steps.
Qed.

(** ** A ping answered 200 is a run *)

Lemma ping_answered config ping e w n w' :
  pq_kind ping <> PK_Exitcode -> apply config ping e w = (Done (Ok n), w') ->
  exists c now next, lookup_uuid (w_db w) (pq_uuid ping) = Ok (Some c) /\
    w_db w' = ping_db ping c now next (w_db w) /\
    w_tasks w' = w_tasks w ++ alert_tasks config c now (ping_alert ping c).
Proof.
  intros Hk E. pose proof E as E0. unfold apply in E0.
  apply mtry_Ok_inv in E0 as (c & w1 & E1 & E0).
  destruct (resolve_spec (pq_uuid ping) e w) as (r1 & w1' & E1' & -> & R). rewrite E1 in E1'. simplify_eq.
  assert (lookup_uuid (w_db w) (pq_uuid ping) = Ok (Some c)) as Hl.
  { destruct R as [[[=] _]|R]. by destruct (lookup_uuid (w_db w) _) as [[?|]|]; simplify_eq. }
  set (now := env_now e (w_reads w)).
  assert (exists next, pq_kind ping = PK_Success -> c_status c <> CS_Paused ->
    due_time (with_last_ping now c) = Done next) as [next Hn].
  { apply mbind_inv in E0 as [[[=] _]|(now' & w2 & [= <- <-] & E0)].
    apply mtry_Ok_inv in E0 as (u & w3 & _ & E0).
    apply mbind_inv in E0 as [[_ [=]]|(k & w4 & _ & E0)].
    apply mbind_inv in E0 as [[_ [=]]|(u' & w5 & _ & E0)].
    destruct (bool_decide_reflect (c_status c = CS_Paused)) as [Hp|Hp]; [exists None; congruence|].
    apply mtry_Ok_inv in E0 as (u2 & w6 & E6 & _). unfold apply_kind in E6.
    destruct (pq_kind ping) eqn:Ek; try (exists None; congruence).
    apply mbind_inv in E6 as [[_ [=]]|(next & w7 & E7 & _)]. apply mexec_inv in E7 as [E7 _].
    exists next. intros _ _. exact E7. }
  destruct (apply_effect config ping e w c next Hl Hk Hn) as (r & w2 & E2 & Hr).
  rewrite E in E2. simplify_eq. exists c, now, next. split; [exact Hl|].
  destruct Hr as [(_ & D & T & _)|([=] & _)]. by split.
Qed.

Lemma is_down_decoded id r c :
  row_to_check (id, r) = Ok c -> bool_decide (cr_status r = as_str CS_Down) = bool_decide (c_status c = CS_Down).
Proof. intros Hc. apply row_to_check_Ok in Hc as (_ & _ & _ & -> & _). by destruct (c_status c). Qed.

Lemma down_text (s : CheckStatus) :
  bool_decide (as_str s = as_str CS_Down) = bool_decide (s = CS_Down).
Proof. by destruct s. Qed.

Lemma live_row_status kind c now next r id :
  kind <> PK_Exitcode -> row_to_check (id, r) = Ok c ->
  cr_status (live_row kind c now next r) = as_str (live_status kind (c_status c)).
Proof.
  intros Hk (_ & _ & _ & Hs & _)%row_to_check_Ok. destruct kind; try done; cbn [live_row live_status].
  - by destruct (bool_decide _).
  - by destruct (bool_decide _ || bool_decide _).
Qed.

Lemma apply_tracks id config ping e w n w' :
  pq_kind ping <> PK_Exitcode -> apply config ping e w = (Done (Ok n), w') -> tracks id w w'.
Proof.
  intros Hk E. destruct (ping_answered config ping e w n w' Hk E) as (c & now & next & Hl & D & T).
  exists (alert_tasks config c now (ping_alert ping c)). split; [exact T|]. rewrite D.
  destruct (lookup_uuid_row _ _ _ Hl) as (row & Hrow & _ & Hok).
  assert (forall k, task_check <$> alert_tasks config c now k = match k with Some _ => [c_id c] | None => [] end) as Hids.
  { intros [[k cause]|]; done. }
  unfold ping_db, ping_alert. destruct (bool_decide (c_status c = CS_Paused)) eqn:Ep; [done|].
  unfold is_down. rewrite update_check_lookup. unfold alerts_in. destruct (decide (c_id c = id)) as [<-|Eid].
  - cbn [checks set_pings with_ping]. rewrite Hrow. cbn [fmap option_fmap option_map].
    rewrite (is_down_decoded _ _ _ Hok).
    assert (forall k, map task_event (List.filter (fun t => task_check t =? c_id c) (alert_tasks config c now k))
      = match k with Some (k, _) => [k] | None => [] end) as ->.
    { intros [[k cause]|]; [|done]. cbn. by rewrite Z.eqb_refl. }
    rewrite (live_row_status _ _ _ _ _ (c_id c) Hk Hok), down_text.
    by destruct (pq_kind ping), (c_status c).
  - assert (List.filter (fun t => task_check t =? id)
      (alert_tasks config c now (live_alert (pq_kind ping) (pq_exit_code ping) (c_status c))) = []) as ->; [|done].
    destruct (live_alert _ _ _) as [[k cause]|]; [|done]. cbn. by rewrite (proj2 (Z.eqb_neq _ _)).
Qed.

Lemma handle_tracks id config route conn body e w n w' :
  handle config route conn body e w = (Done (Ok n), w') -> tracks id w w'.
Proof.
  destruct route as [uuid []]; cbn [handle]; unfold success, fail, start, log, exitcode; intros E;
    (eapply apply_tracks; [|exact E]); cbn [pq_kind]; try done. by destruct (code =? 0).
Qed.
End turns.

(** ** Silent moves *)

(** Who acts: the process by itself (a pass of the scan loop or of the retention loop, or a
    delivery), a ping answered 200, a ping answered otherwise, any other request. *)
Inductive Mover : Set := By_Process | By_Ping | By_Failed_Ping | By_Request.
#[export] Instance Mover_eq_dec : EqDecision Mover.
Proof. solve_decision. Defined.

(** An alert whose delivery is started, or a change of the state without one. *)
Inductive Move : Set :=
| Alerted (k : EventKind)
| Silently (by_ : Mover) (down : bool).

(** The machine with its silent moves: a request may end an outage, and a ping that fails
    may do either; nobody else moves without an alert, and nobody else than a failing ping
    puts a check down without one. *)
Definition life_step (down : bool) (m : Move) : option bool :=
  match m with
  | Alerted k => outage_step down k
  | Silently By_Request false => if down then Some false else None
  | Silently By_Failed_Ping down' => Some down'
  | Silently _ _ => None
  end.
Fixpoint life (down : bool) (l : list Move) : option bool :=
  match l with
  | [] => Some down
  | m :: l' => match life_step down m with Some down' => life down' l' | None => None end
  end.
Definition alert_of (m : Move) : option EventKind :=
  match m with Alerted k => Some k | Silently _ _ => None end.

Lemma life_app down l1 l2 :
  life down (l1 ++ l2) = match life down l1 with Some down' => life down' l2 | None => None end.
Proof.
  revert down. induction l1 as [|m l1 IH]; [done|]. intros down. cbn [Datatypes.app life].
  by destruct (life_step down m).
Qed.
Lemma life_alerts down ks : life down (map Alerted ks) = outages down ks.
Proof.
  revert down. induction ks as [|k ks IH]; [done|]. intros down. cbn [map life life_step outages].
  by destruct (outage_step down k).
Qed.
Lemma alerts_of_alerts ks : omap alert_of (map Alerted ks) = ks.
Proof. induction ks as [|k ks IH]; [done|]. cbn. by rewrite IH. Qed.
Lemma all_alerts l : Forall (fun m => is_Some (alert_of m)) l -> l = map Alerted (omap alert_of l).
Proof. induction 1 as [|[k|] l [? E] _ IH]; [done| |done]. cbn. by rewrite <- IH. Qed.

(** What is seen of one step: the alerts it starts for the check and, if the stored status
    is not the one these lead to, a silent move. *)
Definition observed (by_ : Mover) (id : Z) (w w' : World) : list Move :=
  let ks := alerts_in id (drop (length (w_tasks w)) (w_tasks w')) in
  map Alerted ks ++
  if bool_decide (outages (is_down (w_db w) id) ks = Some (is_down (w_db w') id)) then []
  else [Silently by_ (is_down (w_db w') id)].

(** A step of the program that the machine allows. *)
Definition allowed (by_ : Mover) (id : Z) (w w' : World) : Prop :=
  (exists ts, w_tasks w' = w_tasks w ++ ts) /\
  life (is_down (w_db w) id) (observed by_ id w w') = Some (is_down (w_db w') id).

Lemma observed_alerts by_ id w w' ts :
  w_tasks w' = w_tasks w ++ ts -> omap alert_of (observed by_ id w w') = alerts_in id ts.
Proof.
  intros T. unfold observed. rewrite T, drop_app_length. rewrite omap_app, alerts_of_alerts.
  case_bool_decide; apply app_nil_r.
Qed.

Lemma allowed_tracks by_ id w w' : tracks id w w' -> allowed by_ id w w'.
Proof.
  intros (ts & T & O). split; [eauto|]. unfold observed. rewrite T, drop_app_length, O.
  rewrite bool_decide_eq_true_2, app_nil_r by done. by rewrite life_alerts.
Qed.
Lemma allowed_quiet by_ id w w' :
  w_tasks w' = w_tasks w ->
  (is_down (w_db w') id = is_down (w_db w) id \/
   life_step (is_down (w_db w) id) (Silently by_ (is_down (w_db w') id)) = Some (is_down (w_db w') id)) ->
  allowed by_ id w w'.
Proof.
  intros T Hd. split; [exists []; by rewrite app_nil_r|]. unfold observed. rewrite T, drop_all.
  cbn [alerts_in List.filter map Datatypes.app outages]. case_bool_decide as E; [cbn; congruence|].
  destruct Hd as [Hd|Hd]; [by rewrite Hd in E|]. cbn [life]. by rewrite Hd.
Qed.

(** ** A ping that fails starts no delivery *)

Section failing.
Context `{Cron}.

(** [m] answers 200, or starts no delivery. *)
Definition hushed {A} (good : A -> Prop) (m : M (res AppError A)) : Prop := forall e w r w', m e w = (r, w') ->
  (exists a, r = Done (Ok a) /\ good a) \/ (w_tasks w' = w_tasks w /\ forall a, r <> Done (Ok a)).

Lemma hushed_mret {A} good (a : A) : good a -> hushed good (mret (Ok a)).
Proof. intros Ha e w r w' [= <- _]. left. eauto. Qed.
Lemma hushed_mbind {A B} good (m : M A) (k : A -> M (res AppError B)) :
  quiet m -> (forall a, hushed good (k a)) -> hushed good (mbind m k).
Proof.
  intros Hm Hk e w r w' [[E ->]|(a & w1 & E1 & E2)]%mbind_inv.
  - right. split; [by eapply Hm|done].
  - apply Hm in E1. apply Hk in E2 as [?|[T ?]]; [by left|right]. split; [congruence|done].
Qed.
Lemma hushed_mtry {A B} good (m : M (res AppError A)) (k : A -> M (res AppError B)) :
  quiet m -> (forall a, hushed good (k a)) -> hushed good (mtry m k).
Proof.
  intros Hm Hk e w r w' [[E ->]|([a|x] & w1 & E1 & E2)]%mbind_inv.
  - right. split; [by eapply Hm|done].
  - apply Hm in E1. apply Hk in E2 as [?|[T ?]]; [by left|right]. split; [congruence|done].
  - injection E2 as <- <-. right. split; [by eapply Hm|done].
Qed.
Lemma hushed_then {A B} good good' (m : M (res AppError A)) (b : B) :
  hushed good m -> good' b -> hushed good' (mtry m (fun _ => mret (Ok b))).
Proof.
  intros Hm Hb e w r w' [[E ->]|([a|x] & w1 & E1 & E2)]%mbind_inv.
  - apply Hm in E as [(a & [=] & _)|[T _]]. by right.
  - injection E2 as <- <-. left. eauto.
  - injection E2 as <- <-. apply Hm in E1 as [(a & [=] & _)|[T _]]. by right.
Qed.
Lemma hushed_spawn t : hushed (fun _ => True) (mbind (spawn_task t) (fun _ => mret (Ok tt))).
Proof. intros e w r w' [= <- _]. left. eauto. Qed.

Lemma quiet_db {A} (m : M (res DbErr A)) : quiet m -> quiet (db m).
Proof. intros Hm. apply quiet_mbind; [done|]. intros a. apply quiet_mret. Qed.

Lemma apply_kind_hushed config c kind code now : hushed (fun _ => True) (apply_kind config c kind code now).
Proof.
  destruct kind; cbn [apply_kind].
  - apply hushed_mbind; [apply quiet_mexec|]. intros next. apply hushed_mtry; [apply quiet_db, quiet_execute|].
    intros _. destruct (bool_decide _); [|by apply hushed_mret].
    apply hushed_mtry; [apply quiet_db, quiet_execute|]. intros _. apply hushed_spawn.
  - apply hushed_mtry; [apply quiet_db, quiet_execute|].
    intros _. destruct (_ || _); [|by apply hushed_mret].
    apply hushed_mtry; [apply quiet_db, quiet_execute|]. intros _. apply hushed_spawn.
  - apply hushed_mtry; [apply quiet_db, quiet_execute|]. intros _. by apply hushed_mret.
  - by apply hushed_mret.
  - intros e w r w' [= <- <-]. by right.
Qed.

Lemma apply_hushed config ping : hushed (fun n => n = 200) (apply config ping).
Proof.
  unfold apply. apply hushed_mtry; [unfold resolve, find_check_by_uuid; apply quiet_mtry;
    [apply quiet_db, quiet_query|intros o; apply quiet_mret]|]. intros c.
  apply hushed_mbind; [apply quiet_utc_now|]. intros now.
  apply hushed_mtry; [apply quiet_db; unfold insert_ping; quiet_steps|]. intros _.
  apply hushed_mbind; [by intros e w r w' [= _ <-]|]. intros n.
  apply hushed_mbind; [destruct (0 <? n); [by intros e w r w' [= _ <-]|apply quiet_mret]|]. intros _.
  destruct (bool_decide _); [by apply hushed_mret|].
  eapply hushed_then; [apply apply_kind_hushed|done].
Qed.

Lemma handle_hushed config route conn body : hushed (fun n => n = 200) (handle config route conn body).
Proof. destruct route as [uuid []]; apply apply_hushed. Qed.
End failing.

(** ** Histories *)

Section histories.
Context `{ChronoLaws} `{!Cron} `{CryptoLaws} `{PageText} `{NotifyDeps} `{HashOrder} `{!JsonText} `{IpText} `{Argon2}.
Context `{FormUrl} `{CookieParseLaws} `{Extract} `{Embedded} `{ApiText}.
Context (config : Config) (id : Z).

Definition mover (h : Http) (r : exec Response) : Mover :=
  match matched_path (h_path h) with
  | Some pat =>
      if bool_decide (pat ∈ PING_PATTERNS) then
        match r with
        | Done resp => if rs_status resp =? 200 then By_Ping else By_Failed_Ping
        | Panic => By_Failed_Ping
        end
      else By_Request
  | None => By_Request
  end.

(** A history of the running program, with the moves of one check: passes of the scan loop
    that end, passes of the retention loop, deliveries, and any requests at all, each with
    its own clock, identifiers, network and failing statements. *)
Inductive history (w0 : World) : list Move -> World -> Prop :=
| history_start : history w0 [] w0
| history_scan l w scan e secs w' :
    history w0 l w -> scan_pass scan e w = (Done secs, w') ->
    history w0 (l ++ observed By_Process id w w') w'
| history_prune l w e r w' :
    history w0 l w -> prune_pass e w = (r, w') -> history w0 (l ++ observed By_Process id w w') w'
| history_delivery l w t e r w' :
    history w0 l w -> run_task t e w = (r, w') -> history w0 (l ++ observed By_Process id w w') w'
| history_request l w h e r w' :
    history w0 l w -> app config h e w = (r, w') -> history w0 (l ++ observed (mover h r) id w w') w'.

Lemma strictly_silent {A} (m : M A) e w r w' :
  silent true id m -> m e w = (r, w') -> allowed By_Process id w w'.
Proof. intros Hm [T D]%Hm. apply allowed_quiet; [done|]. by left. Qed.

Lemma request_allowed h e w r w' : app config h e w = (r, w') -> allowed (mover h r) id w w'.
Proof.
  intros E. assert (By_Request = mover h r -> w_tasks w' = w_tasks w /\ lifts false id (w_db w) (w_db w') ->
    allowed (mover h r) id w w') as Hr.
  { intros <- [T D]. apply allowed_quiet; [done|]. cbn [lifts] in D.
    destruct (is_down (w_db w') id); [left; symmetry; by apply D|].
    destruct (is_down (w_db w) id); [by right|by left]. }
  unfold mover in *. destruct (matched_path (h_path h)) as [pat|] eqn:Em.
  2: { apply Hr; [done|]. eapply app_silent; [|exact E]. by rewrite Em. }
  destruct (bool_decide_reflect (pat ∈ PING_PATTERNS)) as [Hp|Hp].
  2: { apply Hr; [done|]. eapply app_silent; [|exact E]. rewrite Em. by intros ? [= <-]. }
  clear Hr. destruct (app_pings config h e w r w' pat Em Hp E) as [->|(route & conn & body & r0 & E0 & Ha)].
  { apply allowed_quiet; [done|by left]. }
  destruct (handle_hushed _ _ _ _ _ _ _ _ E0) as [(n & -> & ->)|[T Hn]].
  - destruct Ha as (resp & -> & ->). apply allowed_tracks. by eapply handle_tracks.
  - assert (match r with Done resp => if rs_status resp =? 200 then By_Ping else By_Failed_Ping
            | Panic => By_Failed_Ping end = By_Failed_Ping) as ->.
    { destruct r0 as [[n|x]|]; cbn [answers] in Ha; [by destruct (Hn n)| |by rewrite Ha].
      destruct Ha as (resp & -> & ->). by destruct x. }
    apply allowed_quiet; [done|by right].
Qed.

Lemma history_life w0 l w : history w0 l w ->
  life (is_down (w_db w0) id) l = Some (is_down (w_db w) id) /\
  exists ts, w_tasks w = w_tasks w0 ++ ts /\ omap alert_of l = alerts_in id ts.
Proof.
  assert (forall by_ l w w', allowed by_ id w w' ->
    life (is_down (w_db w0) id) l = Some (is_down (w_db w) id) /\
    (exists ts, w_tasks w = w_tasks w0 ++ ts /\ omap alert_of l = alerts_in id ts) ->
    life (is_down (w_db w0) id) (l ++ observed by_ id w w') = Some (is_down (w_db w') id) /\
    exists ts, w_tasks w' = w_tasks w0 ++ ts /\ omap alert_of (l ++ observed by_ id w w') = alerts_in id ts) as Hstep.
  { intros by_ l1 w1 w2 [[ts T] L] (L1 & ts1 & T1 & A1). split; [by rewrite life_app, L1|].
    exists (ts1 ++ ts). split; [by rewrite T, T1, (assoc_L (++))|].
    rewrite omap_app, alerts_in_app, A1. by rewrite (observed_alerts _ _ _ _ ts). }
  induction 1 as [|l w scan e secs w' _ IH E|l w e r w' _ IH E|l w t e r w' _ IH E|l w h e r w' _ IH E].
  - split; [done|]. exists []. by rewrite app_nil_r.
  - apply Hstep; [|done]. apply allowed_tracks. by eapply scan_pass_tracks.
  - apply Hstep; [|done]. eapply strictly_silent; [apply silent_prune_pass|exact E].
  - apply Hstep; [|done]. eapply strictly_silent; [apply silent_run_task|exact E].
  - apply Hstep; [|done]. by eapply request_allowed.
Qed.

Lemma outages_last l down :
  outages false l = Some down ->
  (down = true <-> last l = Some EK_Down \/ last l = Some EK_Reminder).
Proof.
  destruct l as [|k l _] using rev_ind; [intros [= <-]; naive_solver|].
  rewrite outages_app, last_snoc. destruct (outages false l) as [b|]; [|done].
  cbn. destruct k, b; cbn; try done; intros [= <-]; naive_solver.
Qed.

(** C1: the program refines the machine of outages. Take any history of a check that was not
    down at its start: passes of the scan loop that end without a panic, passes of the
    retention loop, deliveries, and whatever requests to the whole application, with any
    failing statements. The alerts whose
    deliveries were started for the check are those of a run of the machine, and the stored
    status is the state it ends in. So an outage is announced only when the check is not
    down, a reminder or a recovery only while it is; the loops and the pings answered 200
    never move the status without the alert for it; a request that is no ping (pausing,
    resuming, deleting) can end an outage silently and never begin one; only a ping that is
    not answered 200 can do both. In a history without silent moves a check is down exactly
    if the last alert sent for it is an outage or a reminder. *)
Theorem alerts_refine_outages d l w :
  is_down d id = false -> history (world_of d) l w ->
  omap alert_of l = alerts id w /\ life false l = Some (is_down (w_db w) id) /\
  (Forall (fun m => is_Some (alert_of m)) l ->
   outages false (alerts id w) = Some (is_down (w_db w) id) /\
   (is_down (w_db w) id = true <->
    last (alerts id w) = Some EK_Down \/ last (alerts id w) = Some EK_Reminder)).
Proof.
  intros Hd (L & ts & T & A)%history_life. rewrite world_of_db, Hd in L.
  assert (alerts id w = alerts_in id ts) as Ha by (unfold alerts; by rewrite T).
  rewrite Ha. split; [exact A|]. split; [exact L|]. intros Hl%all_alerts.
  rewrite Hl, A, life_alerts in L. split; [exact L|]. by apply outages_last.
Qed.
End histories.

(** ** A missed deadline is announced *)

(** Code that only adds deliveries. *)
Definition grows {A} (m : M A) : Prop := forall e w r w',
  m e w = (r, w') -> exists ts, w_tasks w' = w_tasks w ++ ts.
Lemma grows_quiet {A} (m : M A) : quiet m -> grows m.
Proof. intros Hq e w r w' E. exists []. rewrite app_nil_r. by eapply Hq. Qed.
Lemma grows_mbind {A B} (m : M A) (k : A -> M B) : grows m -> (forall a, grows (k a)) -> grows (mbind m k).
Proof.
  intros Hm Hk e w r w' [[E _]|(a & w1 & E1 & E2)]%mbind_inv; [by eapply Hm|].
  apply Hm in E1 as [ts1 T1]. apply Hk in E2 as [ts2 T2]. exists (ts1 ++ ts2).
  by rewrite T2, T1, (assoc_L (++)).
Qed.
Lemma grows_spawn smtp evs : grows (spawn_deliveries smtp evs).
Proof.
  intros e w r w' E. destruct (spawn_deliveries_spec smtp evs e w) as (w2 & E2 & _ & T).
  rewrite E in E2. simplify_eq. eauto.
Qed.

Section deadline.
Context `{Cron}.

(** The rest of a turn once the scan's deliveries are started. *)
Definition turn_rest (scan : ScanLoop) (now : Z) : M Z :=
  do _ := set_setting (lit "last_scan_at") (to_rfc3339 now) in
  do now2 := utc_now in
  do r := nag_once now2 (sl_base_url scan) in
  do _ := match r with
          | Ok events => spawn_deliveries (sl_smtp scan) events
          | Err _ => mret tt
          end in
  do active := list_active_checks in
  do projects := all_project_scan_intervals in
  do setting := get_setting (lit "scan_interval") in
  let global := ok_or setting None ≫= parse_i64 in
  mret (loop_interval_secs (ok_or active []) (ok_or projects ∅) global (sl_env_default_secs scan)).

Lemma turn_rest_grows scan now : grows (turn_rest scan now).
Proof.
  unfold turn_rest. apply grows_mbind; [apply grows_quiet, quiet_execute|]. intros _.
  apply grows_mbind; [apply grows_quiet, quiet_utc_now|]. intros now2.
  apply grows_mbind; [apply grows_quiet, quiet_nag_once|]. intros r.
  apply grows_mbind; [destruct r; [apply grows_spawn|apply grows_quiet, quiet_mret]|]. intros _.
  apply grows_quiet. unfold list_active_checks, all_project_scan_intervals, get_setting. quiet_steps.
Qed.

Lemma turn_rest_down scan now id b : preserves (fun d => is_down d id = b) (turn_rest scan now).
Proof.
  assert (forall cid t, preserves (fun d => is_down d id = b) (record_reminder cid t)) as Hr.
  { intros cid t. apply preserves_execute. intros d Hd. unfold is_down in *.
    rewrite update_check_lookup. case_decide; [|done].
    destruct (t_rows (checks d) !! id) as [row|]; [|done]. exact Hd. }
  assert (forall t, preserves (fun d => is_down d id = b) (set_setting (lit "last_scan_at") t)) as Hs.
  { intros t. by apply preserves_execute. }
  assert (forall l f, (forall x, preserves (fun d => is_down d id = b) (f x)) ->
    preserves (fun d => is_down d id = b) (collect_each (A:=Check) (B:=NotificationEvent) l f)) as Hc.
  { intros l f Hf. induction l as [|x l IH]; cbn [collect_each]; preserves_steps. }
  unfold turn_rest, nag_once, all_project_nag_intervals, all_project_names, display_timezone, get_setting,
    spawn_deliveries, list_active_checks, all_project_scan_intervals, list_down_checks.
  preserves_steps. apply Hc. intros x. unfold nag_check. preserves_steps.
Qed.

(** The loop sleeps no longer than any active check asks for. *)
Lemma turn_rest_interval scan now e w secs w' :
  calm e -> turn_rest scan now e w = (Done secs, w') ->
  1 <= secs /\ forall c, c ∈ active_checks (w_db w') ->
    secs <= effective_scan_interval (c_scan_interval_secs c)
              (mjoin ((pr_scan_interval_secs <$> t_rows (projects (w_db w'))) !! c_project_id c))
              (settings (w_db w') !! lit "scan_interval" ≫= parse_i64) (sl_env_default_secs scan).
Proof.
  intros He E. unfold turn_rest in E.
  apply mbind_inv in E as [[_ [=]]|(? & w1 & _ & E)]. apply mbind_inv in E as [[_ [=]]|(? & w2 & _ & E)].
  apply mbind_inv in E as [[_ [=]]|(? & w3 & _ & E)]. apply mbind_inv in E as [[_ [=]]|(? & w4 & _ & E)].
  unfold list_active_checks, all_project_scan_intervals, get_setting in E.
  apply mbind_inv in E as [[_ [=]]|(r5 & w5 & E5 & E)]. rewrite query_calm in E5 by done.
  apply mbind_inv in E as [[_ [=]]|(r6 & w6 & E6 & E)]. rewrite query_calm in E6 by done.
  apply mbind_inv in E as [[_ [=]]|(r7 & w7 & E7 & E)]. rewrite query_calm in E7 by done.
  injection E5 as <- <-. injection E6 as <- <-. injection E7 as <- <-. injection E as <- <-.
  cbn [ok_or w_db bump].
  match goal with |- 1 <= loop_interval_secs ?cs ?i ?g ?d /\ _ =>
    destruct (loop_interval_secs_min cs i g d) as (H1 & H2 & _) end.
  split; [exact H1|]. intros c Hc. by apply H2.
Qed.
End deadline.

Section announced.
Context `{Cron}.

(** A turn is its scan, what the scan starts, and the rest. *)
Lemma scan_pass_unfold scan e w :
  scan_pass scan e w = (do now := utc_now in
    do r := scan_once now (sl_base_url scan) in
    do _ := match r with
            | Ok events =>
                do _ := for_each events (fun ev =>
                  do n := receiver_count in
                  if 0 <? n then bus_send (ev_check_id ev) else mret tt) in
                spawn_deliveries (sl_smtp scan) events
            | Err _ => mret tt
            end in
    turn_rest scan now) e w.
Proof. done. Qed.

(** C2: the dead man's switch fires. When no statement fails and every active check's deadline
    can be computed, a turn of the loop that starts at or after the deadline of an active
    check starts a delivery of its outage, dated with the turn's clock, and leaves the check
    down, even if a reminder's due time then panics; and the loop sleeps at least a second
    and at most the interval of any check that is still active, so the next deadline is
    looked at within it. *)
Theorem missed_deadline_announced scan e w c r w' :
  calm e -> (forall x, x ∈ active_checks (w_db w) -> schedulable x) ->
  c ∈ active_checks (w_db w) -> late (env_now e (w_reads w)) c = true ->
  scan_pass scan e w = (r, w') ->
  (exists ts ev, w_tasks w' = w_tasks w ++ ts /\ T_Event ev (sl_smtp scan) ∈ ts /\
     ev_check_id ev = c_id c /\ ev_event ev = EK_Down /\ ev_at ev = env_now e (w_reads w)) /\
  is_down (w_db w') (c_id c) = true /\
  (forall secs, r = Done secs -> 1 <= secs /\ forall x, x ∈ active_checks (w_db w') ->
     secs <= effective_scan_interval (c_scan_interval_secs x)
               (mjoin ((pr_scan_interval_secs <$> t_rows (projects (w_db w'))) !! c_project_id x))
               (settings (w_db w') !! lit "scan_interval" ≫= parse_i64) (sl_env_default_secs scan)).
Proof.
  intros He Hs Hc Hl E. rewrite scan_pass_unfold in E. set (now := env_now e (w_reads w)) in *.
  apply mbind_inv in E as [[[=] _]|(now' & w1 & [= <- <-] & E)]. fold now in E.
  match type of E with mbind _ _ e ?w1 = _ => destruct (scan_effect now (sl_base_url scan) e w1 Hs)
    as (r2 & w2 & E2 & P) end.
  rewrite (mbind_Done _ _ _ _ _ _ E2) in E.
  destruct r2 as [evs|x]; [|by destruct P as [_ []]]. destruct P as (tz & sel & _ & _ & P).
  destruct (pr_calm _ _ _ _ _ _ _ P He) as [Hsel _].
  assert (c ∈ sel) as Hin by (rewrite Hsel; by apply list_elem_of_In, filter_In; rewrite <- list_elem_of_In).
  destruct (live_tail_all evs e w2) as (w3 & E3 & D3 & T3).
  destruct (spawn_deliveries_spec (sl_smtp scan) evs e w3) as (w4 & E4 & D4 & T4).
  rewrite <- (mbind_assoc (for_each evs _)) in E. rewrite (mbind_Done _ _ _ _ _ _ E3), (mbind_Done _ _ _ _ _ _ E4) in E.
  pose proof (quiet_scan_once _ _ _ _ _ _ E2) as T2. cbn [w_tasks] in T2.
  pose proof (turn_rest_grows _ _ _ _ _ _ E) as [ts T5].
  split; [|split].
  - exists (map (fun ev => T_Event ev (sl_smtp scan)) evs ++ ts), (down_event now (sl_base_url scan)
      (pr_name <$> t_rows (projects (w_db w))) tz c).
    split; [by rewrite T5, T4, T3, T2, (assoc_L (++))|]. split; [|done].
    apply elem_of_app. left. apply list_elem_of_fmap. eexists. split; [done|].
    rewrite (pr_events _ _ _ _ _ _ _ P). apply list_elem_of_fmap. by exists c.
  - refine (turn_rest_down scan now (c_id c) true e w4 r w' _ E). rewrite D4, D3.
    apply elem_of_decoded in Hc as (row & Hrow & _).
    destruct (pr_rows _ _ _ _ _ _ _ P (c_id c) row) as (row' & Hrow' & Hp);
      [apply elem_of_map_c_id; eauto|exact Hrow|].
    unfold is_down. rewrite Hrow'. apply pb_row_status in Hp. by apply bool_decide_eq_true_2.
  - intros secs ->. by eapply turn_rest_interval.
Qed.
End announced.

(** ** Witness: a check misses its deadline, is reminded of, and recovers *)

#[local] Existing Instances SampleChrono.sample_chrono SampleChrono.sample_chrono_laws.
#[local] Existing Instances SampleChrono.sample_cron SampleCrypto.sample_crypto SampleCrypto.sample_crypto_laws.
#[local] Existing Instances SamplePageText.sample_page_text SampleJson.sample_deps SampleJson.sample_json.
#[local] Existing Instances SampleWeb.sample_ip_text SampleWeb.sample_argon2 SampleWeb.sample_form_url.
#[local] Existing Instances SampleCookies.sample_cookies SampleCookies.sample_cookies_laws sample_hash_order.
#[local] Existing Instances SampleHttp.sample_extract SampleHttp.sample_embedded SampleHttp.sample_api_text.

Definition late_world : World :=
  (scan_pass (mk_ScanLoop 30 None sample_url) (calm_env t100) (world_of sample_db)).2.
Definition reminded_world : World :=
  (scan_pass (mk_ScanLoop 30 None sample_url) (calm_env (130 * ns)) late_world).2.
Definition faulty_env (k : nat) (now : Z) : Env :=
  mk_Env (fun _ => now) (fun n => (n =? k)%nat) (fun n => show_Z (Z.of_nat n)) 0
    (fun _ _ => Ok 200) (fun _ _ _ => Ok tt) (fun _ => now).

(** The check misses its deadline, is reminded of, and is pinged; the statement that clears
    the reminder fails. The next missed deadline is announced, without a recovery between. *)
Definition ping_u1 : Http :=
  mk_Http (lit "/ping/u1") None (mk_Incoming (lit "GET") [] (Some []) None).
Definition half_pinged_world : World :=
  (app sample_config ping_u1 (faulty_env (w_stmts reminded_world + 3) (140 * ns)) reminded_world).2.
Definition late_again_world : World :=
  (scan_pass (mk_ScanLoop 30 None sample_url) (calm_env (900 * ns)) half_pinged_world).2.
Definition its_moves : list Move :=
  [Alerted EK_Down; Alerted EK_Reminder; Silently By_Failed_Ping false; Alerted EK_Down].

Lemma alerts_refine_outages_witness :
  alerts 1 late_again_world = [EK_Down; EK_Reminder; EK_Down] /\
  life false its_moves = Some (is_down (w_db late_again_world) 1).
Proof.
  destruct (scan_pass (mk_ScanLoop 30 None sample_url) (calm_env t100) (world_of sample_db))
    as [[s1|] w1] eqn:E1; [|apply (f_equal fst) in E1; vm_compute in E1; discriminate E1].
  assert (late_world = w1) as L by (unfold late_world; rewrite E1; reflexivity).
  destruct (scan_pass (mk_ScanLoop 30 None sample_url) (calm_env (130 * ns)) w1)
    as [[s2|] w2] eqn:E2; [|apply (f_equal fst) in E2; rewrite <- L in E2; vm_compute in E2; discriminate E2].
  assert (reminded_world = w2) as R by (unfold reminded_world; rewrite L, E2; reflexivity).
  destruct (app sample_config ping_u1 (faulty_env (w_stmts w2 + 3) (140 * ns)) w2) as [r3 w3] eqn:E3.
  assert (half_pinged_world = w3) as P by (unfold half_pinged_world; rewrite R, E3; reflexivity).
  assert (mover ping_u1 r3 = By_Failed_Ping) as M.
  { apply (f_equal fst) in E3. cbn [fst] in E3. rewrite <- E3, <- R. vm_compute. reflexivity. }
  destruct (scan_pass (mk_ScanLoop 30 None sample_url) (calm_env (900 * ns)) w3)
    as [[s4|] w4] eqn:E4; [|apply (f_equal fst) in E4; rewrite <- P in E4; vm_compute in E4; discriminate E4].
  assert (late_again_world = w4) as W by (unfold late_again_world; rewrite P, E4; reflexivity).
  destruct (alerts_refine_outages sample_config 1 sample_db its_moves w4) as (A & B & _).
  - vm_compute. reflexivity.
  - assert (its_moves = (((([] ++ observed By_Process 1 (world_of sample_db) w1) ++ observed By_Process 1 w1 w2) ++
        observed (mover ping_u1 r3) 1 w2 w3) ++ observed By_Process 1 w3 w4)) as ->.
    { rewrite M, <- W, <- P, <- R, <- L. vm_compute. reflexivity. }
    eapply history_scan; [|exact E4]. eapply history_request; [|exact E3].
    eapply history_scan; [|exact E2]. eapply history_scan; [|exact E1]. constructor.
  - rewrite W. split; [exact (eq_sym A)|exact B].
Defined.

Lemma missed_deadline_announced_witness :
  is_down sample_db 1 = false /\ is_down (w_db late_world) 1 = true /\
  exists ev, T_Event ev None ∈ w_tasks late_world /\ ev_check_id ev = 1 /\ ev_event ev = EK_Down.
Proof.
  split; [vm_compute; reflexivity|].
  destruct (List.find (fun c => c_id c =? 1) (active_checks sample_db)) as [c|] eqn:Ef.
  2: { vm_compute in Ef. discriminate Ef. }
  pose proof Ef as [Hin _]%List.find_some.
  assert (c_id c = 1) as Hid by (vm_compute in Ef; injection Ef as <-; reflexivity).
  assert (late t100 c = true) as Hl by (vm_compute in Ef; injection Ef as <-; vm_compute; reflexivity).
  destruct (scan_pass (mk_ScanLoop 30 None sample_url) (calm_env t100) (world_of sample_db)) as [r w'] eqn:E.
  assert (late_world = w') as -> by (unfold late_world; rewrite E; reflexivity).
  destruct (missed_deadline_announced (mk_ScanLoop 30 None sample_url) (calm_env t100) (world_of sample_db)
    c r w' (calm_env_calm t100)) as ((ts & ev & T & Hev & Hc & Hk & _) & Hd & _).
  - apply schedulable_all. vm_compute. reflexivity.
  - apply list_elem_of_In. exact Hin.
  - exact Hl.
  - exact E.
  - rewrite Hid in Hc, Hd. split; [exact Hd|]. exists ev. split; [|split; [exact Hc|exact Hk]].
    rewrite T. apply elem_of_app. right. exact Hev.
Defined.

(** How a ping that is not answered 200 moves silently. The status and the reminder baseline
    are written by two statements: when the second fails the check is up and the client is
    told 500, and when it retries there is no outage left to close. *)
Definition down_world : World := world_of (w_db late_world).

Example failed_ping_loses_recovery :
  let ping e w := handle sample_config (lit "u1", PR_Success) None [] e w in
  let '(r1, w1) := ping (faulty_env 3 (120 * ns)) down_world in
  let '(r2, w2) := ping (calm_env (121 * ns)) w1 in
  (is_down (w_db down_world) 1, r1, is_down (w_db w1) 1, r2, alerts 1 w2)
  = (true, Done (Err (AE_Db DE_Failed)), false, Done (Ok 200), []).
Proof. vm_compute. reflexivity. Qed.

(** Nor does it hold for requests that overlap: the status is read by one statement and
    acted on by later ones, so two pings that both read a down check both announce its
    recovery. *)
Example overlapping_pings_recover_twice :
  let both : M unit :=
    do a := resolve (lit "u1") in
    do b := resolve (lit "u1") in
    match a, b with
    | Ok ca, Ok cb =>
        do _ := apply_kind sample_config ca PK_Success None (120 * ns) in
        do _ := apply_kind sample_config cb PK_Success None (120 * ns) in
        mret tt
    | _, _ => mret tt
    end in
  alerts 1 (both (calm_env (120 * ns)) down_world).2 = [EK_Up; EK_Up].
Proof. vm_compute. reflexivity. Qed.

(** The scan loop, too, acts on what it read: whatever became of the row since the pass
    listed it, paused, pinged in time, acknowledged, the check goes down and its outage is
    announced. *)
Lemma scan_acts_on_snapshot `{Cron} now base_url names tz c row e w :
  calm e -> schedulable c -> late now c = true -> t_rows (checks (w_db w)) !! c_id c = Some row ->
  exists w', scan_check now base_url names tz c e w = (Done (Some (down_event now base_url names tz c)), w') /\
    t_rows (checks (w_db w')) !! c_id c = Some (downed now row).
Proof.
  intros He Hs Hl Hr. destruct (scan_check_ok now base_url names tz c Hs e w) as (o & w' & E & _ & C).
  destruct (C He Hl) as [-> D]. exists w'. split; [done|].
  rewrite D, update_check_lookup, decide_True, Hr by done. done.
Qed.

(** The same pass, with another request served between its listing and its first check. *)
Definition scan_with_meanwhile {A} (meanwhile : M A) (now : Z) : M (list (option NotificationEvent)) :=
  do listed := list_active_checks in
  do _ := meanwhile in
  match listed with
  | Ok (c :: _) => do ev := scan_check now sample_url ∅ None c in mret [ev]
  | _ => mret []
  end.

Example scan_undoes_pause :
  let '(r, w) := scan_with_meanwhile (set_status 1 CS_Paused) t100 (calm_env t100) (world_of sample_db) in
  (is_down (w_db w) 1, match r with Done l => map (option_map ev_event) l | Panic => [] end) = (true, [Some EK_Down]).
Proof. vm_compute. reflexivity. Qed.
Example scan_outruns_ping :
  let ping := handle sample_config (lit "u1", PR_Success) None [] in
  let '(r, w) := scan_with_meanwhile ping t100 (calm_env t100) (world_of sample_db) in
  (is_down (w_db w) 1, match r with Done l => map (option_map ev_event) l | Panic => [] end) = (true, [Some EK_Down]).
Proof. vm_compute. reflexivity. Qed.
