(* ===== verification/CrossSite.v ===== *)
(** * CrossSite: what a request can do that its user did not mean to send

    A page of another site can make a browser send a request to this one, with its cookies
    but without the token of its session and without an API key. If the method is a safe
    one, whoever is signed in, the application only looks something up; if it is not, the
    CSRF guard refuses it. Both are followed through [Router.app]. *)
From S2P Require Import Prelude Text Models Config Wire Secret Chrono Auth Db Rows Store Sessions Keyset Sample View Notify Forms Channels Errors Access Templates Web Middleware Assets Account Listing Owner Pages Dashboard Admin Dto Api UserAdmin Router Perimeter.
From S2P Require Ping.
#[local] Open Scope Z_scope.
#[local] Open Scope pw_scope.

(** ** Looking *)

(** What is neither about who is known or signed in, nor a record of use: the projects, the
    checks, the channels and their bindings, the pings, the notifications, the settings. *)
Definition substance (d : Db) : Db :=
  set_users empty_table (set_sessions ∅ (set_api_keys empty_table (set_audit_log empty_table d))).

(** [d'] is [d] after a request that only looked: sessions are renewed, opened and expire,
    a user the gateway names may be added, a key may be stamped, and the audit log may have
    grown if [logs]. *)
Record looked (logs : bool) (d d' : Db) : Prop := mk_looked {
  lk_substance : substance d' = substance d;
  lk_users : t_rows (users d) ⊆ t_rows (users d');
  lk_keys : forall id, kr_token_hash <$> t_rows (api_keys d') !! id = kr_token_hash <$> t_rows (api_keys d) !! id /\
                       kr_user_id <$> t_rows (api_keys d') !! id = kr_user_id <$> t_rows (api_keys d) !! id /\
                       kr_expires_at <$> t_rows (api_keys d') !! id = kr_expires_at <$> t_rows (api_keys d) !! id;
  lk_log : if logs then t_rows (audit_log d) ⊆ t_rows (audit_log d') else audit_log d' = audit_log d;
}.
Arguments lk_substance {_ _ _}.
Arguments lk_users {_ _ _}.
Arguments lk_keys {_ _ _}.
Arguments lk_log {_ _ _}.

#[export] Instance looked_refl logs : Reflexive (looked logs).
Proof. intros d. constructor; [done|done|done|by destruct logs]. Qed.
#[export] Instance looked_trans logs : Transitive (looked logs).
Proof.
  intros d1 d2 d3 A B. constructor.
  - by rewrite (lk_substance B), (lk_substance A).
  - by etrans; [apply (lk_users A)|apply (lk_users B)].
  - intros id. destruct (lk_keys A id) as (A1 & A2 & A3), (lk_keys B id) as (B1 & B2 & B3).
    by rewrite B1, B2, B3.
  - pose proof (lk_log A). pose proof (lk_log B). destruct logs; [by etrans|congruence].
Qed.

(** The keys the two growing tables hand out next are not in use. *)
Definition log_sequenced (d : Db) : Prop :=
  users_sequenced d /\ forall i, is_Some (t_rows (audit_log d) !! i) -> i <= t_seq (audit_log d).

Lemma insert_row_grows {R} (r : R) (t : Table R) :
  (forall i, is_Some (t_rows t !! i) -> i <= t_seq t) ->
  t_rows t ⊆ t_rows (insert_row r t).2 /\
  forall i, is_Some (t_rows (insert_row r t).2 !! i) -> i <= t_seq (insert_row r t).2.
Proof.
  intros Hs. cbn. split.
  - apply insert_subseteq. destruct (t_rows t !! (t_seq t + 1)) eqn:E; [|done].
    specialize (Hs (t_seq t + 1) ltac:(eauto)). lia.
  - intros i. destruct (decide (i = t_seq t + 1)) as [->|]; [lia|].
    rewrite lookup_insert_ne by done. intros Hi%Hs. lia.
Qed.

Section looking.
Context (logs : bool) (d0 : Db).

Definition looking (d : Db) : Prop := looked logs d0 d /\ log_sequenced d.

Lemma looking_sessions d s : looking d -> looking (set_sessions s d).
Proof. intros [L S]. split; [|exact S]. etrans; [exact L|]. constructor; try done. by destruct logs. Qed.

Lemma looking_new_user d r : looking d -> looking (set_users (insert_row r (users d)).2 d).
Proof.
  intros [L [Su Sl]]. destruct (insert_row_grows r (users d) Su) as [Hsub Hseq].
  split; [|split; [exact Hseq|exact Sl]].
  etrans; [exact L|]. constructor; try done. by destruct logs.
Qed.

Lemma looking_touched `{Chrono} d id now :
  looking d -> looking (set_api_keys (update_row (touch_key now) id (api_keys d)) d).
Proof.
  intros [L S]. split; [|exact S]. etrans; [exact L|]. constructor; [done|done| |by destruct logs].
  intros i. cbn [api_keys set_api_keys]. rewrite update_row_lookup. case_decide; [|done].
  by destruct (t_rows (api_keys d) !! i).
Qed.

Lemma looking_logged d r :
  logs = true -> looking d -> looking (set_audit_log (insert_row r (audit_log d)).2 d).
Proof.
  intros Hl [L [Su Sl]]. destruct (insert_row_grows r (audit_log d) Sl) as [Hsub Hseq].
  split; [|split; [exact Su|exact Hseq]].
  etrans; [exact L|]. constructor; try done. by rewrite Hl.
Qed.

(** ** What the extractors and the layers do *)

Context `{Cron} `{Crypto} `{IpText} `{Argon2}.

Lemma looking_delete_sessions p : preserves looking (delete_sessions_where p).
Proof. apply preserves_stmt. intros d n d' Hd [= _ <-]. by apply looking_sessions. Qed.
Lemma looking_update_session f id : preserves looking (execute (update_session f id)).
Proof. apply preserves_execute. intros d Hd. by apply looking_sessions. Qed.

Lemma looking_find_session_user id now : preserves looking (find_session_user id now).
Proof. pose proof looking_update_session. unfold find_session_user. preserves_steps; auto. Qed.

Lemma looking_create_user username phc is_admin now :
  preserves looking (create_user username phc is_admin now).
Proof.
  apply preserves_map_err, preserves_stmt. intros d id d' Hd E.
  apply create_user_run in E as [-> ->]. by apply looking_new_user.
Qed.

Lemma looking_forward_auth_user config headers peer now :
  preserves looking (forward_auth_user config headers peer now).
Proof.
  pose proof looking_create_user. unfold forward_auth_user, find_user_by_username, find_user_by_id.
  handler_steps; auto.
Qed.

Lemma looking_resolve_user config parts : preserves looking (resolve_user config parts).
Proof.
  pose proof looking_find_session_user. pose proof looking_forward_auth_user.
  unfold resolve_user. handler_steps; auto.
Qed.
Lemma looking_CurrentUser config parts : preserves looking (CurrentUser config parts).
Proof. unfold CurrentUser. pose proof looking_resolve_user. handler_steps; auto. Qed.
Lemma looking_AdminUser config parts : preserves looking (AdminUser config parts).
Proof. unfold AdminUser. pose proof looking_CurrentUser. handler_steps; auto. Qed.

Lemma looking_create_session s now : preserves looking (create_session s now).
Proof.
  apply preserves_stmt. intros d u d' Hd E. repeat case_match; simplify_eq/=; by apply looking_sessions.
Qed.
Lemma looking_open_session config uid origin : preserves looking (open_session config uid origin).
Proof. unfold open_session, new_session_token. pose proof looking_create_session. handler_steps; auto. Qed.

Lemma looking_ApiUser headers : preserves looking (ApiUser headers).
Proof.
  assert (forall id now, preserves looking
    (execute (fun d => set_api_keys (update_row (touch_key now) id (api_keys d)) d))) as Ht.
  { intros id now. apply preserves_execute. intros d Hd. by apply looking_touched. }
  unfold ApiUser, ok_or, api, validate_api_key, find_user_by_id.
  repeat first [progress intros | apply preserves_map_err | progress handler_steps | solve [auto]].
Qed.

Lemma looking_record_audit a now : logs = true -> preserves looking (record_audit a now).
Proof.
  intros Hl. apply preserves_stmt. intros d i d' Hd [= _ <-]. by apply looking_logged.
Qed.
End looking.

(** ** The handlers that only look *)

Section handlers.
Context `{ChronoLaws} `{!Cron} `{CryptoLaws} `{PageText} `{NotifyDeps} `{HashOrder} `{!JsonText} `{IpText} `{Argon2}.
Context `{FormUrl} `{CookieParseLaws} `{Extract} `{Embedded} `{ApiText}.

(** The requests a [GET] handler makes of the components. *)
Definition reading_web (rq : WebRoute) : bool :=
  match rq with
  | WR_Public (Ok PB_SetupPage) | WR_Visitor _ => true
  | WR_User (Ok (US_Page (PR_ChannelTest _))) => false
  | WR_User (Ok (US_Page _)) | WR_User (Ok (US_Events _)) | WR_User (Ok (US_Account AR_Page)) => true
  | WR_Admin (Ok (AS_Page (AP_CheckReveal _ _ | AP_ChannelTest _))) => false
  | WR_Admin (Ok (AS_Page _)) => true
  | WR_Public (Err _) | WR_User (Err _) | WR_Admin (Err _) => true
  | _ => false
  end.
Definition reading_api (rq : ApiRequest) : bool :=
  match rq with
  | AQ_ListProjects | AQ_GetProject _ | AQ_ListProjectChecks _ | AQ_ListProjectChannels _
  | AQ_GetCheck _ | AQ_ListCheckPings _ _ | AQ_ListCheckNotifications _ _ | AQ_ListKeys
  | AQ_GetChannel _ => true
  | _ => false
  end.
Definition reading (ep : Endpoint) : bool :=
  match ep with
  | E_Web rq => reading_web rq
  | E_Api (Ok rq) => reading_api rq
  | E_Ping _ => false
  | E_Health | E_Api (Err _) | E_Docs _ | E_Asset _ => true
  end.

Section one.
Context (logs : bool) (d0 : Db).
#[local] Abbreviation looking := (looking logs d0).

Lemma reads_handler (m : M (res AppError Response)) : reads m -> preserves looking m.
Proof. intros Hm. apply Hm. Qed.

Lemma owned_project_reads id uid : reads (owned_project id uid).
Proof. intros I. unfold owned_project. handler_steps. Qed.
Lemma owned_check_reads id uid : reads (owned_check id uid).
Proof. intros I. pose proof owned_project_reads as Hp. unfold reads in Hp. unfold owned_check. handler_steps; auto. Qed.
Lemma owned_channel_reads id uid : reads (owned_channel id uid).
Proof. intros I. pose proof owned_project_reads as Hp. unfold reads in Hp. unfold owned_channel. handler_steps; auto. Qed.

Lemma render_project_page_reads project test ctx : reads (render_project_page project test ctx).
Proof. intros I. unfold render_project_page, checks_with_channels, page. handler_steps. Qed.
Lemma build_pings_partial_reads scope q recent : reads (build_pings_partial scope q recent).
Proof. intros I. unfold build_pings_partial, window_durations, list_pings_page, keyset_page. handler_steps. Qed.
Lemma build_notifs_partial_reads scope q names : reads (build_notifs_partial scope q names).
Proof. intros I. unfold build_notifs_partial, list_notifications_page, keyset_page. handler_steps. Qed.

Lemma dashboard_reads config jar user q : reads (dashboard config jar user q).
Proof.
  intros I. unfold dashboard, see, count_users, list_checks_for_projects,
    list_recent_ping_summaries_for_checks, checks_with_channels. handler_steps.
Qed.

Lemma page_handle_reads config jar user rq :
  reading_web (WR_User (Ok (US_Page rq))) = true -> reads (page_handle config jar user rq).
Proof.
  intros Hok I. pose proof owned_project_reads as Hr1. pose proof owned_check_reads as Hr2.
  pose proof owned_channel_reads as Hr3. pose proof render_project_page_reads as Hr4.
  pose proof build_pings_partial_reads as Hr5. pose proof build_notifs_partial_reads as Hr6.
  pose proof render_check_page_reads as Hr7. unfold reads in *.
  destruct rq; try done; cbn [page_handle];
    unfold project_new, project_show, project_edit, check_new, check_show, check_edit, check_pings,
      check_notifications, channel_new, channel_edit, channel_name_map, page; handler_steps; auto.
Qed.

(** The administrator's pages, which audit what is not a [GET]. *)
Context (request : RequestLine) (Hlog : audits_as_mutation (rl_method request) = true -> logs = true).

Lemma looking_audit_access admin target id owner : preserves looking (audit_access admin target id owner request).
Proof.
  unfold audit_access. destruct (audits_as_mutation _); [|apply preserves_mret].
  pose proof (looking_record_audit logs d0) as Hr. handler_steps; auto.
Qed.
Lemma looking_admin_project id admin : preserves looking (admin_project id admin request).
Proof. unfold admin_project. pose proof looking_audit_access. handler_steps; auto. Qed.
Lemma looking_admin_check id admin : preserves looking (admin_check id admin request).
Proof. unfold admin_check. pose proof looking_audit_access. handler_steps; auto. Qed.
Lemma looking_admin_channel id admin : preserves looking (admin_channel id admin request).
Proof. unfold admin_channel. pose proof looking_audit_access. handler_steps; auto. Qed.

Lemma looking_admin_page config jar admin headers query rq :
  reading_web (WR_Admin (Ok (AS_Page rq))) = true ->
  preserves looking (admin_page_handle config jar admin headers request query rq).
Proof.
  intros Hok. pose proof looking_admin_project. pose proof looking_admin_check. pose proof looking_admin_channel.
  pose proof render_project_page_reads as Hr4. pose proof build_pings_partial_reads as Hr5.
  pose proof build_notifs_partial_reads as Hr6. pose proof render_check_page_reads as Hr7.
  pose proof elevation_reads as Hr8. pose proof build_audit_partial_reads as Hr9. pose proof admin_page_reads as Hr10.
  unfold reads in *.
  destruct rq; try done; cbn [admin_page_handle];
    unfold admin_audit_fragment, admin_unlock_page, render_admin_unlock, admin_project_show,
      admin_project_edit, admin_check_new, admin_check_show, admin_check_pings, admin_check_events,
      admin_check_notifications, admin_check_edit, admin_channel_new, admin_channel_edit,
      channel_name_map, mmap, page; handler_steps; auto.
Qed.

Lemma looking_account_page config jar user : preserves looking (account_page config jar user).
Proof.
  unfold account_page, render_account, delete_capped_sessions_for_user.
  pose proof (looking_delete_sessions logs d0). handler_steps; auto.
Qed.

(** The keys' surface logs what an administrator reads of other users. *)
Lemma looking_api rq user path :
  logs = true -> reading_api rq = true -> preserves looking (api_handle user path rq).
Proof.
  intros Hl Hok. pose proof (fun a now => looking_record_audit logs d0 a now Hl) as Hrec.
  assert (forall A (a : A) target request, preserves looking (V1.resolve_as a target user request)) as Hres.
  { intros A a target rq'. unfold V1.resolve_as, V1.audit_cross_user, api.
    repeat first [progress intros | apply preserves_map_err | progress handler_steps | solve [auto]]. }
  destruct rq; try done; cbn [api_handle];
    unfold V1.list_projects, V1.get_project, V1.list_project_checks, V1.list_project_channels, V1.get_check,
      V1.list_check_pings, V1.list_check_notifications, V1.list_keys, V1.get_channel, V1.resolve_project,
      V1.resolve_check, V1.resolve_channel, ok_or, json, api, list_pings_page, list_notifications_page, keyset_page;
    repeat first [progress intros | apply preserves_map_err | apply Hres | progress handler_steps].
Qed.

(** ** An endpoint, a route, the application *)

Lemma preserves_mmap I {A B} (f : A -> B) (m : M A) : preserves I m -> preserves I (mmap f m).
Proof. intros Hm. apply preserves_mbind; [done|]. intros a. apply preserves_mret. Qed.

Lemma looking_served {A} (rq : res Rejection A) (k : A -> M (res AppError Response)) :
  (forall a, rq = Ok a -> preserves looking (k a)) -> preserves looking (served rq k).
Proof. intros Hk. destruct rq as [a|x]; [apply preserves_mmap; by apply Hk|apply preserves_mret]. Qed.
End one.

Definition log_of (ep : Endpoint) (method : str) : bool :=
  match ep with E_Api _ => true | _ => audits_as_mutation method end.

Lemma looking_endpoint config a ep logs d0 :
  reading ep = true -> (log_of ep (in_method (a_req a)) = true -> logs = true) ->
  preserves (looking logs d0) (endpoint_handle config a ep).
Proof.
  intros Hr Hl. destruct ep as [|rq|rq|rq|pg|ans]; cbn [endpoint_handle]; try done.
  - apply preserves_mret.
  - destruct rq as [rq|rq|rq|rq]; cbn [web_handle].
    + apply looking_served. intros rq' ->. destruct rq'; try done. unfold public_handle, setup_page, count_users, see.
      handler_steps.
    + apply preserves_mbind; [apply looking_resolve_user|]. intros u. apply looking_served.
      intros rq' ->. destruct rq'; cbn [visitor_handle]; [unfold login_page, see, count_users; handler_steps|].
      apply dashboard_reads.
    + apply preserves_mbind; [apply looking_CurrentUser|]. intros [u|x]; [|apply preserves_mret].
      apply looking_served. intros rq' ->. destruct rq' as [rq'|rq'|rq'|id]; cbn [user_site_handle]; try done.
      * by apply page_handle_reads.
      * destruct rq'; try done. apply looking_account_page.
      * apply preserves_mmap. pose proof owned_check_reads as Hc. unfold reads in Hc. unfold check_events.
        handler_steps; auto.
    + apply preserves_mbind; [apply looking_AdminUser|]. intros [u|x]; [|apply preserves_mret].
      apply looking_served. intros rq' ->. destruct rq' as [rq'|rq'|rq']; cbn [admin_site_handle]; try done.
      by apply looking_admin_page.
  - unfold api_route_handle. apply preserves_mbind; [apply looking_ApiUser|].
    intros [u|x]; [|apply preserves_mret]. destruct rq as [rq|[x|x]]; try apply preserves_mret.
    apply preserves_mmap, looking_api; auto.
  - apply preserves_mbind; [apply looking_CurrentUser|]. intros [u|x]; apply preserves_mret.
  - destruct ans; apply preserves_mret.
Qed.

(** *** The route table: what is registered under [GET], and that nothing is under [HEAD] *)

Definition gets_read (r : Route) : Prop :=
  Forall (fun h => h.1 ∈ map lit ["GET"; "POST"; "PUT"; "PATCH"; "DELETE"]%string /\
                   (h.1 = lit "GET" -> rt_pattern r ∉ PING_PATTERNS -> forall a, reading (h.2 a) = true) /\
                   (starts_with (lit "/api/v1/") (rt_pattern r) = true \/
                    forall a, log_of (h.2 a) (lit "GET") = false))
    (rt_handlers r).

Ltac read_handler :=
  intros a; cbn [snd]; unfold page_of, owner, account, events, admin_site, admin_write, admin_users,
    public, visitor, api_bare, api_id, api_page, plain_rejection, binding, confirmable, by_id, by_id_query,
    by_id_form, with_query, with_form, bare;
  repeat (match goal with
          | |- context [path_id ?a] => destruct (path_id a)
          | |- context [url_query ?a] => destruct (url_query a)
          | |- context [path_str ?a] => destruct (path_str a)
          end; cbn);
  reflexivity.

Lemma all_gets_read : Forall gets_read all_routes.
Proof.
  unfold all_routes, web_routes, ping_routes, api_routes, docs_routes, asset_routes.
  repeat (apply Forall_cons; split; [|]); [..|apply Forall_nil_2].
  all: unfold gets_read, mounted; cbn [rt_pattern rt_handlers fst snd List.map app on_get on_post on_put on_patch on_delete];
    repeat apply Forall_cons_2; try apply Forall_nil_2; split_and!.
  all: match goal with
       | |- _ ∈ _ => apply (bool_decide_eq_true_1 _); vm_compute; reflexivity
       | |- _ \/ _ => first [right; intros a; reflexivity | left; vm_compute; reflexivity]
       | |- _ => idtac
       end.
  all: cbn [fst]; intros Hm Hp.
  all: first [exfalso; apply Hp; apply (bool_decide_eq_true_1 _); vm_compute; reflexivity
             |exfalso; vm_compute in Hm; discriminate Hm
             |read_handler].
Qed.

(** What serves a safe method is registered under [GET]; [HEAD] borrows it, and to
    [OPTIONS] there is no handler. *)
Lemma safe_handler route method handler :
  route ∈ all_routes -> is_safe_method method = true ->
  method_handler (rt_handlers route) method = Some handler ->
  (lit "GET", handler) ∈ rt_handlers route /\ (method = lit "GET" \/ method = lit "HEAD").
Proof.
  intros Hr Hs. pose proof all_gets_read as Hall. rewrite Forall_forall in Hall.
  specialize (Hall _ Hr). unfold gets_read in Hall. rewrite Forall_forall in Hall. unfold method_handler.
  assert (forall name, snd <$> List.find (fun h => bool_decide (h.1 = name)) (rt_handlers route) = Some handler ->
    (name, handler) ∈ rt_handlers route) as Hn.
  { intros name Hf. apply fmap_Some in Hf as ([n h] & Hf & ->).
    apply List.find_some in Hf as [Hin Hname%bool_decide_eq_true]. cbn in Hname. subst n.
    by apply list_elem_of_In. }
  assert (forall name, name ∉ map lit ["GET"; "POST"; "PUT"; "PATCH"; "DELETE"]%string ->
    snd <$> List.find (fun h => bool_decide (h.1 = name)) (rt_handlers route) <> Some handler) as Hno.
  { intros name Hname Hf. apply Hn in Hf. by apply Hall in Hf as [? _]. }
  unfold is_safe_method in Hs. apply orb_prop in Hs as [[->%bool_decide_eq_true| ->%bool_decide_eq_true]%orb_prop
    | ->%bool_decide_eq_true].
  - destruct (snd <$> _) eqn:E; [intros [= ->]; auto|]. vm_compute. discriminate.
  - destruct (snd <$> _) eqn:E.
    + intros [= ->]. exfalso. eapply Hno; [|exact E]. apply (bool_decide_eq_false_1 _). vm_compute. reflexivity.
    + rewrite bool_decide_eq_true_2 by reflexivity. intros Hf. apply Hn in Hf. auto.
  - destruct (snd <$> _) eqn:E.
    + intros [= ->]. exfalso. eapply Hno; [|exact E]. apply (bool_decide_eq_false_1 _). vm_compute. reflexivity.
    + vm_compute. discriminate.
Qed.

(** Whether looking may leave a row in the audit log: the keys' surface logs what an
    administrator reads of others, and only [GET] is exempt elsewhere. *)
Definition logged_read (method pattern : str) : bool :=
  negb (bool_decide (method = lit "GET")) || starts_with (lit "/api/v1/") pattern.

Lemma looking_route config h route captures req d0 :
  route ∈ all_routes -> is_safe_method (in_method req) = true -> rt_pattern route ∉ PING_PATTERNS ->
  preserves (looking (logged_read (in_method req) (rt_pattern route)) d0)
    (route_handle config h route captures req).
Proof.
  intros Hr Hs Hp. unfold route_handle. destruct (method_handler _ _) as [handler|] eqn:Eh; [|apply preserves_mret].
  apply safe_handler in Eh as [Hh Hm]; [|done..].
  pose proof all_gets_read as Hall. rewrite Forall_forall in Hall. specialize (Hall _ Hr).
  unfold gets_read in Hall. rewrite Forall_forall in Hall. apply Hall in Hh as (_ & Hread & Hlog).
  apply preserves_mmap. apply looking_endpoint; [by apply Hread|].
  cbn [a_req]. unfold logged_read. intros Hl.
  destruct Hm as [Em|Em]; rewrite Em in Hl |- *; [|by rewrite bool_decide_eq_false_2 by (vm_compute; discriminate)].
  destruct Hlog as [->|Hlog]; [apply orb_true_r|]. cbn [snd] in Hlog. by rewrite Hlog in Hl.
Qed.

(** The layers of the web routes, around something that only looks. *)
Lemma looking_web_layers config routes req logs d0 :
  (forall req', in_method req' = in_method req -> preserves (looking logs d0) (routes req')) ->
  preserves (looking logs d0) (web_layers config routes req).
Proof.
  intros Hroutes. unfold web_layers, content_security_policy, no_store. do 2 apply preserves_mmap.
  assert (forall req', in_method req' = in_method req -> preserves (looking logs d0) (csrf_layer config routes req')) as Hcsrf.
  { intros req' Hm e w r w' Hw E. apply csrf_guard_inv in E as [E|[_ ->]]; [|done]. by eapply Hroutes; [| |exact E]. }
  assert (forall req', in_method req' = in_method req ->
    preserves (looking logs d0) (anonymous_session config (csrf_layer config routes) req')) as Hanon.
  { intros req' Hm. unfold anonymous_session. destruct (incoming_session _ _); [by apply Hcsrf|].
    apply preserves_mbind; [apply preserves_new_v4|]. intros token. by apply preserves_mmap, Hcsrf. }
  intros e w r w' Hw E. apply (forward_auth_session_steps (looking logs d0)) in E as (w0 & Hw0 & E).
  - destruct E as [[-> ->]|[E|[n E]]]; [done|by eapply Hanon; [| |exact E]|].
    apply mmap_inv in E as (r0 & E & _). by eapply Hanon; [| |exact E].
  - intros id now. apply looking_find_session_user.
  - intros headers peer now. apply looking_forward_auth_user.
  - intros uid origin. apply looking_open_session.
  - done.
Qed.

Lemma web_or_not mount : mount = M_Web \/ mount <> M_Web.
Proof. destruct mount; [by right|by left|by right]. Qed.
(** Whatever a mount puts around a route. *)
Lemma mount_layers_only config mount routes req e w r w' :
  mount <> M_Web -> mount_layers config mount routes req e w = (r, w') ->
  exists r0, routes req e w = (r0, w') /\
    forall resp, r0 = Done resp -> exists resp', r = Done resp' /\ core resp' = core resp.
Proof.
  destruct mount; intros Hm E; cbn [mount_layers] in E; [by exists r; split; [|eauto]|done|].
  apply mmap_inv in E as (r0 & E & ->). exists r0. split; [exact E|]. intros resp ->.
  eexists. split; [done|]. apply core_set_default.
Qed.

(** C7: a request with a safe method only looks, whoever sent it. Take any GET, HEAD or OPTIONS
    that is not routed to a ping, with any path, query, headers, cookies and key, under any
    failures of the database. No project, check, channel, binding, ping, notification or
    setting changes; every user stays as it was, and every key keeps its token, its owner
    and its expiry. What may change is the sessions (they are renewed and opened), a user
    the gateway names for the first time, and the stamp on a key; the audit log may grow,
    and only by a read of the API or a HEAD. A path that is not routed changes nothing. This
    is of the whole application, every handler registered for GET included. *)
Theorem safe_methods_only_look config h e w r w' :
  is_safe_method (in_method (h_in h)) = true -> log_sequenced (w_db w) ->
  app config h e w = (r, w') ->
  match matched_path (h_path h) with
  | Some pat => pat ∉ PING_PATTERNS ->
                looked (logged_read (in_method (h_in h)) pat) (w_db w) (w_db w')
  | None => w_db w' = w_db w
  end.
Proof.
  intros Hs Hseq E. apply app_layers_core in E as (r0 & E & _ & _). unfold matched_path.
  destruct (route_of (h_path h)) as [[route captures]|] eqn:Er; [|by injection E as _ <-].
  change ((rt_pattern ∘ fst) <$> Some (route, captures)) with (Some (rt_pattern route)). cbv beta iota.
  intros Hp. assert (route ∈ all_routes) as Hr by (by eapply find_route_elem).
  set (logs := logged_read (in_method (h_in h)) (rt_pattern route)).
  assert (forall req', in_method req' = in_method (h_in h) ->
    preserves (looking logs (w_db w)) (route_handle config h route captures req')) as Hroute.
  { intros req' Hm. unfold logs. rewrite <- Hm. apply looking_route; [done|congruence|done]. }
  assert (looking logs (w_db w) (w_db w)) as Hw by (by split).
  enough (looking logs (w_db w) (w_db w')) as [L _]; [exact L|].
  destruct (web_or_not (rt_mount route)) as [Em|Em].
  - rewrite Em in E. eapply looking_web_layers; [exact Hroute|exact Hw|exact E].
  - apply mount_layers_only in E as (r1 & E & _); [|exact Em]. eapply Hroute; [reflexivity|exact Hw|exact E].
Qed.

(** ** Forged requests *)

(** The token of session [id], where the guard looks for it. *)
Definition carries_token (config : Config) (req : Incoming) (id : str) : Prop :=
  exists t, presented (request_of req) = Some t /\
    hex_decode t = Some (mac (cf_secret config) CSRF_DOMAIN id).
(** No key, and the token neither of the session of the cookie nor of one that is still to
    be opened. *)
Definition forged (config : Config) (e : Env) (req : Incoming) : Prop :=
  bearer_token (in_headers req) = None /\
  (forall id, incoming_session config req = Some id -> ~ carries_token config req id) /\
  (forall n, ~ carries_token config req (env_uuid e n)).

Lemma presented_with_cookie cookie req :
  presented (request_of (with_cookie cookie req)) = presented (request_of req).
Proof.
  unfold presented.
  change (rq_bytes (request_of (with_cookie cookie req))) with (rq_bytes (request_of req)).
  change (rq_header_lines (request_of (with_cookie cookie req))) with (replace_request_cookie (in_headers req) cookie).
  change (rq_header_lines (request_of req)) with (in_headers req).
  unfold replace_request_cookie. destruct (header_value _) as [v|]; [|done].
  by rewrite header_get_inserted by (vm_compute; reflexivity).
Qed.

Lemma csrf_layer_refuses config routes req id :
  is_safe_method (in_method req) = false -> incoming_session config req = Some id ->
  ~ carries_token config req id -> csrf_layer config routes req = mret (status_response 403).
Proof.
  intros Hm Hi Hno. unfold csrf_layer. rewrite csrf_guard_cases.
  change (rq_method (request_of req)) with (in_method req). rewrite Hm.
  change (cookie_session config (request_of req)) with (incoming_session config req). rewrite Hi.
  destruct (presented (request_of req)) as [t|] eqn:Et; [|done].
  destruct (verify_csrf _ id t) eqn:Ev; [|done]. apply verify_csrf_spec in Ev. destruct Hno. by exists t.
Qed.

(** The guard is reached, and refuses. *)
Lemma forged_refused config routes req e w r w' :
  readable (in_headers req) -> (forall n, plain (env_uuid e n) = true) -> log_sequenced (w_db w) ->
  is_safe_method (in_method req) = false -> forged config e req ->
  web_layers config routes req e w = (r, w') ->
  looking false (w_db w) (w_db w') /\
  forall resp, r = Done resp -> core resp = (403, None, P_None).
Proof.
  intros Hread Huuid Hseq Hm (_ & Hown & Hnew) E.
  apply mmap_inv in E as (r1 & E & ->). apply mmap_inv in E as (r2 & E & ->).
  assert (forall req' n, req' = with_cookie (session_cookie config (sign_session (cf_secret config) (env_uuid e n))) req ->
    csrf_layer config routes req' = mret (status_response 403)) as Hminted.
  { intros req' n ->. destruct (with_session_cookie config (env_uuid e n) req Hread (Huuid n)) as [_ Hi].
    eapply csrf_layer_refuses; [exact Hm|exact Hi|]. unfold carries_token. rewrite presented_with_cookie. apply Hnew. }
  apply (forward_auth_session_steps (looking false (w_db w))) in E as (w0 & Hw0 & E).
  - assert (forall resp0 resp', core resp0 = (403, None, P_None) ->
      Done (set_default (lit "content-security-policy") CONTENT_SECURITY_POLICY
              (set_default (lit "cache-control") (lit "no-store") resp0)) = Done resp' ->
      core resp' = (403, None, P_None)) as Hcore.
    { intros resp0 resp' Hc [= <-]. by rewrite !core_set_default. }
    destruct E as [[-> ->]|[E|[n E]]]; [done| |].
    + unfold anonymous_session in E. destruct (incoming_session config req) as [id|] eqn:Ei.
      * rewrite (csrf_layer_refuses config routes req id) in E by auto. injection E as <- <-.
        split; [done|]. by intros resp; apply Hcore.
      * apply mbind_inv in E as [[[=] _]|(token & w1 & [= <- <-] & E)]. apply mmap_inv in E as (r3 & E & ->).
        rewrite (Hminted _ (w_uuids w0) eq_refl) in E. injection E as <- <-. split; [done|]. by intros resp; apply Hcore.
    + apply mmap_inv in E as (r3 & E & ->). unfold anonymous_session in E.
      destruct (with_session_cookie config (env_uuid e n) req Hread (Huuid n)) as [_ Hi].
      rewrite Hi, (Hminted _ n eq_refl) in E. injection E as <- <-. split; [done|]. by intros resp; apply Hcore.
  - intros id now. apply looking_find_session_user.
  - intros headers peer now. apply looking_forward_auth_user.
  - intros uid origin. apply looking_open_session.
  - by split.
Qed.

(** Outside the web routes and the pings, what is not a [GET] is the API's. *)
Definition writes_need_key (r : Route) : Prop :=
  rt_mount r = M_Web \/ rt_pattern r ∈ PING_PATTERNS \/
  Forall (fun h => h.1 = lit "GET" \/ forall a, exists rq, h.2 a = E_Api rq) (rt_handlers r).

Lemma all_writes_need_key : Forall writes_need_key all_routes.
Proof.
  unfold all_routes. apply Forall_cons. split; [right; right; repeat constructor|].
  rewrite !Forall_app, !Forall_fmap. split_and!.
  - apply Forall_forall. intros r _. by left.
  - unfold ping_routes. repeat apply Forall_cons_2; try apply Forall_nil_2;
      (right; left; apply (bool_decide_eq_true_1 _); vm_compute; reflexivity).
  - apply Forall_forall. intros r _. right. right. apply Forall_fmap, Forall_forall. intros h _.
    right. intros a. by eexists.
  - unfold docs_routes. repeat apply Forall_cons_2; try apply Forall_nil_2; right; right; repeat constructor.
  - unfold asset_routes. repeat apply Forall_cons_2; try apply Forall_nil_2; right; right; repeat constructor.
Qed.

Lemma unsafe_handler route method handler :
  is_safe_method method = false -> method_handler (rt_handlers route) method = Some handler ->
  (method, handler) ∈ rt_handlers route.
Proof.
  intros Hs. unfold method_handler. destruct (snd <$> _) as [h|] eqn:E.
  - intros [= <-]. apply fmap_Some in E as ([n h'] & Hf & ->).
    apply List.find_some in Hf as [Hin Hname%bool_decide_eq_true]. cbn in Hname. subst n. by apply list_elem_of_In.
  - destruct (bool_decide_reflect (method = lit "HEAD")) as [->|]; [|done]. vm_compute in Hs. discriminate.
Qed.

Lemma unsafe_without_key config h route captures req e w r w' :
  route ∈ all_routes -> rt_mount route <> M_Web -> rt_pattern route ∉ PING_PATTERNS ->
  is_safe_method (in_method req) = false -> bearer_token (in_headers req) = None ->
  route_handle config h route captures req e w = (r, w') ->
  w_db w' = w_db w /\ exists resp, r = Done resp /\ turned_away resp.
Proof.
  intros Hr Hw Hp Hs Hb E. unfold route_handle in E. destruct (method_handler _ _) as [handler|] eqn:Eh.
  2: { injection E as <- <-. split; [done|]. eexists. split; [done|]. left. right. right. left. }
  apply unsafe_handler in Eh as Hh; [|done]. pose proof all_writes_need_key as Hall.
  rewrite Forall_forall in Hall. destruct (Hall _ Hr) as [?|[?|Hk]]; [done..|].
  rewrite Forall_forall in Hk. apply mmap_inv in E as (r0 & E & ->).
  destruct (Hk _ Hh) as [Hget|Hapi].
  { cbn [fst] in Hget. rewrite Hget in Hs. vm_compute in Hs. discriminate. }
  set (a := mk_Args captures (h_path h) (h_query h) req) in E. destruct (Hapi a) as [rq Hrq]. cbn [snd] in Hrq.
  rewrite Hrq in E. cbn [endpoint_handle] in E. unfold api_route_handle in E.
  assert (no_key (in_headers (a_req a)) (w_db w)) as Hn.
  { intros t id row Ht. subst a. cbn [a_req] in Ht. rewrite Hb in Ht. discriminate. }
  assert (forall x, x ∈ [unauthorized; internal] ->
    turned_away (if bool_decide (in_method req = lit "HEAD") then without_body (api_finish (Err x)) else api_finish (Err x)))
    as Hx.
  { intros x Hx. apply turned_away_api in Hx. case_bool_decide; [by apply turned_away_without_body|done]. }
  apply mbind_inv in E as [[E _]|(u & w1 & E1 & E)].
  { by apply ApiUser_none in E as [_ [[=]|[=]]]. }
  apply ApiUser_none in E1 as [D Hu]; [|exact Hn].
  assert (forall x, (Done (api_finish (Err x)), w1) = (r0, w') -> x ∈ [unauthorized; internal] ->
    w_db w' = w_db w /\ exists resp, match r0 with
      | Done resp => Done (if bool_decide (in_method req = lit "HEAD") then without_body resp else resp)
      | Panic => Panic end = Done resp /\ turned_away resp) as Hdone.
  { intros x Ex Hin. injection Ex as <- <-. split; [exact D|]. eexists. split; [reflexivity|]. exact (Hx x Hin). }
  destruct Hu as [[= ->]|[= ->]]; (eapply Hdone; [exact E|]); [left|right; left].
Qed.

(** C6: a forged request achieves nothing, whatever session its cookies carry. Take any request
    with another method, not routed to a ping, that has no bearer token, and whose CSRF
    token (in the header or the form) is neither the one of the session of its cookie nor
    that of a session still to be opened. Nothing but sessions, a user the gateway names for
    the first time, and the stamps of keys changes, the audit log included; and if it is
    answered, then by a bare refusal, a redirect to the login page or the API's error. This
    is of the whole application: a web route that mutates is behind the guard, and every
    other that does wants a key. *)
Theorem forged_requests_refused config h e w r w' :
  readable (in_headers (h_in h)) -> (forall n, plain (env_uuid e n) = true) -> log_sequenced (w_db w) ->
  is_safe_method (in_method (h_in h)) = false -> forged config e (h_in h) ->
  app config h e w = (r, w') ->
  match matched_path (h_path h) with
  | Some pat => pat ∉ PING_PATTERNS ->
                looked false (w_db w) (w_db w') /\ forall resp, r = Done resp -> turned_away resp
  | None => w_db w' = w_db w
  end.
Proof.
  intros Hread Huuid Hseq Hs Hf E. apply app_layers_core in E as (r0 & E & Hpanic & Hc). unfold matched_path.
  destruct (route_of (h_path h)) as [[route captures]|] eqn:Er; [|by injection E as _ <-].
  change ((rt_pattern ∘ fst) <$> Some (route, captures)) with (Some (rt_pattern route)). cbv beta iota.
  intros Hp. assert (route ∈ all_routes) as Hr by (by eapply find_route_elem).
  assert (looked false (w_db w) (w_db w') /\ forall resp, r0 = Done resp -> turned_away resp) as [L Ht].
  2: { split; [exact L|]. intros resp Hresp. destruct r0 as [resp0|]; rewrite ?Hresp in Hc.
       - destruct (Hc resp0 eq_refl) as (resp' & [= <-] & Hcore). symmetry in Hcore.
         exact (turned_away_core _ _ Hcore (Ht resp0 eq_refl)).
       - rewrite Hpanic in Hresp by done. done. }
  destruct (web_or_not (rt_mount route)) as [Em|Em].
  - rewrite Em in E. apply forged_refused in E as [[L _] H403]; [|done..]. split; [exact L|].
    intros resp ->. left. rewrite (H403 resp eq_refl). right. left.
  - apply mount_layers_only in E as (r1 & E & Hc1); [|exact Em].
    apply unsafe_without_key in E as [D (resp1 & -> & Ht)]; [|done..|apply Hf].
    split; [by rewrite D|]. intros resp ->. destruct (Hc1 resp1 eq_refl) as (resp' & [= <-] & Hcore).
    symmetry in Hcore. exact (turned_away_core _ _ Hcore Ht).
Qed.
End handlers.

(** ** Witnesses *)

#[local] Existing Instances SampleChrono.sample_chrono SampleChrono.sample_chrono_laws.
#[local] Existing Instances SampleChrono.sample_cron SampleCrypto.sample_crypto SampleCrypto.sample_crypto_laws.
#[local] Existing Instances SamplePageText.sample_page_text SampleJson.sample_deps SampleJson.sample_json.
#[local] Existing Instances SampleWeb.sample_ip_text SampleWeb.sample_argon2 SampleWeb.sample_form_url.
#[local] Existing Instances SampleCookies.sample_cookies SampleCookies.sample_cookies_laws sample_hash_order.
#[local] Existing Instances SampleHttp.sample_extract SampleHttp.sample_embedded SampleHttp.sample_api_text.

(** The first user is signed in, and the browser sends the cookie of the session. *)
Definition signed_in_db : Db :=
  w_db (create_session (mk_NewSession (lit "sid") 1 (hours 24) None None false) 0
          (calm_env 0) (world_of web_db)).2.
Definition session_header : str * option str :=
  (lit "Cookie", Some (SESSION_COOKIE_HOST_PREFIXED ++ lit "=" ++ sign_session [] (lit "sid"))).
Definition deletion (headers : HeaderMap) : Http :=
  mk_Http (lit "/projects/1/delete") (Some (lit "confirmed=1"))
    (mk_Incoming (lit "POST") (session_header :: headers) (Some []) None).
Definition project_page : Http :=
  mk_Http (lit "/projects/1") None (mk_Incoming (lit "GET") [session_header] (Some []) None).

(** With the token of the session the project is deleted. *)
Example meant_deletion :
  let '(r, w) := app sample_config (deletion [(lit "X-CSRF-Token", Some (derive_csrf [] (lit "sid")))])
                   (calm_env 0) (world_of signed_in_db) in
  (match r with Done resp => rs_status resp | Panic => 0 end, t_rows (projects (w_db w)) !! 1) = (303, None).
Proof. vm_compute. reflexivity. Qed.

Lemma signed_in_sequenced : log_sequenced signed_in_db.
Proof.
  split.
  - intros i [r Hr]. apply elem_of_map_to_list in Hr.
    assert (map fst (map_to_list (t_rows (users signed_in_db))) = [2; 1]) as Hl by (vm_compute; reflexivity).
    apply (list_elem_of_fmap_2 fst) in Hr. change (fst <$> ?l) with (map fst l) in Hr. rewrite Hl in Hr.
    assert (t_seq (users signed_in_db) = 2) as -> by (vm_compute; reflexivity).
    cbn [fst] in Hr. set_unfold in Hr. lia.
  - assert (t_rows (audit_log signed_in_db) = ∅) as -> by (vm_compute; reflexivity).
    intros i [r Hr]. by rewrite lookup_empty in Hr.
Qed.

Lemma safe_methods_only_look_witness :
  exists resp w', app sample_config project_page (calm_env 0) (world_of signed_in_db) = (Done resp, w') /\
    rs_status resp = 200 /\ looked false signed_in_db (w_db w').
Proof.
  destruct (app sample_config project_page (calm_env 0) (world_of signed_in_db)) as [r w'] eqn:E.
  assert (match r with Done resp => rs_status resp | Panic => 0 end = 200) as N.
  { apply (f_equal fst) in E. cbn [fst] in E. rewrite <- E. vm_compute. reflexivity. }
  destruct r as [resp|]; [|discriminate N]. exists resp, w'. split; [reflexivity|]. split; [exact N|].
  pose proof (safe_methods_only_look sample_config project_page (calm_env 0) (world_of signed_in_db) (Done resp) w'
    ltac:(vm_compute; reflexivity) ltac:(rewrite world_of_db; exact signed_in_sequenced) E) as L.
  assert (matched_path (h_path project_page) = Some (lit "/projects/{id}")) as M by (vm_compute; reflexivity).
  rewrite M, world_of_db in L. apply L. apply (bool_decide_eq_false_1 _). vm_compute. reflexivity.
Defined.

(** Without it nothing happens. *)
Lemma forged_requests_refused_witness :
  exists resp w', app sample_config (deletion []) (calm_env 0) (world_of signed_in_db) = (Done resp, w') /\
    rs_status resp = 403 /\ is_Some (t_rows (projects signed_in_db) !! 1) /\
    looked false signed_in_db (w_db w').
Proof.
  destruct (app sample_config (deletion []) (calm_env 0) (world_of signed_in_db)) as [r w'] eqn:E.
  assert (match r with Done resp => rs_status resp | Panic => 0 end = 403) as N.
  { apply (f_equal fst) in E. cbn [fst] in E. rewrite <- E. vm_compute. reflexivity. }
  destruct r as [resp|]; [|discriminate N]. exists resp, w'. split; [reflexivity|]. split; [exact N|].
  split; [apply (bool_decide_eq_true_1 _); vm_compute; reflexivity|].
  assert (forall id, ~ carries_token sample_config (h_in (deletion [])) id) as Hno.
  { intros id (t & Ht & _). vm_compute in Ht. discriminate Ht. }
  pose proof (forged_requests_refused sample_config (deletion []) (calm_env 0) (world_of signed_in_db) (Done resp) w') as L.
  assert (matched_path (h_path (deletion [])) = Some (lit "/projects/{id}/delete")) as M by (vm_compute; reflexivity).
  rewrite M, world_of_db in L. apply L.
  - intros n v Hv%list_elem_of_singleton. injection Hv as -> ->. vm_compute. reflexivity.
  - intros n. apply calm_env_plain.
  - exact signed_in_sequenced.
  - vm_compute. reflexivity.
  - split; [vm_compute; reflexivity|]. split; [intros id _; apply Hno|intros n; apply Hno].
  - exact E.
  - apply (bool_decide_eq_false_1 _). vm_compute. reflexivity.
Defined.
