(* ===== verification/PingUrl.v ===== *)
(** * PingUrl: the URL a check's page shows is the one that pings it

    The page of a check prints [ping_url]; jobs append [/fail], [/start], [/log] or an exit
    code to it, as the README says. Each of these addresses is followed through
    [Router.app] to the handlers of [Ping]. *)
From S2P Require Import Prelude Text Models Config Wire Secret Chrono Auth Db Rows Store Sample Notify Channels Errors Access Templates Web Middleware Assets Listing Owner Pages Scheduler Router Perimeter Links.
From S2P Require Ping.
#[local] Open Scope Z_scope.
#[local] Open Scope pw_scope.

(** The text of a UUID, as [Uuid::to_string] writes it. *)
Definition uuid_char (c : char) : bool :=
  is_ascii_digit c || ((97 <=? c) && (c <=? 102)) || (c =? chr "-").
Definition uuid_text (u : str) : Prop := length u = 36%nat /\ forallb uuid_char u = true.

(** What a job appends to the URL, and what it means. *)
Definition ping_suffix (kind : Ping.PingRoute) : str :=
  match kind with
  | Ping.PR_Success => []
  | Ping.PR_Fail => lit "/fail"
  | Ping.PR_Start => lit "/start"
  | Ping.PR_Log => lit "/log"
  | Ping.PR_Exitcode code => lit "/" ++ show_Z code
  end.
Definition code_ok (kind : Ping.PingRoute) : bool :=
  match kind with Ping.PR_Exitcode code => in_i64 code | _ => true end.
Definition ping_path (u : str) (kind : Ping.PingRoute) : str := lit "/ping/" ++ u ++ ping_suffix kind.

Lemma uuid_plain u : uuid_text u -> plain u = true.
Proof.
  intros [_ Hu]. rewrite forallb_forall in Hu. apply forallb_forall. intros c Hc%Hu.
  unfold uuid_char in Hc. unfold plain_char. unfold is_ascii_digit in *. vm_compute (chr "-") in Hc.
  destruct (c =? 45) eqn:E; [apply Z.eqb_eq in E as ->; reflexivity|]. lia.
Qed.

Lemma plain_shape (sh : Shape) :
  Forall (fun s => plain (default [] s) = true) sh ->
  forallb (fun s => match s with Some s => plain s | None => true end) sh = true.
Proof.
  intros Hsh. apply forallb_forall. intros o Ho%list_elem_of_In. rewrite Forall_forall in Hsh.
  apply Hsh in Ho. by destruct o.
Qed.

Section urls.
Context `{ChronoLaws} `{!Cron} `{CryptoLaws} `{PageText} `{NotifyDeps} `{HashOrder} `{!JsonText} `{IpText} `{Argon2}.
Context `{FormUrl} `{CookieParseLaws} `{ExtractLaws} `{Embedded} `{ApiText}.

Lemma hole_uuid u : uuid_text u -> hole u.
Proof.
  intros Hu. apply (hole_of (fun s => negb (length s =? 36)%nat)).
  - by apply uuid_plain.
  - intros ->. by destruct Hu.
  - by rewrite (proj1 Hu).
  - vm_compute. reflexivity.
Qed.

Lemma path_str_plain s a : plain s = true -> a_captures a !! 0%nat = Some s -> path_str a = Ok s.
Proof.
  intros Hp Ha. unfold path_str, capture. rewrite Ha. cbn. unfold parse_segment.
  by rewrite percent_decode_plain.
Qed.

Lemma ping_route_reached t sh j p c pattern h path q method req rq :
  hole t -> sh <> [] -> forallb (fun s => match s with Some s => plain s | None => true end) sh = true ->
  path = join (lit "/") (fill t sh) ->
  find_shape patterns sh = Some ((S (length web_routes) + j)%nat, p, c) ->
  ping_routes !! j = Some (pattern, on_get h ++ on_post h) ->
  method ∈ [lit "GET"; lit "POST"; lit "HEAD"] ->
  h (mk_Args (fill t c) path q req) = Ok rq ->
  exists route captures handler, route_of path = Some (route, captures) /\ rt_mount route = M_Plain /\
    method_handler (rt_handlers route) method = Some handler /\
    handler (mk_Args captures path q req) = E_Ping (Ok rq).
Proof.
  intros Hh Hne Hsh -> Hf Hj Hm Hrq.
  assert (all_routes !! (S (length web_routes) + j)%nat =
          Some (mounted M_Plain E_Ping (pattern, on_get h ++ on_post h))) as Hr.
  { change (S (length web_routes) + j)%nat with (S (length web_routes + j)). unfold all_routes.
    rewrite lookup_cons. cbv beta iota. rewrite lookup_app_r by (rewrite length_map; lia). rewrite length_map.
    replace (length web_routes + j - length web_routes)%nat with j by lia.
    apply lookup_app_l_Some. rewrite list_lookup_fmap. by rewrite Hj. }
  eexists _, _, _. split; [by eapply route_of_shape|]. split; [done|].
  cbn [rt_handlers mounted snd]. rewrite method_handler_mounted.
  apply elem_of_cons in Hm as [->|[->|[->|Hm]%elem_of_cons]%elem_of_cons]; [| | |by apply elem_of_nil in Hm];
    (split; [reflexivity|by rewrite <- Hrq]).
Qed.

(** One address: the hole, the shape, the place of its route among [ping_routes]. *)
Ltac ping_reached t sh j Hhole Hplain Hm :=
  eapply (ping_route_reached t sh j);
    [exact Hhole|discriminate|apply plain_shape; repeat constructor; exact Hplain
    |unfold ping_path; cbn [ping_suffix]; rewrite ?app_nil_r; reflexivity
    |vm_compute; reflexivity|reflexivity|exact Hm
    |unfold pinged, pinged_code; erewrite path_str_plain by (exact Hplain || reflexivity)].

(** The address reaches the ping it stands for. *)
Lemma ping_path_routed u kind q method req :
  uuid_text u -> code_ok kind = true -> method ∈ [lit "GET"; lit "POST"; lit "HEAD"] ->
  exists route captures handler, route_of (ping_path u kind) = Some (route, captures) /\
    rt_mount route = M_Plain /\ method_handler (rt_handlers route) method = Some handler /\
    handler (mk_Args captures (ping_path u kind) q req) = E_Ping (Ok (u, kind)).
Proof.
  intros Hu Hc Hm. pose proof (uuid_plain u Hu) as Hplain. pose proof (hole_uuid u Hu) as Hhole.
  destruct kind as [| | | |code].
  - ping_reached u [Some []; Some (lit "ping"); None] 0%nat Hhole Hplain Hm. done.
  - ping_reached u [Some []; Some (lit "ping"); None; Some (lit "fail")] 1%nat Hhole Hplain Hm. done.
  - ping_reached u [Some []; Some (lit "ping"); None; Some (lit "start")] 2%nat Hhole Hplain Hm. done.
  - ping_reached u [Some []; Some (lit "ping"); None; Some (lit "log")] 3%nat Hhole Hplain Hm. done.
  - pose proof (hole_number code) as Hcode. destruct u as [|u0 u']; [by destruct Hu|].
    ping_reached (show_Z code) [Some []; Some (lit "ping"); Some (u0 :: u'); None] 4%nat Hcode Hplain Hm.
    cbn. unfold parse_segment, capture. cbn [a_captures].
    rewrite percent_decode_plain by apply plain_show_Z. cbn. by rewrite parse_i64_show by by apply in_i64_spec.
Qed.

(** The request the handlers of [Ping] make of an address. *)
Definition ping_of (u : str) (kind : Ping.PingRoute) (conn : option str) (body : list Z) : Ping.PingRequest :=
  match kind with
  | Ping.PR_Success => Ping.mk_PingRequest u PK_Success None body conn
  | Ping.PR_Fail => Ping.mk_PingRequest u PK_Fail None body conn
  | Ping.PR_Start => Ping.mk_PingRequest u PK_Start None body conn
  | Ping.PR_Log => Ping.mk_PingRequest u PK_Log None body conn
  | Ping.PR_Exitcode code =>
      Ping.mk_PingRequest u (if code =? 0 then PK_Success else PK_Fail) (Some code) body conn
  end.

Lemma ping_of_handle config u kind conn body :
  Ping.handle config (u, kind) conn body = Ping.apply config (ping_of u kind conn body).
Proof. by destruct kind. Qed.
Lemma ping_of_uuid u kind conn body : Ping.pq_uuid (ping_of u kind conn body) = u.
Proof. by destruct kind. Qed.
Lemma ping_of_kind u kind conn body : Ping.pq_kind (ping_of u kind conn body) <> PK_Exitcode.
Proof. destruct kind; try done. cbn. by destruct (_ =? 0). Qed.

(** The check whose row bears the UUID is the one it resolves to. *)
Lemma stored_uuid d c row :
  t_rows (checks d) !! c_id c = Some row -> row_to_check (c_id c, row) = Ok c ->
  Ping.unique_uuid d (c_ping_uuid c) ->
  Ping.lookup_uuid d (c_ping_uuid c) = Ok (Some c).
Proof.
  intros Hr Hc Hu. assert (cr_ping_uuid row = c_ping_uuid c) as Eu.
  { cbn in Hc. apply res_bind_ok in Hc as (k & _ & Hc). apply res_bind_ok in Hc as (s & _ & Hc).
    apply res_bind_ok in Hc as (t & _ & [= <-]). done. }
  unfold Ping.lookup_uuid. rewrite (find_row_unique _ _ (c_id c) row); [|done| |].
  - unfold transpose. by rewrite Hc.
  - by apply bool_decide_eq_true_2.
  - intros j s Hj Hs. apply bool_decide_eq_true_1 in Hs. by apply (Hu j (c_id c) s row).
Qed.

(** Of a route outside the layers, the application answers with the handler's status. *)
Lemma app_ping config path q req route captures handler rq body e w r0 w' :
  route_of path = Some (route, captures) -> rt_mount route = M_Plain ->
  method_handler (rt_handlers route) (in_method req) = Some handler ->
  handler (mk_Args captures path q req) = E_Ping (Ok rq) ->
  from_body (in_headers req) (in_bytes req) = Ok body ->
  Ping.handle config rq (conn_of config req) body e w = (Done r0, w') ->
  exists resp, app config (mk_Http path q req) e w = (Done resp, w') /\
    rs_status resp = match r0 with Ok s => s | Err x => (into_response x).1 end.
Proof.
  intros Hroute Hm Hh Hrq Hbody E. destruct (app _ _ e w) as [r w1] eqn:Ea.
  apply app_layers_core in Ea as (r1 & Er & _ & Hc). cbn [h_path h_in] in Er.
  rewrite Hroute, Hm in Er. cbn [mount_layers] in Er. unfold route_handle in Er. rewrite Hh in Er.
  cbn [h_path h_query] in Er. rewrite Hrq in Er. apply mmap_inv in Er as (r2 & Er & ->).
  cbn [endpoint_handle] in Er. unfold ping_handle, body_form in Er. cbn [a_req] in Er.
  rewrite Hbody, (mbind_Done _ _ _ _ _ _ E) in Er. injection Er as <- <-.
  destruct (Hc _ eq_refl) as (resp & -> & Hcore). exists resp. split; [done|].
  apply (f_equal (fun p => p.1.1)) in Hcore. cbn in Hcore. rewrite Hcore.
  destruct r0 as [s|x]; cbn; [by destruct (bool_decide _)|].
  destruct (into_response x) as [s b]. by destruct (bool_decide _).
Qed.

(** C8: the URL on the page of a check pings that check and no other. Take a stored check whose
    UUID, of the 36 characters of one, no other row has. What its page shows, with [/fail],
    [/start], [/log] or an exit code in [i64] (or nothing) appended, is the base URL followed
    by a path; and a GET, POST or HEAD for that path, through the route table, the
    extractors and the layers, with any query and headers and any body that can be read, is
    answered 200 exactly with the effect of that kind of ping on this check (its record,
    its new row, its alert), zero counting as success and any other code as failure. The
    only other answer is 404 or 500 because a statement failed, without an alert. *)
Theorem ping_url_pings config c row kind q req body next e w :
  t_rows (checks (w_db w)) !! c_id c = Some row -> row_to_check (c_id c, row) = Ok c ->
  Ping.unique_uuid (w_db w) (c_ping_uuid c) -> uuid_text (c_ping_uuid c) ->
  code_ok kind = true -> in_method req ∈ [lit "GET"; lit "POST"; lit "HEAD"] ->
  from_body (in_headers req) (in_bytes req) = Ok body ->
  let ping := ping_of (c_ping_uuid c) kind (conn_of config req) body in
  let now := env_now e (w_reads w) in
  (Ping.pq_kind ping = PK_Success -> c_status c <> CS_Paused ->
   due_time (Ping.with_last_ping now c) = Done next) ->
  ping_url config c ++ ping_suffix kind =
    trim_end_matches (fun c => c =? chr "/") (cf_base_url config) ++ ping_path (c_ping_uuid c) kind /\
  exists resp w', app config (mk_Http (ping_path (c_ping_uuid c) kind) q req) e w = (Done resp, w') /\
    ((rs_status resp = 200 /\ w_db w' = Ping.ping_db ping c now next (w_db w) /\
      w_tasks w' = w_tasks w ++ Ping.alert_tasks config c now (Ping.ping_alert ping c)) \/
     (rs_status resp ∈ [404; 500] /\ ~ calm e /\ w_tasks w' = w_tasks w)).
Proof.
  intros Hr Hc Hu Ht Hk Hm Hb ping now Hdue. split.
  { unfold ping_url, ping_path. by rewrite <- !(assoc_L (++)). }
  pose proof (stored_uuid _ _ _ Hr Hc Hu) as Hl.
  rewrite <- (ping_of_uuid (c_ping_uuid c) kind (conn_of config req) body) in Hl.
  destruct (Ping.apply_effect config ping e w c next Hl (ping_of_kind _ _ _ _) Hdue) as (r & w' & E & Hw).
  unfold ping in E. rewrite <- ping_of_handle in E.
  destruct (ping_path_routed (c_ping_uuid c) kind q _ req Ht Hk Hm) as (route & cs & h & Hroute & Hmt & Hh & Hrq).
  destruct (app_ping config _ q req _ _ _ _ body e w r w' Hroute Hmt Hh Hrq Hb E) as (resp & Ea & Hs).
  exists resp, w'. split; [exact Ea|]. destruct Hw as [(-> & D & T & _)|(Hf & Hn & T & _)]; [by left|right].
  split; [|done]. rewrite Hs. destruct r as [|x]; [done|].
  destruct x; [left|right; left|right; left].
Qed.
End urls.

(** ** A witness *)

#[local] Existing Instances SampleChrono.sample_chrono SampleChrono.sample_chrono_laws.
#[local] Existing Instances SampleChrono.sample_cron SampleCrypto.sample_crypto SampleCrypto.sample_crypto_laws.
#[local] Existing Instances SamplePageText.sample_page_text SampleJson.sample_deps SampleJson.sample_json.
#[local] Existing Instances SampleWeb.sample_ip_text SampleWeb.sample_argon2 SampleWeb.sample_form_url.
#[local] Existing Instances SampleCookies.sample_cookies SampleCookies.sample_cookies_laws sample_hash_order.
#[local] Existing Instances SampleHttp.sample_extract SampleHttp.sample_extract_laws SampleHttp.sample_embedded.
#[local] Existing Instance SampleHttp.sample_api_text.

Definition sample_uuid : str := lit "7d0e8c52-3b1f-4a96-8f0e-2c5d9a4b6e13".
Definition uuid_db : Db :=
  w_db (mbind (create_user (lit "ann") None true 0) (fun _ =>
    mbind (create_project 1 (mk_ProjectSettings (lit "p") [] None None) 0) (fun _ =>
      create_check (sample_check (lit "backup") sample_uuid))) (calm_env 0) (world_of empty_db)).2.

(** A job that ended with exit code 3, over [curl "$URL/3"]. *)
Definition exit_3 : Incoming := mk_Incoming (lit "GET") [] (Some []) None.

Lemma ping_url_pings_witness :
  exists c resp w', Ping.lookup_uuid uuid_db sample_uuid = Ok (Some c) /\
    ping_url sample_config c ++ lit "/3" =
      lit "https://p.example/ping/7d0e8c52-3b1f-4a96-8f0e-2c5d9a4b6e13/3" /\
    app sample_config (mk_Http (lit "/ping/7d0e8c52-3b1f-4a96-8f0e-2c5d9a4b6e13/3") None exit_3)
      (calm_env ns) (world_of uuid_db) = (Done resp, w') /\
    rs_status resp = 200 /\ map task_event (w_tasks w') = [EK_Down].
Proof.
  destruct (Ping.lookup_uuid uuid_db sample_uuid) as [[c|]|] eqn:El;
    [|vm_compute in El; discriminate|vm_compute in El; discriminate].
  destruct (Ping.lookup_uuid_row _ _ _ El) as (row & Hr & Hu & Hc).
  assert (c_ping_uuid c = sample_uuid) as Ec by (vm_compute in El; injection El as <-; reflexivity).
  destruct (ping_url_pings sample_config c row (Ping.PR_Exitcode 3) None exit_3 [] None (calm_env ns)
    (world_of uuid_db)) as (Eu & resp & w' & Ea & Hw).
  - exact Hr.
  - exact Hc.
  - apply (Ping.only_check_unique _ _ 1). vm_compute. reflexivity.
  - rewrite Ec. split; vm_compute; reflexivity.
  - reflexivity.
  - left.
  - reflexivity.
  - discriminate.
  - exists c, resp, w'. rewrite Ec in Ea, Eu. split; [reflexivity|].
    split; [etransitivity; [exact Eu|vm_compute; reflexivity]|]. split; [exact Ea|].
    destruct Hw as [(Hs & _ & T)|(_ & Hn & _)]; [|destruct (Hn (calm_env_calm ns))].
    split; [exact Hs|]. rewrite T. vm_compute in El. injection El as <-. vm_compute. reflexivity.
Defined.
